(* ===== verification/_CoqProject ===== *)
-Q . S2P
Prelude.v
GoStrings.v
GoFloat.v
Regexp.v
GoValue.v
Actions.v
Policy.v
Topology.v
Lifecycle.v
Json.v
Marshal.v
Sha256.v
Ledger.v
Types.v
Evidence.v
Correlation.v
RCA.v
Database.v
AuditLog.v
Store.v
Progress.v
Observations.v
Ingestion.v
Http.v
Reports.v
Executors.v
Approvals.v
Dispatch.v
Remediation.v
Helios.v
Workers.v
Auth.v
Transports.v
Requests.v
Times.v
DeadLetters.v
Wire.v
Api.v
Backends.v
Migrations.v
Lint.v
Config.v
Metrics.v
Gauge.v
System.v
Pool.v
Startup.v
Process.v
Cli.v
Injector.v
Demo.v
