(* ===== verification/Prelude.v ===== *)
(** * Argus: a verification development

    Argus is a control plane for incident remediation. Alerts become incidents;
    a rule table and probes of the monitoring backends explain them; typed
    remediations are proposed, judged by a policy, approved by a person, put in
    an outbox, published to a message stream and run by workers; everything that
    matters is written to a hash-chained audit ledger. This library models the Go
    packages under src/internal, src/migrations and src/cmd that decide these things, and
    the demo services they watch, definition by definition, and proves what makes them correct. Names follow the
    sources.

    ** The parts, and the files that model them

    Shared ground:
    - [Prelude]: errors ([sentinel] is what [errors.Is] tests), the [result]
      type, notations, tactics, hint databases, lemmas on lists, maps and strings.
    - [GoStrings], [GoFloat], [GoValue], [Regexp], [Json], [Marshal], [Sha256]:
      what the sources use of Go's standard library. Strings are byte strings;
      [float64] is binary64 on [SpecFloat] with every operation rounded;
      [any] is the inductive [value]; the anchored regular expressions are
      decided by derivatives and agree with their language; JSON decoding (with
      [UseNumber]) and encoding are executable; SHA-256 computes.
    - [Types], [Database]: the records of incidents/types.go, the tables as maps
      from keys to rows, and the monad [M] in which every handler runs. A
      computation takes an environment [env] and a [world] (tables, event counter,
      published messages) and returns a [result] with the next world.

    Decisions without state:
    - [Actions] (actions/catalog.go): the typed actions and their validation.
    - [Policy] (policy/engine.go): [Evaluate], guard by guard in the code's order.
    - [Topology] (topology/graph.go): breadth-first [Path], [Groups], [pickRoot].
    - [Lifecycle] (remediation/states.go, incidents/service.go): the two tables of
      allowed transitions, as step relations.
    - [Evidence] (evidence/evidence.go): query rendering, [Check] of a probe.
    - [Correlation] (correlation/rules.go, correlator.go): the rules, their
      validation, template rendering, matching.
    - [RCA] (rca/service.go): scoring of hypotheses, source caps, candidates,
      topology adjustments.
    - [Ledger] (audit/chain.go): canonical JSON, the hash of a row, verification,
      migration of old rows.

    Operations on the tables:
    - [AuditLog] (audit/service.go): appending to the ledger and verifying it, and
      [sealed], what every ledger of the system looks like.
    - [Store], [Observations] (incidents/store.go): statements with their WHERE guards
      and unique keys.
    - [Ingestion] (incidents/service.go): a delivery of alerts from normalising to
      the incidents it resolves, opens, promotes or joins, in one transaction.
    - [Reports] (rca/service.go): generating reports, reusing one, advice.
    - [Approvals] (approvals/store.go, service.go): request, decide, cancel,
      escalate, expire.
    - [Executors], [Remediation] (remediation/executor.go, service.go): propose,
      approve, reject, cancel, execute, with an executor behind a type class; the
      Helios client with its polling.
    - [Dispatch] (remediation/dispatch.go): the transactional outbox and the
      reconciler of stuck jobs. [Helios] (helios_reconcile.go): the one for Helios.
    - [Workers] (workers): claiming a message, running a handler under its
      timeout, outcomes, retries, control-state receipts, heartbeats.
    - [Progress]: the two relations between earlier and later tables
      ([progress], [steady]) and the invariant [authority] that the operations are
      proved against, and the hint database [guar] that composes those proofs.

    At the edges:
    - [Http], [Requests], [Times]: exchanges with other services, bodies and their
      decoding, instants as text and back.
    - [Auth] (auth/auth.go): tokens, roles, permissions. [Transports] (approvals/
      notifier.go, slack.go): notifications, signed callbacks.
    - [DeadLetters], [Wire] (queue): streams, dead letters, the bytes of a job.
    - [Api] (api): body limits, authentication, routes, every handler.
    - [Backends] (evidence/http.go): queries to Prometheus and Loki.
    - [Config] (config/config.go), [Migrations] (db/db.go, migrations), [Lint]
      (migrations/lint.go).
    - [Metrics] (telemetry/metrics.go): the collectors and the samples given at each
      place that counts. [Gauge] (approvals/service.go): the approval service again, with
      its samples, next to the rows they count.

    Composition:
    - [System]: the operations as steps of one transition system on the tables.
    - [Pool] (workers/runner.go, [Start]): the intake loop of a worker as a step
      relation over its slots, refining [System].
    - [Startup] (api.New, cmd/argus-api, cmd/argus-worker): what the processes do until
      they serve, and the deployment they form together.
    - [Process] (api/server.go, dispatch.go, helios_reconcile.go, approvals/service.go,
      rca/service.go): the background loops of a running API, its summaries, and [Close],
      as a step relation over [System].
    - [Cli] (cmd/argus-cli), [Injector] (cmd/failure-injector): the clients, against [Api].
    - [Demo] (demo/services): the payments service that is broken and watched, with its
      concurrent requests, metrics page and log shipping, against a full log.

    ** What the theorems show

    - Authority ([System], [Approvals], [Policy], [Actions]): in every reachable
      state a remediation that was approved, queued or run either only collects
      diagnostics or was granted, for exactly its action, target and parameters,
      by a named person other than its proposer; [Decide] succeeds only under
      its rules and otherwise changes nothing but an expiry; [Evaluate] allows
      exactly under the listed conditions.
    - History ([System], [Lifecycle], [Ledger], [AuditLog]): rows are kept, statuses
      follow the tables, decisions are final, the ledger of an earlier state is a
      prefix of every later one; in every reachable state the ledger is the chain
      of sealed entries that ends in its head, whichever calls failed; two ledgers
      that verify against one head hold the same entries unless two of their hashed
      texts collide; verification decides validity; migration produces a valid chain.
    - Execution ([Remediation], [Dispatch], [Workers], [Helios], [Pool], [Wire]): [Execute]
      commits the reservation, the outbox job and the audit entry together or not at
      all; a job leaves the outbox only after the stream accepted it and is read by a
      worker as it was written; redispatch and retry are bounded; an action is applied
      to the control state once per idempotency key; a message is acknowledged only when
      its remediation is neither queued nor running; a worker never holds more jobs
      than it has slots, runs each it took once, and comes to rest when stopped; the
      Helios reconciler follows what Helios reports.
    - Access ([Api], [Auth], [Transports], [Cli]): tables change only for an authenticated
      principal with the permission of the route, or by a signed and fresh Slack
      callback of a configured approver; [viewer_approves_with_slash] shows the one
      way around it, a decision posted with a slash after its path; each command of
      the command line does the operation it stands for, for those who may.
    - Alerts ([Ingestion], [Topology], [Observations]): every firing alert ends up on an open
      incident; groups partition the alerting services; an incident is opened only
      when no related one is open; references stay sound.
    - Diagnosis ([Topology], [Evidence], [Backends], [Correlation], [RCA]): paths are shortest
      dependency paths, and absent only when there is none; a rendered query is its
      template with a safe service name put in; a sample is the number the backend
      answered; the confidence of a hypothesis never exceeds what its sources allow;
      candidates are catalog actions that pass validation.
    - Operation ([Config], [Migrations], [Lint], [Startup]): accepted settings never call a
      job stale that a worker may still run; migrations are numbered files, applied
      whole and in order, or only checked; what starts is a sound deployment.
    - Observation and shutdown ([Metrics], [Gauge], [Process], [Demo]): no sample makes the
      Prometheus client panic; the gauge of pending approvals follows its rows until a
      decision comes late or a sweep fails, and is never below them; a closing process
      changes nothing through a cancelled loop and comes to rest; the demo service's
      pages are those of its log, except that its latency histogram stops counting
      ([latency_counters_stop]); its log lines are posted once.

    ** Modelling choices

    - Times are integers, nanoseconds since the epoch, and are stored in full
      precision. Durations of the settings are 64-bit with wrap-around ([add64]);
      other integers of Go here are counters and times far from their bounds
      and are unbounded; SHA-256 words are reduced modulo [2 ^ 32].
    - Every statement and commit can fail: [e_fault] of the environment says
      which, and theorems hold for every environment. A transaction restores the
      tables when its body or commit fails; messages already published stay
      published. Fresh identifiers, the clock, whether the stream accepts a
      message, whether a notification is delivered, which rows SKIP LOCKED passes
      over, whether the advisory lock is free, and whether a handler outlives its
      deadline are fields of the environment too.
    - Handlers run one whole call at a time, in any order. Inside a call the
      guards of the conditional updates are what protects the code from
      interleaving, and they are part of the model; a handler that outlives its
      deadline is a step of its own ([step_late_job]). In [Pool] the handling of a job
      is one step, interleaved with those of the loop.
    - Rows that an ORDER BY leaves tied keep the order in which they are read.
    - JSON columns come back as decoding gives them: integers of Go lose their
      type ([reread_map]). What a JSONB column does to a text is the parameter
      [e_jsonb]. The texts of decoding errors are approximate; their kinds are not.
    - Letter case is folded in ASCII. Paths reach the routes decoded; the redirect of a
      path that is not clean is an answer of its own.
    - A worker's verdict on a message is [Ack], [Nak] with its delay, or [Term]
      with its reason; [Term] stands for publication to the dead-letter subject,
      which [Wire] spells out, followed by termination.
    - Code outside the sources is a parameter: the monitoring backends
      ([Querier], [QueryClient]), the executor ([Executor], with the law [ExternalExecutor] that
      it does not write the tables), a worker's handlers ([Handler], with
      [HandlerContract]), JetStream ([JetStream], [Consumers]), HTTP clients, the OIDC
      library, the database's verdict on a migration's text ([Backend]), the host of the
      processes ([Host]). The handlers and executors of the sources are
      defined and proved to satisfy these laws.
    - [Startup] keeps the schema and the services' tables of a process side by side,
      as one pair.

    ** Fuel and bounds

    Recursion follows the data, except: breadth-first search has fuel one more
    than the number of services, since each round visits a new one, and
    [Path_shortest_or_absent] shows that running dry never hides a path; the JSON
    parser's fuel is the length of its input, every call consuming a byte; the
    polling loop has the rounds that fit in its timeout, and [polling_ends] shows that
    more change nothing; the scan of dead letters has the bound of the code, ten
    thousand; splitting a migration has its length ([split_fuel_ok]); the
    shortest decimal of a float tries the digit counts up to 17, which
    always suffice for binary64. Loops over rows are folds over the selected rows.

    ** Not modelled

    Logging is output that nothing reads back, and what the Prometheus client makes of a
    sample is its own. The advisory service is a Python program the control plane talks
    to; its answers are parameters. The test helpers support tests. Tickers may fire at
    any time and goroutines appear as interleaved steps; a request that is still going
    when the database is closed is not followed further; connections, listeners and
    signals belong to the runtime and the client libraries, and so does the parsing of
    command-line arguments. What remains outside the map are declarations: imports, SQL
    texts, struct fields that hold clients, and logging. *)
From Stdlib Require Import Ascii String ZArith Lia Sorted Permutation.
From stdpp Require Import base gmap strings list fin_maps sets pretty sorting.

(** ** Notations and scopes *)
Declare Scope go_scope.
Delimit Scope go_scope with go.
Open Scope go_scope.
Open Scope string_scope.
Open Scope list_scope.

(** Go compares strings byte by byte. *)
Notation "a =?s b" := (String.eqb a b) (at level 70, no associativity) : go_scope.
Notation "a <?s b" := (String.ltb a b) (at level 70, no associativity) : go_scope.

(** ** Errors

    A Go [error] value that is not nil: the sentinel it wraps ([errors.Is]
    sees through [%w]) and its text. *)
Inductive sentinel :=
  | KPlain
  | KNoRows
  | KDatabase
  | KApprovalNotFound
  | KAlreadyDecided
  | KExpired
  | KStateChanged
  | KIncidentClosed
  | KIncidentNotFound
  | KNotDispatchable
  | KAIDisabled
  | KDeadLetterNotFound
  | KTooLarge
  | KSchemaNewer
  | KSchemaBehind
  | KMigrationModified
  | KAuthentication (reason : string).

Record error := mkError { err_kind : sentinel; err_text : string }.

#[export] Instance sentinel_eq_dec : EqDecision sentinel.
Proof. solve_decision. Defined.

#[export] Instance error_eq_dec : EqDecision error.
Proof. solve_decision. Defined.

(** [fmt.Errorf] without [%w], and [fmt.Errorf("prefix: %w", err)]. *)
Definition errorf (msg : string) : error := mkError KPlain msg.
Definition wrapf (prefix : string) (e : error) : error :=
  mkError (err_kind e) (prefix +:+ ": " +:+ err_text e).

(** A call that returns [(value, error)]. *)
Inductive result (A : Type) :=
  | Ok (a : A)
  | Fail (e : error).
Arguments Ok {A} a.
Arguments Fail {A} e.

Lemma Ok_inj {A} (a b : A) : Ok a = Ok b -> a = b.
Proof. by intros [=]. Qed.

Definition result_bind {A B} (m : result A) (k : A -> result B) : result B :=
  match m with Ok a => k a | Fail e => Fail e end.

Notation "'let!' x := m 'in' k" := (result_bind m (fun x => k))
  (at level 200, x pattern, m at level 100, k at level 200, right associativity) : go_scope.

Definition is_ok {A} (m : result A) : bool :=
  match m with Ok _ => true | Fail _ => false end.

Lemma result_bind_ok {A B} (m : result A) (k : A -> result B) b :
  result_bind m k = Ok b <-> exists a, m = Ok a /\ k a = Ok b.
Proof. destruct m; simpl; naive_solver. Qed.

(** ** Lists *)

Lemma StronglySorted_mono {A} (R S : A -> A -> Prop) l :
  (forall x y, R x y -> S x y) -> StronglySorted R l -> StronglySorted S l.
Proof.
  intros HRS. induction 1 as [|x l _ IH Hall]; constructor; [done|].
  eapply Forall_impl; [exact Hall|]. auto.
Qed.

Lemma forallb_elem {A} (f : A -> bool) l x : forallb f l = true -> x ∈ l -> f x = true.
Proof. rewrite forallb_forall. intros H Hx. apply H. by apply list_elem_of_In. Qed.

(** ** Booleans and comparisons *)

Lemma eqb_string_true a b : (a =?s b) = true <-> a = b.
Proof. apply String.eqb_eq. Qed.

Lemma eqb_string_false a b : (a =?s b) = false <-> a <> b.
Proof. apply String.eqb_neq. Qed.

Lemma eqb_string_decide a b : (a =?s b) = bool_decide (a = b).
Proof. destruct (String.eqb_spec a b); symmetry; by case_bool_decide. Qed.

(** Case analysis on every boolean test of the goal and the hypotheses, then
    reflection of the string and integer tests that were decided. *)
Ltac reflect_tests :=
  repeat match goal with
  | H : (_ =?s _) = true |- _ => apply eqb_string_true in H
  | H : (_ =?s _) = false |- _ => apply eqb_string_false in H
  | H : (_ && _)%bool = true |- _ => apply andb_true_iff in H as [? ?]
  | H : (_ || _)%bool = false |- _ => apply orb_false_iff in H as [? ?]
  | H : negb _ = true |- _ => apply negb_true_iff in H
  | H : negb _ = false |- _ => apply negb_false_iff in H
  | H : (_ <=? _)%Z = true |- _ => apply Z.leb_le in H
  | H : (_ <=? _)%Z = false |- _ => apply Z.leb_gt in H
  | H : (_ <? _)%Z = true |- _ => apply Z.ltb_lt in H
  | H : (_ <? _)%Z = false |- _ => apply Z.ltb_ge in H
  | H : (_ =? _)%Z = true |- _ => apply Z.eqb_eq in H
  | H : (_ =? _)%Z = false |- _ => apply Z.eqb_neq in H
  | H : bool_decide _ = true |- _ => apply bool_decide_eq_true in H
  | H : bool_decide _ = false |- _ => apply bool_decide_eq_false in H
  end.

Ltac split_tests :=
  repeat match goal with
  | H : context [if ?b then _ else _] |- _ =>
      match type of b with bool => let E := fresh "E" in destruct b eqn:E end
  | |- context [if ?b then _ else _] =>
      match type of b with bool => let E := fresh "E" in destruct b eqn:E end
  end; reflect_tests.

Create HintDb argus discriminated.

(** ** The order on strings *)

Lemma ascii_compare_lt_trans a b c :
  Ascii.compare a b = Lt -> Ascii.compare b c = Lt -> Ascii.compare a c = Lt.
Proof. unfold Ascii.compare. rewrite !N.compare_lt_iff. lia. Qed.

Lemma ascii_compare_refl a : Ascii.compare a a = Eq.
Proof. unfold Ascii.compare. apply N.compare_refl. Qed.

Lemma ascii_compare_eq a b : Ascii.compare a b = Eq <-> a = b.
Proof.
  unfold Ascii.compare. rewrite N.compare_eq_iff. split; [|by intros ->].
  intros H. rewrite <- (ascii_N_embedding a), <- (ascii_N_embedding b). by rewrite H.
Qed.

Lemma string_compare_lt_trans : forall a b c,
  String.compare a b = Lt -> String.compare b c = Lt -> String.compare a c = Lt.
Proof.
  induction a as [|x a IH]; intros [|y b] [|z c]; simpl; try done.
  destruct (Ascii.compare x y) eqn:Exy; try done; destruct (Ascii.compare y z) eqn:Eyz; try done.
  - apply ascii_compare_eq in Exy as ->. rewrite Eyz. apply IH.
  - apply ascii_compare_eq in Exy as ->. by rewrite Eyz.
  - apply ascii_compare_eq in Eyz as <-. by rewrite Exy.
  - by rewrite (ascii_compare_lt_trans x y z).
Qed.

Lemma ltb_compare a b : (a <?s b) = true <-> String.compare a b = Lt.
Proof. unfold String.ltb. by destruct (String.compare a b). Qed.

Lemma string_ltb_trans a b c : (a <?s b) = true -> (b <?s c) = true -> (a <?s c) = true.
Proof. rewrite !ltb_compare. apply string_compare_lt_trans. Qed.

Lemma string_ltb_irrefl a : (a <?s a) = false.
Proof.
  unfold String.ltb. destruct (String.compare a a) eqn:E; try done.
  pose proof (String.compare_antisym a a) as A. rewrite E in A. done.
Qed.

Lemma string_ltb_asym a b : (a <?s b) = true -> (b <?s a) = false.
Proof.
  intros H. destruct (b <?s a) eqn:E; [|done].
  pose proof (string_ltb_trans _ _ _ H E). by rewrite string_ltb_irrefl in *.
Qed.

Lemma string_ltb_total a b : (a <?s b) = false -> (b <?s a) = false -> a = b.
Proof.
  unfold String.ltb. rewrite (String.compare_antisym b a).
  destruct (String.compare a b) eqn:E; simpl; intros; try discriminate.
  by apply String.compare_eq_iff.
Qed.

(** ** Sorting

    [sort.SliceStable], [sort.Strings]: insertion from the right, an element
    stays before the elements it is not greater than. *)
Section stable_sort.
Context {A : Type} (less : A -> A -> bool).

Fixpoint insert_stable (x : A) (l : list A) : list A :=
  match l with
  | [] => [x]
  | y :: r => if less y x then y :: insert_stable x r else x :: l
  end.

Definition sort_stable (l : list A) : list A := foldr insert_stable [] l.

Lemma insert_stable_perm x l : insert_stable x l ≡ₚ x :: l.
Proof.
  induction l as [|y r IH]; simpl; [done|].
  destruct (less y x); [|done]. rewrite IH. apply perm_swap.
Qed.

Lemma sort_stable_perm l : sort_stable l ≡ₚ l.
Proof. induction l as [|x l IH]; simpl; [done|]. by rewrite insert_stable_perm, IH. Qed.

Lemma elem_of_sort_stable x l : x ∈ sort_stable l <-> x ∈ l.
Proof. by rewrite sort_stable_perm. Qed.

Lemma length_sort_stable l : length (sort_stable l) = length l.
Proof. apply Permutation_length, sort_stable_perm. Qed.

(** [nless x y] is "y does not come strictly before x". *)
Definition not_after (x y : A) : Prop := less y x = false.

Hypothesis less_asym : forall x y, less x y = true -> less y x = false.
Hypothesis not_less_trans : forall x y z, less y x = false -> less z y = false -> less z x = false.

Lemma insert_stable_sorted x l :
  StronglySorted not_after l -> StronglySorted not_after (insert_stable x l).
Proof.
  induction 1 as [|y r Hr IH Hall]; simpl; [by repeat constructor|].
  destruct (less y x) eqn:E.
  - constructor; [done|]. rewrite insert_stable_perm. constructor; [|done].
    unfold not_after. by apply less_asym.
  - constructor; [by constructor|]. constructor; [done|].
    eapply Forall_impl; [exact Hall|]. intros z Hz. unfold not_after in *. eauto.
Qed.

Lemma sort_stable_sorted l : StronglySorted not_after (sort_stable l).
Proof. induction l; simpl; [constructor|]. by apply insert_stable_sorted. Qed.

Lemma sort_stable_id l : StronglySorted not_after l -> sort_stable l = l.
Proof.
  induction 1 as [|x r Hr IH Hall]; simpl; [done|]. rewrite IH.
  destruct r as [|y r]; simpl; [done|]. inversion Hall; subst.
  unfold not_after in *. by rewrite H1.
Qed.
End stable_sort.

Definition sort_strings (l : list string) : list string := sort_stable String.ltb l.

Definition str_le (a b : string) : Prop := (b <?s a) = false.

Lemma str_le_trans a b c : str_le a b -> str_le b c -> str_le a c.
Proof.
  unfold str_le. intros Hab Hbc. destruct (c <?s a) eqn:E; [|done].
  destruct (a <?s b) eqn:Eab.
  - by rewrite (string_ltb_trans c a b) in Hbc.
  - by rewrite (string_ltb_total a b Eab Hab) in *; congruence.
Qed.

Lemma str_le_antisym a b : str_le a b -> str_le b a -> a = b.
Proof. intros. by apply string_ltb_total. Qed.

Lemma sort_strings_perm l : sort_strings l ≡ₚ l.
Proof. apply sort_stable_perm. Qed.

Lemma elem_of_sort_strings x l : x ∈ sort_strings l <-> x ∈ l.
Proof. apply elem_of_sort_stable. Qed.

Lemma sort_strings_sorted l : StronglySorted str_le (sort_strings l).
Proof.
  apply sort_stable_sorted.
  - intros x y. apply string_ltb_asym.
  - intros x y z Hyx Hzy. by apply (str_le_trans x y z).
Qed.

Lemma sort_strings_unique l1 l2 :
  l1 ≡ₚ l2 -> sort_strings l1 = sort_strings l2.
Proof.
  intros HP. apply (StronglySorted_unique_strong str_le).
  - intros a b _ _. apply str_le_antisym.
  - apply sort_strings_sorted.
  - apply sort_strings_sorted.
  - by rewrite !sort_strings_perm.
Qed.

(** Keys of a map and elements of a set in the order Go code obtains them:
    collected from the iteration, then sorted. *)
Definition sortedKeys (s : gset string) : list string := sort_strings (elements s).

Lemma elem_of_sortedKeys x s : x ∈ sortedKeys s <-> x ∈ s.
Proof. unfold sortedKeys. by rewrite elem_of_sort_strings, elem_of_elements. Qed.

Lemma NoDup_sortedKeys s : NoDup (sortedKeys s).
Proof. unfold sortedKeys. rewrite sort_strings_perm. apply NoDup_elements. Qed.

#[export] Hint Resolve NoDup_sortedKeys sort_strings_sorted sort_strings_perm : argus.
