(* ===== verification/GoStrings.v ===== *)
(** * Go's [strings], [strconv] and [fmt] on byte strings

    A Go string is a sequence of bytes; Rocq's [string] is one too. Each
    definition follows the documented behaviour of the library function it is
    named after. Case mapping ([ToLower], [EqualFold]) is the ASCII part of
    Go's; bytes above 127 are left alone. White space is Unicode white space in
    its UTF-8 encoding, as [strings.TrimSpace] removes it. *)
From Stdlib Require Import Ascii String ZArith Lia.
From stdpp Require Import base gmap strings list pretty.
From S2P Require Import Prelude.

(** ** Bytes *)

Definition byte_of (c : ascii) : Z := Z.of_N (N_of_ascii c).
Definition chr (n : N) : ascii := ascii_of_N n.
Definition in_range (lo hi : Z) (c : ascii) : bool := ((lo <=? byte_of c) && (byte_of c <=? hi))%Z.
Definition is_lower (c : ascii) : bool := in_range 97 122 c.
Definition is_upper (c : ascii) : bool := in_range 65 90 c.
Definition is_digit (c : ascii) : bool := in_range 48 57 c.

Fixpoint all_chars (P : ascii -> bool) (s : string) : bool :=
  match s with "" => true | String c r => P c && all_chars P r end.

Fixpoint drop_chars (n : nat) (s : string) : string :=
  match n, s with
  | S n', String _ r => drop_chars n' r
  | _, _ => s
  end.

Fixpoint take_chars (n : nat) (s : string) : string :=
  match n, s with
  | S n', String c r => String c (take_chars n' r)
  | _, _ => ""
  end.

(** ** [strings.HasPrefix], [HasSuffix], [TrimPrefix], [TrimSuffix] *)

Definition HasPrefix (s p : string) : bool := String.prefix p s.
Definition HasSuffix (s suf : string) : bool :=
  (String.length suf <=? String.length s)%nat &&
  (drop_chars (String.length s - String.length suf) s =?s suf).
Definition TrimSuffix (s suf : string) : string :=
  if HasSuffix s suf then take_chars (String.length s - String.length suf) s else s.

(** ** Searching: [Cut], [Contains], [Count], [Split], [ReplaceAll], [Join] *)

Fixpoint Cut (s sep : string) : option (string * string) :=
  if String.prefix sep s then Some ("", drop_chars (String.length sep) s)
  else match s with
       | "" => None
       | String c r => '(a, b) ← Cut r sep; Some (String c a, b)
       end.

Definition Contains (s sub : string) : bool := bool_decide (is_Some (Cut s sub)).

Fixpoint split_fuel (fuel : nat) (s sep : string) : list string :=
  match fuel with
  | O => [s]
  | S f => match Cut s sep with
           | None => [s]
           | Some (a, b) => a :: split_fuel f b sep
           end
  end.

(** The separator is never empty in the callers, so each cut consumes at least
    one byte and the length of the string is fuel enough. *)
Definition Split (s sep : string) : list string := split_fuel (String.length s) s sep.
Definition SplitN2 (s sep : string) : list string :=
  match Cut s sep with None => [s] | Some (a, b) => [a; b] end.
Definition Count (s sub : string) : nat := length (Split s sub) - 1.
Definition Join (l : list string) (sep : string) : string := String.concat sep l.
Definition ReplaceAll (s old new : string) : string := Join (Split s old) new.

(** ** White space *)

(** UTF-8 encodings of the code points [unicode.IsSpace] accepts. *)
Definition space_encodings : list string :=
  let b := fun l : list N => string_of_list_ascii (map chr l) in
  map b ([[9]; [10]; [11]; [12]; [13]; [32]; [194; 133]; [194; 160]; [225; 154; 128];
    [226; 128; 168]; [226; 128; 169]; [226; 128; 175]; [226; 129; 159]; [227; 128; 128];
    [226; 128; 128]; [226; 128; 129]; [226; 128; 130]; [226; 128; 131]; [226; 128; 132];
    [226; 128; 133]; [226; 128; 134]; [226; 128; 135]; [226; 128; 136]; [226; 128; 137];
    [226; 128; 138]])%N.

Definition leading_space (s : string) : option nat :=
  list_find (fun e => HasPrefix s e) space_encodings ≫= fun p => Some (String.length p.2).
Definition trailing_space (s : string) : option nat :=
  list_find (fun e => HasSuffix s e) space_encodings ≫= fun p => Some (String.length p.2).

Fixpoint trim_left_fuel (fuel : nat) (s : string) : string :=
  match fuel with
  | O => s
  | S f => match leading_space s with
           | Some n => trim_left_fuel f (drop_chars n s)
           | None => s
           end
  end.
Fixpoint trim_right_fuel (fuel : nat) (s : string) : string :=
  match fuel with
  | O => s
  | S f => match trailing_space s with
           | Some n => trim_right_fuel f (take_chars (String.length s - n) s)
           | None => s
           end
  end.

(** Every encoding is at least one byte long: the length is fuel enough. *)
Definition TrimSpace (s : string) : string :=
  let l := trim_left_fuel (String.length s) s in
  trim_right_fuel (String.length l) l.

(** [strings.Fields]: the maximal runs of bytes that are not white space. *)
Fixpoint fields_fuel (fuel : nat) (cur : string) (s : string) : list string :=
  let flush := if cur =?s "" then [] else [cur] in
  match fuel with
  | O => flush
  | S f =>
      match leading_space s with
      | Some n => flush ++ fields_fuel f "" (drop_chars n s)
      | None => match s with
                | "" => flush
                | String c r => fields_fuel f (cur +:+ String c "") r
                end
      end
  end.
Definition Fields (s : string) : list string := fields_fuel (S (String.length s)) "" s.

(** [strings.TrimRight(s, cutset)] for a one-byte cutset. *)
Fixpoint TrimRight (s : string) (cut : ascii) : string :=
  match s with
  | "" => ""
  | String c r =>
      match TrimRight r cut with
      | "" => if Ascii.eqb c cut then "" else String c ""
      | r' => String c r'
      end
  end.

(** ** Case *)

Definition lower (c : ascii) : ascii := if is_upper c then chr (N_of_ascii c + 32) else c.
Fixpoint ToLower (s : string) : string :=
  match s with "" => "" | String c r => String (lower c) (ToLower r) end.
Definition EqualFold (a b : string) : bool := ToLower a =?s ToLower b.

(** ** Formatting *)

Definition hexdigit (n : N) : ascii := chr (if (n <? 10)%N then n + 48 else n + 87).
Definition hexbyte (c : ascii) : string :=
  let n := N_of_ascii c in String (hexdigit (n / 16)) (String (hexdigit (n mod 16)) "").

Definition quote_char : ascii := chr 34.
Definition dq : string := String quote_char "".
Definition backslash : ascii := chr 92.

(** [strconv.Quote], the text of [%q]: ASCII control characters are escaped,
    bytes above 127 belong to printable runes and are kept. *)
Definition quote_byte (c : ascii) : string :=
  match N_of_ascii c with
  | 7%N => "\a" | 8%N => "\b" | 9%N => "\t" | 10%N => "\n" | 11%N => "\v" | 12%N => "\f" | 13%N => "\r"
  | 34%N => String backslash dq
  | 92%N => "\\"
  | n => if ((n <? 32) || (n =? 127))%N then "\x" +:+ hexbyte c else String c ""
  end.
Fixpoint quote_body (s : string) : string :=
  match s with "" => "" | String c r => quote_byte c +:+ quote_body r end.
Definition Quote (s : string) : string := dq +:+ quote_body s +:+ dq.

(** [%d] of an integer and [%t] of a boolean. *)
Definition itoa (z : Z) : string := pretty z.
Definition fmt_bool (b : bool) : string := if b then "true" else "false".

(** ** Facts *)

Lemma string_app_cons c a b : String c a +:+ b = String c (a +:+ b).
Proof. reflexivity. Qed.

Lemma string_app_nil a : "" +:+ a = a.
Proof. reflexivity. Qed.

(** stdpp keeps [+:+] folded; these two equations unfold it. *)
Ltac simpl_app := simpl; rewrite ?string_app_cons, ?string_app_nil; simpl.

Lemma string_app_nil_r s : s +:+ "" = s.
Proof. induction s as [|c s IH]; simpl_app; [done|]. by rewrite IH. Qed.

Lemma string_app_assoc a b c : (a +:+ b) +:+ c = a +:+ (b +:+ c).
Proof. induction a as [|x a IH]; simpl_app; [done|]. by rewrite IH. Qed.

Lemma prefix_app p s : String.prefix p (p +:+ s) = true.
Proof. induction p as [|c p IH]; simpl_app; [by destruct s|]. by destruct (ascii_dec c c). Qed.

Lemma prefix_drop p s :
  String.prefix p s = true -> s = p +:+ drop_chars (String.length p) s.
Proof.
  revert s. induction p as [|c p IH]; intros s; simpl; [by destruct s|].
  destruct s as [|d s]; [done|]. simpl. destruct (ascii_dec c d) as [->|]; [|done].
  intros H. rewrite string_app_cons. by rewrite <- (IH s H).
Qed.

Lemma drop_chars_app p s : drop_chars (String.length p) (p +:+ s) = s.
Proof. induction p as [|c p IH]; simpl_app; [by destruct s|done]. Qed.

Lemma HasPrefix_spec s p : HasPrefix s p = true <-> exists r, s = p +:+ r.
Proof.
  unfold HasPrefix. split.
  - intros H. eexists. by apply prefix_drop.
  - intros [r ->]. apply prefix_app.
Qed.

Lemma Cut_Some s sep a b : Cut s sep = Some (a, b) -> s = a +:+ sep +:+ b.
Proof.
  revert a b. induction s as [|c s IH]; intros a b.
  - destruct sep; [|done]. by intros [= <- <-].
  - cbn [Cut]. destruct (String.prefix sep (String c s)) eqn:E.
    + intros [= <- <-]. by apply prefix_drop.
    + destruct (Cut s sep) as [[a' b']|]; simpl; [|done]. intros [= <- <-].
      rewrite string_app_cons. by rewrite <- (IH a' b').
Qed.

(** Splitting at a byte. *)
Fixpoint has_char (x : ascii) (s : string) : bool :=
  match s with "" => false | String c r => Ascii.eqb c x || has_char x r end.

Lemma Cut_char_None x s : has_char x s = false -> Cut s (String x "") = None.
Proof.
  induction s as [|c s IH]; simpl; [done|]. intros H.
  apply orb_false_iff in H as [Hc H]. apply Ascii.eqb_neq in Hc.
  destruct (ascii_dec x c) as [->|]; [done|]. by rewrite (IH H).
Qed.

Lemma Cut_char_app x a b :
  has_char x a = false -> Cut (a +:+ String x b) (String x "") = Some (a, b).
Proof.
  induction a as [|c a IH]; simpl_app; intros H.
  - destruct (ascii_dec x x); [|done]. by destruct b.
  - apply orb_false_iff in H as [Hc H]. apply Ascii.eqb_neq in Hc.
    destruct (ascii_dec x c) as [->|]; [done|]. by rewrite (IH H).
Qed.

Lemma length_app_string a b : String.length (a +:+ b) = (String.length a + String.length b)%nat.
Proof. induction a as [|c a IH]; simpl_app; [done|]. by rewrite IH. Qed.

(** Fuel beyond the length changes nothing. *)
Lemma split_fuel_enough n m s sep :
  sep <> "" -> (String.length s <= n)%nat -> (String.length s <= m)%nat ->
  split_fuel n s sep = split_fuel m s sep.
Proof.
  intros Hsep. revert m s. induction n as [|n IH]; intros m s Hn Hm.
  - destruct s; simpl in *; [|lia]. destruct m; simpl; [done|]. by destruct sep.
  - destruct m as [|m]; [destruct s; simpl in *; [by destruct sep|lia]|]. simpl.
    destruct (Cut s sep) as [[a b]|] eqn:E; [|done]. f_equal.
    apply Cut_Some in E. subst s. rewrite !length_app_string in *.
    assert (0 < String.length sep)%nat by (destruct sep; simpl; [done|lia]). apply IH; lia.
Qed.

Lemma Split_char_None x s : has_char x s = false -> Split s (String x "") = [s].
Proof.
  unfold Split. intros H. destruct (String.length s); simpl; [done|].
  by rewrite (Cut_char_None x s H).
Qed.

Lemma Split_char_app x a b :
  has_char x a = false -> Split (a +:+ String x b) (String x "") = a :: Split b (String x "").
Proof.
  intros H. unfold Split. rewrite length_app_string. simpl. rewrite Nat.add_succ_r. simpl.
  rewrite (Cut_char_app x a b H). f_equal. apply split_fuel_enough; simpl; try done; lia.
Qed.

Lemma split_fuel_not_nil n s sep : split_fuel n s sep <> [].
Proof. destruct n; simpl; [done|]. by destruct (Cut s sep) as [[]|]. Qed.

Lemma Join_cons a l sep : l <> [] -> Join (a :: l) sep = a +:+ sep +:+ Join l sep.
Proof. by destruct l. Qed.

Lemma split_fuel_join n s sep : Join (split_fuel n s sep) sep = s.
Proof.
  revert s. induction n as [|n IH]; intros s; simpl; [done|].
  destruct (Cut s sep) as [[a b]|] eqn:E; [|done].
  rewrite Join_cons by apply split_fuel_not_nil. rewrite IH. symmetry. by apply Cut_Some.
Qed.

(** [strings.Join(strings.Split(s, sep), sep) == s]. *)
Lemma Join_Split s sep : Join (Split s sep) sep = s.
Proof. apply split_fuel_join. Qed.

(** ** [strconv.ParseUint], [ParseInt] and [Atoi] in base ten, 64 bits *)

Fixpoint digits_value (acc : Z) (s : string) : option Z :=
  match s with
  | "" => Some acc
  | String c r => if is_digit c then digits_value (acc * 10 + (byte_of c - 48))%Z r else None
  end.
Definition ParseUint (s : string) : option Z :=
  if s =?s "" then None else n ← digits_value 0 s; if (n <? 2 ^ 64)%Z then Some n else None.
Definition ParseInt (s : string) : option Z :=
  match s with
  | String c r =>
      if Ascii.eqb c "-" then n ← (if r =?s "" then None else digits_value 0 r); if (n <=? 2 ^ 63)%Z then Some (- n)%Z else None
      else
        let r := if Ascii.eqb c "+" then r else s in
        n ← (if r =?s "" then None else digits_value 0 r); if (n <? 2 ^ 63)%Z then Some n else None
  | "" => None
  end.

Example parse_ints :
  ParseInt <$> ["12"; "-3"; "+4"; ""; "-"; "1_0"; "9223372036854775808"; "-9223372036854775808"] =
  [Some 12; Some (-3); Some 4; None; None; None; None; Some (-9223372036854775808)]%Z.
Proof. vm_compute. reflexivity. Qed.

(** ** [strconv.Itoa] and back *)

Lemma digit_char (x : N) : (x < 10)%N -> is_digit (pretty_N_char x) = true /\ (byte_of (pretty_N_char x) - 48 = Z.of_N x)%Z.
Proof.
  intros H. assert (x = 0 \/ x = 1 \/ x = 2 \/ x = 3 \/ x = 4 \/ x = 5 \/ x = 6 \/ x = 7 \/ x = 8 \/ x = 9)%N as HX by lia.
  by destruct HX as [->|[->|[->|[->|[->|[->|[->|[->|[->| ->]]]]]]]]].
Qed.

(** The digits of [x] in front of a text are read as [x]. *)
Lemma digits_value_pretty x : forall s, digits_value 0 (pretty_N_go x s) = digits_value (Z.of_N x) s.
Proof.
  induction (N.lt_wf_0 x) as [x _ IH]; intros s. assert (x = 0 \/ 0 < x)%N as [->|Hx] by lia; [done|].
  rewrite pretty_N_go_step, IH by (done || by apply N.div_lt). destruct (digit_char (x `mod` 10)) as [HD HV]; [by apply N.mod_lt|].
  simpl. rewrite HD, HV. f_equal. rewrite N2Z.inj_div, N2Z.inj_mod. pose proof (Z.div_mod (Z.of_N x) 10). lia.
Qed.

Lemma pretty_head x : forall s, (0 < x)%N -> exists c r, pretty_N_go x s = String c r /\ is_digit c = true.
Proof.
  induction (N.lt_wf_0 x) as [x _ IH]; intros s Hx. rewrite pretty_N_go_step by done.
  destruct (digit_char (x `mod` 10)) as [HD _]; [by apply N.mod_lt|].
  destruct (decide (x / 10 = 0)%N) as [E|E]; [rewrite E, pretty_N_go_0; eauto|]. apply IH; [by apply N.div_lt|]. by apply N.neq_0_lt_0.
Qed.

Lemma itoa_digits x : exists c r, pretty_N x = String c r /\ is_digit c = true /\ digits_value 0 (String c r) = Some (Z.of_N x).
Proof.
  unfold pretty_N. case_decide as E; [subst; by exists "0"%char, ""|]. destruct (pretty_head x "") as (c & r & Hr & Hc); [lia|].
  exists c, r. split_and!; [done..|]. by rewrite <- Hr, digits_value_pretty.
Qed.

(** [strconv.Atoi(strconv.Itoa(z))] of a 64-bit integer. *)
Lemma ParseInt_itoa z : (- 2 ^ 63 <= z < 2 ^ 63)%Z -> ParseInt (itoa z) = Some z.
Proof.
  intros Hz. unfold itoa, pretty. destruct z as [|p|p]; [done| |]; cbn [pretty_Z]; unfold pretty.
  - destruct (itoa_digits (N.pos p)) as (c & r & HR & HC & HV). unfold pretty_positive, pretty. rewrite HR. cbn [ParseInt].
    assert (Ascii.eqb c "-" = false) as -> by (by destruct (Ascii.eqb_spec c "-") as [->|]).
    assert (Ascii.eqb c "+" = false) as -> by (by destruct (Ascii.eqb_spec c "+") as [->|]). 
    change (String c r =?s "") with false. cbv iota zeta. rewrite HV. simpl. destruct (Z.ltb_spec (Z.pos p) (2^63)); [done|lia].
  - destruct (itoa_digits (N.pos p)) as (c & r & HR & HC & HV). unfold pretty_positive, pretty. rewrite HR.
    change ("-" +:+ String c r) with (String "-" (String c r)). cbn [ParseInt]. change (Ascii.eqb "-" "-") with true.
    change (String c r =?s "") with false. cbv iota zeta. rewrite HV. simpl. destruct (Z.leb_spec (Z.pos p) (2^63)); [done|lia].
Qed.
