(* ===== verification/GoFloat.v ===== *)
(** * Go's [float64]

    IEEE-754 binary64 numbers with their operations computed exactly and
    rounded to nearest even, on the Standard Library's [SpecFloat]. Go rounds
    every [float64] operation on amd64, which is the behaviour modelled here
    (other targets may fuse a multiplication with an addition). *)
From Stdlib Require Import ZArith Lia Ascii String SpecFloat.
From stdpp Require Import base option strings pretty.
From S2P Require Import Prelude GoStrings.
Open Scope Z_scope.

Definition prec : Z := 53.
Definition emax : Z := 1024.
Definition float64 : Type := spec_float.

Definition fadd (x y : float64) : float64 := SFadd prec emax x y.
Definition fsub (x y : float64) : float64 := SFsub prec emax x y.
Definition fmul (x y : float64) : float64 := SFmul prec emax x y.
Definition fdiv (x y : float64) : float64 := SFdiv prec emax x y.
Definition flt (x y : float64) : bool := SFltb x y.
Definition fle (x y : float64) : bool := SFleb x y.
Definition feq (x y : float64) : bool := SFeqb x y.
Definition fgt (x y : float64) : bool := flt y x.
Definition fge (x y : float64) : bool := fle y x.

(** [float64(n)] of an integer. *)
Definition of_int (n : Z) : float64 := binary_normalize prec emax n 0 false.

(** The decimal constant [n/d]: both operands are exact, so the division gives
    the float nearest to the constant. *)
Definition lit (n d : Z) : float64 := fdiv (of_int n) (of_int d).
Definition fzero : float64 := S754_zero false.

Definition IsNaN (x : float64) : bool := match x with S754_nan => true | _ => false end.
Definition IsInf (x : float64) : bool := match x with S754_infinity _ => true | _ => false end.

(** [math.Trunc] of a finite number, as an integer. *)
Definition trunc_Z (x : float64) : Z :=
  match x with
  | S754_finite s m e =>
      let a := if 0 <=? e then Z.pos m * 2 ^ e else Z.pos m / 2 ^ (- e) in
      if s then - a else a
  | _ => 0
  end.

(** [math.Trunc(x) == x]. *)
Definition is_integral (x : float64) : bool :=
  match x with
  | S754_finite _ m e => (0 <=? e) || (Z.pos m mod 2 ^ (- e) =? 0)
  | S754_zero _ => true
  | S754_infinity _ => true
  | S754_nan => false
  end.

(** [int64(x)] truncates; out of range, infinite and NaN values convert to the
    smallest integer, as the amd64 conversion instruction does. *)
Definition to_int64 (x : float64) : Z :=
  match x with
  | S754_nan | S754_infinity _ => - 2 ^ 63
  | _ => let t := trunc_Z x in
         if (- 2 ^ 63 <=? t) && (t <? 2 ^ 63) then t else - 2 ^ 63
  end.

(** ** [%.pf]: the exact value rounded to [p] decimals, halves to even. *)

Definition div_half_even (n d : Z) : Z :=
  let q := n / d in
  let r := n mod d in
  match Z.compare (2 * r) d with
  | Lt => q
  | Gt => q + 1
  | Eq => if Z.even q then q else q + 1
  end.

Definition pad_zeros (width : nat) (s : string) : string :=
  String.app (String.concat "" (repeat "0"%string (width - String.length s))) s.

Definition fmt_fixed (p : nat) (x : float64) : string :=
  match x with
  | S754_nan => "NaN"
  | S754_infinity false => "+Inf"
  | S754_infinity true => "-Inf"
  | S754_zero s => (if s then "-" else "") +:+ "0." +:+ pad_zeros p ""
  | S754_finite s m e =>
      let n := Z.pos m * 10 ^ Z.of_nat p in
      let scaled := if 0 <=? e then n * 2 ^ e else div_half_even n (2 ^ (- e)) in
      let digits := pad_zeros (S p) (itoa scaled) in
      let k := (String.length digits - p)%nat in
      (if s then "-" else "") +:+ take_chars k digits +:+ "." +:+ drop_chars k digits
  end.

#[global] Arguments fadd : simpl never.
#[global] Arguments fsub : simpl never.
#[global] Arguments fmul : simpl never.
#[global] Arguments fdiv : simpl never.
#[global] Arguments flt : simpl never.
#[global] Arguments fle : simpl never.
#[global] Arguments feq : simpl never.
#[global] Arguments of_int : simpl never.
#[global] Arguments lit : simpl never.
#[global] Arguments fmt_fixed : simpl never.

(** ** Facts about comparisons *)

Lemma SFcompare_opp x y : SFcompare y x = CompOpp <$> SFcompare x y.
Proof.
  destruct x as [[]|[]| |[] m e], y as [[]|[]| |[] m' e']; simpl; try done;
    rewrite (Z.compare_antisym e e'); destruct (Z.compare e e') eqn:E; simpl; try done.
  all: f_equal; change (Pos.compare_cont Eq) with Pos.compare.
  all: by rewrite (Pos.compare_antisym m m').
Qed.

(** Two numbers that are not NaN compare one way or the other. *)
Lemma SFcompare_total x y :
  IsNaN x = false -> IsNaN y = false -> exists c, SFcompare x y = Some c.
Proof. destruct x as [[]|[]| |[] m e], y as [[]|[]| |[] m' e']; simpl; eauto; done. Qed.

Lemma flt_false_fge x y :
  IsNaN x = false -> IsNaN y = false -> flt x y = false -> fle y x = true.
Proof.
  intros Hx Hy. destruct (SFcompare_total x y Hx Hy) as [c Hc].
  unfold flt, fle, SFltb, SFleb. rewrite (SFcompare_opp x y), Hc. by destruct c.
Qed.

Lemma flt_not_nan x y : flt x y = true -> IsNaN x = false /\ IsNaN y = false.
Proof. unfold flt, SFltb. by destruct x as [[]|[]| |[] m e], y as [[]|[]| |[] m' e']. Qed.

Lemma fle_refl x : IsNaN x = false -> fle x x = true.
Proof.
  intros Hx. apply flt_false_fge; try done. unfold flt, SFltb.
  pose proof (SFcompare_opp x x) as A. destruct (SFcompare x x) as [[]|]; simpl in A; congruence.
Qed.

(** ** Rounding never makes a NaN *)

Lemma shr_1_nonneg r : 0 <= shr_m r -> 0 <= shr_m (shr_1 r).
Proof. destruct r as [[|[p|p|]|p] b s]; simpl; lia. Qed.

Lemma iter_shr_nonneg p r : 0 <= shr_m r -> 0 <= shr_m (SpecFloat.iter_pos shr_1 p r).
Proof. revert r. induction p as [p IH|p IH|]; intros r Hr; simpl; auto using shr_1_nonneg. Qed.

Lemma shr_record_of_loc_m m l : shr_m (shr_record_of_loc m l) = m.
Proof. by destruct l as [|[]]. Qed.

Lemma shr_fexp_nonneg m e l : 0 <= m -> 0 <= shr_m (shr_fexp prec emax m e l).1.
Proof.
  intros Hm. unfold shr_fexp, shr. destruct (_ - e); simpl; rewrite ?shr_record_of_loc_m; try done.
  apply iter_shr_nonneg. by rewrite shr_record_of_loc_m.
Qed.

Lemma binary_round_aux_not_nan s m e l : 0 <= m -> IsNaN (binary_round_aux prec emax s m e l) = false.
Proof.
  intros Hm. unfold binary_round_aux. pose proof (shr_fexp_nonneg m e l Hm) as H1.
  destruct (shr_fexp prec emax m e l) as [r e']. simpl in H1.
  set (m' := round_nearest_even _ _).
  assert (0 <= m') as H2 by (subst m'; unfold round_nearest_even; repeat case_match; lia).
  pose proof (shr_fexp_nonneg m' e' loc_Exact H2) as H3.
  destruct (shr_fexp prec emax m' e' loc_Exact) as [r' e'']. simpl in H3.
  destruct (shr_m r') as [|p|p]; [done|by case_match|lia].
Qed.

Lemma binary_normalize_not_nan n e s : IsNaN (binary_normalize prec emax n e s) = false.
Proof.
  unfold binary_normalize, binary_round. destruct n as [|p|p]; [done| |];
    destruct (shl_align _ _ _) as [mz ez]; by apply binary_round_aux_not_nan.
Qed.

Lemma of_int_not_nan n : IsNaN (of_int n) = false.
Proof. apply binary_normalize_not_nan. Qed.

Lemma fadd_finite_not_nan x s m e : IsNaN x = false -> IsNaN (fadd x (S754_finite s m e)) = false.
Proof. unfold fadd, SFadd. destruct x as [| | |s' m' e']; try done. intros _. apply binary_normalize_not_nan. Qed.

Lemma of_int_div_not_nan n s m e : IsNaN (fdiv (of_int n) (S754_finite s m e)) = false.
Proof.
  pose proof (of_int_not_nan n) as Hn. unfold fdiv, SFdiv.
  destruct (of_int n) as [|[]| |s' m' e']; try done.
  destruct (SFdiv_core_binary _ _ _ _ _ _) as [[q e''] l] eqn:Q. apply binary_round_aux_not_nan.
  revert Q. unfold SFdiv_core_binary. set (num := match _ with Z0 => _ | Zpos _ => _ | Zneg _ => _ end).
  assert (0 <= num) as Hnum.
  { subst num. case_match; try lia. apply Z.shiftl_nonneg. lia. }
  pose proof (Z_div_mod num (Z.pos m) ltac:(lia)) as D. destruct (Z.div_eucl num (Z.pos m)) as [q' r'].
  intros [= <- _ _]. nia.
Qed.

Lemma feq_of_not_lt x y : flt x y = false -> fgt x y = false -> IsNaN x = false -> IsNaN y = false -> feq x y = true.
Proof.
  unfold fgt, flt, feq, SFltb, SFeqb. intros H1 H2 Hx Hy. destruct (SFcompare_total x y Hx Hy) as [c Hc].
  rewrite (SFcompare_opp x y), Hc in H2. rewrite Hc in *. by destruct c.
Qed.

Lemma flt_fle x y : flt x y = true -> fle x y = true.
Proof. unfold flt, fle, SFltb, SFleb. destruct (SFcompare x y) as [[]|]; done. Qed.
