(* ===== verification/Regexp.v ===== *)
(** * The regular expressions of the sources

    Argus compiles anchored expressions built from character classes,
    concatenation, an optional group and repetition of a class. [rmatch] decides
    a match by derivatives; [Lang] is the language of an expression, and the two
    agree ([rmatch_spec]). *)
From Stdlib Require Import Ascii String ZArith Lia.
From stdpp Require Import base strings list.
From S2P Require Import Prelude GoStrings.

Inductive regexp :=
  | REmpty
  | REps
  | RClass (p : ascii -> bool)
  | RStar (p : ascii -> bool)
  | RUpTo (p : ascii -> bool) (n : nat)
  | RCat (r1 r2 : regexp)
  | RAlt (r1 r2 : regexp)
  | ROpt (r : regexp).

Fixpoint Lang (r : regexp) (s : string) : Prop :=
  match r with
  | REmpty => False
  | REps => s = ""
  | RClass p => exists c, s = String c "" /\ p c = true
  | RStar p => all_chars p s = true
  | RUpTo p n => all_chars p s = true /\ (String.length s <= n)%nat
  | RCat r1 r2 => exists a b, s = a +:+ b /\ Lang r1 a /\ Lang r2 b
  | RAlt r1 r2 => Lang r1 s \/ Lang r2 s
  | ROpt r => s = "" \/ Lang r s
  end.

Fixpoint nullable (r : regexp) : bool :=
  match r with
  | REmpty | RClass _ => false
  | REps | RStar _ | RUpTo _ _ | ROpt _ => true
  | RCat r1 r2 => nullable r1 && nullable r2
  | RAlt r1 r2 => nullable r1 || nullable r2
  end.

(** Constructors that drop the empty language, so that derivatives stay small. *)
Definition mkCat (r1 r2 : regexp) : regexp :=
  match r1 with REmpty => REmpty | REps => r2 | _ => RCat r1 r2 end.
Definition mkAlt (r1 r2 : regexp) : regexp :=
  match r1, r2 with REmpty, _ => r2 | _, REmpty => r1 | _, _ => RAlt r1 r2 end.

Fixpoint deriv (c : ascii) (r : regexp) : regexp :=
  match r with
  | REmpty | REps => REmpty
  | RClass p => if p c then REps else REmpty
  | RStar p => if p c then RStar p else REmpty
  | RUpTo p n => match n with
                 | O => REmpty
                 | S n' => if p c then RUpTo p n' else REmpty
                 end
  | RCat r1 r2 =>
      let d := mkCat (deriv c r1) r2 in
      if nullable r1 then mkAlt d (deriv c r2) else d
  | RAlt r1 r2 => mkAlt (deriv c r1) (deriv c r2)
  | ROpt r => deriv c r
  end.

Fixpoint rmatch (r : regexp) (s : string) : bool :=
  match s with
  | "" => nullable r
  | String c s' => rmatch (deriv c r) s'
  end.

Lemma mkCat_lang r1 r2 s : Lang (mkCat r1 r2) s <-> Lang (RCat r1 r2) s.
Proof.
  destruct r1; simpl; try done; split; try naive_solver.
  intros H. by exists "", s.
Qed.

Lemma mkAlt_lang r1 r2 s : Lang (mkAlt r1 r2) s <-> Lang (RAlt r1 r2) s.
Proof. destruct r1, r2; simpl; naive_solver. Qed.

Lemma nullable_lang r : nullable r = true <-> Lang r "".
Proof.
  induction r as [| | | | |r1 IH1 r2 IH2|r1 IH1 r2 IH2|r IH]; simpl; try done.
  - split; [done|]. by intros (c & ? & ?).
  - split; [|done]. split; [done|lia].
  - rewrite andb_true_iff, IH1, IH2. split.
    + intros [H1 H2]. by exists "", "".
    + intros (a & b & E & Ha & Hb). destruct a; [|done]. destruct b; done.
  - by rewrite orb_true_iff, IH1, IH2.
  - split; auto.
Qed.

Lemma deriv_lang c r s : Lang (deriv c r) s <-> Lang r (String c s).
Proof.
  revert s. induction r as [| |p|p|p n|r1 IH1 r2 IH2|r1 IH1 r2 IH2|r IH]; intros s; simpl; try done.
  - destruct (p c) eqn:E; simpl; split; try done.
    + intros ->. by exists c.
    + intros (c' & Es & ?). by simplify_eq.
    + intros (c' & Es & ?). simplify_eq. congruence.
  - by destruct (p c).
  - destruct n as [|n]; simpl; [split; [done|lia]|].
    destruct (p c) eqn:E; simpl; rewrite <- ?Nat.succ_le_mono; [done|]. split; [done|by intros []].
  - assert (Hcat : Lang (mkCat (deriv c r1) r2) s <->
      exists a b, String c s = String c a +:+ b /\ Lang r1 (String c a) /\ Lang r2 b).
    { rewrite mkCat_lang. simpl. split.
      - intros (a & b & -> & Ha & Hb). exists a, b. split; [done|]. by rewrite <- IH1.
      - intros (a & b & E & Ha & Hb). exists a, b. simpl in E. injection E as ->. by rewrite IH1. }
    destruct (nullable r1) eqn:N.
    + rewrite mkAlt_lang. simpl. rewrite Hcat, IH2. split.
      * intros [(a & b & E & Ha & Hb)|Hb]; [by exists (String c a), b|].
        apply nullable_lang in N. by exists "", (String c s).
      * intros ([|c' a] & b & E & Ha & Hb); simpl in E; [right; by rewrite E|].
        left. injection E as -> ->. by exists a, b.
    + rewrite Hcat. split; [intros (a & b & E & Ha & Hb); by exists (String c a), b|].
      intros ([|c' a] & b & E & Ha & Hb); [apply nullable_lang in Ha; congruence|].
      simpl in E. injection E as -> ->. by exists a, b.
  - rewrite mkAlt_lang. simpl. by rewrite IH1, IH2.
  - rewrite IH. split; [by right|]. by intros [|].
Qed.

Lemma rmatch_spec r s : rmatch r s = true <-> Lang r s.
Proof.
  revert r. induction s as [|c s IH]; intros r; simpl; [apply nullable_lang|].
  by rewrite IH, deriv_lang.
Qed.

(** ** Characters of the strings an expression accepts *)

Lemma all_chars_app p a b : all_chars p (a +:+ b) = all_chars p a && all_chars p b.
Proof. induction a as [|c a IH]; simpl; [done|]. by rewrite <- andb_assoc, <- IH. Qed.

Lemma all_chars_impl p q s :
  (forall c, p c = true -> q c = true) -> all_chars p s = true -> all_chars q s = true.
Proof. intros H. induction s as [|c s IH]; simpl; [done|]. rewrite !andb_true_iff. naive_solver. Qed.

Fixpoint uses_only (q : ascii -> Prop) (r : regexp) : Prop :=
  match r with
  | REmpty | REps => True
  | RClass p | RStar p | RUpTo p _ => forall c, p c = true -> q c
  | RCat r1 r2 | RAlt r1 r2 => uses_only q r1 /\ uses_only q r2
  | ROpt r => uses_only q r
  end.

Lemma lang_all_chars q r s :
  uses_only (fun c => q c = true) r -> Lang r s -> all_chars q s = true.
Proof.
  revert s. induction r as [| |p|p|p n|r1 IH1 r2 IH2|r1 IH1 r2 IH2|r IH]; simpl; intros s U L; try done.
  - by subst.
  - destruct L as (c & -> & Hc). simpl. by rewrite U.
  - by eapply all_chars_impl.
  - destruct L. by eapply all_chars_impl.
  - destruct L as (a & b & -> & La & Lb). rewrite all_chars_app. destruct U. by rewrite IH1, IH2.
  - destruct U, L; eauto.
  - destruct L as [->|L]; [done|eauto].
Qed.

Lemma length_string_app a b : String.length (a +:+ b) = (String.length a + String.length b)%nat.
Proof. induction a as [|c a IH]; simpl; [done|]. by rewrite <- IH. Qed.
