(* ===== verification/GoValue.v ===== *)
(** * Dynamic values

    The values Go keeps in an [any]: what [map[string]any] parameters, alert
    bodies and audit states hold. A type switch of the sources becomes a match
    on the constructor. *)
From Stdlib Require Import Ascii String ZArith Lia SpecFloat.
From stdpp Require Import base gmap strings list pretty.
From S2P Require Import Prelude GoStrings GoFloat.
Open Scope Z_scope.

Inductive value :=
  | VNil
  | VBool (b : bool)
  | VInt (z : Z)
  | VInt32 (z : Z)
  | VInt64 (z : Z)
  | VFloat (f : float64)
  | VNumber (lit : string)
  | VString (s : string)
  | VStrings (l : list string)
  | VStrMap (m : list (string * string))
  | VList (l : list value)
  | VMap (m : list (string * value)).

Notation params := (gmap string value).

(** [m[key]] of a Go map with string values: the zero value when absent. *)
Definition str_at (m : gmap string string) (key : string) : string := default "" (m !! key).

(** ** Decidable equality *)

#[export] Instance float64_eq_dec : EqDecision float64.
Proof. solve_decision. Defined.

Section list_eq.
Context {A : Type} (go : forall a b : A, {a = b} + {a <> b}).

Fixpoint lists_eq (l1 l2 : list A) {struct l1} : {l1 = l2} + {l1 <> l2}.
Proof.
  destruct l1 as [|x l1], l2 as [|y l2]; [by left|by right|by right|].
  destruct (go x y); [|right; congruence].
  destruct (lists_eq l1 l2); [left|right]; congruence.
Defined.

Fixpoint members_eq (l1 l2 : list (string * A)) {struct l1} : {l1 = l2} + {l1 <> l2}.
Proof.
  destruct l1 as [|[k x] l1], l2 as [|[k' y] l2]; [by left|by right|by right|].
  destruct (decide (k = k')); [|right; congruence].
  destruct (go x y); [|right; congruence].
  destruct (members_eq l1 l2); [left|right]; congruence.
Defined.
End list_eq.

Fixpoint value_eq_dec (a b : value) {struct a} : {a = b} + {a <> b}.
Proof.
  refine (match a, b with
  | VNil, VNil => left eq_refl
  | VBool x, VBool y => _
  | VInt x, VInt y => _
  | VInt32 x, VInt32 y => _
  | VInt64 x, VInt64 y => _
  | VFloat x, VFloat y => _
  | VNumber x, VNumber y => _
  | VString x, VString y => _
  | VStrings x, VStrings y => _
  | VStrMap x, VStrMap y => _
  | VList x, VList y => _
  | VMap x, VMap y => _
  | _, _ => right _
  end); try discriminate.
  10: destruct (lists_eq value_eq_dec x y); [left|right]; congruence.
  10: destruct (members_eq value_eq_dec x y); [left|right]; congruence.
  all: destruct (decide (x = y)); [left|right]; congruence.
Defined.

#[export] Instance value_eq_decision : EqDecision value := value_eq_dec.

(** ** [strconv.ParseInt(s, 10, 64)] *)

Fixpoint parse_digits (acc : Z) (s : string) : option Z :=
  match s with
  | "" => Some acc
  | String c r => if is_digit c then parse_digits (10 * acc + (byte_of c - 48)) r else None
  end.

Definition ParseInt64 (s : string) : option Z :=
  let '(neg, body) :=
    match s with
    | String "-" r => (true, r)
    | String "+" r => (false, r)
    | _ => (false, s)
    end in
  if body =?s "" then None
  else match parse_digits 0 body with
       | None => None
       | Some n =>
           let z := if (neg : bool) then - n else n in
           if (- 2 ^ 63 <=? z) && (z <? 2 ^ 63) then Some z else None
       end.
