(* ===== verification/Actions.v ===== *)
(** * The action catalog ([internal/actions/catalog.go])

    Which typed remediations exist, how risky each one is, and which targets and
    parameters it accepts. *)
From Stdlib Require Import Ascii String ZArith Lia SpecFloat.
From stdpp Require Import base gmap strings list pretty.
From S2P Require Import Prelude GoStrings GoFloat GoValue Regexp.
Open Scope Z_scope.

(** ** Names *)

Definition CollectDiagnostics : string := "collect_diagnostics".
Definition RestartService : string := "restart_service".
Definition RollbackConfig : string := "rollback_config".
Definition ReloadNginx : string := "reload_nginx".
Definition ClearRedisKeyspace : string := "clear_redis_keyspace".
Definition DrainPostgresConnections : string := "drain_postgres_connections".
Definition ScaleWorkerSimulation : string := "scale_worker_simulation".
Definition RevertFeatureFlag : string := "revert_feature_flag".
Definition DisableBadRoute : string := "disable_bad_route".
Definition RestartPod : string := "restart_pod".
Definition ResizeConnectionPool : string := "resize_connection_pool".
Definition ToggleFeatureFlag : string := "toggle_feature_flag".
Definition PurgeCache : string := "purge_cache".

Definition registered : list string :=
  [CollectDiagnostics; RestartService; RollbackConfig; ReloadNginx; ClearRedisKeyspace;
   DrainPostgresConnections; ScaleWorkerSimulation; RevertFeatureFlag; DisableBadRoute;
   RestartPod; ResizeConnectionPool; ToggleFeatureFlag; PurgeCache].

Definition allowedFlags : list string :=
  ["payments-api/optional-notifications"; "payments-api/checkout-v2";
   "checkout-api/async-confirmation"].

(** [^[a-z0-9](?:[-a-z0-9]*[a-z0-9])?$] *)
Definition lower_alnum (c : ascii) : bool := is_lower c || is_digit c.
Definition label_char (c : ascii) : bool := Ascii.eqb c "-" || lower_alnum c.
Definition dnsLabelPattern : regexp :=
  RCat (RClass lower_alnum) (ROpt (RCat (RStar label_char) (RClass lower_alnum))).

(** ** Risk *)

Definition risks : gmap string string := list_to_map
  [(CollectDiagnostics, "low"); (RestartService, "medium"); (RollbackConfig, "medium");
   (ReloadNginx, "medium"); (ClearRedisKeyspace, "medium"); (DrainPostgresConnections, "medium");
   (ScaleWorkerSimulation, "medium"); (RevertFeatureFlag, "medium"); (DisableBadRoute, "medium");
   (RestartPod, "medium"); (ResizeConnectionPool, "medium"); (ToggleFeatureFlag, "medium");
   (PurgeCache, "medium")].

Definition riskRank (risk : string) : option Z :=
  if risk =?s "low" then Some 1
  else if risk =?s "medium" then Some 2
  else if risk =?s "high" then Some 3
  else None.

Definition Risk (action : string) : string := str_at risks action.

Definition EffectiveRisk (action requested : string) : string :=
  let catalog := str_at risks action in
  if requested =?s "" then catalog
  else match riskRank requested with
       | None => requested
       | Some rr =>
           if rr <? default 0 (riskRank catalog) then catalog else requested
       end.

Definition IsRegistered (action : string) : bool := bool_decide (action ∈ registered).

(** ** Validation *)

(** [Integer] accepts the Go integer types, integral floats in the range of
    [int], and numbers decoded as [json.Number]. *)
Definition Integer (v : value) : option Z :=
  match v with
  | VInt z | VInt32 z | VInt64 z => Some z
  | VFloat f =>
      if is_integral f && fge f (of_int (- 2 ^ 63)) && fle f (of_int (2 ^ 63 - 1))
      then Some (to_int64 f) else None
  | VNumber lit => ParseInt64 lit
  | _ => None
  end.

Definition lookup_param (parameters : params) (key : string) : value :=
  default VNil (parameters !! key).

Fixpoint missing_key (parameters : params) (required : list string) : result unit :=
  match required with
  | [] => Ok tt
  | key :: rest =>
      match parameters !! key with
      | None => Fail (errorf ("missing parameter " +:+ Quote key))
      | Some _ => missing_key parameters rest
      end
  end.

Definition validateKeys (parameters : params) (required : list string) : result unit :=
  if negb (size parameters =? length required)%nat
  then Fail (errorf ("expected parameters: " +:+ Join required ", "))
  else missing_key parameters required.

Definition validDNSLabel (value : string) : bool :=
  (String.length value <=? 63)%nat && rmatch dnsLabelPattern value.

Definition validateCachePrefix (target : string) : result unit :=
  if negb (HasPrefix target "demo:") || negb (HasSuffix target ":*")
     || negb (Count target "*" =? 1)%nat
     || (String.length (TrimSuffix target "*") <? String.length "demo:x:")%nat
  then Fail (errorf "cache purge target must be a scoped demo:<segment>:* prefix")
  else Ok tt.

Definition valid_pod_target (target : string) : bool :=
  match Split target "/" with
  | [ns; pod] => ((ns =?s "local") || (ns =?s "demo")) && validDNSLabel pod
  | _ => false
  end.

Definition int_between (v : value) (lo hi : Z) : bool :=
  match Integer v with Some n => (lo <=? n) && (n <=? hi) | None => false end.

Definition Validate (action target : string) (parameters : params) : result unit :=
  if action =?s RestartPod then
    let! _ := validateKeys parameters [] in
    if valid_pod_target target then Ok tt
    else Fail (errorf "pod target must be local/<pod> or demo/<pod>")
  else if action =?s ResizeConnectionPool then
    if negb (validDNSLabel target)
    then Fail (errorf "connection-pool target must be a service name")
    else
      let! _ := validateKeys parameters ["size"] in
      if int_between (lookup_param parameters "size") 2 50 then Ok tt
      else Fail (errorf "connection-pool size must be an integer between 2 and 50")
  else if action =?s ToggleFeatureFlag then
    if negb (bool_decide (target ∈ allowedFlags))
    then Fail (errorf "feature flag target is not allow-listed")
    else
      let! _ := validateKeys parameters ["enabled"] in
      match lookup_param parameters "enabled" with
      | VBool _ => Ok tt
      | _ => Fail (errorf "feature flag enabled must be a boolean")
      end
  else if action =?s PurgeCache then
    let! _ := validateCachePrefix target in
    let! _ := validateKeys parameters ["max_keys"] in
    if int_between (lookup_param parameters "max_keys") 1 1000 then Ok tt
    else Fail (errorf "cache purge max_keys must be an integer between 1 and 1000")
  else if action =?s ClearRedisKeyspace then
    if HasPrefix target "demo:pressure:" then Ok tt
    else Fail (errorf "redis remediation is restricted to demo:pressure:* keys")
  else Ok tt.

(** ** What the catalog accepts, stated without the code's control flow *)

Fixpoint last_char (s : string) : option ascii :=
  match s with
  | "" => None
  | String c "" => Some c
  | String _ r => last_char r
  end.

Definition first_char (s : string) : option ascii :=
  match s with "" => None | String c _ => Some c end.

(** A DNS label: 1 to 63 lower-case letters, digits and dashes, no dash at
    either end. *)
Record dns_label (s : string) : Prop := {
  dns_length : (String.length s <= 63)%nat;
  dns_chars : all_chars label_char s = true;
  dns_first : exists c, first_char s = Some c /\ lower_alnum c = true;
  dns_last : exists c, last_char s = Some c /\ lower_alnum c = true;
}.

Inductive accepted : string -> string -> params -> Prop :=
  | accepted_restart_pod ns pod :
      ns = "local" \/ ns = "demo" -> dns_label pod ->
      accepted RestartPod (ns +:+ "/" +:+ pod) ∅
  | accepted_resize target v n :
      dns_label target -> Integer v = Some n -> 2 <= n <= 50 ->
      accepted ResizeConnectionPool target {["size" := v]}
  | accepted_toggle target b :
      target ∈ allowedFlags -> accepted ToggleFeatureFlag target {["enabled" := VBool b]}
  | accepted_purge target v n :
      validateCachePrefix target = Ok tt -> Integer v = Some n -> 1 <= n <= 1000 ->
      accepted PurgeCache target {["max_keys" := v]}
  | accepted_clear_redis suffix ps :
      accepted ClearRedisKeyspace ("demo:pressure:" +:+ suffix) ps
  | accepted_unrestricted action target ps :
      action ∉ [RestartPod; ResizeConnectionPool; ToggleFeatureFlag; PurgeCache; ClearRedisKeyspace] ->
      accepted action target ps.

(** *** DNS labels *)

Lemma last_char_app a c : last_char (a +:+ String c "") = Some c.
Proof. induction a as [|x a IH]; simpl; [done|]. destruct a; done. Qed.

Lemma last_char_split s c : last_char s = Some c -> exists a, s = a +:+ String c "".
Proof.
  induction s as [|x s IH]; simpl; [done|]. destruct s as [|y s].
  - intros [= ->]. by exists "".
  - intros H. destruct (IH H) as [a E]. exists (String x a). simpl. by rewrite E.
Qed.

Lemma lower_alnum_label c : lower_alnum c = true -> label_char c = true.
Proof. unfold label_char. intros ->. by rewrite orb_true_r. Qed.

Lemma dns_pattern_lang s :
  Lang dnsLabelPattern s <->
  all_chars label_char s = true /\
  (exists c, first_char s = Some c /\ lower_alnum c = true) /\
  (exists c, last_char s = Some c /\ lower_alnum c = true).
Proof.
  split.
  - intros L. split.
    { apply (lang_all_chars label_char dnsLabelPattern); [|done].
      repeat split; intros c Hc; auto using lower_alnum_label. }
    destruct L as (a & b & -> & (c & -> & Hc) & Hb). split; [by exists c|].
    destruct Hb as [->|(x & y & -> & _ & (d & -> & Hd))]; [by exists c|].
    exists d. split; [|done]. apply (last_char_app (String c x)).
  - intros (Hall & (c & Hc & Pc) & (d & Hd & Pd)).
    destruct s as [|c' s]; [done|]. injection Hc as ->. simpl in Hall.
    apply andb_true_iff in Hall as [_ Hall].
    exists (String c ""), s. split; [done|]. split; [by exists c|].
    destruct s as [|e s]; [by left|right].
    destruct (last_char_split (String e s) d Hd) as [a E]. rewrite E in Hall |- *.
    exists a, (String d ""). split; [done|]. rewrite all_chars_app in Hall.
    apply andb_true_iff in Hall as [Ha _]. split; [done|by exists d].
Qed.

Lemma validDNSLabel_spec s : validDNSLabel s = true <-> dns_label s.
Proof.
  unfold validDNSLabel. rewrite andb_true_iff, Nat.leb_le, rmatch_spec, dns_pattern_lang.
  split; [intros (? & ? & ? & ?)|intros []]; by repeat split.
Qed.

(** *** Parameters *)

Lemma validateKeys_nil ps : validateKeys ps [] = Ok tt <-> ps = ∅.
Proof.
  unfold validateKeys. simpl. destruct (Nat.eqb_spec (size ps) 0) as [E|E]; simpl.
  - by rewrite map_size_empty_iff in E.
  - split; [done|]. intros ->. by rewrite map_size_empty in E.
Qed.

Lemma validateKeys_one ps k :
  validateKeys ps [k] = Ok tt <-> exists v, ps = {[k := v]}.
Proof.
  unfold validateKeys. simpl. destruct (Nat.eqb_spec (size ps) 1) as [E|E]; simpl.
  - destruct (ps !! k) as [v|] eqn:Ek; simpl; split; try done.
    + intros _. exists v. pose proof (map_size_delete_Some k ps ltac:(by exists v)) as D.
      rewrite E in D. apply map_size_empty_inv in D. by rewrite <- (insert_delete_id ps k v Ek), D.
    + intros [w ->]. by rewrite lookup_singleton_eq in Ek.
  - split; [done|]. intros [v ->]. by rewrite map_size_singleton in E.
Qed.

Lemma lookup_param_singleton k v : lookup_param {[k := v]} k = v.
Proof. unfold lookup_param. by rewrite lookup_singleton_eq. Qed.

Lemma int_between_spec v lo hi :
  int_between v lo hi = true <-> exists n, Integer v = Some n /\ lo <= n <= hi.
Proof.
  unfold int_between. destruct (Integer v) as [n|]; split; try done.
  - intros H. reflect_tests. exists n. split; [done|lia].
  - intros (m & [= <-] & ?). apply andb_true_iff. lia.
  - by intros (? & ? & ?).
Qed.

(** *** Targets *)

Lemma no_char_of_class x p s :
  p x = false -> all_chars p s = true -> has_char x s = false.
Proof.
  intros Hx. induction s as [|c s IH]; simpl; [done|]. rewrite andb_true_iff. intros [Hc Hs].
  rewrite (IH Hs), orb_false_r. apply Ascii.eqb_neq. intros ->. congruence.
Qed.

Lemma valid_pod_target_spec target :
  valid_pod_target target = true <->
  exists ns pod, target = ns +:+ "/" +:+ pod /\ (ns = "local" \/ ns = "demo") /\ dns_label pod.
Proof.
  unfold valid_pod_target. split.
  - pose proof (Join_Split target "/") as J.
    destruct (Split target "/") as [|ns [|pod [|]]]; try done. intros H. reflect_tests.
    exists ns, pod. split; [by rewrite <- J|]. rewrite <- validDNSLabel_spec. split; [|done].
    apply orb_true_iff in H as [H|H]; reflect_tests; auto.
  - intros (ns & pod & -> & Hns & Hpod).
    assert (has_char "/" ns = false) as Hn by (by destruct Hns; subst).
    rewrite string_app_cons, string_app_nil, (Split_char_app "/" ns _ Hn), Split_char_None.
    + apply validDNSLabel_spec in Hpod. rewrite Hpod. by destruct Hns; subst.
    + by apply (no_char_of_class _ label_char), dns_chars.
Qed.

(** *** Tactic: decide which action a catalog test concerns *)
Ltac decide_action action :=
  repeat match goal with
  | |- context [action =?s ?a] => destruct (String.eqb_spec action a); [subst|]
  | H : context [action =?s ?a] |- _ => destruct (String.eqb_spec action a); [subst|]
  end.

Lemma Validate_ok_accepted action target ps :
  Validate action target ps = Ok tt -> accepted action target ps.
Proof.
  unfold Validate. decide_action action; intros H.
  - apply result_bind_ok in H as ([] & Hk & H). apply validateKeys_nil in Hk as ->.
    destruct (valid_pod_target target) eqn:E; [|done].
    apply valid_pod_target_spec in E as (ns & pod & -> & ? & ?). by constructor.
  - destruct (validDNSLabel target) eqn:E; [|done]. apply validDNSLabel_spec in E.
    apply result_bind_ok in H as ([] & Hk & H). apply validateKeys_one in Hk as [v ->].
    rewrite lookup_param_singleton in H. destruct (int_between v 2 50) eqn:B; [|done].
    apply int_between_spec in B as (k & ? & ?). by econstructor.
  - destruct (bool_decide (target ∈ allowedFlags)) eqn:E; [|done]. reflect_tests.
    apply result_bind_ok in H as ([] & Hk & H). apply validateKeys_one in Hk as [v ->].
    rewrite lookup_param_singleton in H. destruct v; try done. by constructor.
  - apply result_bind_ok in H as ([] & Hp & H).
    apply result_bind_ok in H as ([] & Hk & H). apply validateKeys_one in Hk as [v ->].
    rewrite lookup_param_singleton in H. destruct (int_between v 1 1000) eqn:B; [|done].
    apply int_between_spec in B as (k & ? & ?). by econstructor.
  - destruct (HasPrefix target "demo:pressure:") eqn:E; [|done].
    apply HasPrefix_spec in E as [r ->]. constructor.
  - apply accepted_unrestricted. rewrite !elem_of_cons, elem_of_nil. naive_solver.
Qed.

Lemma accepted_Validate_ok action target ps :
  accepted action target ps -> Validate action target ps = Ok tt.
Proof.
  destruct 1 as [ns pod Hns Hpod|target v n Ht Hv Hn|target b Ht|target v n Ht Hv Hn|suffix ps|action target ps Ha];
    unfold Validate.
  - rewrite (proj2 (validateKeys_nil ∅)) by done. simpl.
    by rewrite (proj2 (valid_pod_target_spec _)) by eauto.
  - rewrite (proj2 (validDNSLabel_spec _) Ht). simpl.
    rewrite (proj2 (validateKeys_one _ _)) by eauto. simpl. rewrite lookup_param_singleton.
    by rewrite (proj2 (int_between_spec _ _ _)) by eauto.
  - simpl. rewrite bool_decide_eq_true_2 by done. simpl.
    rewrite (proj2 (validateKeys_one _ _)) by eauto. simpl. by rewrite lookup_param_singleton.
  - simpl. rewrite Ht. simpl. rewrite (proj2 (validateKeys_one _ _)) by eauto. simpl.
    rewrite lookup_param_singleton. by rewrite (proj2 (int_between_spec _ _ _)) by eauto.
  - simpl. by rewrite (proj2 (HasPrefix_spec _ _)) by eauto.
  - rewrite !elem_of_cons, elem_of_nil in Ha. decide_action action; naive_solver.
Qed.

#[export] Hint Resolve accepted_Validate_ok Validate_ok_accepted : argus.

(** *** Risk *)

Definition rank (risk : string) : Z := default 0 (riskRank risk).

Lemma registered_risk action : action ∈ registered -> Risk action = "low" \/ Risk action = "medium".
Proof.
  unfold registered. rewrite !elem_of_cons, elem_of_nil. intros H.
  repeat destruct H as [->|H]; try done; vm_compute; auto.
Qed.

Lemma unregistered_risk action : action ∉ registered -> Risk action = "".
Proof.
  unfold Risk, str_at. intros H. destruct (risks !! action) eqn:E; [|done].
  exfalso. apply H. apply elem_of_list_to_map_2 in E. unfold registered.
  rewrite !elem_of_cons, elem_of_nil in E. rewrite !elem_of_cons, elem_of_nil.
  repeat destruct E as [[= -> _]|E]; tauto.
Qed.

Lemma low_risk_action action : Risk action = "low" -> action = CollectDiagnostics.
Proof.
  intros H. destruct (decide (action ∈ registered)) as [R|R].
  - unfold registered in R. rewrite !elem_of_cons, elem_of_nil in R.
    repeat destruct R as [->|R]; try done; vm_compute in H; done.
  - rewrite unregistered_risk in H by done. done.
Qed.

(** ** Properties *)

(** The catalog's validation accepts exactly the declared shapes: a pod in
    the local or demo namespace with a DNS-label name and no parameters, a pool
    resize of a service to 2..50 connections, a boolean toggle of an allow-listed
    flag, a scoped purge of 1..1000 keys, keys below demo:pressure:, and anything
    for the other actions. *)
Theorem Validate_iff_accepted action target ps :
  Validate action target ps = Ok tt <-> accepted action target ps.
Proof. split; auto with argus. Qed.
