(* ===== verification/Policy.v ===== *)
(** * The policy engine ([internal/policy/engine.go])

    A pure decision: who asks, for which incident, which action with which
    parameters, and how often it was tried. *)
From Stdlib Require Import Ascii String ZArith Lia.
From stdpp Require Import base gmap strings list pretty.
From S2P Require Import Prelude GoStrings GoValue Actions.
Open Scope Z_scope.

Record Input := mkInput {
  in_actor_id : string;
  in_actor_role : string;
  in_incident_id : string;
  in_incident_severity : string;
  in_incident_service : string;
  in_incident_environment : string;
  in_type : string;
  in_target : string;
  in_risk : string;
  in_dry_run : bool;
  in_parameters : params;
  in_same_action_last_10m : Z;
  in_failed_attempts : Z;
}.

Record Decision := mkDecision {
  d_allow : bool;
  d_requires_approval : bool;
  d_reason : string;
  d_max_attempts : Z;
  d_risk : string;
}.

Record Engine := mkEngine { environments : gset string }.

Definition NewEngineForEnvironments (envs : list string) : Engine :=
  mkEngine (list_to_set (filter (fun e => e <> "") (TrimSpace <$> envs))).

Definition NewEngine : Engine := NewEngineForEnvironments ["local"].

(** The decision the code starts from, with the reason of an early return. *)
Definition deny (reason risk : string) : Decision := mkDecision false true reason 1 risk.

Definition Evaluate (e : Engine) (i : Input) : Decision :=
  if in_actor_role i =?s "viewer"
  then deny "Viewer role cannot propose or execute remediation" ""
  else if in_actor_role i =?s ""
  then deny "Actor role is missing" ""
  else if negb (bool_decide (in_incident_environment i ∈ environments e))
  then deny ("Remediation is not enabled for environment " +:+ Quote (in_incident_environment i)) ""
  else
    let risk := EffectiveRisk (in_type i) (in_risk i) in
    if risk =?s "high" then deny "High-risk actions are blocked" risk
    else if negb (IsRegistered (in_type i)) then deny "Remediation type is not registered" risk
    else if 2 <=? in_same_action_last_10m i then deny "Too many repeated remediation attempts" risk
    else if 2 <=? in_failed_attempts i then deny "Circuit breaker: repeated remediation failures" risk
    else match Actions.Validate (in_type i) (in_target i) (in_parameters i) with
         | Fail err => deny (err_text err) risk
         | Ok _ =>
             if risk =?s "low"
             then mkDecision true false "Low-risk remediation is allowed" 2 risk
             else if risk =?s "medium"
             then mkDecision true true "Medium risk remediation requires approval" 1 risk
             else mkDecision false true "Unknown remediation risk level" 1 risk
         end.

(** ** Lemmas *)

Lemma EffectiveRisk_cases action requested :
  EffectiveRisk action requested = Risk action /\
    (requested = "" \/ 1 <= rank requested < rank (Risk action)) \/
  EffectiveRisk action requested = requested /\ requested <> "" /\
    (riskRank requested = None \/ rank (Risk action) <= rank requested).
Proof.
  unfold EffectiveRisk. fold (Risk action). generalize (Risk action) as catalog. intros catalog.
  unfold rank. destruct (String.eqb_spec requested ""); [by left; auto|].
  destruct (riskRank requested) as [r|] eqn:R; [|right; auto].
  assert (1 <= r) by (unfold riskRank in R; split_tests; simplify_eq; lia).
  destruct (Z.ltb_spec r (default 0 (riskRank catalog))); [left|right]; auto.
Qed.

(** The conditions under which a decision allows an action, in the order the
    code tests them. *)
Record permitted (e : Engine) (i : Input) : Prop := {
  perm_role : in_actor_role i <> "viewer" /\ in_actor_role i <> "";
  perm_env : in_incident_environment i ∈ environments e;
  perm_registered : in_type i ∈ registered;
  perm_repeats : in_same_action_last_10m i < 2;
  perm_failures : in_failed_attempts i < 2;
  perm_accepted : accepted (in_type i) (in_target i) (in_parameters i);
  perm_risk : EffectiveRisk (in_type i) (in_risk i) = "low" \/
              EffectiveRisk (in_type i) (in_risk i) = "medium";
}.

Lemma Evaluate_allow_permitted e i : d_allow (Evaluate e i) = true -> permitted e i.
Proof.
  unfold Evaluate, IsRegistered. intros H.
  destruct (in_actor_role i =?s "viewer") eqn:E1; [done|].
  destruct (in_actor_role i =?s "") eqn:E2; [done|].
  destruct (bool_decide (in_incident_environment i ∈ environments e)) eqn:E3; [|done]. simpl in H.
  destruct (EffectiveRisk (in_type i) (in_risk i) =?s "high") eqn:E4; [done|].
  destruct (bool_decide (in_type i ∈ registered)) eqn:E5; [|done]. simpl in H.
  destruct (2 <=? in_same_action_last_10m i) eqn:E6; [done|].
  destruct (2 <=? in_failed_attempts i) eqn:E7; [done|].
  destruct (Actions.Validate _ _ _) as [[]|] eqn:E8; [|done].
  split_tests; try done; split; auto with argus; lia.
Qed.

Lemma permitted_Evaluate e i :
  permitted e i ->
  Evaluate e i =
    if EffectiveRisk (in_type i) (in_risk i) =?s "low"
    then mkDecision true false "Low-risk remediation is allowed" 2 "low"
    else mkDecision true true "Medium risk remediation requires approval" 1 "medium".
Proof.
  intros [[Hv He] Henv Hreg Hrep Hfail Hacc Hrisk]. unfold Evaluate, IsRegistered.
  rewrite (proj2 (eqb_string_false _ _) Hv), (proj2 (eqb_string_false _ _) He).
  rewrite !bool_decide_eq_true_2 by done. simpl.
  rewrite (proj2 (Z.leb_gt 2 _) Hrep), (proj2 (Z.leb_gt 2 _) Hfail).
  rewrite (accepted_Validate_ok _ _ _ Hacc). by destruct Hrisk as [-> | ->].
Qed.

Lemma unattended_diagnostics e i :
  d_allow (Evaluate e i) = true -> d_requires_approval (Evaluate e i) = false ->
  in_type i = CollectDiagnostics /\ (in_risk i = "" \/ in_risk i = "low").
Proof.
  intros Ha Hr. apply Evaluate_allow_permitted in Ha as P.
  rewrite (permitted_Evaluate e i P) in Hr.
  destruct (EffectiveRisk (in_type i) (in_risk i) =?s "low") eqn:E; [|done]. reflect_tests.
  destruct (EffectiveRisk_cases (in_type i) (in_risk i)) as [[E' C]|[E' C]]; rewrite E in E'.
  - split; [by apply low_risk_action|]. destruct C as [C|C]; [auto|].
    rewrite <- E' in C. change (rank "low") with 1 in C. lia.
  - rewrite <- E' in C. destruct C as [_ [C|C]]; [done|].
    split; [|auto]. destruct (registered_risk (in_type i) (perm_registered _ _ P)) as [R|R].
    + by apply low_risk_action.
    + by rewrite R in C.
Qed.

(** ** Properties *)

(** C2: the policy engine allows a remediation exactly when the actor has a role
    other than viewer, the incident's environment is enabled, the action is
    registered, it was tried less than twice in ten minutes and failed less than
    twice, the catalog accepts its target and parameters, and its effective risk
    is low or medium. Everything else is denied. *)
Theorem Evaluate_allow_iff e i : d_allow (Evaluate e i) = true <-> permitted e i.
Proof.
  split; [apply Evaluate_allow_permitted|]. intros H. rewrite (permitted_Evaluate e i H).
  by destruct (_ =?s _).
Qed.

(** No action runs unattended except collecting diagnostics: a decision that
    allows a remediation without approval is about [collect_diagnostics], which
    was asked for with no risk or with risk low. *)
Theorem unattended_only_diagnostics e i :
  d_allow (Evaluate e i) = true -> d_requires_approval (Evaluate e i) = false ->
  in_type i = CollectDiagnostics /\ (in_risk i = "" \/ in_risk i = "low").
Proof. apply unattended_diagnostics. Qed.

Lemma unattended_only_diagnostics_witness :
  let i := mkInput "u" "operator" "inc" "sev2" "payments-api" "local" CollectDiagnostics
             "payments-api" "low" true ∅ 0 0 in
  in_type i = CollectDiagnostics /\ (in_risk i = "" \/ in_risk i = "low").
Proof. apply (unattended_only_diagnostics NewEngine); vm_compute; reflexivity. Defined.

(** A proposal may raise the risk of an action, never lower it: the risk an
    allowing decision is made on ranks at least as high as the catalog's class of
    the action and as the requested class. *)
Theorem decision_risk_never_lowered e i :
  d_allow (Evaluate e i) = true ->
  rank (Risk (in_type i)) <= rank (d_risk (Evaluate e i)) /\
  rank (in_risk i) <= rank (d_risk (Evaluate e i)).
Proof.
  intros Ha. apply Evaluate_allow_permitted in Ha as P.
  assert (d_risk (Evaluate e i) = EffectiveRisk (in_type i) (in_risk i)) as ->.
  { rewrite (permitted_Evaluate e i P).
    destruct (perm_risk _ _ P) as [E|E]; by rewrite E. }
  destruct (EffectiveRisk_cases (in_type i) (in_risk i)) as [[-> [->|C]]|[E [Hne [C|C]]]].
  - split; [done|]. unfold rank at 1. simpl. unfold rank, riskRank. split_tests; simpl; lia.
  - lia.
  - exfalso. destruct (perm_risk _ _ P) as [E'|E']; rewrite E' in E; rewrite <- E in C; done.
  - rewrite E. lia.
Qed.

Lemma decision_risk_never_lowered_witness :
  let i := mkInput "u" "operator" "inc" "sev2" "payments-api" "local" RestartService
             "payments-api" "low" true ∅ 1 1 in
  rank (Risk (in_type i)) <= rank (d_risk (Evaluate NewEngine i)) /\
  rank (in_risk i) <= rank (d_risk (Evaluate NewEngine i)).
Proof. apply decision_risk_never_lowered. vm_compute. reflexivity. Defined.
