(* ===== verification/Topology.v ===== *)
(** * The service graph ([internal/topology/graph.go])

    A graph of service dependencies, breadth-first search for the shortest
    dependency path between two services, and the grouping of alerting services
    behind their most likely root. *)
From Stdlib Require Import Ascii String ZArith Lia.
From stdpp Require Import base gmap strings list fin_sets sorting.
From S2P Require Import Prelude.

Record Dependency := mkDependency {
  dep_id : string;
  dep_service_id : string;
  dep_service : string;
  dep_depends_on_id : string;
  dep_depends_on : string;
  dep_type : string;
  dep_criticality : string;
  dep_created_at : Z;
}.

Record Path := mkPath { path_from : string; path_to : string; path_services : list string }.

Record Group := mkGroup {
  group_root : string;
  group_environment : string;
  group_inferred : bool;
  group_members : list string;
  group_paths : gmap string Path;
}.

Record Graph := mkGraph {
  dependencies : gmap string (list string);
  g_services : gset string;
}.

(** ** Construction *)

Definition appendUnique (values : list string) (v : string) : list string :=
  if decide (v ∈ values) then values else values ++ [v].

(** [g.dependencies[service]], nil when the service has none. *)
Definition deps (g : Graph) (service : string) : list string :=
  default [] (dependencies g !! service).

Definition add_edge (g : Graph) (edge : Dependency) : Graph :=
  if (dep_service edge =?s "") || (dep_depends_on edge =?s "") || (dep_service edge =?s dep_depends_on edge)
  then g
  else mkGraph
    (<[dep_service edge := appendUnique (deps g (dep_service edge)) (dep_depends_on edge)]> (dependencies g))
    ({[dep_depends_on edge]} ∪ ({[dep_service edge]} ∪ g_services g)).

Definition New (edges : list Dependency) : Graph :=
  let g := foldl add_edge (mkGraph ∅ ∅) edges in
  mkGraph (sort_strings <$> dependencies g) (g_services g).

(** ** Breadth-first search *)

Inductive scan_result :=
  | Found (path : list string)
  | Continue (visited : gset string) (queue : list (string * list string)).

(** The inner loop over the dependencies of the service taken off the queue. *)
Fixpoint scan (dependency : string) (path nexts : list string) (visited : gset string)
    (queue : list (string * list string)) : scan_result :=
  match nexts with
  | [] => Continue visited queue
  | next :: rest =>
      if decide (next ∈ visited) then scan dependency path rest visited queue
      else if decide (next = dependency) then Found (path ++ [next])
      else scan dependency path rest ({[next]} ∪ visited) (queue ++ [(next, path ++ [next])])
  end.

Inductive search_result :=
  | FoundPath (path : list string)
  | NoPath
  | OutOfFuel.

(** The outer loop. *)
Fixpoint search (g : Graph) (fuel : nat) (dependency : string)
    (queue : list (string * list string)) (visited : gset string) : search_result :=
  match queue with
  | [] => NoPath
  | (service, path) :: rest =>
      match fuel with
      | O => OutOfFuel
      | S f =>
          match scan dependency path (deps g service) visited rest with
          | Found p => FoundPath p
          | Continue visited' queue' => search g f dependency queue' visited'
          end
      end
  end.

(** Every service that appears as a dependency. *)
Definition targets (g : Graph) : gset string :=
  list_to_set (mjoin (map_to_list (dependencies g)).*2).

(** Every service enqueued after the first is a new target, so one iteration per
    target and one for the start are enough ([search_terminates]). *)
Definition search_fuel (g : Graph) : nat := S (size (targets g)).

Definition graph_path (g : Graph) (service dependency : string) : option Path :=
  if (service =?s "") || (dependency =?s "") then None
  else if service =?s dependency then Some (mkPath service dependency [service])
  else match search g (search_fuel g) dependency [(service, [service])] {[service]} with
       | FoundPath p => Some (mkPath service dependency p)
       | _ => None
       end.

(** ** Grouping *)

(** The breadth-first closure of [rootCandidates] from one alerting service:
    [visited] collects the candidates it adds. *)
Fixpoint close_scan (nexts : list string) (visited : gset string) (queue : list string) : gset string * list string :=
  match nexts with
  | [] => (visited, queue)
  | dependency :: rest =>
      if decide (dependency ∈ visited) then close_scan rest visited queue
      else close_scan rest ({[dependency]} ∪ visited) (queue ++ [dependency])
  end.

Fixpoint close (g : Graph) (fuel : nat) (queue : list string) (visited : gset string) : option (gset string) :=
  match queue with
  | [] => Some visited
  | current :: rest =>
      match fuel with
      | O => None
      | S f => let '(visited', queue') := close_scan (deps g current) visited rest in
               close g f queue' visited'
      end
  end.

Definition rootCandidates (g : Graph) (services : gset string) : list string :=
  sortedKeys (⋃ ((fun service =>
    default {[service]} (close g (search_fuel g) [service] {[service]})) <$> elements services)).

Definition covered (g : Graph) (root : string) (services : gset string) : list string * Z :=
  let hits := omap (fun service => p ← graph_path g service root; Some (service, p)) (elements services) in
  (sort_strings hits.*1,
   foldr (fun h acc => Z.of_nat (length (path_services h.2)) - 1 + acc)%Z 0%Z hits).

Record candidate := mkCandidate {
  c_root : string;
  c_members : list string;
  c_distance : Z;
  c_alerted : bool;
}.

Definition betterRoot (a best : candidate) : bool :=
  if negb (length (c_members a) =? length (c_members best))%nat
  then (length (c_members best) <? length (c_members a))%nat
  else if negb (c_distance a =? c_distance best)%Z
  then (c_distance a <? c_distance best)%Z
  else if negb (Bool.eqb (c_alerted a) (c_alerted best))
  then c_alerted a
  else (c_root best =?s "") || (c_root a <?s c_root best).

Definition consider (g : Graph) (unassigned alertedSet : gset string) (best : candidate) (root : string) : candidate :=
  let '(members, distance) := covered g root unassigned in
  match members with
  | [] => best
  | _ => let a := mkCandidate root members distance (bool_decide (root ∈ alertedSet)) in
         if betterRoot a best then a else best
  end.

Definition firstKey (values : gset string) : string :=
  match sortedKeys values with [] => "" | k :: _ => k end.

(** The root one iteration of [Groups] settles on. *)
Definition pickRoot (g : Graph) (unassigned alertedSet : gset string) : candidate :=
  let best := foldl (consider g unassigned alertedSet) (mkCandidate "" [] 0 false)
                (rootCandidates g unassigned) in
  if c_root best =?s ""
  then mkCandidate (firstKey unassigned) [firstKey unassigned] (c_distance best) true
  else best.

Definition makeGroup (g : Graph) (best : candidate) : Group :=
  mkGroup (c_root best) "" (negb (c_alerted best)) (c_members best)
    (list_to_map ((fun m => (m, default (mkPath "" "" []) (graph_path g m (c_root best)))) <$> c_members best)).

Fixpoint groupLoop (g : Graph) (fuel : nat) (alertedSet unassigned : gset string) : option (list Group) :=
  if decide (unassigned = ∅) then Some []
  else match fuel with
       | O => None
       | S f =>
           let best := pickRoot g unassigned alertedSet in
           rest ← groupLoop g f alertedSet (unassigned ∖ list_to_set (c_members best));
           Some (makeGroup g best :: rest)
       end.

Definition uniqueSorted (values : list string) : list string :=
  sortedKeys (list_to_set (filter (fun v => v <> "") values)).

Definition byRoot (a b : Group) : bool := group_root a <?s group_root b.

(** Each iteration assigns at least one service: the number of services is fuel
    enough ([Groups_partition]). *)
Definition Groups (g : Graph) (services : list string) : list Group :=
  let alerted : gset string := list_to_set (uniqueSorted services) in
  sort_stable byRoot (default [] (groupLoop g (size alerted) alerted alerted)).

(** ** Walks: the specification of a dependency path *)

(** [walk g a p b]: [p] lists the services of a chain of dependencies from [a]
    to [b], both ends included. *)
Inductive walk (g : Graph) (a : string) : list string -> string -> Prop :=
  | walk_here : walk g a [a] a
  | walk_snoc p b c : walk g a p b -> c ∈ deps g b -> walk g a (p ++ [c]) c.

(** A shortest chain. *)
Definition shortest (g : Graph) (a : string) (p : list string) (b : string) : Prop :=
  walk g a p b /\ forall q, walk g a q b -> length p <= length q.

Lemma deps_targets g s d : d ∈ deps g s -> d ∈ targets g.
Proof.
  intros Hd. unfold targets, deps in *. rewrite elem_of_list_to_set.
  destruct (dependencies g !! s) as [l|] eqn:E; simpl in Hd; [|by apply elem_of_nil in Hd].
  apply list_elem_of_join. exists l. split; [done|]. apply list_elem_of_fmap. exists (s, l).
  split; [done|]. by apply elem_of_map_to_list.
Qed.

Lemma walk_length g a p b : walk g a p b -> 1 <= length p.
Proof. destruct 1; [done|]. rewrite length_app. simpl. lia. Qed.

Lemma size_visit (X V : gset string) d :
  d ∈ X -> d ∉ V -> size (X ∖ V) = S (size (X ∖ ({[d]} ∪ V))).
Proof.
  intros Hx Hv. assert (X ∖ V = {[d]} ∪ X ∖ ({[d]} ∪ V)) as ->.
  { apply set_eq. intros x. destruct (decide (x = d)); set_solver. }
  rewrite size_union by set_solver. by rewrite size_singleton.
Qed.

(** ** Correctness of the search *)
Section search_correct.
Context (g : Graph) (src dst : string).

(** The services of the queue entries. *)
Definition names (q : list (string * list string)) : list string := q.*1.

(** What holds of the queue and the visited set while the entry [(s, p)] is
    being expanded: visited services off the queue have only visited
    dependencies, queued paths are shortest, and they are at most one step longer
    than the path being expanded. *)
Record frontier (s : string) (p : list string) (queue : list (string * list string))
    (visited : gset string) : Prop := {
  fr_src : src ∈ visited;
  fr_dst : dst ∉ visited;
  fr_closed : forall v d, v ∈ visited -> d ∈ deps g v -> d ∈ visited \/ v = s \/ v ∈ names queue;
  fr_short : forall t q, (t, q) ∈ (s, p) :: queue -> t ∈ visited /\ shortest g src q t;
  fr_levels : Forall (fun e => length p <= length e.2 <= S (length p)) queue;
  fr_sorted : StronglySorted (fun a b => length a.2 <= length b.2) queue;
}.

(** A walk that leaves the visited set does so from the expanded or a queued
    service, at a depth no smaller than the expanded path's. *)
Lemma frontier_exit s p queue visited w x :
  frontier s p queue visited -> walk g src w x -> x ∉ visited -> S (length p) <= length w.
Proof.
  intros F W. induction W as [|w b c W IH Hc]; intros Hx; [by destruct Hx; apply F|].
  rewrite length_app. simpl. destruct (decide (b ∈ visited)) as [Hb|Hb]; [|specialize (IH Hb); lia].
  destruct (fr_closed _ _ _ _ F b c Hb Hc) as [?|[->|Hq]]; [done| |].
  - destruct (fr_short _ _ _ _ F s p) as [_ [_ Hmin]]; [left|]. specialize (Hmin w W). lia.
  - apply list_elem_of_fmap in Hq as ([t q] & Et & Hq). simpl in Et. subst t.
    destruct (fr_short _ _ _ _ F b q) as [_ [_ Hmin]]; [by right|]. specialize (Hmin w W).
    pose proof (fr_levels _ _ _ _ F) as L. rewrite Forall_forall in L.
    specialize (L _ Hq). simpl in L. lia.
Qed.

(** The next dependency, when not visited, is reached by a shortest path. *)
Lemma frontier_shortest s p queue visited d :
  frontier s p queue visited -> d ∈ deps g s -> d ∉ visited -> shortest g src (p ++ [d]) d.
Proof.
  intros F Hd Hv. split.
  - apply (walk_snoc _ _ p s); [|done]. by apply (fr_short _ _ _ _ F s p); left.
  - intros q Hq. rewrite length_app. simpl. pose proof (frontier_exit _ _ _ _ _ _ F Hq Hv). lia.
Qed.

Lemma frontier_visit s p queue visited d :
  frontier s p queue visited -> d ∈ deps g s -> d ∉ visited -> d <> dst ->
  frontier s p (queue ++ [(d, p ++ [d])]) ({[d]} ∪ visited).
Proof.
  intros F Hd Hv Hne. pose proof (frontier_shortest _ _ _ _ _ F Hd Hv) as Hs.
  destruct F as [F1 F2 F3 F4 F5 F6]. split.
  - set_solver.
  - set_solver.
  - intros v e Hv' He. unfold names in *. rewrite fmap_app, elem_of_app. simpl.
    destruct (decide (v = d)) as [->|]; [right; right; right; left|].
    destruct (F3 v e) as [?|[?|?]]; [set_solver|done|set_solver|auto|auto].
  - intros t q Hin. rewrite app_comm_cons, elem_of_app in Hin.
    destruct Hin as [Hin|Hin]; [destruct (F4 t q Hin); split; [set_solver|done]|].
    apply list_elem_of_singleton in Hin. injection Hin as -> ->. split; [set_solver|done].
  - apply Forall_app. split; [done|]. apply Forall_singleton. simpl. rewrite length_app. simpl. lia.
  - clear -F5 F6. induction queue as [|e queue IH]; simpl; [repeat constructor|].
    inversion F5; inversion F6; subst. constructor; [auto|]. apply Forall_app. split; [done|].
    apply Forall_singleton. simpl. rewrite length_app. simpl. lia.
Qed.

(** The inner loop finds a shortest path to the target, or keeps the invariant
    with every dependency of the expanded service visited. *)
Lemma scan_spec s p nexts queue visited :
  frontier s p queue visited -> (forall d, d ∈ nexts -> d ∈ deps g s) ->
  (forall d, d ∈ deps g s -> d ∈ nexts \/ d ∈ visited) ->
  match scan dst p nexts visited queue with
  | Found q => shortest g src q dst
  | Continue visited' queue' =>
      frontier s p queue' visited' /\ (forall d, d ∈ deps g s -> d ∈ visited')
  end.
Proof.
  revert queue visited. induction nexts as [|d nexts IH]; intros queue visited F Hsub Hdone; simpl.
  { split; [done|]. intros d Hd. by destruct (Hdone d Hd) as [?%elem_of_nil|]. }
  assert (Hd : d ∈ deps g s) by (apply Hsub; left).
  destruct (decide (d ∈ visited)) as [Hv|Hv]; [apply IH; [done|set_solver|set_solver]|].
  destruct (decide (d = dst)) as [->|Hne]; [by eapply frontier_shortest|].
  apply IH; [by apply frontier_visit|set_solver|set_solver].
Qed.

(** Between two iterations of the outer loop the head of the queue is the entry
    expanded next. *)
Definition between (queue : list (string * list string)) (visited : gset string) : Prop :=
  match queue with
  | [] => src ∈ visited /\ dst ∉ visited /\ forall v d, v ∈ visited -> d ∈ deps g v -> d ∈ visited
  | (s, p) :: rest => frontier s p rest visited
  end.

Lemma frontier_done s p queue visited :
  frontier s p queue visited -> (forall d, d ∈ deps g s -> d ∈ visited) -> between queue visited.
Proof.
  intros [F1 F2 F3 F4 F5 F6] Hs. destruct queue as [|[t q] queue]; simpl.
  - split; [done|]. split; [done|]. intros v d Hv Hd. destruct (F3 v d Hv Hd) as [?|[->|?%elem_of_nil]]; auto; done.
  - inversion F5; inversion F6; subst. simpl in *. split; try done.
    + intros v d Hv Hd. destruct (F3 v d Hv Hd) as [?|[->|?%elem_of_cons]]; [auto|auto|naive_solver].
    + intros t' q' Hin. apply F4. by right.
    + rewrite !Forall_forall in *. intros e He. split; [auto|]. specialize (H2 e He). lia.
Qed.

Lemma closed_walk (visited : gset string) w x :
  src ∈ visited -> (forall v d, v ∈ visited -> d ∈ deps g v -> d ∈ visited) ->
  walk g src w x -> x ∈ visited.
Proof. intros Hs Hc. induction 1; eauto. Qed.

Lemma search_spec fuel queue visited :
  between queue visited ->
  match search g fuel dst queue visited with
  | FoundPath p => shortest g src p dst
  | NoPath => forall p, ~ walk g src p dst
  | OutOfFuel => True
  end.
Proof.
  revert queue visited. induction fuel as [|f IH]; intros [|[s p] queue] visited B; simpl; try done.
  - destruct B as (B1 & B2 & B3). intros w W. by apply B2, (closed_walk _ w).
  - destruct B as (B1 & B2 & B3). intros w W. by apply B2, (closed_walk _ w).
  - pose proof (scan_spec s p (deps g s) queue visited B) as Hs.
    destruct (scan dst p (deps g s) visited queue) as [q|visited' queue']; [apply Hs; auto|].
    destruct Hs as [F Hd]; [auto|auto|]. apply IH. by eapply frontier_done.
Qed.

(** *** Termination *)

Lemma scan_measure p nexts visited queue :
  (forall d, d ∈ nexts -> d ∈ targets g) ->
  match scan dst p nexts visited queue with
  | Found _ => True
  | Continue visited' queue' =>
      length queue' + size (targets g ∖ visited') = length queue + size (targets g ∖ visited)
  end.
Proof.
  revert visited queue. induction nexts as [|d nexts IH]; intros visited queue Ht; simpl; [done|].
  destruct (decide (d ∈ visited)); [apply IH; set_solver|].
  destruct (decide (d = dst)); [done|].
  specialize (IH ({[d]} ∪ visited) (queue ++ [(d, p ++ [d])]) ltac:(set_solver)).
  destruct (scan _ _ _ _ _); [done|]. rewrite IH, length_app. simpl.
  rewrite (size_visit (targets g) visited d) by set_solver. lia.
Qed.

Lemma search_terminates fuel queue visited :
  length queue + size (targets g ∖ visited) <= fuel ->
  search g fuel dst queue visited <> OutOfFuel.
Proof.
  revert queue visited. induction fuel as [|f IH]; intros [|[s p] queue] visited Hf; simpl in *; try done; [lia|].
  pose proof (scan_measure p (deps g s) visited queue (deps_targets g s)) as M.
  destruct (scan dst p (deps g s) visited queue) as [|visited' queue']; [done|]. apply IH. lia.
Qed.

Lemma between_start : src <> dst -> between [(src, [src])] {[src]}.
Proof.
  intros Hne. simpl. split; [set_solver|set_solver| | |constructor|constructor].
  - intros v d Hv _. right. left. set_solver.
  - intros t q Hin. apply list_elem_of_singleton in Hin. injection Hin as -> ->.
    split; [set_solver|]. split; [constructor|]. intros q W. simpl. by eapply walk_length.
Qed.
End search_correct.

Lemma search_enough g src dst :
  search g (search_fuel g) dst [(src, [src])] {[src]} <> OutOfFuel.
Proof.
  apply search_terminates. unfold search_fuel. simpl.
  apply le_n_S, subseteq_size. set_solver.
Qed.

Lemma graph_path_Some g a b p :
  graph_path g a b = Some p ->
  a <> "" /\ b <> "" /\ path_from p = a /\ path_to p = b /\ shortest g a (path_services p) b.
Proof.
  unfold graph_path. destruct ((a =?s "") || (b =?s "")) eqn:E0; [done|].
  apply orb_false_iff in E0 as [Ha Hb]. reflect_tests.
  destruct (String.eqb_spec a b) as [->|Hne].
  - intros [= <-]. simpl. repeat split; try done; [constructor|]. intros q. apply walk_length.
  - pose proof (search_spec g a b (search_fuel g) _ _ (between_start g a b Hne)) as S.
    destruct (search _ _ _ _ _); try done. by intros [= <-].
Qed.

Lemma graph_path_None g a b :
  graph_path g a b = None -> a = "" \/ b = "" \/ forall p, ~ walk g a p b.
Proof.
  unfold graph_path. destruct ((a =?s "") || (b =?s "")) eqn:E0.
  { apply orb_true_iff in E0 as [E0|E0]; reflect_tests; auto. }
  destruct (String.eqb_spec a b) as [->|Hne]; [done|].
  pose proof (search_spec g a b (search_fuel g) _ _ (between_start g a b Hne)) as S.
  pose proof (search_enough g a b). destruct (search _ _ _ _ _); try done. by right; right.
Qed.

Lemma graph_path_walk g a b w :
  a <> "" -> b <> "" -> walk g a w b -> is_Some (graph_path g a b).
Proof.
  intros Ha Hb W. destruct (graph_path g a b) eqn:E; [by eexists|].
  apply graph_path_None in E as [?|[?|H]]; [done|done|]. by destruct (H w).
Qed.

Lemma graph_path_self g a : a <> "" -> is_Some (graph_path g a a).
Proof. intros Ha. apply (graph_path_walk g a a [a]); [done|done|constructor]. Qed.

(** ** Candidates *)

Section close_correct.
Context (g : Graph) (src : string).

Definition reaches (x : string) : Prop := exists w, walk g src w x.

Lemma close_scan_spec cur nexts visited queue :
  reaches cur -> (forall d, d ∈ nexts -> d ∈ deps g cur) ->
  (forall v, v ∈ visited -> reaches v) -> (forall v, v ∈ queue -> v ∈ visited) ->
  let '(visited', queue') := close_scan nexts visited queue in
  visited ⊆ visited' /\ (forall v, v ∈ visited' -> reaches v) /\ (forall v, v ∈ queue' -> v ∈ visited') /\
  (forall d, d ∈ nexts -> d ∈ visited') /\
  (forall v, v ∈ visited' -> v ∈ visited \/ v ∈ queue') /\ (forall v, v ∈ queue -> v ∈ queue') /\
  length queue' + size (targets g ∖ visited') = length queue + size (targets g ∖ visited).
Proof.
  intros [w W]. revert visited queue. induction nexts as [|d nexts IH]; intros visited queue Hn Hr Hq; simpl.
  { split_and!; auto. by intros d ?%elem_of_nil. }
  assert (Hd : d ∈ deps g cur) by (apply Hn; left).
  destruct (decide (d ∈ visited)) as [Hv|Hv].
  - specialize (IH visited queue ltac:(set_solver) Hr Hq).
    destruct (close_scan nexts visited queue) as [v' q']. destruct IH as (? & ? & ? & ? & ? & ? & ?).
    split_and!; try done. intros e [->|?]%elem_of_cons; [set_solver|auto].
  - specialize (IH ({[d]} ∪ visited) (queue ++ [d]) ltac:(set_solver)).
    destruct (close_scan nexts ({[d]} ∪ visited) (queue ++ [d])) as [v' q'].
    destruct IH as (H1 & H2 & H3 & H4 & H5 & H6 & H7).
    + intros v [?%elem_of_singleton|?]%elem_of_union; [subst|auto]. exists (w ++ [d]). by econstructor.
    + intros v [?|?%list_elem_of_singleton]%elem_of_app; set_solver.
    + split_and!; try done.
      * set_solver.
      * intros e [->|?]%elem_of_cons; [set_solver|auto].
      * intros v Hv'. destruct (H5 v Hv') as [[?%elem_of_singleton|?]%elem_of_union|?]; [|by left|by right].
        right. apply H6. set_solver.
      * intros v Hv'. apply H6. set_solver.
      * rewrite H7, length_app. rewrite (size_visit (targets g) visited d); [simpl; lia| |done].
        by eapply deps_targets.
Qed.

Lemma close_spec fuel queue visited :
  src ∈ visited -> (forall v, v ∈ visited -> reaches v) -> (forall v, v ∈ queue -> v ∈ visited) ->
  (forall v d, v ∈ visited -> d ∈ deps g v -> d ∈ visited \/ v ∈ queue) ->
  length queue + size (targets g ∖ visited) <= fuel ->
  exists vs, close g fuel queue visited = Some vs /\ forall v, v ∈ vs <-> reaches v.
Proof.
  revert queue visited. induction fuel as [|f IH]; intros [|cur queue] visited Hs Hr Hq Hc Hf; simpl in *.
  - exists visited. split; [done|]. intros v. split; [auto|]. intros [w W].
    apply (closed_walk g src visited w v); [done| |done]. intros u d Hu Hd.
    by destruct (Hc u d Hu Hd) as [?|?%elem_of_nil].
  - lia.
  - exists visited. split; [done|]. intros v. split; [auto|]. intros [w W].
    apply (closed_walk g src visited w v); [done| |done]. intros u d Hu Hd.
    by destruct (Hc u d Hu Hd) as [?|?%elem_of_nil].
  - assert (reaches cur) as Hcur by (apply Hr, Hq; left).
    pose proof (close_scan_spec cur (deps g cur) visited queue Hcur) as S.
    destruct (close_scan (deps g cur) visited queue) as [v' q'].
    destruct S as (S1 & S2 & S3 & S4 & S5 & S6 & S7); [auto|auto|intros v Hv; apply Hq; by right|].
    apply IH; try done; [set_solver| |lia].
    intros u d Hu Hd. destruct (S5 u Hu) as [Hu'|?]; [|auto].
    destruct (Hc u d Hu' Hd) as [?|[->|?]%elem_of_cons]; [set_solver|left; auto|auto].
Qed.

Lemma close_enough :
  exists vs, close g (search_fuel g) [src] {[src]} = Some vs /\ forall v, v ∈ vs <-> reaches v.
Proof.
  apply close_spec; [set_solver| |set_solver| |].
  - intros v Hv%elem_of_singleton. subst. exists [src]. constructor.
  - intros v d Hv _. right. set_solver.
  - unfold search_fuel. simpl. apply le_n_S, subseteq_size. set_solver.
Qed.
End close_correct.

Lemma elem_of_rootCandidates g services r :
  r ∈ rootCandidates g services <-> exists s w, s ∈ services /\ walk g s w r.
Proof.
  unfold rootCandidates. rewrite elem_of_sortedKeys, elem_of_union_list. split.
  - intros (X & (s & -> & Hs)%list_elem_of_fmap & Hr).
    destruct (close_enough g s) as (vs & E & Hvs). rewrite E in Hr. simpl in Hr.
    apply Hvs in Hr as [w W]. exists s, w. by rewrite elem_of_elements in Hs.
  - intros (s & w & Hs & W). destruct (close_enough g s) as (vs & E & Hvs). exists vs. split.
    + apply list_elem_of_fmap. exists s. by rewrite E, elem_of_elements.
    + apply Hvs. by exists w.
Qed.

(** ** Members and roots *)

Lemma elem_of_covered g root services m :
  m ∈ (covered g root services).1 <-> m ∈ services /\ is_Some (graph_path g m root).
Proof.
  unfold covered. simpl. rewrite elem_of_sort_strings, list_elem_of_fmap. split.
  - intros ([s p] & -> & Hs). apply list_elem_of_omap in Hs as (s' & Hs' & E).
    simplify_option_eq. rewrite elem_of_elements in Hs'. simpl. eauto.
  - intros [Hm [p Hp]]. exists (m, p). split; [done|]. apply list_elem_of_omap. exists m.
    rewrite elem_of_elements. by rewrite Hp.
Qed.

Lemma omap_fst_sub {A} (f : string -> option A) (l : list string) :
  (omap (fun s => p ← f s; Some (s, p)) l).*1 `sublist_of` l.
Proof.
  induction l as [|s l IH]; simpl; [constructor|].
  destruct (f s); simpl; by constructor.
Qed.

Lemma NoDup_covered g root services : NoDup (covered g root services).1.
Proof.
  unfold covered. simpl. rewrite sort_strings_perm.
  apply (sublist_NoDup _ (elements services)); [apply NoDup_elements|apply omap_fst_sub].
Qed.

Lemma covered_empty_root g services : (covered g "" services).1 = [].
Proof.
  destruct (covered g "" services).1 as [|m l] eqn:E; [done|].
  assert (m ∈ (covered g "" services).1) as Hm by (rewrite E; left).
  apply elem_of_covered in Hm as [_ [p Hp]]. by apply graph_path_Some in Hp as (_ & ? & _).
Qed.

#[local] Opaque covered.

(** A root that explains some of the unassigned services, described by the
    services it covers. *)
Definition settled (g : Graph) (unassigned alertedSet : gset string) (c : candidate) : Prop :=
  c_root c <> "" /\ c_members c <> [] /\ c_members c = (covered g (c_root c) unassigned).1 /\
  c_alerted c = bool_decide (c_root c ∈ alertedSet).

Definition no_root (c : candidate) : Prop := c_root c = "" /\ c_members c = [].

Lemma betterRoot_size a b :
  if betterRoot a b then length (c_members b) <= length (c_members a)
  else length (c_members a) <= length (c_members b).
Proof.
  unfold betterRoot. destruct (Nat.eqb_spec (length (c_members a)) (length (c_members b))) as [E|E]; simpl.
  - rewrite E. match goal with |- if ?b then _ else _ => by destruct b end.
  - destruct (Nat.ltb_spec (length (c_members b)) (length (c_members a))); lia.
Qed.

Lemma consider_spec g unassigned alertedSet best root :
  no_root best \/ settled g unassigned alertedSet best ->
  let best' := consider g unassigned alertedSet best root in
  ((no_root best' /\ best' = best) \/ settled g unassigned alertedSet best') /\
  length (c_members best) <= length (c_members best') /\
  length (covered g root unassigned).1 <= length (c_members best').
Proof.
  intros Hb. unfold consider. destruct (covered g root unassigned) as [members distance] eqn:E.
  destruct members as [|m l] eqn:El; simpl; [split; [naive_solver|lia]|].
  set (a := mkCandidate root (m :: l) distance _).
  pose proof (betterRoot_size a best) as B. destruct (betterRoot a best) eqn:Eb; simpl in *.
  - split; [right|lia]. unfold settled, a. simpl. rewrite E. split_and!; try done.
    intros ->. pose proof (covered_empty_root g unassigned) as C. by rewrite E in C.
  - split; [|lia]. destruct Hb as [[Hr Hm]|Hb]; [|by right]. rewrite Hm in B. simpl in B. lia.
Qed.

Lemma consider_all g unassigned alertedSet roots best :
  no_root best \/ settled g unassigned alertedSet best ->
  let best' := foldl (consider g unassigned alertedSet) best roots in
  (no_root best' \/ settled g unassigned alertedSet best') /\
  length (c_members best) <= length (c_members best') /\
  forall r, r ∈ roots -> length (covered g r unassigned).1 <= length (c_members best').
Proof.
  revert best. induction roots as [|r roots IH]; intros best Hb; simpl.
  { split; [done|]. split; [done|]. by intros r ?%elem_of_nil. }
  destruct (consider_spec g unassigned alertedSet best r Hb) as (C1 & C2 & C3).
  destruct (IH (consider g unassigned alertedSet best r)) as (I1 & I2 & I3); [naive_solver|].
  split; [done|]. split; [lia|]. intros r' [->|Hr]%elem_of_cons; [lia|auto].
Qed.

(** One iteration settles on a root that covers at least as many unassigned
    services as any service they depend on. *)
Lemma pickRoot_spec g unassigned alertedSet :
  unassigned <> ∅ -> "" ∉ unassigned ->
  settled g unassigned alertedSet (pickRoot g unassigned alertedSet) /\
  forall r s w, s ∈ unassigned -> walk g s w r ->
    length (covered g r unassigned).1 <= length (c_members (pickRoot g unassigned alertedSet)).
Proof.
  intros Hne Hnil. unfold pickRoot.
  destruct (consider_all g unassigned alertedSet (rootCandidates g unassigned) (mkCandidate "" [] 0 false))
    as (H1 & _ & H3); [by left|].
  set (best := foldl _ _ _) in *.
  assert (Hset : settled g unassigned alertedSet best).
  { destruct H1 as [[_ Hm]|H1]; [|done]. exfalso.
    destruct (set_choose_L unassigned Hne) as [s Hs].
    specialize (H3 s). rewrite Hm in H3. simpl in H3.
    assert (Hc : s ∈ (covered g s unassigned).1).
    { apply elem_of_covered. split; [done|]. apply graph_path_self. set_solver. }
    destruct (covered g s unassigned).1; [by apply elem_of_nil in Hc|]. simpl in H3.
    assert (s ∈ rootCandidates g unassigned); [|specialize (H3 ltac:(done)); lia].
    apply elem_of_rootCandidates. exists s, [s]. split; [done|constructor]. }
  pose proof Hset as (Hr & _). rewrite (proj2 (eqb_string_false _ _) Hr). split; [done|].
  intros r s w Hs W. apply H3. apply elem_of_rootCandidates. by exists s, w.
Qed.

(** ** The partition *)

(** What one group promises about its members. *)
Definition well_grouped (g : Graph) (alertedSet : gset string) (gr : Group) : Prop :=
  group_members gr <> [] /\ group_root gr <> "" /\
  group_inferred gr = negb (bool_decide (group_root gr ∈ alertedSet)) /\
  forall m, m ∈ group_members gr ->
    exists p, group_paths gr !! m = Some p /\ path_from p = m /\ path_to p = group_root gr /\
      shortest g m (path_services p) (group_root gr).

Lemma makeGroup_ok g unassigned alertedSet best :
  settled g unassigned alertedSet best -> well_grouped g alertedSet (makeGroup g best).
Proof.
  intros (Hr & Hm & Hcov & Hal). unfold well_grouped, makeGroup. simpl.
  split_and!; [done|done|by rewrite Hal|]. intros m Hin.
  pose proof Hin as Hin'. rewrite Hcov in Hin'. apply elem_of_covered in Hin' as [_ [p Hp]].
  exists p. split; [|by apply graph_path_Some in Hp as (_ & _ & ? & ? & ?)].
  apply elem_of_list_to_map_1.
  - rewrite <- list_fmap_compose. apply (NoDup_fmap_2 (fun x => x)).
    rewrite Hcov. apply NoDup_covered.
  - apply list_elem_of_fmap. exists m. by rewrite Hp.
Qed.

Lemma groupLoop_spec g alertedSet fuel unassigned :
  "" ∉ unassigned -> size unassigned <= fuel ->
  exists gs, groupLoop g fuel alertedSet unassigned = Some gs /\
    mjoin (group_members <$> gs) ≡ₚ elements unassigned /\
    Forall (well_grouped g alertedSet) gs /\ NoDup (group_root <$> gs).
Proof.
  revert unassigned. induction fuel as [|f IH]; intros unassigned Hnil Hf; simpl.
  { assert (unassigned = ∅) as -> by (apply leibniz_equiv, size_empty_inv; lia).
    exists []. simpl. rewrite elements_empty. split_and!; try done; constructor. }
  destruct (decide (unassigned = ∅)) as [->|Hne].
  { exists []. simpl. rewrite elements_empty. split_and!; try done; constructor. }
  destruct (pickRoot_spec g unassigned alertedSet Hne Hnil) as [Hset _].
  set (best := pickRoot g unassigned alertedSet) in *.
  pose proof Hset as (Hr & Hm & Hcov & Hal).
  set (X := list_to_set (c_members best) : gset string).
  assert (HX : forall m, m ∈ X <-> m ∈ unassigned /\ is_Some (graph_path g m (c_root best))).
  { intros m. unfold X. rewrite elem_of_list_to_set, Hcov. apply elem_of_covered. }
  assert (Hsub : X ⊆ unassigned) by (intros m Hx; by apply HX).
  destruct (IH (unassigned ∖ X)) as (gs & E & P & W & N); [set_solver| |].
  { rewrite size_difference by done. assert (size X <> 0); [|lia].
    intros Z. apply size_empty_inv in Z. destruct (c_members best) eqn:Em; [done|].
    unfold X in Z. simpl in Z. set_solver. }
  rewrite E. simpl. eexists. split; [done|]. simpl. split_and!.
  - rewrite P. assert (c_members best ≡ₚ elements X) as ->.
    { unfold X. rewrite elements_list_to_set; [done|]. rewrite Hcov. apply NoDup_covered. }
    rewrite <- elements_disj_union by set_solver. f_equiv.
    intros m. destruct (decide (m ∈ X)); set_solver.
  - constructor; [by eapply makeGroup_ok|done].
  - apply NoDup_cons. split; [|done]. intros (gr & Er & Hgr)%list_elem_of_fmap.
    rewrite Forall_forall in W. specialize (W gr Hgr) as (Wm & _ & _ & Wp).
    destruct (group_members gr) as [|m l] eqn:Em; [done|].
    destruct (Wp m) as (p & _ & _ & _ & [Wk _]); [left|].
    assert (m ∈ unassigned ∖ X) as Hmx.
    { apply elem_of_elements. rewrite <- P. apply list_elem_of_join. exists (m :: l).
      split; [left|]. rewrite <- Em. by apply list_elem_of_fmap_2. }
    apply elem_of_difference in Hmx as [Hmu Hmx]. apply Hmx, HX. split; [done|].
    rewrite <- Er in Wk. eapply graph_path_walk; [set_solver|done|exact Wk].
Qed.

Lemma elem_of_uniqueSorted s services : s ∈ uniqueSorted services <-> s ∈ services /\ s <> "".
Proof.
  unfold uniqueSorted. rewrite elem_of_sortedKeys, elem_of_list_to_set, list_elem_of_filter. tauto.
Qed.

(** What a call of [Groups] returns. *)
Lemma Groups_spec g services :
  mjoin (group_members <$> Groups g services) ≡ₚ uniqueSorted services /\
  NoDup (group_root <$> Groups g services) /\ Forall (well_grouped g (list_to_set (uniqueSorted services))) (Groups g services).
Proof.
  unfold Groups. set (A := list_to_set (uniqueSorted services) : gset string). simpl.
  assert (Hnil : "" ∉ A).
  { unfold A. rewrite elem_of_list_to_set, elem_of_uniqueSorted. tauto. }
  destruct (groupLoop_spec g A (size A) A Hnil) as (gs & -> & P & W & N); [done|]. simpl.
  rewrite !sort_stable_perm. split_and!; [|done..]. rewrite P. unfold A.
  apply elements_list_to_set, NoDup_sortedKeys.
Qed.

Lemma Groups_cover g services s : s ∈ services -> s <> "" -> exists gr, gr ∈ Groups g services /\ s ∈ group_members gr.
Proof.
  intros Hs Hne. destruct (Groups_spec g services) as [P _].
  assert (s ∈ mjoin (group_members <$> Groups g services)) as H by (rewrite P; by apply elem_of_uniqueSorted).
  apply list_elem_of_join in H as (l & Hl & (gr & -> & Hgr)%list_elem_of_fmap). by exists gr.
Qed.

(** ** Properties *)

(** C35: the dependency path between two services is a shortest chain of
    dependencies from the first to the second, and a path is reported missing
    only when a name is empty or no chain exists; the breadth-first search
    always terminates with its answer. *)
Theorem Path_shortest_or_absent g service dependency :
  match graph_path g service dependency with
  | Some p => path_from p = service /\ path_to p = dependency /\
              shortest g service (path_services p) dependency
  | None => service = "" \/ dependency = "" \/ forall p, ~ walk g service p dependency
  end.
Proof.
  destruct (graph_path g service dependency) as [p|] eqn:E.
  - by apply graph_path_Some in E as (_ & _ & ? & ? & ?).
  - by apply graph_path_None.
Qed.

(** C20: grouping partitions the alerting services: every distinct non-empty
    service is a member of exactly one group, groups are non-empty with distinct
    roots in increasing order, each member's recorded path is a shortest chain of
    dependencies to the root, and a root is inferred exactly when it did not
    alert itself. *)
Theorem Groups_partition g services :
  let gs := Groups g services in
  mjoin (group_members <$> gs) ≡ₚ uniqueSorted services /\
  NoDup (group_root <$> gs) /\
  StronglySorted str_le (group_root <$> gs) /\
  Forall (well_grouped g (list_to_set (uniqueSorted services))) gs.
Proof.
  destruct (Groups_spec g services) as (P & N & W). split_and!; [exact P|exact N| |exact W].
  unfold Groups. apply (StronglySorted_fmap _ (not_after byRoot)); [done|]. apply sort_stable_sorted.
  - intros x y. apply string_ltb_asym.
  - intros x y z. apply str_le_trans.
Qed.

(** The grouping is greedy: among the services that the unassigned services
    depend on (themselves included), none covers more of them than the root that
    is picked, and the root that is picked covers at least one. *)
Theorem pickRoot_greedy g unassigned alertedSet :
  unassigned <> ∅ -> "" ∉ unassigned ->
  let best := pickRoot g unassigned alertedSet in
  c_members best <> [] /\
  c_members best = (covered g (c_root best) unassigned).1 /\
  forall r s w, s ∈ unassigned -> walk g s w r ->
    length (covered g r unassigned).1 <= length (c_members best).
Proof.
  intros Hne Hnil. destruct (pickRoot_spec g unassigned alertedSet Hne Hnil) as [(_ & ? & ? & _) ?].
  done.
Qed.

(** A small storefront: the edge depends on checkout, checkout on payments and
    notifications, payments on the database. *)
Definition demo_edge (a b : string) : Dependency :=
  mkDependency (a +:+ "->" +:+ b) a a b b "synchronous" "critical" 0.
Definition demo_graph : Graph := New
  [demo_edge "nginx" "checkout-api"; demo_edge "checkout-api" "payments-api";
   demo_edge "checkout-api" "notification-api"; demo_edge "payments-api" "postgres"].

Lemma pickRoot_greedy_witness :
  let best := pickRoot demo_graph {["nginx"; "payments-api"]} {["nginx"; "payments-api"]} in
  c_members best <> [] /\
  c_members best = (covered demo_graph (c_root best) {["nginx"; "payments-api"]}).1 /\
  forall r s w, s ∈ ({["nginx"; "payments-api"]} : gset string) -> walk demo_graph s w r ->
    length (covered demo_graph r {["nginx"; "payments-api"]}).1 <= length (c_members best).
Proof. apply pickRoot_greedy; set_solver. Defined.

Example demo_groups :
  (fun gr => (group_root gr, group_inferred gr, group_members gr)) <$>
    Groups demo_graph ["nginx"; "postgres"; "billing"; "nginx"; ""; "payments-api"]
  = [("billing", false, ["billing"]); ("postgres", false, ["nginx"; "payments-api"; "postgres"])].
Proof. vm_compute. reflexivity. Qed.

Example demo_inferred_root :
  (fun gr => (group_root gr, group_inferred gr, group_members gr)) <$>
    Groups demo_graph ["notification-api"; "payments-api"]
  = [("notification-api", false, ["notification-api"]); ("payments-api", false, ["payments-api"])].
Proof. vm_compute. reflexivity. Qed.
