(* ===== verification/Lifecycle.v ===== *)
(** * State machines: remediations and incidents

    [internal/remediation/states.go] and the lifecycle table of
    [internal/incidents/service.go]. States are strings in the sources, and stay
    strings here: the tables decide on any text. *)
From Stdlib Require Import Ascii String ZArith Lia.
From stdpp Require Import base gmap strings list relations.
From S2P Require Import Prelude.

(** ** Remediations *)
Module Rem.

Definition StateProposed : string := "proposed".
Definition StatePolicyBlocked : string := "policy_blocked".
Definition StateAwaitingApproval : string := "awaiting_approval".
Definition StateApproved : string := "approved".
Definition StateRejected : string := "rejected".
Definition StateQueued : string := "queued".
Definition StateRunning : string := "running".
Definition StateSucceeded : string := "succeeded".
Definition StateFailed : string := "failed".
Definition StateTimedOut : string := "timed_out".
Definition StateCancelled : string := "cancelled".

Definition IsTerminalState (state : string) : bool :=
  bool_decide (state ∈ [StatePolicyBlocked; StateRejected; StateSucceeded; StateFailed; StateTimedOut; StateCancelled]).

(** [allowed[from]] of [CanTransition]. *)
Definition allowed (from : string) : list string :=
  if from =?s StateProposed then [StatePolicyBlocked; StateAwaitingApproval; StateApproved; StateCancelled]
  else if from =?s StateAwaitingApproval then [StateApproved; StateRejected; StateTimedOut; StateCancelled]
  else if from =?s StateApproved then [StateQueued; StateCancelled]
  else if from =?s StateQueued then [StateRunning; StateSucceeded; StateFailed; StateTimedOut; StateCancelled]
  else if from =?s StateRunning then [StateSucceeded; StateFailed; StateTimedOut]
  else if from =?s StateFailed then [StateApproved]
  else [].

Definition CanTransition (from to : string) : bool :=
  (from =?s to) || bool_decide (to ∈ allowed from).

Definition RequireTransition (from to : string) : result unit :=
  if CanTransition from to then Ok tt
  else Fail (errorf ("invalid remediation transition " +:+ from +:+ " -> " +:+ to)).

Definition states : list string :=
  [StateProposed; StatePolicyBlocked; StateAwaitingApproval; StateApproved; StateRejected; StateQueued;
   StateRunning; StateSucceeded; StateFailed; StateTimedOut; StateCancelled].

End Rem.

(** ** Incidents *)
Module Inc.

Definition StatusDetected : string := "detected".
Definition StatusTriaged : string := "triaged".
Definition StatusInvestigating : string := "investigating".
Definition StatusRCAGenerated : string := "rca_generated".
Definition StatusRemediationProposed : string := "remediation_proposed".
Definition StatusAwaitingApproval : string := "awaiting_approval".
Definition StatusRemediating : string := "remediating".
Definition StatusMitigated : string := "mitigated".
Definition StatusResolved : string := "resolved".
Definition StatusFailed : string := "failed".
Definition StatusCancelled : string := "cancelled".

(** The [transitions] table. *)
Definition transitions : gmap string (list string) := list_to_map
  [(StatusDetected, [StatusTriaged; StatusInvestigating; StatusRCAGenerated; StatusResolved; StatusCancelled]);
   (StatusTriaged, [StatusInvestigating; StatusRCAGenerated; StatusResolved; StatusCancelled]);
   (StatusInvestigating, [StatusRCAGenerated; StatusResolved; StatusFailed]);
   (StatusRCAGenerated, [StatusRemediationProposed; StatusAwaitingApproval; StatusResolved]);
   (StatusRemediationProposed, [StatusAwaitingApproval; StatusRemediating; StatusResolved]);
   (StatusAwaitingApproval, [StatusRemediating; StatusResolved; StatusCancelled]);
   (StatusRemediating, [StatusMitigated; StatusResolved; StatusFailed]);
   (StatusMitigated, [StatusResolved]);
   (StatusFailed, [StatusInvestigating; StatusResolved])].

Definition CanTransition (from to : string) : bool :=
  bool_decide (to ∈ default [] (transitions !! from)).

Definition IsClosed (status : string) : bool :=
  (status =?s StatusResolved) || (status =?s StatusCancelled).

Definition AllowedFrom (to : string) : list string :=
  sort_strings (filter (fun state => CanTransition state to = true) (map_to_list transitions).*1).

Definition statuses : list string :=
  [StatusDetected; StatusTriaged; StatusInvestigating; StatusRCAGenerated; StatusRemediationProposed;
   StatusAwaitingApproval; StatusRemediating; StatusMitigated; StatusResolved; StatusFailed; StatusCancelled].

Lemma elem_of_AllowedFrom from to : from ∈ AllowedFrom to <-> CanTransition from to = true.
Proof.
  unfold AllowedFrom. rewrite elem_of_sort_strings, list_elem_of_filter, list_elem_of_fmap. split.
  - by intros [? _].
  - intros H. split; [done|]. unfold CanTransition in H. reflect_tests.
    destruct (transitions !! from) as [l|] eqn:E; simpl in H; [|by apply elem_of_nil in H].
    exists (from, l). split; [done|]. by apply elem_of_map_to_list.
Qed.

(** The steps an incident's status can take, one per applied transition. *)
Definition step (a b : string) : Prop := CanTransition a b = true.

Lemma closed_stuck a b : IsClosed a = true -> CanTransition a b = false.
Proof.
  unfold IsClosed. intros [H|H]%orb_true_iff; reflect_tests; subst; unfold CanTransition;
    by apply bool_decide_eq_false; vm_compute; intros ?%elem_of_nil.
Qed.

End Inc.

(** ** Lemmas *)

(** Both tables as executable checks over the declared names. *)
Definition inc_table_closed : bool :=
  forallb (fun kv => bool_decide (kv.1 ∈ Inc.statuses) && forallb (fun s => bool_decide (s ∈ Inc.statuses)) kv.2)
    (map_to_list Inc.transitions).

Lemma inc_successors a b : Inc.CanTransition a b = true -> a ∈ Inc.statuses /\ b ∈ Inc.statuses.
Proof.
  unfold Inc.CanTransition. intros H. reflect_tests.
  destruct (Inc.transitions !! a) as [l|] eqn:E; simpl in H; [|by apply elem_of_nil in H].
  apply elem_of_map_to_list in E. assert (inc_table_closed = true) as C by (vm_compute; reflexivity).
  apply (forallb_elem _ _ _ C) in E. simpl in E. reflect_tests. split; [done|].
  apply (forallb_elem _ _ _ H1) in H. by reflect_tests.
Qed.

Lemma inc_open_resolvable a :
  a ∈ Inc.statuses -> Inc.CanTransition a Inc.StatusResolved = negb (Inc.IsClosed a).
Proof.
  intros H. assert (forallb (fun a => Bool.eqb (Inc.CanTransition a Inc.StatusResolved) (negb (Inc.IsClosed a))) Inc.statuses = true)
    as C by (vm_compute; reflexivity).
  by apply Bool.eqb_prop, (forallb_elem _ _ _ C).
Qed.

Lemma rem_CanTransition_spec a b : Rem.CanTransition a b = true <-> a = b \/ b ∈ Rem.allowed a.
Proof.
  unfold Rem.CanTransition. rewrite orb_true_iff, eqb_string_true. by rewrite bool_decide_eq_true.
Qed.

(** One applied transition that is not an approval. *)
Definition unapproved_step (a b : string) : Prop := Rem.CanTransition a b = true /\ b <> Rem.StateApproved.

Definition before_approval : list string :=
  [Rem.StateProposed; Rem.StatePolicyBlocked; Rem.StateAwaitingApproval; Rem.StateRejected; Rem.StateTimedOut; Rem.StateCancelled].

Lemma unapproved_step_closed a b : a ∈ before_approval -> unapproved_step a b -> b ∈ before_approval.
Proof.
  intros Ha [[->|Hb]%rem_CanTransition_spec Hne]; [done|].
  assert (forallb (fun a => forallb (fun b => (b =?s Rem.StateApproved) || bool_decide (b ∈ before_approval)) (Rem.allowed a))
    before_approval = true) as C by (vm_compute; reflexivity).
  apply (forallb_elem _ _ _ C) in Ha. apply (forallb_elem _ _ _ Ha) in Hb.
  apply orb_true_iff in Hb as [Hb|Hb]; by reflect_tests.
Qed.

(** ** Properties *)

(** The incident lifecycle is sound: a known status is closed exactly when it
    has no successor, and otherwise it can be resolved in one step; every status
    reachable from a known one is known; and once an incident is resolved or
    cancelled no sequence of transitions moves it. *)
Theorem incident_lifecycle a :
  a ∈ Inc.statuses ->
  (Inc.IsClosed a = true <-> forall b, Inc.CanTransition a b = false) /\
  (Inc.IsClosed a = false <-> Inc.step a Inc.StatusResolved) /\
  (forall b, rtc Inc.step a b -> b ∈ Inc.statuses /\ (Inc.IsClosed a = true -> b = a)).
Proof.
  intros Ha. pose proof (inc_open_resolvable a Ha) as Hr. unfold Inc.step. split_and!.
  - split; [intros Hc b; by apply Inc.closed_stuck|]. intros Hb. rewrite Hb in Hr. by destruct (Inc.IsClosed a).
  - rewrite Hr. by destruct (Inc.IsClosed a).
  - intros b. induction 1 as [x|x y z Hxy _ IH]; [done|]. split.
    + apply IH; [by apply (inc_successors x)|]. apply inc_open_resolvable. by apply (inc_successors x).
    + intros Hc. unfold Inc.step in Hxy. by rewrite (Inc.closed_stuck x y Hc) in Hxy.
Qed.

Lemma incident_lifecycle_witness :
  Inc.step Inc.StatusRemediating Inc.StatusResolved /\
  (forall b, rtc Inc.step Inc.StatusRemediating b -> b ∈ Inc.statuses /\ (Inc.IsClosed Inc.StatusRemediating = true -> b = Inc.StatusRemediating)).
Proof.
  destruct (incident_lifecycle Inc.StatusRemediating) as (_ & H2 & H3); [apply (bool_decide_eq_true_1 _); vm_compute; reflexivity|].
  split; [by apply H2|exact H3].
Defined.

(** No remediation runs unapproved: following any sequence of transitions from
    [proposed] that never enters [approved], it is never queued, running,
    succeeded or failed. *)
Theorem never_runs_unapproved s :
  rtc unapproved_step Rem.StateProposed s ->
  s ∉ [Rem.StateQueued; Rem.StateRunning; Rem.StateSucceeded; Rem.StateFailed].
Proof.
  intros H. assert (s ∈ before_approval) as Hs.
  { assert (Rem.StateProposed ∈ before_approval) as Ha by apply list_elem_of_here. revert Ha.
    induction H as [x|x y z Hxy _ IH]; [done|]. intros Hx. by eapply IH, unapproved_step_closed. }
  intros Hin. assert (forallb (fun s => negb (bool_decide (s ∈ before_approval)))
    [Rem.StateQueued; Rem.StateRunning; Rem.StateSucceeded; Rem.StateFailed] = true) as C by (vm_compute; reflexivity).
  apply (forallb_elem _ _ _ C) in Hin. by reflect_tests.
Qed.

Lemma never_runs_unapproved_witness :
  Rem.StateRejected ∉ [Rem.StateQueued; Rem.StateRunning; Rem.StateSucceeded; Rem.StateFailed].
Proof.
  apply never_runs_unapproved. apply (rtc_l _ _ Rem.StateAwaitingApproval).
  - split; [vm_compute; reflexivity|discriminate].
  - apply rtc_once. split; [vm_compute; reflexivity|discriminate].
Defined.

(** Terminal remediation states are final, with one exception: from a terminal
    state other than [failed] the table allows no transition to another state,
    and from [failed] only back to [approved]. *)
Theorem terminal_states_final a b :
  Rem.IsTerminalState a = true -> Rem.CanTransition a b = true ->
  a = b \/ a = Rem.StateFailed /\ b = Rem.StateApproved.
Proof.
  unfold Rem.IsTerminalState. intros Ha. reflect_tests. intros [->|Hb]%rem_CanTransition_spec; [by left|right].
  assert (forallb (fun a => forallb (fun b => (a =?s Rem.StateFailed) && (b =?s Rem.StateApproved)) (Rem.allowed a))
    [Rem.StatePolicyBlocked; Rem.StateRejected; Rem.StateSucceeded; Rem.StateFailed; Rem.StateTimedOut; Rem.StateCancelled] = true)
    as C by (vm_compute; reflexivity).
  apply (forallb_elem _ _ _ C) in Ha. apply (forallb_elem _ _ _ Ha) in Hb. by reflect_tests.
Qed.

Lemma terminal_states_final_witness :
  Rem.StateFailed = Rem.StateApproved \/ Rem.StateFailed = Rem.StateFailed /\ Rem.StateApproved = Rem.StateApproved.
Proof. apply terminal_states_final; vm_compute; reflexivity. Defined.
