(* ===== verification/Json.v ===== *)
(** * JSON text

    What [encoding/json] does with the texts the audit ledger hashes: decoding
    with [UseNumber], which keeps a number's text, and encoding with sorted
    object keys and HTML escaping. Strings are UTF-8; a byte above 127 stands
    for part of a valid rune. *)
From Stdlib Require Import Ascii String ZArith Lia Permutation Sorted.
From stdpp Require Import base gmap strings list.
From S2P Require Import Prelude GoStrings Regexp.
Open Scope nat_scope.

Inductive json :=
  | JNull
  | JBool (b : bool)
  | JNum (text : string)
  | JStr (s : string)
  | JArr (l : list json)
  | JObj (m : list (string * json)).

Section json_rect.
Context (P : json -> Prop).
Hypothesis Hnull : P JNull.
Hypothesis Hbool : forall b, P (JBool b).
Hypothesis Hnum : forall t, P (JNum t).
Hypothesis Hstr : forall s, P (JStr s).
Hypothesis Harr : forall l, Forall P l -> P (JArr l).
Hypothesis Hobj : forall m, Forall (fun kv => P kv.2) m -> P (JObj m).

Fixpoint json_nested_ind (t : json) : P t :=
  match t with
  | JNull => Hnull
  | JBool b => Hbool b
  | JNum s => Hnum s
  | JStr s => Hstr s
  | JArr l => Harr l ((fix go l : Forall P l :=
      match l with [] => Forall_nil_2 _ | x :: l => Forall_cons_2 _ _ _ (json_nested_ind x) (go l) end) l)
  | JObj m => Hobj m ((fix go m : Forall (fun kv => P kv.2) m :=
      match m with [] => Forall_nil_2 _ | kv :: m => Forall_cons_2 _ kv _ (json_nested_ind kv.2) (go m) end) m)
  end.
End json_rect.

(** ** Encoding *)

Definition unicode_escape (hi lo : ascii) : string := "\u" +:+ hexbyte hi +:+ hexbyte lo.

Definition esc (c : ascii) : string :=
  match N_of_ascii c with
  | 8%N => "\b" | 9%N => "\t" | 10%N => "\n" | 12%N => "\f" | 13%N => "\r"
  | 34%N => String backslash dq
  | 92%N => "\\"
  | 60%N | 62%N | 38%N => unicode_escape (chr 0) c
  | n => if (n <? 32)%N then unicode_escape (chr 0) c else String c ""
  end.

(** The UTF-8 bytes of U+2028 and U+2029, which the encoder escapes. *)
Definition is_line_separator (a b c : ascii) : bool :=
  ((N_of_ascii a =? 226) && (N_of_ascii b =? 128) && ((N_of_ascii c =? 168) || (N_of_ascii c =? 169)))%N.

Fixpoint enc_body (s : string) : string :=
  match s with
  | EmptyString => ""
  | String a r =>
      match r with
      | String b (String c r') =>
          if is_line_separator a b c
          then unicode_escape (chr 32) (chr (N_of_ascii c - 128)) +:+ enc_body r'
          else esc a +:+ enc_body r
      | _ => esc a +:+ enc_body r
      end
  end.
Definition enc_string (s : string) : string := dq +:+ enc_body s +:+ dq.

Fixpoint enc (t : json) : string :=
  match t with
  | JNull => "null"
  | JBool b => fmt_bool b
  | JNum text => text
  | JStr s => enc_string s
  | JArr l => "[" +:+ Join (List.map enc l) "," +:+ "]"
  | JObj m => "{" +:+ Join (List.map (fun kv => enc_string kv.1 +:+ ":" +:+ enc kv.2) m) "," +:+ "}"
  end.

(** ** Decoding *)

Definition is_ws (c : ascii) : bool :=
  match N_of_ascii c with 32%N | 9%N | 10%N | 13%N => true | _ => false end.
Fixpoint skip_ws (s : string) : string :=
  match s with String c r => if is_ws c then skip_ws r else s | EmptyString => "" end.

Definition hexval (c : ascii) : option N :=
  let n := N_of_ascii c in
  if is_digit c then Some (n - 48)%N
  else if in_range 97 102 c then Some (n - 87)%N
  else if in_range 65 70 c then Some (n - 55)%N
  else None.
Definition hex4 (a b c d : ascii) : option N :=
  x ← hexval a; y ← hexval b; z ← hexval c; w ← hexval d;
  Some (((x * 16 + y) * 16 + z) * 16 + w)%N.

(** The UTF-8 encoding of a code point. *)
Definition utf8 (cp : N) : string :=
  (if cp <? 128 then String (chr cp) ""
   else if cp <? 2048 then String (chr (192 + cp / 64)) (String (chr (128 + cp mod 64)) "")
   else if cp <? 65536
   then String (chr (224 + cp / 4096)) (String (chr (128 + (cp / 64) mod 64)) (String (chr (128 + cp mod 64)) ""))
   else String (chr (240 + cp / 262144)) (String (chr (128 + (cp / 4096) mod 64))
          (String (chr (128 + (cp / 64) mod 64)) (String (chr (128 + cp mod 64)) ""))))%N.
Definition is_surrogate (cp : N) : bool := ((55296 <=? cp) && (cp <? 57344))%N.
Definition surrogate_pair (hi lo : N) : option N :=
  (if (hi <? 56320) && (56320 <=? lo) && (lo <? 57344)
   then Some ((hi - 55296) * 1024 + (lo - 56320) + 65536) else None)%N.
Definition replacement : string := utf8 65533.

Definition unescape (c : ascii) : option ascii :=
  match N_of_ascii c with
  | 34%N | 92%N | 47%N => Some c
  | 98%N => Some (chr 8) | 102%N => Some (chr 12) | 110%N => Some (chr 10)
  | 114%N => Some (chr 13) | 116%N => Some (chr 9)
  | _ => None
  end.

Definition prepend (p : string) (m : option (string * string)) : option (string * string) :=
  '(s, r) ← m; Some (p +:+ s, r).

(** The body of a string up to its closing quote, and the rest. *)
Fixpoint parse_body (s : string) : option (string * string) :=
  match s with
  | EmptyString => None
  | String c r =>
      if Ascii.eqb c quote_char then Some ("", r)
      else if Ascii.eqb c backslash then
        match r with
        | EmptyString => None
        | String e r1 =>
            if Ascii.eqb e "u" then
              match r1 with
              | String h1 (String h2 (String h3 (String h4 r2))) =>
                  match hex4 h1 h2 h3 h4 with
                  | None => None
                  | Some cp =>
                      if is_surrogate cp then
                        match r2 with
                        | String b (String u (String k1 (String k2 (String k3 (String k4 r3))))) =>
                            match (if Ascii.eqb b backslash && Ascii.eqb u "u" then hex4 k1 k2 k3 k4 else None) ≫= surrogate_pair cp with
                            | Some full => prepend (utf8 full) (parse_body r3)
                            | None => prepend replacement (parse_body r2)
                            end
                        | _ => prepend replacement (parse_body r2)
                        end
                      else prepend (utf8 cp) (parse_body r2)
                  end
              | _ => None
              end
            else match unescape e with
                 | Some ch => prepend (String ch "") (parse_body r1)
                 | None => None
                 end
        end
      else if (N_of_ascii c <? 32)%N then None
      else prepend (String c "") (parse_body r)
  end.

(** A number: the longest run of number characters, which must be an optional
    minus sign, an integer part without a leading zero, and optional fraction and
    exponent parts. *)
Definition is_char (x c : ascii) : bool := Ascii.eqb c x.
Definition num_char (c : ascii) : bool :=
  is_digit c || is_char "+" c || is_char "-" c || is_char "." c || is_char "e" c || is_char "E" c.
Definition digits1 : regexp := RCat (RClass is_digit) (RStar is_digit).
Definition number_re : regexp :=
  RCat (ROpt (RClass (is_char "-")))
    (RCat (RAlt (RClass (is_char "0")) (RCat (RClass (in_range 49 57)) (RStar is_digit)))
      (RCat (ROpt (RCat (RClass (is_char ".")) digits1))
        (ROpt (RCat (RClass (fun c => is_char "e" c || is_char "E" c))
          (RCat (ROpt (RClass (fun c => is_char "+" c || is_char "-" c))) digits1))))).
Definition valid_number (s : string) : bool := rmatch number_re s.

Fixpoint span (p : ascii -> bool) (s : string) : string * string :=
  match s with
  | EmptyString => ("", "")
  | String c r => if p c then let '(a, b) := span p r in (String c a, b) else ("", s)
  end.

Fixpoint parse_value (n : nat) (s : string) {struct n} : option (json * string) :=
  match n with
  | O => None
  | S n =>
      match skip_ws s with
      | EmptyString => None
      | String c r =>
          if Ascii.eqb c quote_char then '(x, r) ← parse_body r; Some (JStr x, r)
          else if Ascii.eqb c "{" then
            match skip_ws r with
            | EmptyString => None
            | String d r' =>
                if Ascii.eqb d "}" then Some (JObj [], r')
                else '(m, r) ← parse_members n (String d r'); Some (JObj m, r)
            end
          else if Ascii.eqb c "[" then
            match skip_ws r with
            | EmptyString => None
            | String d r' =>
                if Ascii.eqb d "]" then Some (JArr [], r')
                else '(l, r) ← parse_elems n (String d r'); Some (JArr l, r)
            end
          else if HasPrefix (String c r) "null" then Some (JNull, drop_chars 4 (String c r))
          else if HasPrefix (String c r) "true" then Some (JBool true, drop_chars 4 (String c r))
          else if HasPrefix (String c r) "false" then Some (JBool false, drop_chars 5 (String c r))
          else let '(text, r') := span num_char (String c r) in
               if valid_number text then Some (JNum text, r') else None
      end
  end
with parse_members (n : nat) (s : string) {struct n} : option (list (string * json) * string) :=
  match n with
  | O => None
  | S n =>
      match skip_ws s with
      | EmptyString => None
      | String c r =>
          if negb (Ascii.eqb c quote_char) then None
          else
            '(k, r1) ← parse_body r;
            match skip_ws r1 with
            | EmptyString => None
            | String d r2 =>
                if negb (Ascii.eqb d ":") then None
                else
                  '(v, r3) ← parse_value n r2;
                  match skip_ws r3 with
                  | EmptyString => None
                  | String e r4 =>
                      if Ascii.eqb e "," then '(m, r5) ← parse_members n r4; Some ((k, v) :: m, r5)
                      else if Ascii.eqb e "}" then Some ([(k, v)], r4) else None
                  end
            end
      end
  end
with parse_elems (n : nat) (s : string) {struct n} : option (list json * string) :=
  match n with
  | O => None
  | S n =>
      '(v, r3) ← parse_value n s;
      match skip_ws r3 with
      | EmptyString => None
      | String e r4 =>
          if Ascii.eqb e "," then '(l, r5) ← parse_elems n r4; Some (v :: l, r5)
          else if Ascii.eqb e "]" then Some ([v], r4) else None
      end
  end.

(** [decoder.Decode]: the first value of the text. Each nested call consumes a
    byte, so the length is fuel enough. *)
Definition Decode (raw : string) : option json := fst <$> parse_value (S (String.length raw)) raw.

(** ** Canonical form *)

(** Decoding into a Go map keeps the last of several members with one key;
    encoding writes the keys in order. *)
Fixpoint insert_member {A} (k : string) (v : A) (m : list (string * A)) : list (string * A) :=
  match m with
  | [] => [(k, v)]
  | (k', v') :: m' =>
      if k =?s k' then (k, v) :: m'
      else if k <?s k' then (k, v) :: m
      else (k', v') :: insert_member k v m'
  end.
Definition as_map {A} (m : list (string * A)) : list (string * A) :=
  foldl (fun acc kv => insert_member kv.1 kv.2 acc) [] m.

Fixpoint canonical (t : json) : json :=
  match t with
  | JArr l => JArr (List.map canonical l)
  | JObj m => JObj (as_map (List.map (fun kv => (kv.1, canonical kv.2)) m))
  | _ => t
  end.

(** ** Round trip: strings *)

Lemma prepend_some p m s r : m = Some (s, r) -> prepend p m = Some (p +:+ s, r).
Proof. by intros ->. Qed.

Lemma parse_body_esc c r s rest :
  parse_body r = Some (s, rest) -> parse_body (esc c +:+ r) = Some (String c s, rest).
Proof.
  intros H. destruct c as [[] [] [] [] [] [] [] []]; vm_compute (esc _); simpl_app; rewrite ?string_app_nil;
    vm_compute (hex4 _ _ _ _); simpl; rewrite ?H; try reflexivity.
Qed.

Lemma line_separator_cases a b c :
  is_line_separator a b c = true -> a = chr 226 /\ b = chr 128 /\ (c = chr 168 \/ c = chr 169).
Proof.
  unfold is_line_separator, chr. rewrite !andb_true_iff, orb_true_iff, !N.eqb_eq. intros [[Ha Hb] Hc].
  rewrite <- Ha, <- Hb, !ascii_N_embedding. split_and!; [done|done|].
  destruct Hc as [Hc|Hc]; rewrite <- Hc, ascii_N_embedding; auto.
Qed.

Lemma parse_body_separator c r s rest :
  c = chr 168 \/ c = chr 169 -> parse_body r = Some (s, rest) ->
  parse_body (unicode_escape (chr 32) (chr (N_of_ascii c - 128)) +:+ r) =
  Some (String (chr 226) (String (chr 128) (String c s)), rest).
Proof.
  intros [-> | ->] H; vm_compute (unicode_escape _ _); simpl_app; rewrite ?string_app_nil;
    vm_compute (hex4 _ _ _ _); simpl; by rewrite H.
Qed.

Lemma parse_body_enc s rest : parse_body (enc_body s +:+ dq +:+ rest) = Some (s, rest).
Proof.
  remember (String.length s) as n eqn:Hn. revert s Hn.
  induction n as [n IH] using lt_wf_ind. intros s Hn. destruct s as [|a r]; [done|].
  assert (parse_body ((esc a +:+ enc_body r) +:+ dq +:+ rest) = Some (String a r, rest)) as Hplain.
  { rewrite string_app_assoc. apply parse_body_esc. apply (IH (String.length r)); [simpl in Hn; lia|done]. }
  destruct r as [|b [|c r]]; [exact Hplain|exact Hplain|]. simpl enc_body.
  destruct (is_line_separator a b c) eqn:E; [|exact Hplain].
  apply line_separator_cases in E as (-> & -> & Hc). rewrite string_app_assoc.
  apply parse_body_separator; [done|]. apply (IH (String.length r)); [simpl in Hn; lia|done].
Qed.

(** ** Round trip: values *)

(** A tree that is the decoding of some text: its numbers have the right shape. *)
Fixpoint wf (t : json) : bool :=
  match t with
  | JNum text => valid_number text
  | JArr l => forallb wf l
  | JObj m => forallb (fun kv => wf kv.2) m
  | _ => true
  end.

Fixpoint jsize (t : json) : nat :=
  match t with
  | JArr l => S (list_sum (List.map (fun t => S (jsize t)) l))
  | JObj m => S (list_sum (List.map (fun kv => S (jsize kv.2)) m))
  | _ => 1
  end.

(** What may follow a value: nothing, or a byte that cannot extend a number. *)
Definition delimited (rest : string) : Prop :=
  match rest with EmptyString => True | String c _ => num_char c = false end.

Lemma span_app p a rest :
  all_chars p a = true -> match rest with EmptyString => True | String c _ => p c = false end ->
  span p (a +:+ rest) = (a, rest).
Proof.
  intros Ha Hr. induction a as [|c a IH]; simpl_app.
  - destruct rest as [|c rest]; [done|]. simpl. by rewrite Hr.
  - simpl in Ha. apply andb_true_iff in Ha as [Hc Ha]. by rewrite Hc, (IH Ha).
Qed.

Lemma valid_number_chars s : valid_number s = true -> all_chars num_char s = true.
Proof.
  intros H. apply rmatch_spec in H. revert H. apply lang_all_chars.
  assert (forall c, in_range 49 57 c = true -> is_digit c = true) as H9.
  { intros c. unfold is_digit, in_range. rewrite !andb_true_iff, !Z.leb_le. lia. }
  assert (forall c, is_char "0" c = true -> is_digit c = true) as H0 by (by intros c ->%Ascii.eqb_eq).
  unfold num_char. repeat split; intros c Hc; auto; rewrite ?orb_true_iff in *; intuition auto.
Qed.

(** The first byte of a number is a minus sign or a digit. *)
Lemma valid_number_head s :
  valid_number s = true -> exists c r, s = String c r /\ (c = "-"%char \/ is_digit c = true).
Proof.
  intros H. apply rmatch_spec in H as (a & b & -> & Ha & (d & e & -> & Hd & _)).
  assert (exists c r, d = String c r /\ is_digit c = true) as (c & r & -> & Hc).
  { destruct Hd as [(c & -> & Hc)|(x & y & -> & (c & -> & Hc) & _)].
    - exists c, "". split; [done|]. apply Ascii.eqb_eq in Hc as ->. done.
    - exists c, y. split; [done|]. revert Hc. unfold is_digit, in_range. rewrite !andb_true_iff, !Z.leb_le. lia. }
  destruct Ha as [->|(x & -> & Hx)]; simpl_app; eexists _, _; (split; [done|]); [by right|].
  left. by apply Ascii.eqb_eq in Hx as ->.
Qed.

(** The tests of [parse_value] on the first byte of a number all fail. *)
Lemma number_head_tests c r :
  c = "-"%char \/ is_digit c = true ->
  is_ws c = false /\ Ascii.eqb c quote_char = false /\ Ascii.eqb c "{" = false /\ Ascii.eqb c "[" = false /\
  Ascii.eqb c "]" = false /\
  HasPrefix (String c r) "null" = false /\ HasPrefix (String c r) "true" = false /\ HasPrefix (String c r) "false" = false.
Proof.
  intros Hc. assert (c ∈ ["-"; "0"; "1"; "2"; "3"; "4"; "5"; "6"; "7"; "8"; "9"]%char) as Hin.
  { destruct Hc as [->|Hc]; [by left|].
    destruct c as [[] [] [] [] [] [] [] []]; try discriminate Hc; repeat (apply list_elem_of_here || apply list_elem_of_further). }
  clear Hc. repeat (apply elem_of_cons in Hin as [->|Hin]; [by split_and!|]). by apply elem_of_nil in Hin.
Qed.

Definition round_trips (t : json) : Prop :=
  forall n rest, jsize t <= n -> delimited rest -> parse_value n (enc t +:+ rest) = Some (t, rest).

Lemma parse_number text rest n :
  valid_number text = true -> delimited rest -> 1 <= n -> parse_value n (text +:+ rest) = Some (JNum text, rest).
Proof.
  intros Hv Hd Hn. destruct n as [|n]; [lia|]. pose proof (valid_number_chars text Hv) as Hc.
  destruct (valid_number_head text Hv) as (c & r & -> & Hh).
  destruct (number_head_tests c (r +:+ rest) Hh) as (H1 & H2 & H3 & H4 & _ & H5 & H6 & H7).
  pose proof (span_app num_char (String c r) rest Hc Hd) as Hs. rewrite string_app_cons in Hs |- *.
  unfold parse_value; fold parse_value; fold parse_members; fold parse_elems.
  unfold skip_ws; fold skip_ws. rewrite H1, H2, H3, H4, H5, H6, H7, Hs, Hv. done.
Qed.

Lemma enc_string_app s rest : enc_string s +:+ rest = String quote_char (enc_body s +:+ dq +:+ rest).
Proof. unfold enc_string. rewrite !string_app_assoc. unfold dq at 1. by simpl_app. Qed.

Lemma parse_string_value s rest n : 1 <= n -> parse_value n (enc_string s +:+ rest) = Some (JStr s, rest).
Proof.
  intros Hn. destruct n as [|n]; [lia|]. rewrite enc_string_app. pose proof (parse_body_enc s rest) as H.
  revert H. generalize (enc_body s +:+ dq +:+ rest). intros x H.
  unfold parse_value; fold parse_value; fold parse_members; fold parse_elems. simpl. by rewrite H.
Qed.

Lemma enc_head t :
  wf t = true -> exists c r, enc t = String c r /\ is_ws c = false /\ Ascii.eqb c "]" = false.
Proof.
  intros Hw. destruct t as [|[]|text|s|l|m]; simpl in Hw |- *; try (by eexists _, _).
  destruct (valid_number_head text Hw) as (c & r & -> & Hh).
  destruct (number_head_tests c r Hh) as (? & _ & _ & _ & ? & _). by exists c, r.
Qed.

Lemma Join_cons_app a l sep rest :
  l <> [] -> Join (a :: l) sep +:+ rest = a +:+ sep +:+ Join l sep +:+ rest.
Proof. intros Hl. rewrite Join_cons by done. by rewrite !string_app_assoc. Qed.

Lemma close_delimited c rest : num_char c = false -> delimited (String c "" +:+ rest).
Proof. done. Qed.

Lemma parse_elems_enc l rest n :
  l <> [] -> Forall round_trips l -> list_sum (List.map (fun t => S (jsize t)) l) <= n ->
  parse_elems n (Join (List.map enc l) "," +:+ "]" +:+ rest) = Some (l, rest).
Proof.
  revert n. induction l as [|x l IH]; intros n Hne HF Hn; [done|]. apply Forall_cons in HF as [Hx HF].
  simpl in Hn. destruct n as [|n]; [lia|].
  unfold parse_elems; fold parse_value; fold parse_members; fold parse_elems.
  destruct l as [|y l].
  - change (Join (List.map enc [x]) ",") with (enc x). rewrite Hx; [by simpl_app|lia|done].
  - change (List.map enc (x :: y :: l)) with (enc x :: List.map enc (y :: l)). rewrite Join_cons_app by done.
    rewrite Hx; [|lia|done]. simpl_app. simpl skip_ws. simpl Ascii.eqb. cbv iota.
    rewrite IH; [done|done|done|simpl in *; lia].
Qed.

Definition enc_member (kv : string * json) : string := enc_string kv.1 +:+ ":" +:+ enc kv.2.

Lemma parse_members_enc m rest n :
  m <> [] -> Forall (fun kv => round_trips kv.2) m -> list_sum (List.map (fun kv => S (jsize kv.2)) m) <= n ->
  parse_members n (Join (List.map enc_member m) "," +:+ "}" +:+ rest) = Some (m, rest).
Proof.
  revert n. induction m as [|[k v] m IH]; intros n Hne HF Hn; [done|]. apply Forall_cons in HF as [Hv HF].
  simpl in Hn, Hv. destruct n as [|n]; [lia|].
  assert (exists tail, Join (List.map enc_member ((k, v) :: m)) "," +:+ "}" +:+ rest =
      String quote_char (enc_body k +:+ dq +:+ String ":" (enc v +:+ tail)) /\ delimited tail /\
      match tail with
      | EmptyString => False
      | String e r4 => e = ","%char /\ m <> [] /\ r4 = Join (List.map enc_member m) "," +:+ "}" +:+ rest \/
                       e = "}"%char /\ m = [] /\ r4 = rest
      end) as (tail & -> & Hd & Htail).
  { destruct m as [|kv m].
    - exists (String "}" rest). split_and!; [|done|by right].
      change (Join (List.map enc_member [(k, v)]) ",") with (enc_member (k, v)). unfold enc_member. simpl.
      rewrite !string_app_assoc, enc_string_app. by simpl_app.
    - exists (String "," (Join (List.map enc_member (kv :: m)) "," +:+ "}" +:+ rest)). split_and!; [|done|by left].
      change (List.map enc_member ((k, v) :: kv :: m)) with (enc_member (k, v) :: List.map enc_member (kv :: m)).
      rewrite Join_cons_app by done. unfold enc_member at 1. simpl fst. simpl snd.
      rewrite !string_app_assoc, enc_string_app. by simpl_app. }
  unfold parse_members; fold parse_value; fold parse_members; fold parse_elems.
  pose proof (parse_body_enc k (String ":" (enc v +:+ tail))) as Hk. revert Hk.
  generalize (enc_body k +:+ dq +:+ String ":" (enc v +:+ tail)). intros x Hk. simpl. rewrite Hk. simpl.
  rewrite Hv; [|lia|done]. simpl.
  destruct tail as [|e r4]; [done|].
  destruct Htail as [(-> & Hm & ->)|(-> & -> & ->)]; simpl; [|done].
  rewrite IH; [done|done|done|lia].
Qed.

Lemma parse_array l rest n :
  wf (JArr l) = true -> Forall round_trips l -> jsize (JArr l) <= n ->
  parse_value n (enc (JArr l) +:+ rest) = Some (JArr l, rest).
Proof.
  intros Hw HF Hn. simpl in Hn. destruct n as [|n]; [lia|]. simpl enc. rewrite !string_app_assoc.
  destruct l as [|x l]; [by simpl_app|]. simpl in Hw. apply andb_true_iff in Hw as [Hx _].
  destruct (enc_head x Hx) as (c & r & Hc & Hws & Hbr).
  pose proof (parse_elems_enc (x :: l) rest n) as H. revert H.
  assert (exists r', Join (List.map enc (x :: l)) "," +:+ "]" +:+ rest = String c r') as [r' ->].
  { destruct l as [|y l]; [change (Join (List.map enc [x]) ",") with (enc x); rewrite Hc; by eexists|].
    change (List.map enc (x :: y :: l)) with (enc x :: List.map enc (y :: l)). rewrite Join_cons_app, Hc by done. by eexists. }
  intros H. unfold parse_value; fold parse_value; fold parse_members; fold parse_elems.
  simpl_app. rewrite Hws, Hbr, H; [done|done|done|simpl in Hn |- *; lia].
Qed.

Lemma parse_object m rest n :
  Forall (fun kv => round_trips kv.2) m -> jsize (JObj m) <= n ->
  parse_value n (enc (JObj m) +:+ rest) = Some (JObj m, rest).
Proof.
  intros HF Hn. simpl in Hn. destruct n as [|n]; [lia|]. simpl enc. rewrite !string_app_assoc.
  destruct m as [|kv m]; [by simpl_app|].
  pose proof (parse_members_enc (kv :: m) rest n) as H. unfold enc_member in H. revert H.
  assert (exists r', Join (List.map (fun kv => enc_string kv.1 +:+ ":" +:+ enc kv.2) (kv :: m)) "," +:+ "}" +:+ rest =
      String quote_char r') as [r' ->].
  { destruct m as [|kv' m].
    - eexists. change (Join (List.map ?f [kv]) ",") with (f kv). cbv beta. by rewrite !string_app_assoc, enc_string_app.
    - eexists. change (List.map ?f (kv :: kv' :: m)) with (f kv :: List.map f (kv' :: m)).
      rewrite Join_cons_app by done. cbv beta. by rewrite !string_app_assoc, enc_string_app. }
  intros H. unfold parse_value; fold parse_value; fold parse_members; fold parse_elems.
  simpl_app. rewrite H; [done|done|done|simpl in Hn |- *; lia].
Qed.

Lemma enc_round_trips t : wf t = true -> round_trips t.
Proof.
  induction t as [|b|text|s|l IH|m IH] using json_nested_ind; intros Hw n rest Hn Hd.
  - simpl in Hn. destruct n; [lia|]. simpl_app. by destruct rest.
  - simpl in Hn. destruct n; [lia|]. destruct b; simpl_app; by destruct rest.
  - by apply parse_number.
  - by apply parse_string_value.
  - apply parse_array; [done| |done]. rewrite Forall_forall in IH |- *. intros x Hx.
    apply IH; [done|]. by apply (forallb_elem wf l).
  - apply parse_object; [|done]. rewrite Forall_forall in IH |- *. intros kv Hx.
    apply IH; [done|]. by apply (forallb_elem (fun kv => wf kv.2) m).
Qed.

(** The text is long enough to be its own fuel. *)
Lemma length_Join_comma l : list_sum (List.map (fun s => S (String.length s)) l) <= S (String.length (Join l ",")).
Proof.
  induction l as [|a l IH]; [simpl; lia|]. destruct l as [|b l]; [simpl; lia|].
  rewrite Join_cons by done. rewrite !length_app_string. simpl in *. lia.
Qed.

Lemma list_sum_map_le {A} (f g : A -> nat) l : Forall (fun x => f x <= g x) l -> list_sum (List.map f l) <= list_sum (List.map g l).
Proof. induction 1; simpl; lia. Qed.

Lemma jsize_le_enc t : wf t = true -> jsize t <= String.length (enc t).
Proof.
  induction t as [|b|text|s|l IH|m IH] using json_nested_ind; intros Hw.
  - simpl. lia.
  - destruct b; simpl; lia.
  - destruct (valid_number_head text Hw) as (c & r & -> & _). simpl. lia.
  - simpl. unfold enc_string. rewrite length_app_string. simpl. lia.
  - simpl enc. rewrite !length_app_string. pose proof (length_Join_comma (List.map enc l)) as H. rewrite map_map in H.
    assert (list_sum (List.map (fun t => S (jsize t)) l) <= list_sum (List.map (fun t => S (String.length (enc t))) l)).
    { apply list_sum_map_le. rewrite Forall_forall in IH |- *. intros x Hx. apply le_n_S, IH; [done|].
      by apply (forallb_elem wf l). }
    simpl. lia.
  - simpl enc. rewrite !length_app_string.
    pose proof (length_Join_comma (List.map (fun kv => enc_string kv.1 +:+ ":" +:+ enc kv.2) m)) as H. rewrite map_map in H.
    assert (list_sum (List.map (fun kv => S (jsize kv.2)) m) <=
      list_sum (List.map (fun kv => S (String.length (enc_string kv.1 +:+ ":" +:+ enc kv.2))) m)).
    { apply list_sum_map_le. rewrite Forall_forall in IH |- *. intros kv Hx. rewrite !length_app_string.
      assert (jsize kv.2 <= String.length (enc kv.2)); [|lia].
      apply IH; [done|]. by apply (forallb_elem (fun kv => wf kv.2) m). }
    simpl. lia.
Qed.

Lemma Decode_enc t : wf t = true -> Decode (enc t) = Some t.
Proof.
  intros Hw. unfold Decode. rewrite <- (string_app_nil_r (enc t)) at 2.
  rewrite (enc_round_trips t Hw); [done| |done]. pose proof (jsize_le_enc t Hw). lia.
Qed.

(** Two values at the start of the same text, each followed by a delimiter. *)
Lemma enc_prefix_inj t1 t2 r1 r2 :
  wf t1 = true -> wf t2 = true -> delimited r1 -> delimited r2 ->
  enc t1 +:+ r1 = enc t2 +:+ r2 -> t1 = t2 /\ r1 = r2.
Proof.
  intros H1 H2 D1 D2 He. pose proof (enc_round_trips t1 H1 (Nat.max (jsize t1) (jsize t2)) r1 ltac:(lia) D1) as P1.
  pose proof (enc_round_trips t2 H2 (Nat.max (jsize t1) (jsize t2)) r2 ltac:(lia) D2) as P2.
  rewrite He, P2 in P1. by injection P1.
Qed.

(** ** Canonical form: sorted keys, idempotence *)

Section as_map.
Context {A : Type}.
Implicit Types m : list (string * A).

Definition key_lt (a b : string * A) : Prop := (a.1 <?s b.1) = true.

Lemma key_lt_trans a b c : key_lt a b -> key_lt b c -> key_lt a c.
Proof. apply string_ltb_trans. Qed.

Lemma insert_member_elem k v m kv : kv ∈ insert_member k v m -> kv = (k, v) \/ kv ∈ m.
Proof.
  induction m as [|[k' v'] m IH]; simpl; [rewrite list_elem_of_singleton; auto|].
  destruct (k =?s k'); [rewrite !elem_of_cons; tauto|].
  destruct (k <?s k'); rewrite !elem_of_cons; [tauto|]. intros [?|?%IH]; tauto.
Qed.

Lemma insert_member_sorted k v m : StronglySorted key_lt m -> StronglySorted key_lt (insert_member k v m).
Proof.
  induction 1 as [|[k' v'] m Hs IH Hall]; simpl; [repeat constructor|].
  destruct (k =?s k') eqn:E; [apply eqb_string_true in E as ->; by constructor|].
  destruct (k <?s k') eqn:L.
  - constructor; [by constructor|]. constructor; [done|]. eapply Forall_impl; [exact Hall|].
    intros x. by apply (key_lt_trans (k, v) (k', v') x).
  - constructor; [done|]. apply Forall_forall. intros x [->|Hx]%insert_member_elem.
    + unfold key_lt. simpl. destruct (k' <?s k) eqn:L'; [done|]. reflect_tests. by destruct E; apply string_ltb_total.
    + rewrite Forall_forall in Hall. by apply Hall.
Qed.

Lemma as_map_app_sorted m kv : as_map (m ++ [kv]) = insert_member kv.1 kv.2 (as_map m).
Proof. unfold as_map. by rewrite foldl_snoc. Qed.

Lemma as_map_sorted m : StronglySorted key_lt (as_map m).
Proof.
  induction m as [|kv m IH] using rev_ind; [constructor|]. rewrite as_map_app_sorted. by apply insert_member_sorted.
Qed.

Lemma as_map_elem m kv : kv ∈ as_map m -> kv ∈ m.
Proof.
  induction m as [|x m IH] using rev_ind; [done|]. rewrite as_map_app_sorted, elem_of_app, list_elem_of_singleton.
  intros [->|?%IH]%insert_member_elem; [|by left]. right. by destruct x.
Qed.

Lemma insert_member_last k v m : Forall (fun x => (x.1 <?s k) = true) m -> insert_member k v m = m ++ [(k, v)].
Proof.
  induction 1 as [|[k' v'] m Hx _ IH]; [done|]. simpl in *.
  assert ((k =?s k') = false) as ->.
  { apply eqb_string_false. intros ->. by rewrite string_ltb_irrefl in Hx. }
  by rewrite (string_ltb_asym _ _ Hx), IH.
Qed.

Lemma as_map_id m : StronglySorted key_lt m -> as_map m = m.
Proof.
  induction m as [|kv m IH] using rev_ind; [done|]. intros Hs. rewrite as_map_app_sorted.
  assert (StronglySorted key_lt m /\ Forall (fun x => key_lt x kv) m) as [Hm Hall].
  { clear IH. induction m as [|x m IH]; [split; constructor|]. simpl in Hs. inversion Hs as [|? ? Hs' Hall']; subst.
    destruct (IH Hs') as [? ?]. apply Forall_app in Hall' as [Ha Hb]. inversion Hb; subst. split; by constructor. }
  rewrite (IH Hm), insert_member_last by done. by destruct kv.
Qed.
End as_map.

Lemma map_keys_sorted {A B} (f : A -> B) (m : list (string * A)) :
  StronglySorted key_lt m -> StronglySorted key_lt (List.map (fun kv => (kv.1, f kv.2)) m).
Proof.
  induction 1 as [|kv m _ IH Hall]; [constructor|]. simpl. constructor; [done|].
  apply Forall_map. eapply Forall_impl; [exact Hall|]. done.
Qed.

Lemma canonical_idem t : canonical (canonical t) = canonical t.
Proof.
  induction t as [| | | |l IH|m IH] using json_nested_ind; simpl; try done.
  - f_equal. rewrite map_map. apply map_ext_Forall. by apply Forall_forall, Forall_forall.
  - f_equal. rewrite as_map_id by apply map_keys_sorted, as_map_sorted.
    rewrite <- (map_id (as_map _)) at 2. apply map_ext_in. intros [k v] Hin. simpl. f_equal.
    apply list_elem_of_In, as_map_elem, list_elem_of_In, in_map_iff in Hin as ([k' v'] & [= <- <-] & Hin).
    rewrite Forall_forall in IH. apply (IH (k', v')). by apply list_elem_of_In.
Qed.

Lemma canonical_wf t : wf t = true -> wf (canonical t) = true.
Proof.
  induction t as [| | | |l IH|m IH] using json_nested_ind; simpl; intros Hw; try done; rewrite Forall_forall in IH.
  - apply forallb_forall. intros x (y & <- & Hy)%in_map_iff. apply list_elem_of_In in Hy.
    apply IH; [done|]. by apply (forallb_elem wf l).
  - apply forallb_forall. intros kv Hin. apply list_elem_of_In, as_map_elem, list_elem_of_In, in_map_iff in Hin as (y & <- & Hy).
    apply list_elem_of_In in Hy. simpl. apply IH; [done|]. by apply (forallb_elem (fun kv => wf kv.2) m).
Qed.

(** ** Decoded values are well formed *)

Lemma parse_wf n :
  (forall s t r, parse_value n s = Some (t, r) -> wf t = true) /\
  (forall s m r, parse_members n s = Some (m, r) -> forallb (fun kv => wf kv.2) m = true) /\
  (forall s l r, parse_elems n s = Some (l, r) -> forallb wf l = true).
Proof.
  induction n as [|n (IHv & IHm & IHe)]; [done|]. split_and!; intros s; intros.
  - unfold parse_value in H; fold parse_value in H; fold parse_members in H; fold parse_elems in H.
    destruct (skip_ws s) as [|c x]; [done|]. split_tests; try (by simplify_eq).
    + apply bind_Some in H as ([y z] & _ & H). by simplify_eq.
    + destruct (skip_ws x) as [|d x']; [done|]. destruct (Ascii.eqb d "}"); [by simplify_eq|].
      apply bind_Some in H as ([y z] & Hm & H). simplify_eq. by eapply IHm.
    + destruct (skip_ws x) as [|d x']; [done|]. destruct (Ascii.eqb d "]"); [by simplify_eq|].
      apply bind_Some in H as ([y z] & Hm & H). simplify_eq. by eapply IHe.
    + destruct (span num_char (String c x)) as [text z]. destruct (valid_number text) eqn:V; [|done]. by simplify_eq.
  - unfold parse_members in H; fold parse_value in H; fold parse_members in H.
    destruct (skip_ws s) as [|c x]; [done|]. destruct (negb _); [done|].
    apply bind_Some in H as ([k x1] & _ & H). destruct (skip_ws x1) as [|d x2]; [done|]. destruct (negb _); [done|].
    apply bind_Some in H as ([v x3] & Hv & H). destruct (skip_ws x3) as [|e x4]; [done|]. apply IHv in Hv.
    destruct (Ascii.eqb e ",").
    + apply bind_Some in H as ([m' x5] & Hm & H). simplify_eq. simpl. rewrite Hv. by eapply IHm.
    + destruct (Ascii.eqb e "}"); simplify_eq. simpl. by rewrite Hv.
  - unfold parse_elems in H; fold parse_value in H; fold parse_elems in H.
    apply bind_Some in H as ([v x3] & Hv & H). destruct (skip_ws x3) as [|e x4]; [done|]. apply IHv in Hv.
    destruct (Ascii.eqb e ",").
    + apply bind_Some in H as ([m' x5] & Hm & H). simplify_eq. simpl. rewrite Hv. by eapply IHe.
    + destruct (Ascii.eqb e "]"); simplify_eq. simpl. by rewrite Hv.
Qed.

Lemma Decode_wf raw t : Decode raw = Some t -> wf t = true.
Proof. unfold Decode. intros ([t' r] & H & ->)%fmap_Some. by eapply parse_wf. Qed.
