(* ===== verification/Marshal.v ===== *)
(** * [json.Marshal] of Go values, and times

    The encoding of the dynamic values of [GoValue] and of [time.Time], and the
    value a later decode into [map[string]any] gives back: a JSON column of the
    database does not remember Go's integer types. *)
From Stdlib Require Import Ascii String ZArith Lia SpecFloat.
From stdpp Require Import base gmap strings list.
From S2P Require Import Prelude GoStrings GoFloat GoValue Json.
Open Scope Z_scope.

(** ** [time.RFC3339Nano] in UTC, from nanoseconds since the epoch *)

Definition pad (width : nat) (n : Z) : string := pad_zeros width (itoa n).

(** The civil date of a day count since 1970-01-01 (proleptic Gregorian). *)
Definition civil (days : Z) : Z * Z * Z :=
  let z := days + 719468 in
  let era := z / 146097 in
  let doe := z mod 146097 in
  let yoe := (doe - doe / 1460 + doe / 36524 - doe / 146096) / 365 in
  let doy := doe - (365 * yoe + yoe / 4 - yoe / 100) in
  let mp := (5 * doy + 2) / 153 in
  let d := doy - (153 * mp + 2) / 5 + 1 in
  let m := if mp <? 10 then mp + 3 else mp - 9 in
  (yoe + era * 400 + (if m <=? 2 then 1 else 0), m, d).

Definition fraction (nanos : Z) : string :=
  if nanos =? 0 then "" else "." +:+ TrimRight (pad 9 nanos) "0".

Definition RFC3339Nano (t : Z) : string :=
  let secs := t / 10 ^ 9 in
  let '(y, m, d) := civil (secs / 86400) in
  let s := secs mod 86400 in
  pad 4 y +:+ "-" +:+ pad 2 m +:+ "-" +:+ pad 2 d +:+ "T" +:+ pad 2 (s / 3600) +:+ ":" +:+ pad 2 (s / 60 mod 60)
  +:+ ":" +:+ pad 2 (s mod 60) +:+ fraction (t mod 10 ^ 9) +:+ "Z".

Example rfc3339_epoch : RFC3339Nano 0 = "1970-01-01T00:00:00Z".
Proof. vm_compute. reflexivity. Qed.
Example rfc3339_leap : RFC3339Nano (1709210096 * 10 ^ 9 + 120300000) = "2024-02-29T12:34:56.1203Z".
Proof. vm_compute. reflexivity. Qed.

(** [t.Truncate(time.Microsecond)] for a time after year 1. *)
Definition TruncateMicro (t : Z) : Z := t - t mod 1000.

(** A [time.Time] inside a map is marshalled as its RFC 3339 text. *)
Definition VTime (t : Z) : value := VString (RFC3339Nano t).

(** ** Floats: the shortest decimal that reads back as the same number *)

(** [digits * 10 ^ exp], correctly rounded. *)
Definition parse_decimal (digits : positive) (exp : Z) : float64 :=
  if 0 <=? exp then binary_normalize prec emax (Z.pos digits * 10 ^ exp) 0 false
  else fdiv (S754_finite false digits 0) (S754_finite false (Z.to_pos (10 ^ (- exp))) 0).

(** The decimal point position: [10 ^ (k-1) <= n/d < 10 ^ k]. *)
Fixpoint scale_up (fuel : nat) (n d k : Z) : Z :=
  match fuel with
  | O => k
  | S fuel => if n <? d then scale_up fuel (n * 10) d (k - 1) else k
  end.
Definition magnitude (n d : Z) : Z :=
  if d <=? n then Z.of_nat (String.length (itoa (n / d))) else scale_up 400 (n * 10) d 0.

(** The first precision, of 1 to 17 digits, that reads back as [x]. *)
Fixpoint shortest (fuel : nat) (p : Z) (n d k : Z) (x : float64) : Z * Z :=
  let e := k - p in
  let digits := if e <=? 0 then div_half_even (n * 10 ^ (- e)) d else div_half_even n (d * 10 ^ e) in
  match fuel with
  | O => (digits, e)
  | S fuel => if bool_decide (parse_decimal (Z.to_pos digits) e = x) then (digits, e) else shortest fuel (p + 1) n d k x
  end.

Fixpoint strip_zeros (fuel : nat) (digits e : Z) : Z * Z :=
  match fuel with
  | O => (digits, e)
  | S fuel => if (digits mod 10 =? 0) then strip_zeros fuel (digits / 10) (e + 1) else (digits, e)
  end.

Definition format_digits (digits e : Z) : string :=
  let s := itoa digits in
  let point := Z.of_nat (String.length s) + e in
  if (-6 <? point) && (point <=? 21) then
    if 0 <=? e then s +:+ String.concat "" (repeat "0"%string (Z.to_nat e))
    else if 0 <? point then take_chars (Z.to_nat point) s +:+ "." +:+ drop_chars (Z.to_nat point) s
    else "0." +:+ String.concat "" (repeat "0"%string (Z.to_nat (- point))) +:+ s
  else
    let x := point - 1 in
    take_chars 1 s +:+ (if Nat.ltb 1 (String.length s) then "." +:+ drop_chars 1 s else "") +:+ "e"
    +:+ (if 0 <=? x then "+" +:+ (if x <? 10 then pad 2 x else itoa x) else "-" +:+ itoa (- x)).

Definition format_float (f : float64) : option string :=
  match f with
  | S754_nan | S754_infinity _ => None
  | S754_zero s => Some (if s then "-0" else "0")
  | S754_finite s m e =>
      let n := if 0 <=? e then Z.pos m * 2 ^ e else Z.pos m in
      let d := if 0 <=? e then 1 else 2 ^ (- e) in
      let '(digits, x) := shortest 17 1 n d (magnitude n d) (S754_finite false m e) in
      let '(digits, x) := strip_zeros 20 digits x in
      Some ((if s then "-" else "") +:+ format_digits digits x)
  end.

Example format_floats :
  (fun p => format_float (lit p.1 p.2)) <$> [(1, 10); (20, 1); (5, 2); (1, 3); (123456789, 1000); (10 ^ 21, 1); (1, 10 ^ 7); (-7, 4); (10 ^ 20, 1)]
  = [Some "0.1"; Some "20"; Some "2.5"; Some "0.3333333333333333"; Some "123456.789"; Some "1e+21"; Some "1e-7"; Some "-1.75"; Some "100000000000000000000"].
Proof. vm_compute. reflexivity. Qed.

(** ** Values *)

(** [json.Marshal]: fails on a NaN, an infinity or a malformed [json.Number]. *)
Fixpoint to_json (v : value) : option json :=
  match v with
  | VNil => Some JNull
  | VBool b => Some (JBool b)
  | VInt z | VInt32 z | VInt64 z => Some (JNum (itoa z))
  | VFloat f => JNum <$> format_float f
  | VNumber s => if s =?s "" then Some (JNum "0") else if valid_number s then Some (JNum s) else None
  | VString s => Some (JStr s)
  | VStrings l => Some (JArr (List.map JStr l))
  | VStrMap m => Some (JObj (List.map (fun kv => (kv.1, JStr kv.2)) m))
  | VList l =>
      (fix go l := match l with [] => Some (JArr []) | x :: l =>
         match to_json x, go l with Some a, Some (JArr b) => Some (JArr (a :: b)) | _, _ => None end end) l
  | VMap m =>
      (fix go m := match m with [] => Some (JObj []) | (k, x) :: m =>
         match to_json x, go m with Some a, Some (JObj b) => Some (JObj ((k, a) :: b)) | _, _ => None end end) m
  end.

(** A [map[string]any]; [None] is the nil map. *)
Definition map_to_json (m : option params) : option json :=
  match m with None => Some JNull | Some m => to_json (VMap (map_to_list m)) end.

(** The float a JSON number denotes. *)
Definition natural (s : string) : Z := default 0 (parse_digits 0 s).
Definition number_value (s : string) : float64 :=
  let '(neg, s) := match s with String "-" r => (true, r) | _ => (false, s) end in
  let '(whole, s) := span is_digit s in
  let '(frac, s) := match s with String "." r => span is_digit r | _ => ("", s) end in
  let exp := match s with
             | String _ (String "-" r) => - natural r
             | String _ (String "+" r) => natural r
             | String _ r => natural r
             | "" => 0
             end in
  let x := match natural (whole +:+ frac) with
           | Z.pos digits => parse_decimal digits (exp - Z.of_nat (String.length frac))
           | _ => S754_zero false
           end in
  if (neg : bool) then SFopp x else x.

Example number_values :
  number_value <$> ["0.1"; "-25e-1"; "1E+3"; "120"] = [lit 1 10; SFopp (lit 5 2); lit 1000 1; lit 120 1].
Proof. vm_compute. reflexivity. Qed.

(** What [json.Unmarshal] into an [any] gives back for a marshalled value. *)
Fixpoint reread (v : value) : value :=
  match v with
  | VInt z | VInt32 z | VInt64 z => VFloat (of_int z)
  | VNumber s => VFloat (number_value s)
  | VStrings l => VList (List.map VString l)
  | VStrMap m => VMap (List.map (fun kv => (kv.1, VString kv.2)) m)
  | VList l => VList (List.map reread l)
  | VMap m => VMap (List.map (fun kv => (kv.1, reread kv.2)) m)
  | _ => v
  end.
Definition reread_map (m : params) : params := reread <$> m.

(** A value read once stays what it is. *)
Lemma reread_idem v : reread (reread v) = reread v.
Proof.
  revert v. fix IH 1. intros [| | | | | | | |l|m|l|m]; try reflexivity; cbn [reread]; f_equal.
  - clear IH. induction l as [|x l IHl]; simpl; [reflexivity|]. by rewrite IHl.
  - clear IH. induction m as [|[k x] m IHm]; simpl; [reflexivity|]. by rewrite IHm.
  - induction l as [|x l IHl]; simpl; [reflexivity|]. by rewrite (IH x), IHl.
  - induction m as [|[k x] m IHm]; simpl; [reflexivity|]. by rewrite (IH x), IHm.
Qed.

Lemma reread_map_idem m : reread_map (reread_map m) = reread_map m.
Proof. unfold reread_map. rewrite <- map_fmap_compose. apply map_fmap_ext. intros i x _. apply reread_idem. Qed.
