(* ===== verification/Sha256.v ===== *)
(** * SHA-256 ([crypto/sha256]) and its hexadecimal text

    The hash of FIPS 180-4 over byte strings, computed on 32-bit words kept as
    integers modulo [2 ^ 32]. The ledger's theorems use only that the text of a
    hash has 64 hexadecimal digits; collisions stay possible and are named where
    a theorem needs to exclude them. *)
From Stdlib Require Import Ascii String ZArith NArith Lia.
From stdpp Require Import base strings list.
From S2P Require Import Prelude GoStrings Regexp.
Open Scope N_scope.

Definition w32 : N := 4294967296.
Definition add32 (a b : N) : N := (a + b) mod w32.
Definition rotr (n x : N) : N := N.lor (N.shiftr x n) ((N.shiftl x (32 - n)) mod w32).
Definition not32 (x : N) : N := w32 - 1 - x.

Definition ch (x y z : N) : N := N.lxor (N.land x y) (N.land (not32 x) z).
Definition maj (x y z : N) : N := N.lxor (N.lxor (N.land x y) (N.land x z)) (N.land y z).
Definition Sigma0 (x : N) : N := N.lxor (N.lxor (rotr 2 x) (rotr 13 x)) (rotr 22 x).
Definition Sigma1 (x : N) : N := N.lxor (N.lxor (rotr 6 x) (rotr 11 x)) (rotr 25 x).
Definition sigma0 (x : N) : N := N.lxor (N.lxor (rotr 7 x) (rotr 18 x)) (N.shiftr x 3).
Definition sigma1 (x : N) : N := N.lxor (N.lxor (rotr 17 x) (rotr 19 x)) (N.shiftr x 10).

Definition round_constants : list N :=
  [1116352408; 1899447441; 3049323471; 3921009573; 961987163; 1508970993; 2453635748; 2870763221;
   3624381080; 310598401; 607225278; 1426881987; 1925078388; 2162078206; 2614888103; 3248222580;
   3835390401; 4022224774; 264347078; 604807628; 770255983; 1249150122; 1555081692; 1996064986;
   2554220882; 2821834349; 2952996808; 3210313671; 3336571891; 3584528711; 113926993; 338241895;
   666307205; 773529912; 1294757372; 1396182291; 1695183700; 1986661051; 2177026350; 2456956037;
   2730485921; 2820302411; 3259730800; 3345764771; 3516065817; 3600352804; 4094571909; 275423344;
   430227734; 506948616; 659060556; 883997877; 958139571; 1322822218; 1537002063; 1747873779;
   1955562222; 2024104815; 2227730452; 2361852424; 2428436474; 2756734187; 3204031479; 3329325298].

Record hash_state := mkHash { ha : N; hb : N; hc : N; hd : N; he : N; hf : N; hg : N; hh : N }.

Definition initial : hash_state :=
  mkHash 1779033703 3144134277 1013904242 2773480762 1359893119 2600822924 528734635 1541459225.

(** The message schedule, as the last 16 words, newest first. *)
Definition next_word (ws : list N) : N :=
  match ws with
  | [_; w2; _; _; _; _; w7; _; _; _; _; _; _; _; w15; w16] =>
      add32 (add32 (sigma1 w2) w7) (add32 (sigma0 w15) w16)
  | _ => 0
  end.

Definition round (st : hash_state) (k w : N) : hash_state :=
  let t1 := add32 (add32 (add32 (hh st) (Sigma1 (he st))) (add32 (ch (he st) (hf st) (hg st)) k)) w in
  let t2 := add32 (Sigma0 (ha st)) (maj (ha st) (hb st) (hc st)) in
  mkHash (add32 t1 t2) (ha st) (hb st) (hc st) (add32 (hd st) t1) (he st) (hf st) (hg st).

(** The rounds: the 16 words of the block first, then the schedule. *)
Fixpoint rounds (ks : list N) (pending : list N) (window : list N) (st : hash_state) : hash_state :=
  match ks with
  | [] => st
  | k :: ks =>
      match pending with
      | w :: pending => rounds ks pending (w :: window) (round st k w)
      | [] => let w := next_word window in rounds ks [] (w :: removelast window) (round st k w)
      end
  end.

Definition compress (st : hash_state) (block : list N) : hash_state :=
  let r := rounds round_constants block [] st in
  mkHash (add32 (ha st) (ha r)) (add32 (hb st) (hb r)) (add32 (hc st) (hc r)) (add32 (hd st) (hd r))
    (add32 (he st) (he r)) (add32 (hf st) (hf r)) (add32 (hg st) (hg r)) (add32 (hh st) (hh r)).

(** ** Padding *)

Fixpoint bytes (s : string) : list N :=
  match s with EmptyString => [] | String c r => N_of_ascii c :: bytes r end.

Fixpoint be_bytes (n : nat) (x : N) : list N :=
  match n with O => [] | S n => be_bytes n (x / 256) ++ [x mod 256] end.

Definition padded (msg : list N) : list N :=
  let len := length msg in
  let zeros := ((119 - len mod 64) mod 64)%nat in
  msg ++ 128 :: repeat 0 zeros ++ be_bytes 8 (8 * N.of_nat len).

Fixpoint words (l : list N) : list N :=
  match l with
  | a :: b :: c :: d :: l => (((a * 256 + b) * 256 + c) * 256 + d) :: words l
  | _ => []
  end.

Fixpoint blocks (fuel : nat) (ws : list N) (st : hash_state) : hash_state :=
  match fuel, ws with
  | S fuel, _ :: _ => blocks fuel (drop 16 ws) (compress st (take 16 ws))
  | _, _ => st
  end.

(** One block per 16 words: the number of words is fuel enough. *)
Definition digest (s : string) : list N :=
  let ws := words (padded (bytes s)) in
  let st := blocks (length ws) ws initial in
  be_bytes 4 (ha st) ++ be_bytes 4 (hb st) ++ be_bytes 4 (hc st) ++ be_bytes 4 (hd st)
  ++ be_bytes 4 (he st) ++ be_bytes 4 (hf st) ++ be_bytes 4 (hg st) ++ be_bytes 4 (hh st).

(** [hex.EncodeToString]. *)
Fixpoint hex_string (l : list N) : string :=
  match l with [] => "" | b :: l => hexbyte (chr b) +:+ hex_string l end.

Definition sha256_hex (s : string) : string := hex_string (digest s).

Example sha256_abc : sha256_hex "abc" = "ba7816bf8f01cfea414140de5dae2223b00361a396177a9cb410ff61f20015ad".
Proof. vm_compute. reflexivity. Qed.
Example sha256_two_blocks :
  sha256_hex "abcdbcdecdefdefgefghfghighijhijkijkljklmklmnlmnomnopnopq" = "248d6a61d20638b8e5c026930c3e6039a33ce45964ff2167f6ecedd419db06c1".
Proof. vm_compute. reflexivity. Qed.

(** ** The shape of the text *)

Definition is_hex (c : ascii) : bool := is_digit c || in_range 97 102 c.

Lemma length_be_bytes n x : length (be_bytes n x) = n.
Proof. revert x. induction n as [|n IH]; intros x; [done|]. simpl. rewrite length_app, IH. simpl. lia. Qed.

Lemma length_digest s : length (digest s) = 32%nat.
Proof. unfold digest. by rewrite !length_app, !length_be_bytes. Qed.

Lemma hexbyte_hex c : all_chars is_hex (hexbyte c) = true /\ String.length (hexbyte c) = 2%nat.
Proof. destruct c as [[] [] [] [] [] [] [] []]; vm_compute; done. Qed.

Lemma hex_string_hex l : all_chars is_hex (hex_string l) = true /\ String.length (hex_string l) = (2 * length l)%nat.
Proof.
  induction l as [|b l [IH1 IH2]]; [done|].
  change (hex_string (b :: l)) with (hexbyte (chr b) +:+ hex_string l). destruct (hexbyte_hex (chr b)) as [H1 H2].
  rewrite length_app_string, all_chars_app, H1, IH1, IH2, H2. simpl. split; [done|lia].
Qed.

Lemma sha256_hex_shape s : all_chars is_hex (sha256_hex s) = true /\ String.length (sha256_hex s) = 64%nat.
Proof. unfold sha256_hex. destruct (hex_string_hex (digest s)) as [? ->]. by rewrite length_digest. Qed.

(** ** [crypto/hmac] with SHA-256 *)

Definition hmac_key (key : string) : list N :=
  let k := if Nat.ltb 64 (String.length key) then digest key else bytes key in
  k ++ repeat 0 (64 - length k).

Fixpoint of_bytes (l : list N) : string := match l with [] => "" | b :: l => String (chr b) (of_bytes l) end.

Definition hmac_sha256 (key msg : string) : string :=
  let k := hmac_key key in
  let inner := digest (of_bytes (N.lxor 54 <$> k) +:+ msg) in
  hex_string (digest (of_bytes ((N.lxor 92 <$> k) ++ inner))).

(** RFC 4231, test cases 2 and 6 (a key longer than a block). *)
Example hmac_short : hmac_sha256 "Jefe" "what do ya want for nothing?" = "5bdcc146bf60754e6a042426089575c75a003f089d2739839dec58b964ec3843".
Proof. vm_compute. reflexivity. Qed.
Example hmac_long :
  hmac_sha256 (of_bytes (repeat 170 131)) "Test Using Larger Than Block-Size Key - Hash Key First" =
  "60e431591ee0b67f0d8a26aacbf5b77f8e0bc6213728c5140546040f0ee37f54".
Proof. vm_compute. reflexivity. Qed.
