(* ===== verification/Ledger.v ===== *)
(** * The tamper-evident audit chain ([internal/audit/chain.go], and the
    verification loop of [internal/audit/service.go])

    Rows of [audit_logs] in chain order, the hash of a row over its canonical
    JSON payload, verification, and the backfill of rows that predate the
    chain. JSON columns hold the text the database gives back. *)
From Stdlib Require Import Ascii String ZArith Lia Sorted.
From stdpp Require Import base gmap strings list.
From S2P Require Import Prelude GoStrings Regexp GoValue Json Marshal Sha256.
Open Scope Z_scope.

Definition HashVersion : Z := 1.
Definition GenesisHash : string := "0000000000000000000000000000000000000000000000000000000000000000".

Record Entry := mkEntry {
  ent_id : string;
  ent_actor_id : string;
  ent_actor_type : string;
  ent_action : string;
  ent_resource_type : string;
  ent_resource_id : string;
  ent_request_id : string;
  ent_ip_address : string;
  ent_before : option params;
  ent_after : option params;
  ent_metadata : option params;
  ent_created_at : Z;
}.

(** A row of [audit_logs]: the columns the hash covers, and the chain columns. *)
Record AuditRow := mkRow {
  row_id : string;
  row_actor_id : string;
  row_actor_type : string;
  row_action : string;
  row_resource_type : string;
  row_resource_id : string;
  row_request_id : string;
  row_ip_address : string;
  row_before : string;
  row_after : string;
  row_metadata : string;
  row_created_at : Z;
  row_position : Z;
  row_previous : string;
  row_hash : string;
  row_version : Z;
}.

(** ** Canonical JSON *)

Definition canonicalizeRawJSON (raw : string) : result string :=
  if TrimSpace raw =?s "" then Ok "null"
  else match Decode raw with
       | Some t => Ok (enc (canonical t))
       | None => Fail (errorf "invalid JSON text")
       end.

(** [json.Marshal] writes the keys of a map in order. *)
Definition canonicalJSON (m : option params) : result string :=
  match map_to_json m with
  | None => Fail (errorf "json: unsupported value")
  | Some t => canonicalizeRawJSON (enc (canonical t))
  end.

(** ** The hash of a row *)

Definition member (key text : string) : string := enc_string key +:+ ":" +:+ text.

(** [json.Marshal] of [chainPayload], a struct: its fields in order, the raw
    messages as they are. *)
Definition payload_text (row : AuditRow) (position : Z) (previousHash before after metadata : string) : string :=
  "{" +:+ Join [
    member "hash_version" (itoa HashVersion);
    member "chain_position" (itoa position);
    member "previous_hash" (enc_string previousHash);
    member "id" (enc_string (row_id row));
    member "actor_id" (enc_string (row_actor_id row));
    member "actor_type" (enc_string (row_actor_type row));
    member "action" (enc_string (row_action row));
    member "resource_type" (enc_string (row_resource_type row));
    member "resource_id" (enc_string (row_resource_id row));
    member "request_id" (enc_string (row_request_id row));
    member "ip_address" (enc_string (row_ip_address row));
    member "before_state" before;
    member "after_state" after;
    member "metadata" metadata;
    member "created_at" (enc_string (RFC3339Nano (row_created_at row)))] "," +:+ "}".

(** The text that is hashed: the stored JSON is canonicalized first. *)
Definition hash_input (row : AuditRow) (position : Z) (previousHash : string) : result string :=
  match canonicalizeRawJSON (row_before row) with
  | Fail err => Fail (wrapf "canonicalize stored before state" err)
  | Ok before =>
      match canonicalizeRawJSON (row_after row) with
      | Fail err => Fail (wrapf "canonicalize stored after state" err)
      | Ok after =>
          match canonicalizeRawJSON (row_metadata row) with
          | Fail err => Fail (wrapf "canonicalize stored metadata" err)
          | Ok metadata => Ok (payload_text row position previousHash before after metadata)
          end
      end
  end.

Definition calculateHash (row : AuditRow) (position : Z) (previousHash : string) : result string :=
  let! text := hash_input row position previousHash in Ok (sha256_hex text).

(** [hex.DecodeString] accepts both cases; the comparison with [ToLower] leaves
    lower-case digits only. *)
Definition hex_any (c : ascii) : bool := is_hex c || in_range 65 70 c.
Definition validHash (v : string) : bool :=
  Nat.eqb (String.length v) 64 && all_chars hex_any v && (v =?s ToLower v).

(** ** Verification *)

Record Verification := mkVerification {
  ver_valid : bool;
  ver_entries : Z;
  ver_head_position : Z;
  ver_head_hash : string;
  ver_invalid_position : Z;
  ver_expected : string;
  ver_actual : string;
  ver_reason : string;
  ver_verified_at : Z;
}.

Definition invalidReport (r : Verification) (position : Z) (reason expected actual : string) : Verification :=
  mkVerification false (ver_entries r) (ver_head_position r) (ver_head_hash r) position expected actual reason (ver_verified_at r).

Definition count_entry (r : Verification) : Verification :=
  mkVerification (ver_valid r) (ver_entries r + 1) (ver_head_position r) (ver_head_hash r) (ver_invalid_position r)
    (ver_expected r) (ver_actual r) (ver_reason r) (ver_verified_at r).

(** The loop over the rows in chain order: the report that ends it early, or the
    report so far with the hash of the last row. *)
Fixpoint verify_rows (rows : list AuditRow) (r : Verification) (expected : Z) (previous : string)
    : result (Verification + (Verification * string)) :=
  match rows with
  | [] => Ok (inr (r, previous))
  | row :: rows =>
      let r := count_entry r in
      let invalid := fun reason e a => Ok (inl (invalidReport r (row_position row) reason e a)) in
      if negb (row_position row =? expected) then invalid ("chain position gap: expected " +:+ itoa expected) "" ""
      else if negb (row_version row =? HashVersion)
      then invalid ("unsupported hash version " +:+ itoa (row_version row)) "" ""
      else if negb (validHash (row_previous row)) || negb (validHash (row_hash row))
      then invalid "malformed chain hash" "" (row_hash row)
      else if negb (row_previous row =?s previous)
      then invalid "previous hash does not match prior entry" previous (row_previous row)
      else match calculateHash row (row_position row) (row_previous row) with
           | Fail err => Fail (wrapf ("recompute audit hash at position " +:+ itoa (row_position row)) err)
           | Ok expectedHash =>
               if negb (row_hash row =?s expectedHash) then invalid "entry hash mismatch" expectedHash (row_hash row)
               else verify_rows rows r (expected + 1) (row_hash row)
           end
  end.

Definition verify_chain (rows : list AuditRow) (statePosition : Z) (stateHash : string) (now : Z) : result Verification :=
  let report := mkVerification true 0 statePosition stateHash 0 "" "" "" now in
  let! out := verify_rows rows report 1 GenesisHash in
  match out with
  | inl bad => Ok bad
  | inr (r, previous) =>
      if negb (ver_entries r =? statePosition)
      then Ok (invalidReport r (ver_entries r) "persisted head position does not match ledger length"
             (itoa (ver_entries r)) (itoa statePosition))
      else if negb (previous =?s stateHash)
      then Ok (invalidReport r statePosition "persisted head hash does not match ledger head" previous stateHash)
      else Ok r
  end.

(** ** Appending *)

Record preparedEntry := mkPrepared { prep_before : string; prep_after : string; prep_metadata : string }.

Definition prepareEntry (entry : Entry) : result preparedEntry :=
  match canonicalJSON (ent_before entry) with
  | Fail err => Fail (wrapf "canonicalize before state" err)
  | Ok before =>
      match canonicalJSON (ent_after entry) with
      | Fail err => Fail (wrapf "canonicalize after state" err)
      | Ok after =>
          match canonicalJSON (ent_metadata entry) with
          | Fail err => Fail (wrapf "canonicalize metadata" err)
          | Ok metadata => Ok (mkPrepared before after metadata)
          end
      end
  end.

(** The row an entry becomes, before its hash is known. *)
Definition entry_row (entry : Entry) (p : preparedEntry) (position : Z) (previous hash : string) : AuditRow :=
  mkRow (ent_id entry) (ent_actor_id entry) (ent_actor_type entry) (ent_action entry) (ent_resource_type entry)
    (ent_resource_id entry) (ent_request_id entry) (ent_ip_address entry) (prep_before p) (prep_after p) (prep_metadata p)
    (ent_created_at entry) position previous hash HashVersion.

(** What the JSONB columns give back for the texts of a row. *)
Definition stored (jsonb : string -> string) (row : AuditRow) : AuditRow :=
  mkRow (row_id row) (row_actor_id row) (row_actor_type row) (row_action row) (row_resource_type row) (row_resource_id row)
    (row_request_id row) (row_ip_address row) (jsonb (row_before row)) (jsonb (row_after row)) (jsonb (row_metadata row))
    (row_created_at row) (row_position row) (row_previous row) (row_hash row) (row_version row).

(** The row appended after a head at [position] with hash [previous]. *)
Definition chained_row (jsonb : string -> string) (entry : Entry) (position : Z) (previous : string) : result AuditRow :=
  match prepareEntry entry with
  | Fail err => Fail (wrapf "prepare audit log" err)
  | Ok p =>
      match calculateHash (entry_row entry p (position + 1) previous "") (position + 1) previous with
      | Fail err => Fail (wrapf "hash audit log" err)
      | Ok hash => Ok (stored jsonb (entry_row entry p (position + 1) previous hash))
      end
  end.

(** ** Lemmas: white space *)

Definition starts_word (c : ascii) : bool :=
  forallb (fun e => match e with EmptyString => false | String d _ => negb (Ascii.eqb c d) end) space_encodings.

Lemma starts_word_encoding c e : starts_word c = true -> e ∈ space_encodings -> exists d r, e = String d r /\ c <> d.
Proof.
  intros Hc He. apply (forallb_elem _ _ _ Hc) in He. destruct e as [|d r]; [done|].
  apply negb_true_iff, Ascii.eqb_neq in He. eauto.
Qed.

Lemma find_encoding (p : string -> bool) n :
  (list_find (fun e => p e) space_encodings ≫= fun x => Some (String.length x.2)) = Some n ->
  exists e, e ∈ space_encodings /\ p e = true /\ n = String.length e.
Proof.
  intros ([i e] & H & Hn)%bind_Some. apply list_find_Some in H as (He & Hp & _). simpl in Hn. injection Hn as <-.
  exists e. split_and!; [by eapply list_elem_of_lookup_2|by apply Is_true_true|done].
Qed.

Lemma leading_space_word c r : starts_word c = true -> leading_space (String c r) = None.
Proof.
  intros Hc. destruct (leading_space (String c r)) as [n|] eqn:E; [|done].
  apply (find_encoding (HasPrefix (String c r))) in E as (e & He & Hp & _).
  destruct (starts_word_encoding c e Hc He) as (d & e' & -> & Hne).
  apply HasPrefix_spec in Hp as [x Hx]. rewrite string_app_cons in Hx. congruence.
Qed.

Lemma trim_right_word fuel c r : starts_word c = true -> exists r', trim_right_fuel fuel (String c r) = String c r'.
Proof.
  intros Hc. revert r. induction fuel as [|fuel IH]; intros r; [by eexists|]. simpl.
  destruct (trailing_space (String c r)) as [n|] eqn:E; [|by eexists].
  apply (find_encoding (HasSuffix (String c r))) in E as (e & He & Hp & ->).
  destruct (starts_word_encoding c e Hc He) as (d & e' & -> & Hne).
  unfold HasSuffix in Hp. apply andb_true_iff in Hp as [Hl Hp]. apply Nat.leb_le in Hl. reflect_tests.
  simpl in Hl, Hp |- *. destruct (String.length r - String.length e')%nat as [|k] eqn:K.
  - simpl in Hp. injection Hp as Hcd _. by destruct Hne.
  - apply IH.
Qed.

Lemma TrimSpace_word c r : starts_word c = true -> (TrimSpace (String c r) =?s "") = false.
Proof.
  intros Hc. apply eqb_string_false. unfold TrimSpace.
  assert (trim_left_fuel (String.length (String c r)) (String c r) = String c r) as ->.
  { simpl. by rewrite leading_space_word. }
  destruct (trim_right_word (String.length (String c r)) c r Hc) as [r' ->]. done.
Qed.

(** ** Lemmas: canonical texts *)

Lemma enc_starts_word t : wf t = true -> exists c r, enc t = String c r /\ starts_word c = true.
Proof.
  intros Hw. destruct t as [|[]|text|s|l|m]; simpl in Hw |- *; try (by eexists _, _).
  destruct (valid_number_head text Hw) as (c & r & -> & Hh). exists c, r. split; [done|].
  destruct Hh as [->|Hd]; [done|]. destruct c as [[] [] [] [] [] [] [] []]; first [discriminate Hd|vm_compute; reflexivity].
Qed.

Lemma canonicalize_enc t : wf t = true -> canonicalizeRawJSON (enc t) = Ok (enc (canonical t)).
Proof.
  intros Hw. unfold canonicalizeRawJSON. destruct (enc_starts_word t Hw) as (c & r & He & Hc).
  rewrite He, TrimSpace_word, <- He, Decode_enc by done. done.
Qed.

Lemma canonicalize_ok raw s :
  canonicalizeRawJSON raw = Ok s -> exists t, s = enc t /\ wf t = true /\ canonical t = t.
Proof.
  unfold canonicalizeRawJSON. split_tests; [intros [= <-]; by exists JNull|].
  destruct (Decode raw) as [t|] eqn:D; [|done]. intros [= <-]. exists (canonical t).
  split_and!; [done|by eapply canonical_wf, Decode_wf|apply canonical_idem].
Qed.

Lemma canonicalize_idem raw s : canonicalizeRawJSON raw = Ok s -> canonicalizeRawJSON s = Ok s.
Proof. intros (t & -> & Hw & Hc)%canonicalize_ok. by rewrite canonicalize_enc, Hc. Qed.

(** ** Lemmas: the hashed text determines the content *)

(** The columns of two rows that their hashes cover agree. *)
Record same_content (a b : AuditRow) : Prop := {
  sm_id : row_id a = row_id b;
  sm_actor : row_actor_id a = row_actor_id b;
  sm_actor_type : row_actor_type a = row_actor_type b;
  sm_action : row_action a = row_action b;
  sm_resource_type : row_resource_type a = row_resource_type b;
  sm_resource : row_resource_id a = row_resource_id b;
  sm_request : row_request_id a = row_request_id b;
  sm_ip : row_ip_address a = row_ip_address b;
  sm_before : canonicalizeRawJSON (row_before a) = canonicalizeRawJSON (row_before b);
  sm_after : canonicalizeRawJSON (row_after a) = canonicalizeRawJSON (row_after b);
  sm_metadata : canonicalizeRawJSON (row_metadata a) = canonicalizeRawJSON (row_metadata b);
  sm_created : RFC3339Nano (row_created_at a) = RFC3339Nano (row_created_at b);
}.

(** The fields after the position, as an object. *)
Definition payload_tail (row : AuditRow) (previous : string) (before after metadata : json) : json :=
  JObj [("previous_hash", JStr previous); ("id", JStr (row_id row)); ("actor_id", JStr (row_actor_id row));
    ("actor_type", JStr (row_actor_type row)); ("action", JStr (row_action row));
    ("resource_type", JStr (row_resource_type row)); ("resource_id", JStr (row_resource_id row));
    ("request_id", JStr (row_request_id row)); ("ip_address", JStr (row_ip_address row));
    ("before_state", before); ("after_state", after); ("metadata", metadata);
    ("created_at", JStr (RFC3339Nano (row_created_at row)))].

Definition payload_head (position : Z) : string :=
  "{" +:+ member "hash_version" (itoa HashVersion) +:+ "," +:+ member "chain_position" (itoa position) +:+ ",".

Lemma drop_one_brace x : drop_chars 1 ("{" +:+ x) = x.
Proof. reflexivity. Qed.

Lemma payload_text_tail row position previous b a m :
  "{" +:+ payload_text row position previous (enc b) (enc a) (enc m) =
  "{" +:+ payload_head position +:+ drop_chars 1 (enc (payload_tail row previous b a m)).
Proof.
  unfold payload_text, payload_head, payload_tail, member. cbn [enc List.map fst snd].
  rewrite drop_one_brace. unfold Join. cbn [String.concat].
  by rewrite ?string_app_assoc, ?string_app_cons, ?string_app_nil, ?string_app_assoc, ?string_app_cons, ?string_app_nil.
Qed.

Lemma string_app_inj_l a b c : a +:+ b = a +:+ c -> b = c.
Proof. induction a as [|x a IH]; [done|]. rewrite !string_app_cons. intros [= H]. auto. Qed.

Lemma drop_one_enc_obj m m' : drop_chars 1 (enc (JObj m)) = drop_chars 1 (enc (JObj m')) -> enc (JObj m) = enc (JObj m').
Proof. simpl enc. rewrite !string_app_cons. simpl. by intros ->. Qed.

Lemma hash_input_ok row position previous text :
  hash_input row position previous = Ok text ->
  exists b a m, canonicalizeRawJSON (row_before row) = Ok (enc b) /\ canonicalizeRawJSON (row_after row) = Ok (enc a) /\
    canonicalizeRawJSON (row_metadata row) = Ok (enc m) /\ wf (payload_tail row previous b a m) = true /\
    "{" +:+ text = "{" +:+ payload_head position +:+ drop_chars 1 (enc (payload_tail row previous b a m)).
Proof.
  unfold hash_input. destruct (canonicalizeRawJSON (row_before row)) as [sb|] eqn:Eb; [|done].
  destruct (canonicalizeRawJSON (row_after row)) as [sa|] eqn:Ea; [|done].
  destruct (canonicalizeRawJSON (row_metadata row)) as [sm|] eqn:Em; [|done]. intros [= <-].
  apply canonicalize_ok in Eb as (b & -> & Wb & _). apply canonicalize_ok in Ea as (a & -> & Wa & _).
  apply canonicalize_ok in Em as (m & -> & Wm & _). exists b, a, m. split_and!; try done.
  - simpl. by rewrite Wb, Wa, Wm.
  - apply payload_text_tail.
Qed.

Lemma hash_input_inj r1 r2 position p1 p2 text :
  hash_input r1 position p1 = Ok text -> hash_input r2 position p2 = Ok text -> p1 = p2 /\ same_content r1 r2.
Proof.
  intros (b1 & a1 & m1 & B1 & A1 & M1 & W1 & E1)%hash_input_ok (b2 & a2 & m2 & B2 & A2 & M2 & W2 & E2)%hash_input_ok.
  rewrite E1 in E2. apply string_app_inj_l, string_app_inj_l, drop_one_enc_obj in E2.
  apply (f_equal Decode) in E2. rewrite !Decode_enc in E2 by done. injection E2 as ? ? ? ? ? ? ? ? ? ? ? ? ?. subst.
  split; [done|]. split; congruence.
Qed.

(** ** The chain, as a specification *)

(** [linked p h rows q g]: the rows continue a chain whose head is at position [p]
    with hash [h], and its new head is at position [q] with hash [g]. *)
Inductive linked : Z -> string -> list AuditRow -> Z -> string -> Prop :=
  | linked_nil p h : linked p h [] p h
  | linked_cons p h row rows q g :
      row_position row = p + 1 -> row_version row = HashVersion -> row_previous row = h ->
      validHash h = true -> validHash (row_hash row) = true ->
      calculateHash row (p + 1) h = Ok (row_hash row) ->
      linked (p + 1) (row_hash row) rows q g ->
      linked p h (row :: rows) q g.

Lemma linked_app p h rows q g rows' q' g' :
  linked p h rows q g -> linked q g rows' q' g' -> linked p h (rows ++ rows') q' g'.
Proof. induction 1; [done|]. intros H'. simpl. econstructor; eauto. Qed.

Lemma linked_length p h rows q g : linked p h rows q g -> q = p + Z.of_nat (length rows).
Proof. induction 1; simpl; lia. Qed.

Lemma linked_snoc p h rows row q g :
  linked p h (rows ++ [row]) q g ->
  exists h', linked p h rows (q - 1) h' /\ row_previous row = h' /\ row_hash row = g /\ calculateHash row q h' = Ok g /\
    row_position row = q.
Proof.
  revert p h. induction rows as [|x rows IH]; intros p h H; simpl in H;
    inversion H as [|? ? ? ? ? ? Hp Hv Hpr Hh Hhash Hcalc Hl]; subst.
  - inversion Hl; subst. exists (row_previous row). split_and!; try done. replace (p + 1 - 1) with p by lia. constructor.
  - apply IH in Hl as (h' & ? & ? & ? & ? & ?). exists h'. split_and!; try done. econstructor; eauto.
Qed.

(** ** Lemmas: verification decides the specification *)

Lemma hex_any_lower c : hex_any c = true -> lower c = c -> is_hex c = true.
Proof. destruct c as [[] [] [] [] [] [] [] []]; vm_compute; congruence. Qed.

Lemma is_hex_valid s : all_chars is_hex s = true -> all_chars hex_any s = true /\ ToLower s = s.
Proof.
  induction s as [|c s IH]; [done|]. simpl. intros [Hc Hs]%andb_true_iff. destruct (IH Hs) as [-> ->].
  unfold hex_any. rewrite Hc. simpl. split; [done|]. f_equal.
  revert Hc. clear. destruct c as [[] [] [] [] [] [] [] []]; vm_compute; congruence.
Qed.

Lemma sha256_valid s : validHash (sha256_hex s) = true.
Proof.
  destruct (sha256_hex_shape s) as [Hh Hl]. destruct (is_hex_valid _ Hh) as [Ha Hlow].
  unfold validHash. by rewrite Hl, Ha, Hlow, String.eqb_refl.
Qed.

Lemma calculateHash_valid row p h g : calculateHash row p h = Ok g -> validHash g = true.
Proof. unfold calculateHash. intros (t & _ & [= <-])%result_bind_ok. apply sha256_valid. Qed.

Lemma genesis_valid : validHash GenesisHash = true.
Proof. vm_compute. reflexivity. Qed.

Lemma verify_rows_linked rows r p h q g :
  linked p h rows q g ->
  exists r', verify_rows rows r (p + 1) h = Ok (inr (r', g)) /\ ver_valid r' = ver_valid r /\
    ver_entries r' = ver_entries r + (q - p).
Proof.
  intros H. revert r. induction H as [p h|p h row rows q g Hp Hv Hpr Hh Hhash Hcalc Hl IH]; intros r; simpl.
  - exists r. split_and!; try done. lia.
  - rewrite Hp, Hv, Hpr, Hh, Hhash, !Z.eqb_refl, !String.eqb_refl. simpl. rewrite Hcalc, String.eqb_refl. simpl.
    destruct (IH (count_entry r)) as (r' & Hr & Hva & Hen). exists r'. split_and!; [done|done|]. rewrite Hen. simpl. lia.
Qed.

Lemma verify_rows_sound rows r p h r' g :
  ver_valid r = true -> verify_rows rows r (p + 1) h = Ok (inr (r', g)) ->
  linked p h rows (p + (ver_entries r' - ver_entries r)) g /\ ver_valid r' = true.
Proof.
  revert r p h. induction rows as [|row rows IH]; intros r p h Hr H; simpl in H.
  - injection H as -> ->. split; [|done]. replace (p + _) with p by lia. constructor.
  - split_tests; try discriminate. destruct (calculateHash row (row_position row) (row_previous row)) as [e|] eqn:E'; [|done].
    split_tests; try discriminate. subst.
    match goal with H : verify_rows _ _ _ _ = _ |- _ => apply IH in H as [Hl Hv]; [|done] end. split; [|done].
    econstructor; try done; [congruence|]. simpl in Hl.
    match goal with H : linked _ _ _ ?a _ |- linked _ _ _ ?b _ => replace b with a by lia end. done.
Qed.

Lemma verify_rows_inl rows r p h bad : verify_rows rows r p h = Ok (inl bad) -> ver_valid bad = false.
Proof.
  revert r p h. induction rows as [|row rows IH]; intros r p h H; simpl in H; [done|].
  split_tests; try (by injection H as <-).
  destruct (calculateHash row (row_position row) (row_previous row)); [|done].
  split_tests; [by injection H as <-|]. eauto.
Qed.

Lemma verify_chain_iff rows position hash now r :
  verify_chain rows position hash now = Ok r ->
  ver_valid r = true <-> linked 0 GenesisHash rows position hash.
Proof.
  unfold verify_chain. set (r0 := mkVerification _ _ _ _ _ _ _ _ _). intros (out & HV & H)%result_bind_ok.
  destruct out as [bad|[r' previous]].
  - injection H as ->. pose proof (verify_rows_inl _ _ _ _ _ HV) as Hbad. split; [congruence|]. intros Hl.
    destruct (verify_rows_linked rows r0 0 GenesisHash _ _ Hl) as (r' & HV' & _). change (0 + 1) with 1 in HV'. congruence.
  - destruct (verify_rows_sound rows r0 0 GenesisHash r' previous) as [Hl Hva]; [done|done|]. simpl in Hl.
    replace (0 + (ver_entries r' - 0)) with (ver_entries r') in Hl by lia.
    split_tests; injection H as <-.
    + split; [done|]. intros Hl'. apply linked_length in Hl, Hl'. congruence.
    + split; [done|]. intros Hl'.
      destruct (verify_rows_linked rows r0 0 GenesisHash _ _ Hl') as (r'' & HV' & _). change (0 + 1) with 1 in HV'. congruence.
    + subst. by split.
Qed.

Lemma verify_chain_entries rows position hash now :
  linked 0 GenesisHash rows position hash ->
  exists r, verify_chain rows position hash now = Ok r /\ ver_valid r = true /\ ver_entries r = position.
Proof.
  intros Hl. unfold verify_chain. set (r0 := mkVerification _ _ _ _ _ _ _ _ _).
  destruct (verify_rows_linked rows r0 0 GenesisHash _ _ Hl) as (r & HV & Hva & Hen). change (0 + 1) with 1 in HV. rewrite HV. simpl.
  simpl in Hen. rewrite Hen. replace (0 + (position - 0)) with position by lia. rewrite Z.eqb_refl, String.eqb_refl. simpl.
  exists r. split_and!; try done. lia.
Qed.

Lemma verify_chain_linked rows position hash now :
  linked 0 GenesisHash rows position hash ->
  exists r, verify_chain rows position hash now = Ok r /\ ver_valid r = true.
Proof. intros Hl. destruct (verify_chain_entries rows position hash now Hl) as (r & ? & ? & _). eauto. Qed.

Lemma linked_positions p h rows q g :
  linked p h rows q g -> StronglySorted (fun a b => row_position a < row_position b) rows /\ Forall (fun r => p < row_position r) rows.
Proof.
  induction 1 as [|p h row rows q g Hp _ _ _ _ _ _ [IH1 IH2]]; [split; constructor|]. split.
  - constructor; [done|]. eapply Forall_impl; [exact IH2|]. simpl. intros r Hr. lia.
  - constructor; [lia|]. eapply Forall_impl; [exact IH2|]. simpl. intros r Hr. lia.
Qed.

(** ** Lemmas: what the JSONB columns keep *)

(** A number text that a PostgreSQL [numeric] prints back unchanged: no exponent,
    and not a negative zero. *)
Definition plain_number (s : string) : bool :=
  negb (has_char "e" s) && negb (has_char "E" s) && negb (s =?s "-0").
Fixpoint plain (t : json) : bool :=
  match t with
  | JNum text => plain_number text
  | JArr l => forallb plain l
  | JObj m => forallb (fun kv => plain kv.2) m
  | _ => true
  end.
Definition plain_text (s : string) : bool := match Decode s with Some t => plain t | None => false end.

(** The documented behaviour of JSONB: a value comes back as non-blank text that
    denotes the same value, up to the order of members, for plain numbers. *)
Definition jsonb_faithful (jsonb : string -> string) : Prop :=
  forall raw t, Decode raw = Some t -> plain t = true ->
    (TrimSpace (jsonb raw) =?s "") = false /\ exists t', Decode (jsonb raw) = Some t' /\ canonical t' = canonical t.

Definition plain_prepared (p : preparedEntry) : bool :=
  plain_text (prep_before p) && plain_text (prep_after p) && plain_text (prep_metadata p).

Lemma canonicalize_jsonb jsonb raw s :
  jsonb_faithful jsonb -> plain_text s = true -> canonicalizeRawJSON raw = Ok s ->
  canonicalizeRawJSON (jsonb s) = canonicalizeRawJSON s.
Proof.
  intros HF HP (t & -> & Hw & Hc)%canonicalize_ok. unfold plain_text in HP. rewrite Decode_enc in HP by done.
  destruct (HF (enc t) t) as (Hb & t' & Hd & Ht'); [by apply Decode_enc|done|].
  rewrite canonicalize_enc by done. unfold canonicalizeRawJSON. by rewrite Hb, Hd, Ht'.
Qed.

Lemma canonicalJSON_raw m s : canonicalJSON m = Ok s -> exists raw, canonicalizeRawJSON raw = Ok s.
Proof. unfold canonicalJSON. destruct (map_to_json m) as [t|]; [|done]. eauto. Qed.

Lemma prepareEntry_ok entry p :
  prepareEntry entry = Ok p ->
  canonicalJSON (ent_before entry) = Ok (prep_before p) /\ canonicalJSON (ent_after entry) = Ok (prep_after p) /\
  canonicalJSON (ent_metadata entry) = Ok (prep_metadata p).
Proof.
  unfold prepareEntry. destruct (canonicalJSON (ent_before entry)); [|done]. destruct (canonicalJSON (ent_after entry)); [|done].
  destruct (canonicalJSON (ent_metadata entry)); [|done]. by intros [= <-].
Qed.

Lemma hash_input_stored jsonb entry p position previous h :
  jsonb_faithful jsonb -> prepareEntry entry = Ok p -> plain_prepared p = true ->
  hash_input (stored jsonb (entry_row entry p position previous h)) position previous =
  hash_input (entry_row entry p position previous "") position previous.
Proof.
  intros HF (Hb & Ha & Hm)%prepareEntry_ok HP. unfold plain_prepared in HP. reflect_tests.
  apply canonicalJSON_raw in Hb as [rb Hb], Ha as [ra Ha], Hm as [rm Hm].
  unfold hash_input. simpl. rewrite (canonicalize_jsonb jsonb rb), (canonicalize_jsonb jsonb ra), (canonicalize_jsonb jsonb rm) by done.
  done.
Qed.

Lemma chained_row_linked jsonb entry p position previous row :
  jsonb_faithful jsonb -> prepareEntry entry = Ok p -> plain_prepared p = true -> validHash previous = true ->
  chained_row jsonb entry position previous = Ok row ->
  linked position previous [row] (position + 1) (row_hash row).
Proof.
  intros HF Hp HP Hv. unfold chained_row. rewrite Hp.
  destruct (calculateHash _ _ _) as [h|] eqn:C; [|done]. intros [= <-].
  apply linked_cons; try done; [by eapply calculateHash_valid| |apply linked_nil].
  unfold calculateHash in C |- *. by rewrite (hash_input_stored jsonb entry p).
Qed.

(** ** Rows that predate the chain *)

(** A row as [MigrateLedger] finds it: the chain columns may be NULL. *)
Record LegacyRow := mkLegacy {
  lg_row : AuditRow;
  lg_position : option Z;
  lg_previous : option string;
  lg_hash : option string;
  lg_version : option Z;
}.

Definition unchained (r : LegacyRow) : bool :=
  bool_decide (lg_position r = None) || bool_decide (lg_previous r = None) ||
  bool_decide (lg_hash r = None) || bool_decide (lg_version r = None).

(** [ORDER BY created_at ASC, id ASC] *)
Definition legacy_before (a b : LegacyRow) : bool :=
  let t := row_created_at (lg_row a) in let u := row_created_at (lg_row b) in
  (t <? u) || ((t =? u) && (row_id (lg_row a) <?s row_id (lg_row b))).

Definition set_chain (row : AuditRow) (position : Z) (previous hash : string) : AuditRow :=
  mkRow (row_id row) (row_actor_id row) (row_actor_type row) (row_action row) (row_resource_type row) (row_resource_id row)
    (row_request_id row) (row_ip_address row) (row_before row) (row_after row) (row_metadata row)
    (row_created_at row) position previous hash HashVersion.

Fixpoint backfill (rows : list LegacyRow) (position : Z) (previous : string) : result (list AuditRow * Z * string) :=
  match rows with
  | [] => Ok ([], position, previous)
  | r :: rows =>
      match calculateHash (lg_row r) (position + 1) previous with
      | Fail err => Fail (wrapf ("hash legacy audit row " +:+ Quote (row_id (lg_row r))) err)
      | Ok hash =>
          let! rest := backfill rows (position + 1) hash in
          let '(chained, p, h) := rest in
          Ok (set_chain (lg_row r) (position + 1) previous hash :: chained, p, h)
      end
  end.

Definition backfillLegacyRows (rows : list LegacyRow) : result (list AuditRow * Z * string) :=
  backfill (sort_stable legacy_before rows) 0 GenesisHash.

(** A row whose chain columns are all set; [None] marks the NULL that the scan of
    [Verify] would refuse. *)
Definition chained (r : LegacyRow) : option AuditRow :=
  p ← lg_position r; v ← lg_previous r; h ← lg_hash r; n ← lg_version r;
  Some (mkRow (row_id (lg_row r)) (row_actor_id (lg_row r)) (row_actor_type (lg_row r)) (row_action (lg_row r))
    (row_resource_type (lg_row r)) (row_resource_id (lg_row r)) (row_request_id (lg_row r)) (row_ip_address (lg_row r))
    (row_before (lg_row r)) (row_after (lg_row r)) (row_metadata (lg_row r)) (row_created_at (lg_row r)) p v h n).

(** The decision of [MigrateLedger]: the rows in chain order and the persisted head. *)
Definition MigrateLedger (rows : list LegacyRow) (state : option (Z * string)) : result (list AuditRow * Z * string) :=
  let total := length rows in
  let open := length (filter (fun r => unchained r = true) rows) in
  if Nat.eqb total 0 then
    let '(p, h) := default (0, GenesisHash) state in Ok ([], p, h)
  else if Nat.eqb open total then
    match state with
    | Some _ => Fail (errorf "legacy audit rows found with an existing chain head; refusing ambiguous backfill")
    | None => backfillLegacyRows rows
    end
  else if Nat.ltb 0 open then Fail (errorf "partially chained audit ledger detected; manual recovery is required")
  else match state with
       | None => Fail (errorf "chained audit ledger is missing its persisted head")
       | Some (p, h) => Ok (sort_stable (fun a b => row_position a <? row_position b) (omap chained rows), p, h)
       end.

Lemma calculateHash_set_chain row position previous hash p h :
  calculateHash (set_chain row position previous hash) p h = calculateHash row p h.
Proof. done. Qed.

Lemma backfill_linked rows position previous chained p h :
  validHash previous = true -> backfill rows position previous = Ok (chained, p, h) -> linked position previous chained p h.
Proof.
  revert position previous chained. induction rows as [|r rows IH]; intros position previous chained Hv H; simpl in H.
  - injection H as <- <- <-. constructor.
  - destruct (calculateHash (lg_row r) (position + 1) previous) as [hash|] eqn:C; [|done].
    apply result_bind_ok in H as ([[rest p'] h'] & HB & H). injection H as <- <- <-.
    apply calculateHash_valid in C as Hh. apply linked_cons; try done. by apply IH.
Qed.

Lemma backfill_content rows position previous chained p h :
  backfill rows position previous = Ok (chained, p, h) -> Forall2 (fun r c => same_content (lg_row r) c) rows chained.
Proof.
  revert position previous chained. induction rows as [|r rows IH]; intros position previous chained H; simpl in H.
  - injection H as <- <- <-. constructor.
  - destruct (calculateHash (lg_row r) (position + 1) previous) as [hash|] eqn:C; [|done].
    apply result_bind_ok in H as ([[rest p'] h'] & HB & H). injection H as <- <- <-.
    constructor; [by split|]. by eapply IH.
Qed.

(** ** Lemmas: tampering *)

(** The text whose hash a row records. *)
Definition hashed_text (row : AuditRow) : result string := hash_input row (row_position row) (row_previous row).

(** Two rows that record one SHA-256 of two different texts. *)
Definition collide (a b : AuditRow) : bool :=
  match hashed_text a, hashed_text b with
  | Ok t1, Ok t2 => negb (t1 =?s t2) && (sha256_hex t1 =?s sha256_hex t2)
  | _, _ => false
  end.

(** A pair of rows at one position of both ledgers that collide. *)
Definition collision (rows1 rows2 : list AuditRow) : bool := existsb (fun p => collide p.1 p.2) (zip rows1 rows2).

Lemma calculateHash_text row p h g : calculateHash row p h = Ok g -> exists text, hash_input row p h = Ok text /\ g = sha256_hex text.
Proof. unfold calculateHash. intros (text & H & [= <-])%result_bind_ok. eauto. Qed.

Lemma linked_last p h rows row q g :
  linked p h (rows ++ [row]) q g -> exists text, hashed_text row = Ok text /\ g = sha256_hex text.
Proof.
  intros (h' & _ & Hp & _ & C & Hq)%linked_snoc. apply calculateHash_text in C as (t & Ht & ->).
  exists t. unfold hashed_text. by rewrite Hp, Hq.
Qed.

Lemma collision_snoc rows1 rows2 r1 r2 : length rows1 = length rows2 ->
  collision (rows1 ++ [r1]) (rows2 ++ [r2]) = collision rows1 rows2 || collide r1 r2.
Proof.
  intros HL. unfold collision. rewrite zip_with_app by done. rewrite existsb_app. simpl. by rewrite orb_false_r.
Qed.

Lemma linked_tamper rows1 : forall rows2 p h q g,
  linked p h rows1 q g -> linked p h rows2 q g -> Forall2 same_content rows1 rows2 \/ collision rows1 rows2 = true.
Proof.
  induction rows1 as [|r1 rows1 IH] using rev_ind; intros rows2 p h q g H1 H2;
    pose proof (linked_length _ _ _ _ _ H1) as L1; pose proof (linked_length _ _ _ _ _ H2) as L2.
  - destruct rows2 as [|x rows2]; [left; constructor|]. simpl in *. lia.
  - destruct rows2 as [|r2 rows2 _] using rev_ind; [rewrite length_app in L1; simpl in *; lia|].
    pose proof (linked_last _ _ _ _ _ _ H1) as (t1 & I1 & G1). pose proof (linked_last _ _ _ _ _ _ H2) as (t2 & I2 & G2).
    apply linked_snoc in H1 as (h1 & H1 & P1 & _ & _ & Q1). apply linked_snoc in H2 as (h2 & H2 & P2 & _ & _ & Q2).
    assert (length rows1 = length rows2) as HL.
    { rewrite !length_app in L1, L2. simpl in L1, L2. lia. }
    rewrite (collision_snoc _ _ _ _ HL). unfold collide. rewrite I1, I2.
    destruct (decide (t1 = t2)) as [->|Hne].
    + unfold hashed_text in I1, I2. rewrite P1, Q1 in I1. rewrite P2, Q2 in I2.
      destruct (hash_input_inj _ _ _ _ _ _ I1 I2) as [-> Hsame].
      destruct (IH rows2 p h (q - 1) h2 H1 H2) as [HF|Hc]; [left|right; by rewrite Hc].
      apply Forall2_app; [done|]. constructor; [done|constructor].
    + right. apply orb_true_iff. right. apply andb_true_iff. split; [by apply negb_true_iff, String.eqb_neq|].
      apply String.eqb_eq. congruence.
Qed.

(** ** Properties *)

(** C27: verification decides the chain: a completed verification reports a valid
    ledger exactly when every row carries its own position from 1 up, the current
    hash version, well-formed hashes, the hash of the row before it (the genesis
    hash first) and its own recomputed hash, and the persisted head is the
    position and hash of the last row; and a ledger linked that way is always
    reported valid. *)
Theorem Verify_decides_linked rows position hash now :
  (forall r, verify_chain rows position hash now = Ok r ->
     (ver_valid r = true <-> linked 0 GenesisHash rows position hash)) /\
  (linked 0 GenesisHash rows position hash ->
     exists r, verify_chain rows position hash now = Ok r /\ ver_valid r = true).
Proof. split; [intros r; apply verify_chain_iff|apply verify_chain_linked]. Qed.

(** C6: the ledger is tamper evident: two ledgers that both verify against the same
    persisted head hold the same entries, row by row, in every column the hash
    covers (JSON columns up to the order of members), unless the hashed texts of
    two rows at the same position are themselves a collision of SHA-256. *)
Theorem ledger_tamper_evident rows1 rows2 position hash now1 now2 r1 r2 :
  verify_chain rows1 position hash now1 = Ok r1 -> ver_valid r1 = true ->
  verify_chain rows2 position hash now2 = Ok r2 -> ver_valid r2 = true ->
  Forall2 same_content rows1 rows2 \/ collision rows1 rows2 = true.
Proof.
  intros H1 V1 H2 V2. apply (verify_chain_iff _ _ _ _ _ H1) in V1. apply (verify_chain_iff _ _ _ _ _ H2) in V2.
  by eapply linked_tamper.
Qed.

(** A database that prints members in key order. *)
Definition sorted_jsonb (raw : string) : string :=
  match Decode raw with Some t => enc (canonical t) | None => raw end.

Lemma sorted_jsonb_faithful : jsonb_faithful sorted_jsonb.
Proof.
  intros raw t Hd _. unfold sorted_jsonb. rewrite Hd. pose proof (canonical_wf t (Decode_wf raw t Hd)) as Hw. split.
  - destruct (enc_starts_word (canonical t) Hw) as (c & r & He & Hc). rewrite He. by apply TrimSpace_word.
  - exists (canonical t). split; [by apply Decode_enc|apply canonical_idem].
Qed.

Definition demo_entry : Entry :=
  mkEntry "aud_1" "alice" "user" "approval.approved" "approval_request" "apr_1" "" ""
    (Some {["status" := VString "pending"]}) (Some {["status" := VString "approved"; "attempt" := VInt 2]}) None (1709210096 * 10 ^ 9).
Definition demo_row : AuditRow :=
  match chained_row sorted_jsonb demo_entry 0 GenesisHash with Ok row => row | Fail _ => mkRow "" "" "" "" "" "" "" "" "" "" "" 0 0 "" "" 0 end.
(** The same row as another client of the database spells it. *)
Definition respelled_row : AuditRow :=
  mkRow (row_id demo_row) (row_actor_id demo_row) (row_actor_type demo_row) (row_action demo_row) (row_resource_type demo_row)
    (row_resource_id demo_row) (row_request_id demo_row) (row_ip_address demo_row) (" " +:+ row_before demo_row) (row_after demo_row)
    (row_metadata demo_row) (row_created_at demo_row) (row_position demo_row) (row_previous demo_row) (row_hash demo_row) (row_version demo_row).
Definition demo_report : Verification :=
  match verify_chain [demo_row] 1 (row_hash demo_row) 0 with Ok r => r | Fail _ => mkVerification false 0 0 "" 0 "" "" "" 0 end.

Lemma ledger_tamper_evident_witness : Forall2 same_content [demo_row] [respelled_row].
Proof.
  destruct (ledger_tamper_evident [demo_row] [respelled_row] 1 (row_hash demo_row) 0 0 demo_report demo_report) as [H|H];
    [vm_compute; reflexivity..|exact H|].
  vm_compute in H. discriminate H.
Defined.

(** Appending keeps the ledger valid: when the ledger verifies and the JSONB
    columns keep what they are given, the row built for an entry whose states
    have plain numbers extends the chain, and the longer ledger verifies against
    the new head. *)
Theorem append_keeps_ledger_valid jsonb rows position hash entry p row now :
  jsonb_faithful jsonb -> prepareEntry entry = Ok p -> plain_prepared p = true ->
  linked 0 GenesisHash rows position hash ->
  chained_row jsonb entry position hash = Ok row ->
  exists r, verify_chain (rows ++ [row]) (position + 1) (row_hash row) now = Ok r /\ ver_valid r = true.
Proof.
  intros HF Hp HP Hl Hc. apply verify_chain_linked. eapply linked_app; [exact Hl|].
  eapply chained_row_linked; try done. destruct rows as [|x rows] using rev_ind.
  - inversion Hl; subst. apply genesis_valid.
  - apply linked_snoc in Hl as (h' & _ & _ & _ & Hcalc & _). by eapply calculateHash_valid.
Qed.

Definition demo_prepared : preparedEntry :=
  match prepareEntry demo_entry with Ok p => p | Fail _ => mkPrepared "" "" "" end.
Definition demo_row2 : AuditRow :=
  match chained_row sorted_jsonb demo_entry 1 (row_hash demo_row) with Ok row => row | Fail _ => demo_row end.

Lemma append_keeps_ledger_valid_witness :
  exists r, verify_chain ([demo_row] ++ [demo_row2]) (1 + 1) (row_hash demo_row2) 7 = Ok r /\ ver_valid r = true.
Proof.
  apply (append_keeps_ledger_valid sorted_jsonb [demo_row] 1 (row_hash demo_row) demo_entry demo_prepared).
  - exact sorted_jsonb_faithful.
  - vm_compute. reflexivity.
  - vm_compute. reflexivity.
  - apply (verify_chain_iff [demo_row] 1 (row_hash demo_row) 0 demo_report); vm_compute; reflexivity.
  - vm_compute. reflexivity.
Defined.



(** Migrating a ledger that predates the chain produces a valid one: whenever
    every row lacks chain columns, no head exists and the migration succeeds, the
    rows keep their hashed content in time order and verify against the head it
    persists. *)
Theorem MigrateLedger_backfills rows chained p h now :
  rows <> [] -> Forall (fun r => unchained r = true) rows -> MigrateLedger rows None = Ok (chained, p, h) ->
  Forall2 (fun r c => same_content (lg_row r) c) (sort_stable legacy_before rows) chained /\
  exists r, verify_chain chained p h now = Ok r /\ ver_valid r = true.
Proof.
  intros Hne Hall. unfold MigrateLedger.
  assert (filter (fun r => unchained r = true) rows = rows) as ->.
  { clear Hne. induction Hall as [|r rows Hr _ IH]; [done|]. rewrite filter_cons, decide_True, IH by done. done. }
  rewrite Nat.eqb_refl. destruct (Nat.eqb (length rows) 0) eqn:E; [by destruct rows|].
  unfold backfillLegacyRows. intros H. split; [by eapply backfill_content|].
  eapply verify_chain_linked, backfill_linked; [apply genesis_valid|done].
Qed.

Definition demo_legacy : list LegacyRow :=
  [mkLegacy demo_row2 None None None None; mkLegacy demo_row None None None None].
Definition demo_migrated : list AuditRow * Z * string :=
  match MigrateLedger demo_legacy None with Ok x => x | Fail _ => ([], 0, "") end.

Lemma MigrateLedger_backfills_witness :
  exists r, verify_chain demo_migrated.1.1 demo_migrated.1.2 demo_migrated.2 0 = Ok r /\ ver_valid r = true.
Proof.
  apply (MigrateLedger_backfills demo_legacy); [done| |vm_compute; reflexivity].
  repeat constructor.
Defined.
