(* ===== verification/Types.v ===== *)
(** * The records of [internal/incidents/types.go]

    Times are nanoseconds since the Unix epoch; [zero_time] is Go's zero
    [time.Time], 1 January of year 1. Optional pointers are [option]. *)
From Stdlib Require Import Ascii String ZArith Lia.
From stdpp Require Import base gmap strings list.
From S2P Require Import Prelude GoFloat GoValue Topology.
Open Scope Z_scope.

Definition zero_time : Z := - 62135596800 * 10 ^ 9.
Definition IsZero (t : Z) : bool := t =? zero_time.

Definition second : Z := 10 ^ 9.
Definition minute : Z := 60 * second.
Definition hour : Z := 60 * minute.

Record Service := mkService {
  svc_id : string;
  svc_name : string;
  svc_owner : string;
  svc_tier : string;
  svc_environment : string;
  svc_slo_availability : option float64;
  svc_slo_latency_p95_ms : option Z;
  svc_runbook_id : option string;
  svc_created_at : Z;
}.

Record Incident := mkIncident {
  inc_id : string;
  inc_title : string;
  inc_service_id : string;
  inc_service : string;
  inc_severity : string;
  inc_status : string;
  inc_dedupe_key : string;
  inc_fingerprint : string;
  inc_started_at : Z;
  inc_detected_at : Z;
  inc_resolved_at : option Z;
  inc_summary : string;
  inc_created_at : Z;
  inc_updated_at : Z;
  inc_environment : string;
  inc_last_seen_at : Z;
  inc_alerts_cleared_at : option Z;
}.

(** One alert attached to an incident: what identifies it, and its current state. *)
Record AlertObservation := mkAlertObservation {
  obs_dedupe_key : string;
  obs_alert_name : string;
  obs_service : string;
  obs_at : Z;
}.

Record IncidentAlert := mkIncidentAlert {
  ia_dedupe_key : string;
  ia_alert_name : string;
  ia_service : string;
  ia_status : string;
  ia_first_seen_at : Z;
  ia_last_seen_at : Z;
  ia_resolved_at : option Z;
}.

(** Which open incidents still accept alerts. *)
Record Grouping := mkGrouping { gr_window : Z; gr_alert_stale_after : Z }.

Record Signal := mkSignal {
  sig_id : string;
  sig_incident_id : string;
  sig_service_id : string;
  sig_source : string;
  sig_type : string;
  sig_severity : string;
  sig_name : string;
  sig_body : gmap string value;
  sig_observed_at : Z;
  sig_created_at : Z;
}.

Record TimelineEvent := mkTimelineEvent {
  tme_id : string;
  tme_incident_id : string;
  tme_event_type : string;
  tme_source : string;
  tme_summary : string;
  tme_evidence : gmap string value;
  tme_confidence : float64;
  tme_occurred_at : Z;
  tme_created_at : Z;
}.

Record RCACandidate := mkRCACandidate {
  cand_action_type : string;
  cand_target : string;
  cand_parameters : params;
  cand_risk : string;
  cand_requires_approval : bool;
}.

Record RCAEvidence := mkRCAEvidence {
  ev_rule_id : string;
  ev_kind : string;
  ev_source : string;
  ev_reference : string;
  ev_service : string;
  ev_query : string;
  ev_status : string;
  ev_value : option float64;
  ev_comparator : string;
  ev_threshold : option float64;
  ev_weight : float64;
  ev_claim : string;
  ev_symptom : bool;
  ev_error : string;
  ev_observed_at : Z;
}.

Record RCAScore := mkRCAScore {
  sc_rule_id : string;
  sc_baseline : float64;
  sc_alert_match : float64;
  sc_corroborated : float64;
  sc_refuted : float64;
  sc_refutation_penalty : float64;
  sc_raw : float64;
  sc_sources : list string;
  sc_source_cap : float64;
  sc_topology_adjustment : float64;
  sc_contradicted : bool;
  sc_final : float64;
}.

Record IncidentTopology := mkIncidentTopology {
  top_incident_id : string;
  top_root_service : string;
  top_root_inferred : bool;
  top_affected_services : list string;
  top_alert_count : Z;
  top_suppressed_alert_count : Z;
  top_paths : list Path;
}.

Record RemediationAction := mkRemediation {
  rem_id : string;
  rem_incident_id : string;
  rem_action_type : string;
  rem_target : string;
  rem_parameters : params;
  rem_status : string;
  rem_risk : string;
  rem_idempotency_key : string;
  rem_proposed_by : string;
  rem_approved_by : string;
  rem_policy_decision : params;
  rem_dry_run : bool;
  rem_attempt : Z;
  rem_max_attempts : Z;
  rem_queued_at : option Z;
  rem_started_at : option Z;
  rem_completed_at : option Z;
  rem_result : option params;
  rem_error : string;
  rem_created_at : Z;
}.

Definition LLMStatusDisabled : string := "disabled".
Definition LLMStatusPending : string := "pending".
Definition LLMStatusCompleted : string := "completed".
Definition LLMStatusFailed : string := "failed".

Record RCAReport := mkRCAReport {
  rep_id : string;
  rep_incident_id : string;
  rep_deterministic_summary : string;
  rep_llm_summary : string;
  rep_primary_hypothesis : string;
  rep_contributing_factors : list string;
  rep_evidence : list string;
  rep_confidence : float64;
  rep_model_backend : string;
  rep_model_name : string;
  rep_topology : IncidentTopology;
  rep_evidence_items : list RCAEvidence;
  rep_score : RCAScore;
  rep_candidates : list RCACandidate;
  rep_llm_status : string;
  rep_created_at : Z;
}.

(** Alertmanager's webhook payload. *)
Record AlertmanagerAlert := mkAlertmanagerAlert {
  am_status : string;
  am_labels : gmap string string;
  am_annotations : gmap string string;
  am_starts_at : Z;
  am_ends_at : Z;
  am_fingerprint : string;
  am_generator_url : string;
}.

Record AlertmanagerWebhook := mkAlertmanagerWebhook {
  wh_version : string;
  wh_group_key : string;
  wh_truncated_alerts : Z;
  wh_status : string;
  wh_receiver : string;
  wh_external_url : string;
  wh_group_labels : gmap string string;
  wh_common_labels : gmap string string;
  wh_common_annotations : gmap string string;
  wh_alerts : list AlertmanagerAlert;
}.

Record IngestionStats := mkIngestionStats {
  is_alert_count : Z;
  is_incident_groups : Z;
  is_affected_service_count : Z;
  is_observed_roots : Z;
  is_inferred_roots : Z;
  is_suppressed_alert_count : Z;
  is_truncated_alerts : Z;
  is_resolved_alerts : Z;
  is_unmatched_resolved_alerts : Z;
}.

Record IngestionResult := mkIngestionResult { ir_incidents : list Incident; ir_stats : IngestionStats }.

Record ServiceDependencyRequest := mkServiceDependencyRequest {
  sdr_service : string;
  sdr_depends_on : string;
  sdr_dependency_type : string;
  sdr_criticality : string;
}.

Record ManualIncidentRequest := mkManualIncidentRequest {
  mir_title : string;
  mir_service : string;
  mir_severity : string;
  mir_summary : string;
}.
