(* ===== verification/Evidence.v ===== *)
(** * Corroboration probes ([internal/evidence/evidence.go])

    A probe is a query template with one placeholder, a threshold and a weight.
    The backends are not part of the sources: a [Querier] is any function from a
    query and a time to an answer, an error or no usable sample. *)
From Stdlib Require Import Ascii String ZArith Lia SpecFloat.
From stdpp Require Import base gmap strings list.
From S2P Require Import Prelude GoStrings GoFloat GoValue Regexp Types.
Open Scope Z_scope.

Definition Prometheus : string := "prometheus".
Definition Loki : string := "loki".

Definition AtLeast : string := ">=".
Definition Above : string := ">".
Definition AtMost : string := "<=".
Definition Below : string := "<".
Definition Variable_ : string := "{{service}}".

Record Probe := mkProbe {
  pr_id : string;
  pr_backend : string;
  pr_query : string;
  pr_comparator : string;
  pr_threshold : float64;
  pr_weight : float64;
  pr_claim : string;
  pr_symptom : bool;
}.

Inductive Status := StatusCorroborated | StatusRefuted | StatusNoData | StatusUnavailable.

#[export] Instance Status_eq_dec : EqDecision Status.
Proof. solve_decision. Defined.

Definition status_text (s : Status) : string :=
  match s with
  | StatusCorroborated => "corroborated"
  | StatusRefuted => "refuted"
  | StatusNoData => "no_data"
  | StatusUnavailable => "unavailable"
  end.

Record Result := mkResult {
  res_probe_id : string;
  res_backend : string;
  res_query : string;
  res_comparator : string;
  res_threshold : float64;
  res_weight : float64;
  res_claim : string;
  res_symptom : bool;
  res_status : Status;
  res_value : option float64;
  res_error : string;
  res_evaluated_at : Z;
}.

(** [Instant(ctx, query, at)]: an error, or a value with its [ok] flag. *)
Inductive answer :=
  | QueryError (err : error)
  | Sample (v : float64) (ok : bool).
Definition Querier : Type := string -> Z -> answer.

Record Collector := mkCollector { backends : gmap string Querier; timeout : Z }.

Definition NewCollector (timeout : Z) (bs : gmap string (option Querier)) : Collector :=
  mkCollector (omap id bs) (if timeout <=? 0 then 3 * second else timeout).

Definition Configured (c : option Collector) (backend : string) : bool :=
  match c with None => false | Some c => bool_decide (is_Some (backends c !! backend)) end.

Definition Compare (v : float64) (comparator : string) (threshold : float64) : bool :=
  if comparator =?s AtLeast then fge v threshold
  else if comparator =?s Above then fgt v threshold
  else if comparator =?s AtMost then fle v threshold
  else if comparator =?s Below then flt v threshold
  else false.

(** [^[a-z0-9](?:[a-z0-9._-]{0,61}[a-z0-9])?$] *)
Definition safe_edge (c : ascii) : bool := is_lower c || is_digit c.
Definition safe_char (c : ascii) : bool :=
  safe_edge c || Ascii.eqb c "." || Ascii.eqb c "_" || Ascii.eqb c "-".
Definition safeLabelValue : regexp :=
  RCat (RClass safe_edge) (ROpt (RCat (RUpTo safe_char 61) (RClass safe_edge))).

Definition Render (template service : string) : result string :=
  if negb (rmatch safeLabelValue service)
  then Fail (errorf ("service " +:+ Quote service +:+ " is not a safe label value; probe not executed"))
  else
    let rendered := ReplaceAll template Variable_ service in
    if Contains rendered "{{" then Fail (errorf "probe template has an unknown placeholder")
    else Ok rendered.

(** The fields [runOne] fills in for every outcome. *)
Definition probe_result (probe : Probe) (query : string) (status : Status) (v : option float64)
    (err : string) (at_ : Z) : Result :=
  mkResult (pr_id probe) (pr_backend probe) query (pr_comparator probe) (pr_threshold probe)
    (pr_weight probe) (pr_claim probe) (pr_symptom probe) status v err at_.

Definition runOne (c : option Collector) (probe : Probe) (service : string) (at_ : Z) : Result :=
  match Render (pr_query probe) service with
  | Fail err => probe_result probe (pr_query probe) StatusUnavailable None (err_text err) at_
  | Ok query =>
      match c ≫= (fun c => backends c !! pr_backend probe) with
      | None => probe_result probe query StatusUnavailable None (pr_backend probe +:+ " backend not configured") at_
      | Some querier =>
          match querier query at_ with
          | QueryError err => probe_result probe query StatusUnavailable None (err_text err) at_
          | Sample v ok =>
              if negb ok || IsNaN v || IsInf v then probe_result probe query StatusNoData None "" at_
              else if Compare v (pr_comparator probe) (pr_threshold probe)
              then probe_result probe query StatusCorroborated (Some v) "" at_
              else probe_result probe query StatusRefuted (Some v) "" at_
          end
      end
  end.

(** Each goroutine of [Run] writes the slot of its own probe, so the results are
    those of the probes in order, whatever the interleaving. *)
Definition Run (c : option Collector) (probes : list Probe) (service : string) (at_ : Z) : list Result :=
  (fun probe => runOne c probe service at_) <$> probes.

Definition ValidateProbe (probe : Probe) : result unit :=
  let name := "probe " +:+ pr_id probe +:+ ": " in
  if TrimSpace (pr_id probe) =?s "" then Fail (errorf "probe id is required")
  else if negb (pr_backend probe =?s Prometheus) && negb (pr_backend probe =?s Loki)
  then Fail (errorf (name +:+ "unknown backend " +:+ Quote (pr_backend probe)))
  else if negb (Contains (pr_query probe) Variable_)
  then Fail (errorf (name +:+ "query must be scoped with " +:+ Variable_))
  else if fle (pr_weight probe) fzero || fgt (pr_weight probe) (lit 5 10)
  then Fail (errorf (name +:+ "weight must be in (0, 0.5]"))
  else if TrimSpace (pr_claim probe) =?s "" then Fail (errorf (name +:+ "claim is required"))
  else if negb (bool_decide (pr_comparator probe ∈ [AtLeast; Above; AtMost; Below]))
  then Fail (errorf (name +:+ "unknown comparator " +:+ Quote (pr_comparator probe)))
  else match Render (pr_query probe) "probe-check" with
       | Fail err => Fail (wrapf ("probe " +:+ pr_id probe) err)
       | Ok _ => Ok tt
       end.

(** ** Lemmas *)

Lemma safe_label_chars s : rmatch safeLabelValue s = true -> all_chars safe_char s = true.
Proof.
  intros H. apply (lang_all_chars safe_char safeLabelValue); [|by apply rmatch_spec].
  repeat split; intros c; unfold safe_char; auto; by intros ->.
Qed.

Lemma safe_label_length s : rmatch safeLabelValue s = true -> (1 <= String.length s <= 63)%nat.
Proof.
  intros H. apply rmatch_spec in H as (a & b & -> & (c & -> & _) & Hb).
  rewrite length_app_string. simpl. destruct Hb as [->|(x & y & -> & [_ Hx] & (d & -> & _))]; simpl; [lia|].
  rewrite length_app_string. simpl. lia.
Qed.

Lemma Render_ok template service q :
  Render template service = Ok q ->
  rmatch safeLabelValue service = true /\ q = ReplaceAll template Variable_ service /\ Contains q "{{" = false.
Proof. unfold Render. intros H. split_tests; try done. by injection H as <-. Qed.

Lemma runOne_static c probe service at_ :
  let r := runOne c probe service at_ in
  res_probe_id r = pr_id probe /\ res_backend r = pr_backend probe /\ res_weight r = pr_weight probe /\
  res_symptom r = pr_symptom probe /\ res_comparator r = pr_comparator probe /\
  res_threshold r = pr_threshold probe /\ res_claim r = pr_claim probe /\ res_evaluated_at r = at_.
Proof. unfold runOne. repeat case_match; done. Qed.

(** ** Properties *)

(** A label value that reaches a backend query cannot break out of the quoted
    matcher it is substituted into: the rendered query is the trusted template's
    own pieces joined by the service, the service has 1 to 63 characters, all of
    them lower-case letters, digits, dots, underscores or dashes, and no
    placeholder is left. *)
Theorem Render_no_injection template service q :
  Render template service = Ok q ->
  q = Join (Split template Variable_) service /\ (1 <= String.length service <= 63)%nat /\
  all_chars safe_char service = true /\
  has_char quote_char service = false /\ has_char backslash service = false /\
  has_char "{" service = false /\ Contains q "{{" = false.
Proof.
  intros H. apply Render_ok in H as (Hs & -> & Hc). apply safe_label_chars in Hs as Ha.
  apply safe_label_length in Hs as Hl.
  assert (forall x, safe_char x = false -> has_char x service = false) as Hno.
  { intros x Hx. clear -Hx Ha. induction service as [|c s IH]; simpl in *; [done|].
    apply andb_true_iff in Ha as [Hc Ha]. rewrite (IH Ha), orb_false_r.
    apply Ascii.eqb_neq. intros ->. congruence. }
  repeat split; auto; lia.
Qed.

Lemma Render_no_injection_witness :
  let service := "payments-api" in
  let q := "up{service='payments-api'}" in
  q = Join (Split "up{service='{{service}}'}" Variable_) service /\ (1 <= String.length service <= 63)%nat /\
  all_chars safe_char service = true /\
  has_char quote_char service = false /\ has_char backslash service = false /\
  has_char "{" service = false /\ Contains q "{{" = false.
Proof. apply (Render_no_injection "up{service='{{service}}'}"). vm_compute. reflexivity. Defined.

(** A probe counts as evidence only when a configured backend answered it: a
    corroborated or refuted result means that the service was a safe label, the
    probe's backend is configured and returned this finite sample for exactly the
    rendered query, and corroborated versus refuted is the comparison of that
    sample with the threshold; every other outcome carries no value. *)
Theorem probe_evidence_is_observed c probe service at_ :
  let r := runOne c probe service at_ in
  match res_value r with
  | Some v =>
      (exists col querier, c = Some col /\ backends col !! pr_backend probe = Some querier /\
         Render (pr_query probe) service = Ok (res_query r) /\ querier (res_query r) at_ = Sample v true) /\
      IsNaN v = false /\ IsInf v = false /\
      res_status r = (if Compare v (pr_comparator probe) (pr_threshold probe)
                      then StatusCorroborated else StatusRefuted)
  | None => res_status r = StatusNoData \/ res_status r = StatusUnavailable
  end.
Proof.
  unfold runOne. destruct (Render (pr_query probe) service) as [query|err] eqn:R; [|simpl; auto].
  destruct (c ≫= _) as [querier|] eqn:Q; [|simpl; auto].
  destruct (querier query at_) as [err|v ok] eqn:A; [simpl; auto|].
  destruct (negb ok || IsNaN v || IsInf v) eqn:N; [simpl; auto|].
  apply orb_false_iff in N as [N Ni]. apply orb_false_iff in N as [Nok Nn].
  apply negb_false_iff in Nok as ->. destruct c as [col|]; [|done]. simpl in Q.
  destruct (Compare v (pr_comparator probe) (pr_threshold probe)) eqn:C; simpl; rewrite C;
    (split; [by exists col, querier|done]).
Qed.
