(* ===== verification/Correlation.v ===== *)
(** * Failure-mode rules ([internal/correlation/rules.go]) and the correlator
    ([internal/correlation/correlator.go])

    The rule table, its validation, the rendering of a remediation template
    against the alert that matched, and the selection of rules by structured
    alert identity. *)
From Stdlib Require Import Ascii String ZArith Lia SpecFloat Sorted Permutation.
From stdpp Require Import base gmap strings list.
From S2P Require Import Prelude GoStrings GoFloat GoValue Actions Types Evidence.
Open Scope Z_scope.

Definition RulePostgresConnectionExhaustion : string := "postgres_connection_exhaustion".
Definition RuleRedisMemoryPressure : string := "redis_memory_pressure".
Definition RuleNginxUpstreamConfig : string := "nginx_upstream_config".
Definition RuleDependencyLatency : string := "dependency_latency".
Definition RuleBadConfigRollout : string := "bad_config_rollout".

Definition FailureModeLabel : string := "argus_failure_mode".

Record CandidateTemplate := mkTemplate {
  tpl_action : string;
  tpl_label : string;
  tpl_fallback : bool;
  tpl_format : string;
  tpl_parameters : params;
  tpl_risk : string;
}.

Record Rule := mkRule {
  rule_id : string;
  rule_hypothesis : string;
  rule_alert_names : list string;
  rule_probes : list Probe;
  rule_remediations : list CandidateTemplate;
}.

(** ** The compiled rule table *)

(** [name{{service="..."}}]: a label matcher of the query language. *)
Definition scoped (metric rest : string) : string :=
  metric +:+ "{service=" +:+ dq +:+ Variable_ +:+ dq +:+ rest +:+ "}".
Definition status_5xx : string := ",status=~" +:+ dq +:+ "5.." +:+ dq.

Definition errorRatioQuery : string :=
  "sum(rate(" +:+ scoped "http_requests_total" status_5xx +:+ "[5m])) / sum(rate("
  +:+ scoped "http_requests_total" "" +:+ "[5m]))".
Definition p95LatencyQuery : string :=
  "histogram_quantile(0.95, sum by (le) (rate(" +:+ scoped "http_request_duration_seconds_bucket" "" +:+ "[5m])))".

Definition errorRatioProbe (id : string) (weight : float64) : Probe :=
  mkProbe id Prometheus errorRatioQuery AtLeast (lit 5 100) weight
    "5xx response ratio is at or above 5%" true.

Definition logProbe (id filter claim : string) (weight : float64) : Probe :=
  mkProbe id Loki ("sum(count_over_time(" +:+ scoped "" "" +:+ " " +:+ filter +:+ " [10m]))")
    AtLeast (of_int 1) weight claim false.

Definition plain_template (action risk : string) : CandidateTemplate := mkTemplate action "" false "" ∅ risk.
Definition pod_template : CandidateTemplate := mkTemplate RestartPod "pod" true "local/%s" ∅ "medium".

Definition postgres_rule : Rule :=
  mkRule RulePostgresConnectionExhaustion "PostgreSQL connection pool exhaustion"
    ["PaymentsAPIPostgresConnectionExhaustion"; "PaymentsAPIPostgresPoolSaturation"; "PostgresConnectionPoolExhausted"]
    [mkProbe "postgres_pool_utilisation" Prometheus
       ("max(" +:+ scoped "db_connection_pool_in_use" "" +:+ " / " +:+ scoped "db_connection_pool_max" "" +:+ ")")
       AtLeast (lit 9 10) (lit 20 100) "connection pool utilisation is at or above 90%" false;
     errorRatioProbe "postgres_service_error_ratio" (lit 10 100);
     logProbe "postgres_acquisition_timeout_logs" ("|= " +:+ dq +:+ "connection acquisition timeout" +:+ dq)
       "logs contain postgres connection acquisition timeouts" (lit 20 100)]
    [plain_template DrainPostgresConnections "medium";
     mkTemplate ResizeConnectionPool "" false "" {["size" := VInt 20]} "medium";
     pod_template].

Definition redis_rule : Rule :=
  mkRule RuleRedisMemoryPressure "Redis memory pressure causing cache degradation"
    ["PaymentsAPIRedisMemoryPressure"; "RedisMemoryPressure"; "RedisMemoryHigh"]
    [mkProbe "redis_memory_utilisation" Prometheus
       ("max(" +:+ scoped "redis_memory_used_bytes" "" +:+ " / " +:+ scoped "redis_memory_max_bytes" "" +:+ ")")
       AtLeast (lit 9 10) (lit 20 100) "redis memory usage is at or above 90% of maxmemory" false;
     mkProbe "redis_operation_errors" Prometheus
       ("sum(increase(" +:+ scoped "redis_operation_errors_total" "" +:+ "[10m]))")
       AtLeast (of_int 1) (lit 15 100) "redis operation errors increased in the last 10 minutes" false;
     logProbe "redis_memory_pressure_logs" ("|= " +:+ dq +:+ "redis memory pressure" +:+ dq)
       "logs report redis memory pressure" (lit 15 100)]
    [mkTemplate PurgeCache "cache_key_pattern" false "" {["max_keys" := VInt 500]} "medium"].

Definition nginx_rule : Rule :=
  mkRule RuleNginxUpstreamConfig "Nginx upstream misconfiguration or bad route rollout"
    ["Nginx5xxSpike"; "NginxUpstreamErrors"]
    [mkProbe "nginx_5xx_ratio" Prometheus
       ("sum(rate(" +:+ scoped "nginx_http_requests_total" status_5xx +:+ "[5m])) / sum(rate("
        +:+ scoped "nginx_http_requests_total" "" +:+ "[5m]))")
       AtLeast (lit 5 100) (lit 20 100) "edge 5xx response ratio is at or above 5%" true;
     logProbe "nginx_upstream_error_logs" ("|= " +:+ dq +:+ "upstream" +:+ dq)
       "edge logs report upstream errors" (lit 15 100)]
    [plain_template RollbackConfig "medium"; plain_template ReloadNginx "medium"].

Definition latency_rule : Rule :=
  mkRule RuleDependencyLatency "Downstream dependency latency dominates the request path"
    ["PaymentsAPIDependencyLatency"; "DownstreamDependencyLatency"]
    [mkProbe "service_p95_latency" Prometheus p95LatencyQuery AtLeast (lit 8 10) (lit 20 100)
       "p95 request latency is at or above 800ms" true;
     logProbe "dependency_latency_logs" ("|= " +:+ dq +:+ "latency dominated" +:+ dq)
       "logs attribute request latency to a downstream dependency" (lit 15 100)]
    [mkTemplate ToggleFeatureFlag "degradable_feature_flag" false "" {["enabled" := VBool false]} "medium"].

Definition config_rule : Rule :=
  mkRule RuleBadConfigRollout "Bad config rollout introduced an invalid runtime configuration"
    ["PaymentsAPIBadConfigRollout"; "ConfigRolloutFailed"]
    [logProbe "config_parse_error_logs" ("|~ " +:+ dq +:+ "config parse|invalid config" +:+ dq)
       "logs contain configuration parse errors" (lit 25 100);
     errorRatioProbe "config_service_error_ratio" (lit 10 100)]
    [plain_template RollbackConfig "medium"; pod_template].

Definition DefaultRules : list Rule := [postgres_rule; redis_rule; nginx_rule; latency_rule; config_rule].

(** ** Validation *)

Definition validateTemplate (t : CandidateTemplate) : result unit :=
  if negb (IsRegistered (tpl_action t))
  then Fail (errorf ("remediation " +:+ Quote (tpl_action t) +:+ " is not a registered action"))
  else if negb (bool_decide (tpl_risk t ∈ ["low"; "medium"; "high"]))
  then Fail (errorf ("remediation " +:+ tpl_action t +:+ " has unknown risk " +:+ Quote (tpl_risk t)))
  else if negb (tpl_format t =?s "") && negb (Nat.eqb (Count (tpl_format t) "%s") 1)
  then Fail (errorf ("remediation " +:+ tpl_action t +:+ " target format must contain exactly one %s"))
  else if (tpl_label t =?s "") && tpl_fallback t
  then Fail (errorf ("remediation " +:+ tpl_action t +:+ ": fallback without a target label is redundant"))
  else Ok tt.

(** The loop over a rule's alert names, with the owners recorded so far. *)
Fixpoint claim_alert_names (rule : string) (names : list string) (alertNames : gmap string string)
    : result (gmap string string) :=
  match names with
  | [] => Ok alertNames
  | name :: names =>
      match alertNames !! name with
      | Some owner => Fail (errorf ("alert " +:+ name +:+ " is claimed by both " +:+ owner +:+ " and " +:+ rule))
      | None => claim_alert_names rule names (<[name := rule]> alertNames)
      end
  end.

(** The loop over a rule's probes: the sum of the weights and whether some probe
    tests a cause. *)
Fixpoint check_probes (rule : string) (probes : list Probe) (probeIDs : gset string) (total : float64) (hasCause : bool)
    : result (float64 * bool) :=
  match probes with
  | [] => Ok (total, hasCause)
  | probe :: probes =>
      match ValidateProbe probe with
      | Fail err => Fail (wrapf ("rule " +:+ rule) err)
      | Ok _ =>
          if bool_decide (pr_id probe ∈ probeIDs)
          then Fail (errorf ("rule " +:+ rule +:+ ": duplicate probe " +:+ pr_id probe))
          else check_probes rule probes ({[pr_id probe]} ∪ probeIDs) (fadd total (pr_weight probe))
                 (hasCause || negb (pr_symptom probe))
      end
  end.

Fixpoint check_templates (rule : string) (templates : list CandidateTemplate) : result unit :=
  match templates with
  | [] => Ok tt
  | t :: templates =>
      match validateTemplate t with
      | Fail err => Fail (wrapf ("rule " +:+ rule) err)
      | Ok _ => check_templates rule templates
      end
  end.

(** [0.5+1e-9], the bound on a rule's total weight. *)
Definition max_total : float64 := lit 500000001 1000000000.

(** One iteration of [ValidateRules]. *)
Definition check_rule (rule : Rule) (ids : gset string) (alertNames : gmap string string)
    : result (gset string * gmap string string) :=
  let id := rule_id rule in
  if (id =?s "") || (rule_hypothesis rule =?s "") then Fail (errorf "rule id and hypothesis are required")
  else if bool_decide (id ∈ ids) then Fail (errorf ("duplicate rule id " +:+ id))
  else match rule_alert_names rule with
  | [] => Fail (errorf ("rule " +:+ id +:+ " has no alert names"))
  | names =>
      let! alertNames := claim_alert_names id names alertNames in
      match rule_probes rule with
      | [] => Fail (errorf ("rule " +:+ id +:+ " has no corroboration probes"))
      | probes =>
          let! sums := check_probes id probes ∅ fzero false in
          let '(total, hasCause) := sums in
          if negb hasCause
          then Fail (errorf ("rule " +:+ id +:+ " has only symptom probes; it can never be independently corroborated"))
          else if fgt total max_total
          then Fail (errorf ("rule " +:+ id +:+ ": probe weights sum to " +:+ fmt_fixed 2 total +:+ ", above 0.50"))
          else let! _ := check_templates id (rule_remediations rule) in Ok ({[id]} ∪ ids, alertNames)
      end
  end.

Fixpoint validate_from (rules : list Rule) (ids : gset string) (alertNames : gmap string string) : result unit :=
  match rules with
  | [] => Ok tt
  | rule :: rules =>
      let! seen := check_rule rule ids alertNames in
      validate_from rules seen.1 seen.2
  end.

Definition ValidateRules (rules : list Rule) : result unit := validate_from rules ∅ ∅.

(** ** Rendering a template *)

(** [fmt.Sprintf(format, v)] for one string argument: [%s] and [%%], the verbs of
    a target format; any other verb prints as a bad verb. [used] says whether the
    argument was consumed. *)
Fixpoint sprintf_scan (format v : string) (used : bool) : string * bool :=
  match format with
  | EmptyString => ("", used)
  | String c rest =>
      if Ascii.eqb c "%" then
        match rest with
        | EmptyString => ("%!(NOVERB)", used)
        | String verb rest =>
            if Ascii.eqb verb "%" then let '(s, u) := sprintf_scan rest v used in ("%" +:+ s, u)
            else if used then
              let '(s, u) := sprintf_scan rest v used in ("%!" +:+ String verb "(MISSING)" +:+ s, u)
            else
              let '(s, u) := sprintf_scan rest v true in
              ((if Ascii.eqb verb "s" then v else "%!" +:+ String verb "(string=" +:+ v +:+ ")") +:+ s, u)
        end
      else let '(s, u) := sprintf_scan rest v used in (String c s, u)
  end.
Definition Sprintf1 (format v : string) : string :=
  let '(s, used) := sprintf_scan format v false in
  if used then s else s +:+ "%!(EXTRA string=" +:+ v +:+ ")".

(** [CandidateTemplate.Render]: target, parameters (nil when refused), reason. *)
Definition RenderTemplate (t : CandidateTemplate) (service : string) (labels : gmap string string)
    : string * option params * string :=
  let label := str_at labels (tpl_label t) in
  let '(v, source) :=
    if tpl_label t =?s "" then (service, "alert service")
    else if (label =?s "") && tpl_fallback t then (service, "alert service")
    else (label, "label " +:+ tpl_label t) in
  if v =?s "" then ("", None, "alert has no " +:+ source)
  else
    let target := if tpl_format t =?s "" then v else Sprintf1 (tpl_format t) v in
    match Validate (tpl_action t) target (tpl_parameters t) with
    | Fail err =>
        ("", None, "target " +:+ Quote target +:+ " from " +:+ source +:+ " rejected by action catalog: " +:+ err_text err)
    | Ok _ => (target, Some (tpl_parameters t), "")
    end.

(** ** The correlator *)

Record Match := mkMatch {
  m_rule_id : string;
  m_rule : Rule;
  m_signal_id : string;
  m_alert_name : string;
  m_service : string;
  m_labels : gmap string string;
  m_observed_at : Z;
  m_reason : string;
}.

Record Correlator := mkCorrelator {
  cor_rules : list Rule;
  cor_byAlertName : gmap string nat;
  cor_byID : gmap string nat;
}.

(** One iteration of the indexing loop of [NewWithRules]. *)
Definition index_names (i : nat) (names : list string) (m : gmap string nat) : gmap string nat :=
  foldl (fun m name => <[name := i]> m) m names.
Fixpoint index_rules (i : nat) (rules : list Rule) (byName byID : gmap string nat) : gmap string nat * gmap string nat :=
  match rules with
  | [] => (byName, byID)
  | rule :: rules =>
      index_rules (S i) rules (index_names i (rule_alert_names rule) byName) (<[rule_id rule := i]> byID)
  end.

Definition NewWithRules (rules : list Rule) : result Correlator :=
  match ValidateRules rules with
  | Fail err => Fail err
  | Ok _ => let '(byName, byID) := index_rules 0 rules ∅ ∅ in Ok (mkCorrelator rules byName byID)
  end.

(** [New] panics on an invalid table; [New_never_panics] shows that it does not. *)
Definition New : result Correlator := NewWithRules DefaultRules.

(** The string members of a decoded JSON object. *)
Definition string_members (m : list (string * value)) : gmap string string :=
  list_to_map (omap (fun kv => match kv.2 with VString s => Some (kv.1, s) | _ => None end) m).

Definition SignalLabels (signal : Signal) : gmap string string :=
  match sig_body signal !! "labels" with
  | Some (VStrMap raw) => list_to_map raw
  | Some (VMap raw) => string_members raw
  | _ => ∅
  end.

Definition SignalService (incident : Incident) (signal : Signal) (labels : gmap string string) : string :=
  if negb (str_at labels "service" =?s "") then str_at labels "service"
  else match sig_body signal !! "topology" with
  | Some (VMap topology) =>
      match (list_to_map topology : params) !! "observed_service" with
      | Some (VString service) => if negb (service =?s "") then service else inc_service incident
      | _ => inc_service incident
      end
  | _ => inc_service incident
  end.

Definition alert_name (signal : Signal) (labels : gmap string string) : string :=
  if sig_name signal =?s "" then str_at labels "alertname" else sig_name signal.

(** The rule index and the reason chosen for one signal. *)
Definition select (c : Correlator) (signal : Signal) (labels : gmap string string) : option (nat * string) :=
  let alertName := alert_name signal labels in
  let mode := str_at labels FailureModeLabel in
  let explicit :=
    if negb (mode =?s "")
    then (fun i => (i, "label " +:+ FailureModeLabel +:+ "=" +:+ mode)) <$> (cor_byID c !! mode)
    else None in
  match explicit with
  | Some x => Some x
  | None => (fun i => (i, "alertname " +:+ alertName)) <$> (cor_byAlertName c !! alertName)
  end.

Definition match_signal (c : Correlator) (incident : Incident) (signal : Signal) : option Match :=
  let labels := SignalLabels signal in
  match select c signal labels with
  | None => None
  | Some (i, reason) =>
      rule ← cor_rules c !! i;
      Some (mkMatch (rule_id rule) rule (sig_id signal) (alert_name signal labels)
        (SignalService incident signal labels) labels
        (if IsZero (sig_observed_at signal) then inc_started_at incident else sig_observed_at signal) reason)
  end.

Definition observed_before (a b : Match) : bool := m_observed_at a <? m_observed_at b.

Definition MatchSignals (c : Correlator) (incident : Incident) (signals : list Signal) : list Match :=
  sort_stable observed_before (omap (match_signal c incident) signals).

(** ** What a validated table promises *)

Record valid_rule (rule : Rule) : Prop := {
  vr_id : rule_id rule <> "";
  vr_hypothesis : rule_hypothesis rule <> "";
  vr_alerts : rule_alert_names rule <> [];
  vr_probes : Forall (fun p => ValidateProbe p = Ok tt) (rule_probes rule);
  vr_probe_ids : NoDup (pr_id <$> rule_probes rule);
  vr_cause : exists p, p ∈ rule_probes rule /\ pr_symptom p = false;
  vr_weights : fgt (foldl (fun t p => fadd t (pr_weight p)) fzero (rule_probes rule)) max_total = false;
  vr_templates : Forall (fun t => validateTemplate t = Ok tt) (rule_remediations rule);
}.

Record valid_table (rules : list Rule) : Prop := {
  vt_rules : Forall valid_rule rules;
  vt_ids : NoDup (rule_id <$> rules);
  vt_names : NoDup (rules ≫= rule_alert_names);
}.

Lemma ok_unit (m : result unit) x : m = Ok x -> m = Ok tt.
Proof. by destruct x. Qed.

Lemma claim_alert_names_ok rule names owners owners' :
  claim_alert_names rule names owners = Ok owners' ->
  NoDup names /\ (forall n, n ∈ names -> owners !! n = None) /\
  dom owners' = list_to_set names ∪ dom owners.
Proof.
  revert owners. induction names as [|n names IH]; intros owners H; simpl in H.
  - injection H as <-. split_and!; [constructor|set_solver|set_solver].
  - destruct (owners !! n) eqn:E; [done|]. apply IH in H as (Hnd & Hnone & Hdom).
    assert (n ∉ names) as Hn.
    { intros Hin. apply Hnone in Hin. by rewrite lookup_insert_eq in Hin. }
    split_and!; [by constructor| |rewrite Hdom, dom_insert_L; set_solver].
    intros k [->|Hk]%elem_of_cons; [done|]. specialize (Hnone k Hk).
    apply lookup_insert_None in Hnone. tauto.
Qed.

Lemma check_probes_ok rule probes seen total cause t c :
  check_probes rule probes seen total cause = Ok (t, c) ->
  Forall (fun p => ValidateProbe p = Ok tt) probes /\ NoDup (pr_id <$> probes) /\
  (forall p, p ∈ probes -> pr_id p ∉ seen) /\
  t = foldl (fun t p => fadd t (pr_weight p)) total probes /\
  (c = true -> cause = true \/ exists p, p ∈ probes /\ pr_symptom p = false).
Proof.
  revert seen total cause. induction probes as [|p probes IH]; intros seen total cause H; simpl in H.
  - injection H as <- <-. split_and!; [constructor|constructor|set_solver|done|auto].
  - destruct (ValidateProbe p) as [u|] eqn:V; [|done]. split_tests; [done|].
    apply IH in H as (Hf & Hnd & Hseen & Ht & Hc). split_and!.
    + constructor; [by eapply ok_unit|done].
    + simpl. constructor; [|done]. intros (q & Hq & Hin)%list_elem_of_fmap. apply Hseen in Hin. set_solver.
    + intros q [->|Hq]%elem_of_cons; [done|]. apply Hseen in Hq. set_solver.
    + done.
    + intros Hct. apply Hc in Hct as [Hct|(q & Hq & Hs)]; [|right; set_solver].
      apply orb_true_iff in Hct as [->|Hct]; [by left|]. right. exists p.
      split; [set_solver|by apply negb_true_iff].
Qed.

Lemma check_templates_ok rule ts :
  check_templates rule ts = Ok tt -> Forall (fun t => validateTemplate t = Ok tt) ts.
Proof.
  induction ts as [|t ts IH]; simpl; intros H; [constructor|].
  destruct (validateTemplate t) eqn:V; [|done]. constructor; [by eapply ok_unit|auto].
Qed.

Lemma check_rule_ok rule ids owners ids' owners' :
  check_rule rule ids owners = Ok (ids', owners') ->
  valid_rule rule /\ rule_id rule ∉ ids /\ ids' = {[rule_id rule]} ∪ ids /\
  NoDup (rule_alert_names rule) /\ (forall n, n ∈ rule_alert_names rule -> n ∉ dom owners) /\
  dom owners' = list_to_set (rule_alert_names rule) ∪ dom owners.
Proof.
  unfold check_rule. intros H. split_tests; try discriminate.
  destruct (rule_alert_names rule) as [|n names] eqn:EN; [done|].
  apply result_bind_ok in H as (o & HC & H). apply claim_alert_names_ok in HC as (Hnd & Hnone & Hdom).
  destruct (rule_probes rule) as [|p probes] eqn:EP; [done|].
  apply result_bind_ok in H as ([total cause] & HP & H).
  apply check_probes_ok in HP as (Hf & Hpn & _ & Ht & Hc). split_tests; try discriminate.
  apply result_bind_ok in H as (u & HT & H). injection H as <- <-. apply ok_unit, check_templates_ok in HT.
  split_and!; try assumption; try reflexivity.
  - subst cause. split; rewrite ?EN, ?EP; try assumption; try discriminate; [by destruct Hc|by rewrite <- Ht].
  - intros k Hk Hd. apply Hnone in Hk. by apply not_elem_of_dom in Hk.
Qed.

Lemma validate_from_ok rules ids owners :
  validate_from rules ids owners = Ok tt ->
  valid_table rules /\ (forall r, r ∈ rules -> rule_id r ∉ ids) /\
  (forall r n, r ∈ rules -> n ∈ rule_alert_names r -> n ∉ dom owners).
Proof.
  revert ids owners. induction rules as [|r rules IH]; intros ids owners H; simpl in H.
  - split_and!; [split; constructor|set_solver|set_solver].
  - apply result_bind_ok in H as ([ids' owners'] & HR & H).
    apply check_rule_ok in HR as (Hv & Hid & -> & Hnd & Hfree & Hdom).
    apply IH in H as ([Hrs Hids Hnames] & Hid' & Hfree'). split_and!.
    + split; [by constructor| |].
      * simpl. constructor; [|done]. intros (q & Hq & Hin)%list_elem_of_fmap. apply Hid' in Hin. set_solver.
      * simpl. apply NoDup_app. split_and!; [done| |done].
        intros n Hn (q & Hq & Hin)%list_elem_of_bind. apply (Hfree' q n); [done|done|]. set_solver.
    + intros q [->|Hq]%elem_of_cons; [done|]. apply Hid' in Hq. set_solver.
    + intros q n [->|Hq]%elem_of_cons Hn; [by apply Hfree|]. specialize (Hfree' q n Hq Hn). set_solver.
Qed.

Lemma ValidateRules_ok rules : ValidateRules rules = Ok tt -> valid_table rules.
Proof. intros H. by apply validate_from_ok in H as [? _]. Qed.

(** ** The indices find exactly the rules *)

Definition name_entry (rules : list Rule) (i : nat) (n : string) : Prop :=
  exists r, rules !! i = Some r /\ n ∈ rule_alert_names r.

Lemma index_names_lookup i names m n :
  index_names i names m !! n = if bool_decide (n ∈ names) then Some i else m !! n.
Proof.
  revert m. induction names as [|k names IH]; intros m; [done|]. simpl. unfold index_names in *. rewrite IH.
  case_bool_decide as H1; case_bool_decide as H2; set_unfold; try tauto.
  - destruct H2 as [->|?]; [|tauto]. by rewrite lookup_insert_eq.
  - rewrite lookup_insert_ne; [done|]. naive_solver.
Qed.

Lemma index_rules_lookup rules i byName byID :
  NoDup (rule_id <$> rules) -> NoDup (rules ≫= rule_alert_names) ->
  (forall id j, (index_rules i rules byName byID).2 !! id = Some j <->
     (exists k r, j = (i + k)%nat /\ rules !! k = Some r /\ rule_id r = id) \/
     (id ∉ rule_id <$> rules) /\ byID !! id = Some j) /\
  (forall n j, (index_rules i rules byName byID).1 !! n = Some j <->
     (exists k r, j = (i + k)%nat /\ rules !! k = Some r /\ n ∈ rule_alert_names r) \/
     (n ∉ rules ≫= rule_alert_names) /\ byName !! n = Some j).
Proof.
  revert i byName byID. induction rules as [|r rules IH]; intros i byName byID Hids Hnames.
  { simpl. split; intros x j; (split; [intros ?; right; split; [apply not_elem_of_nil|done]|]);
      intros [(k & r & _ & Hk & _)|[_ ?]]; done. }
  simpl in Hids, Hnames. apply NoDup_cons in Hids as [Hid Hids]. apply NoDup_app in Hnames as (Hn & Hdis & Hnames).
  simpl. destruct (IH (S i) (index_names i (rule_alert_names r) byName) (<[rule_id r := i]> byID) Hids Hnames) as [I1 I2].
  split.
  - intros id j. rewrite I1. rewrite not_elem_of_cons. split.
    + intros [(k & q & -> & Hk & Hq)|[Hnot Hl]].
      * left. exists (S k), q. split_and!; [lia|done|done].
      * apply lookup_insert_Some in Hl as [[<- <-]|[Hne Hl]]; [left; exists 0%nat, r; split_and!; [lia|done|done]|].
        right. split_and!; done.
    + intros [(k & q & -> & Hk & Hq)|[[Hne Hnot] Hl]].
      * destruct k as [|k]; simpl in Hk.
        -- injection Hk as ->. subst id. right. split; [done|]. rewrite lookup_insert_eq. f_equal. lia.
        -- left. exists k, q. split_and!; [lia|done|done].
      * right. split; [done|]. by rewrite lookup_insert_ne.
  - intros n j. rewrite I2, index_names_lookup, not_elem_of_app. split.
    + intros [(k & q & -> & Hk & Hq)|[Hnot Hl]].
      * left. exists (S k), q. split_and!; [lia|done|done].
      * case_bool_decide; [injection Hl as <-; left; exists 0%nat, r; split_and!; [lia|done|done]|].
        right. split_and!; done.
    + intros [(k & q & -> & Hk & Hq)|[[Hne Hnot] Hl]].
      * destruct k as [|k]; simpl in Hk.
        -- injection Hk as ->. right. split; [by apply Hdis|]. rewrite bool_decide_eq_true_2 by done. f_equal. lia.
        -- left. exists k, q. split_and!; [lia|done|done].
      * right. split; [done|]. by rewrite bool_decide_eq_false_2.
Qed.

Section indexed.
Context (rules : list Rule) (c : Correlator) (Hc : NewWithRules rules = Ok c).

Lemma new_table : valid_table rules.
Proof.
  unfold NewWithRules in Hc. destruct (ValidateRules rules) eqn:V; [|done]. by eapply ValidateRules_ok, ok_unit.
Qed.

Lemma new_fields : cor_rules c = rules /\ index_rules 0 rules ∅ ∅ = (cor_byAlertName c, cor_byID c).
Proof.
  unfold NewWithRules in Hc. destruct (ValidateRules rules) as [u|]; [|done].
  destruct (index_rules 0 rules ∅ ∅) as [names ids]. by injection Hc as <-.
Qed.

Lemma byID_spec id i : cor_byID c !! id = Some i <-> exists r, rules !! i = Some r /\ rule_id r = id.
Proof.
  destruct new_fields as [_ Hi]. destruct new_table as [_ H1 H2].
  destruct (index_rules_lookup rules 0 ∅ ∅ H1 H2) as [I _]. rewrite Hi in I. simpl in I. rewrite I.
  split; [intros [(k & r & -> & ? & ?)|[_ ?]]|intros (r & ? & ?); left; exists i, r]; naive_solver.
Qed.

Lemma byAlertName_spec n i : cor_byAlertName c !! n = Some i <-> name_entry rules i n.
Proof.
  destruct new_fields as [_ Hi]. destruct new_table as [_ H1 H2].
  destruct (index_rules_lookup rules 0 ∅ ∅ H1 H2) as [_ I]. rewrite Hi in I. simpl in I. rewrite I.
  unfold name_entry.
  split; [intros [(k & r & -> & ? & ?)|[_ ?]]|intros (r & ? & ?); left; exists i, r]; naive_solver.
Qed.
End indexed.

(** ** Which rule a signal names *)

(** The explicit failure-mode label wins when it names a rule; otherwise the rule
    whose table lists the alert name. *)
Inductive names_rule (rules : list Rule) (signal : Signal) : Rule -> string -> Prop :=
  | by_mode r mode :
      r ∈ rules -> mode <> "" -> SignalLabels signal !! FailureModeLabel = Some mode -> rule_id r = mode ->
      names_rule rules signal r ("label " +:+ FailureModeLabel +:+ "=" +:+ mode)
  | by_alert r :
      r ∈ rules ->
      (forall q, q ∈ rules -> SignalLabels signal !! FailureModeLabel <> Some (rule_id q)) ->
      alert_name signal (SignalLabels signal) ∈ rule_alert_names r ->
      names_rule rules signal r ("alertname " +:+ alert_name signal (SignalLabels signal)).

Lemma str_at_Some m k v : v <> "" -> str_at m k = v <-> m !! k = Some v.
Proof. unfold str_at. destruct (m !! k) as [w|]; simpl; split; intros H'; congruence. Qed.

Lemma select_names_rule rules c signal r reason :
  NewWithRules rules = Ok c ->
  (exists i, select c signal (SignalLabels signal) = Some (i, reason) /\ rules !! i = Some r) <->
  names_rule rules signal r reason.
Proof.
  intros Hc. unfold select. set (labels := SignalLabels signal). set (mode := str_at labels FailureModeLabel).
  pose proof (new_table rules c Hc) as [Hrs _ _]. rewrite Forall_forall in Hrs. split.
  - intros (i & Hs & Hi).
    assert (Hin : r ∈ rules) by (by eapply list_elem_of_lookup_2).
    destruct (mode =?s "") eqn:Em; reflect_tests; simpl in Hs.
    + apply fmap_Some in Hs as (j & Hj & [= <- ->]). apply (byAlertName_spec rules c Hc) in Hj as (q & Hq & Hn).
      assert (q = r) as -> by congruence. apply by_alert; [done| |done].
      intros q Hqin Hlab. apply Hrs in Hqin as [Hne _ _ _ _ _ _ _]. apply str_at_Some in Hlab; [|done].
      fold labels mode in Hlab. congruence.
    + destruct (cor_byID c !! mode) as [j|] eqn:Ej; simpl in Hs.
      * injection Hs as -> <-. apply (byID_spec rules c Hc) in Ej as (q & Hq & Hid).
        assert (q = r) as -> by congruence. apply by_mode; [done|done| |done]. by apply str_at_Some.
      * apply fmap_Some in Hs as (j & Hj & [= <- ->]). apply (byAlertName_spec rules c Hc) in Hj as (q & Hq & Hn).
        assert (q = r) as -> by congruence. apply by_alert; [done| |done].
        intros q Hqin Hlab. apply list_elem_of_lookup in Hqin as [k Hk].
        apply str_at_Some in Hlab; [|by apply Hrs; eapply list_elem_of_lookup_2].
        assert (cor_byID c !! mode = Some k); [|congruence]. apply (byID_spec rules c Hc). by exists q.
  - intros [q m Hin Hne Hlab Hid|q Hin Hno Hn]; apply list_elem_of_lookup in Hin as [i Hi]; exists i; split; auto.
    + assert (mode = m) as Hmode by (by apply str_at_Some).
      rewrite Hmode, (proj2 (eqb_string_false m "") Hne). simpl.
      assert (cor_byID c !! m = Some i) as -> by (apply (byID_spec rules c Hc); by exists q). done.
    + assert ((if negb (mode =?s "") then (fun i => (i, "label " +:+ FailureModeLabel +:+ "=" +:+ mode)) <$> (cor_byID c !! mode) else None) = None) as ->.
      { destruct (mode =?s "") eqn:Em; reflect_tests; [done|]. simpl.
        destruct (cor_byID c !! mode) as [j|] eqn:Ej; [|done]. apply (byID_spec rules c Hc) in Ej as (p & Hp & Hid).
        exfalso. apply (Hno p); [by eapply list_elem_of_lookup_2|]. rewrite Hid. by apply str_at_Some. }
      fold labels in Hn. assert (cor_byAlertName c !! alert_name signal labels = Some i) as ->; [|done].
      apply (byAlertName_spec rules c Hc). by exists q.
Qed.

Lemma match_signal_spec rules c incident signal m :
  NewWithRules rules = Ok c ->
  match_signal c incident signal = Some m <->
  names_rule rules signal (m_rule m) (m_reason m) /\
  m = mkMatch (rule_id (m_rule m)) (m_rule m) (sig_id signal) (alert_name signal (SignalLabels signal))
        (SignalService incident signal (SignalLabels signal)) (SignalLabels signal)
        (if IsZero (sig_observed_at signal) then inc_started_at incident else sig_observed_at signal) (m_reason m).
Proof.
  intros Hc. destruct (new_fields rules c Hc) as [Hrules _].
  rewrite <- (select_names_rule rules c signal (m_rule m) (m_reason m) Hc). unfold match_signal.
  rewrite Hrules. split.
  - destruct (select c signal (SignalLabels signal)) as [[i reason]|] eqn:Es; [|done].
    destruct (rules !! i) as [r|] eqn:Er; [|done]. simpl. intros [= <-]. simpl. split; [|done]. by exists i.
  - intros [(i & Es & Er) Hm]. rewrite Es, Er. simpl. by rewrite <- Hm.
Qed.

Lemma NewWithRules_total rules :
  ValidateRules rules = Ok tt -> exists c, NewWithRules rules = Ok c /\ cor_rules c = rules.
Proof.
  intros HV. unfold NewWithRules. rewrite HV. destruct (index_rules 0 rules ∅ ∅) as [names ids].
  by exists (mkCorrelator rules names ids).
Qed.

Lemma RenderTemplate_spec t service labels :
  let '(target, ps, reason) := RenderTemplate t service labels in
  match ps with
  | Some ps =>
      reason = "" /\ ps = tpl_parameters t /\ accepted (tpl_action t) target ps /\
      exists v, v <> "" /\
        (tpl_label t <> "" /\ labels !! tpl_label t = Some v \/
         v = service /\ (tpl_label t = "" \/ tpl_fallback t = true /\ str_at labels (tpl_label t) = "")) /\
        target = (if tpl_format t =?s "" then v else Sprintf1 (tpl_format t) v)
  | None => target = "" /\ reason <> ""
  end.
Proof.
  unfold RenderTemplate. set (label := str_at labels (tpl_label t)).
  set (src := if tpl_label t =?s "" then _ else _).
  assert (src.1 <> "" -> tpl_label t <> "" /\ labels !! tpl_label t = Some src.1 \/
    src.1 = service /\ (tpl_label t = "" \/ tpl_fallback t = true /\ label = "")) as Hsrc.
  { subst src. split_tests; simpl; intros Hne; auto. left. split; [done|]. by apply str_at_Some. }
  destruct src as [v source]. simpl in Hsrc. destruct (v =?s "") eqn:Ev; reflect_tests; [done|].
  destruct (Validate _ _ _) as [u|err] eqn:V; [|done]. split_and!; try done.
  - by eapply Validate_ok_accepted, ok_unit.
  - exists v. auto.
Qed.

(** ** Properties *)

(** The compiled rule table meets its own validation, so the correlator is
    built without panicking and keeps the table it was given. *)
Theorem New_never_panics : exists c, New = Ok c /\ cor_rules c = DefaultRules.
Proof.
  apply NewWithRules_total. vm_compute. reflexivity.
Qed.

(** Rule tables that pass validation are unambiguous and scorable: rule ids
    and alert names are distinct across the whole table, and every rule has
    probes that passed their own validation with distinct ids, at least one
    probe that tests a cause and not a symptom, a total weight of at most 0.5,
    and remediation templates for registered actions only. *)
Theorem ValidateRules_sound rules : ValidateRules rules = Ok tt -> valid_table rules.
Proof. apply ValidateRules_ok. Qed.

Lemma ValidateRules_sound_witness : valid_table DefaultRules.
Proof. apply ValidateRules_sound. vm_compute. reflexivity. Defined.

(** Rules are selected by structured identity alone. For a correlator built
    from any valid table, a match exists exactly for the signals whose
    failure-mode label names a rule, or, when it names none, whose alert name is
    listed by a rule; its service, labels and time come from that signal, and the
    matches are in observation order. *)
Theorem Match_by_structured_identity rules c incident signals :
  NewWithRules rules = Ok c ->
  StronglySorted (fun a b => m_observed_at a <= m_observed_at b) (MatchSignals c incident signals) /\
  forall m, m ∈ MatchSignals c incident signals <->
    exists signal, signal ∈ signals /\ names_rule rules signal (m_rule m) (m_reason m) /\
      m = mkMatch (rule_id (m_rule m)) (m_rule m) (sig_id signal) (alert_name signal (SignalLabels signal))
        (SignalService incident signal (SignalLabels signal)) (SignalLabels signal)
        (if IsZero (sig_observed_at signal) then inc_started_at incident else sig_observed_at signal) (m_reason m).
Proof.
  intros Hc. unfold MatchSignals. split.
  - eapply StronglySorted_mono; [|apply sort_stable_sorted].
    + unfold not_after, observed_before. intros a b. apply Z.ltb_ge.
    + unfold observed_before. intros a b. rewrite Z.ltb_lt, Z.ltb_ge. lia.
    + unfold observed_before. intros a b d. rewrite !Z.ltb_ge. lia.
  - intros m. rewrite elem_of_sort_stable, list_elem_of_omap.
    setoid_rewrite (match_signal_spec rules c incident _ m Hc). naive_solver.
Qed.

Definition demo_correlator : Correlator :=
  match New with Ok c => c | Fail _ => mkCorrelator [] ∅ ∅ end.
Definition demo_incident : Incident :=
  mkIncident "inc-1" "Redis" "svc-1" "payments-api" "critical" "detected" "k" "f" 1000 1000 None "" 1000 1000 "local" 1000 None.
Definition demo_signal (id name : string) (labels : list (string * value)) (at_ : Z) : Signal :=
  mkSignal id "inc-1" "svc-1" "alertmanager" "alert" "critical" name {["labels" := VMap labels]} at_ at_.
Definition demo_signals : list Signal :=
  [demo_signal "s1" "RedisMemoryHigh" [("service", VString "payments-api")] 20;
   demo_signal "s2" "SomethingElse" [("summary", VString "redis memory pressure")] 5;
   demo_signal "s3" "Custom" [("argus_failure_mode", VString "bad_config_rollout")] 10].

Lemma Match_by_structured_identity_witness :
  StronglySorted (fun a b => m_observed_at a <= m_observed_at b) (MatchSignals demo_correlator demo_incident demo_signals) /\
  (m_rule_id <$> MatchSignals demo_correlator demo_incident demo_signals) = [RuleBadConfigRollout; RuleRedisMemoryPressure].
Proof.
  split; [|vm_compute; reflexivity].
  apply (Match_by_structured_identity DefaultRules). vm_compute. reflexivity.
Defined.

(** A rendered candidate is safe to propose: the target is the alert's own
    label value or service put through the template's format, never a constant,
    the parameters are the template's, and the action catalog accepts the
    triple; otherwise no target and no parameters come back, with a reason. *)
Theorem RenderTemplate_accepted_or_refused t service labels :
  let '(target, ps, reason) := RenderTemplate t service labels in
  match ps with
  | Some ps =>
      reason = "" /\ ps = tpl_parameters t /\ accepted (tpl_action t) target ps /\
      exists v, v <> "" /\
        (tpl_label t <> "" /\ labels !! tpl_label t = Some v \/
         v = service /\ (tpl_label t = "" \/ tpl_fallback t = true /\ str_at labels (tpl_label t) = "")) /\
        target = (if tpl_format t =?s "" then v else Sprintf1 (tpl_format t) v)
  | None => target = "" /\ reason <> ""
  end.
Proof. apply RenderTemplate_spec. Qed.
