(* ===== verification/RCA.v ===== *)
(** * Root-cause analysis ([internal/rca/service.go])

    The deterministic analysis: scoring of the matched rules from the probe
    results, the report texts, the remediation candidates, and the adjustments
    by the dependency topology. Every float operation is rounded to binary64 on
    its own, as on amd64. *)
From Stdlib Require Import Ascii String ZArith Lia SpecFloat Sorted Permutation.
From stdpp Require Import base gmap strings list.
From S2P Require Import Prelude GoStrings GoFloat GoValue Actions Topology Types Evidence Correlation.
Open Scope Z_scope.

Definition BaselineConfidence : float64 := lit 35 100.
Definition AlertMatchScore : float64 := lit 45 100.
Definition RefutationFactor : float64 := lit 5 10.
Definition insufficientHypothesis : string := "Insufficient evidence for a high-confidence root cause".
Definition alertSource : string := "alertmanager".

Definition SourceCap (sources : nat) : float64 :=
  match sources with
  | 0%nat | 1%nat => lit 55 100
  | 2%nat => lit 80 100
  | _ => lit 95 100
  end.

Definition clamp (v min max : float64) : float64 :=
  if flt v min then min else if fgt v max then max else v.

Definition sign (v : float64) : float64 := if flt v fzero then of_int (-1) else of_int 1.

Definition round4 (v : float64) : float64 :=
  fdiv (of_int (to_int64 (fadd (fmul v (of_int 10000)) (fmul (lit 5 10) (sign v))))) (of_int 10000).

Definition formatValue (v : float64) : string := TrimRight (TrimRight (fmt_fixed 4 v) "0") ".".

Definition appendEvidence (items values : list string) : list string :=
  foldl (fun items v =>
    if TrimSpace v =?s "" then items
    else if bool_decide (v ∈ items) then items else items ++ [v]) items values.

Record ruleEvidence := mkRuleEvidence { run_service : string; run_results : list Result }.

Record analysis := mkAnalysis {
  an_rule_id : string;
  an_summary : string;
  an_hypothesis : string;
  an_confidence : float64;
  an_evidence : list string;
  an_factors : list string;
  an_candidates : list RCACandidate;
  an_items : list RCAEvidence;
  an_score : RCAScore;
}.

Record hypothesisScore := mkHypothesis {
  h_rule : Rule;
  h_matches : list Match;
  h_run : ruleEvidence;
  h_corroborated : float64;
  h_refuted : float64;
  h_sources : list string;
  h_raw : float64;
  h_cap : float64;
  h_confidence : float64;
  h_contradicted : bool;
}.

(** ** Matched rules and their evidence *)

(** The chosen match of each rule id, and the ids in order of first appearance. *)
Definition choose_match (incident : Incident) (acc : gmap string Match * list string) (m : Match)
    : gmap string Match * list string :=
  let '(chosen, order) := acc in
  match chosen !! m_rule_id m with
  | None => (<[m_rule_id m := m]> chosen, order ++ [m_rule_id m])
  | Some existing =>
      if negb (m_service existing =?s inc_service incident) && (m_service m =?s inc_service incident)
      then (<[m_rule_id m := m]> chosen, order) else (chosen, order)
  end.

Definition primaryMatches (incident : Incident) (matches : list Match) : list Match :=
  let '(chosen, order) := foldl (choose_match incident) (∅, []) matches in
  omap (fun id => chosen !! id) order.

(** One goroutine per rule, each writing the entry of its own rule id. *)
Definition collectEvidence (c : option Collector) (now : Z) (incident : Incident) (matches : list Match)
    : gmap string ruleEvidence :=
  foldl (fun runs m => <[m_rule_id m := mkRuleEvidence (m_service m) (Run c (rule_probes (m_rule m)) (m_service m) now)]> runs)
    ∅ (primaryMatches incident matches).

(** ** Scoring one rule *)

Record tally := mkTally { t_corroborated : float64; t_refuted : float64; t_backends : gset string }.

Definition count_result (t : tally) (r : Result) : tally :=
  match res_status r with
  | StatusCorroborated =>
      mkTally (fadd (t_corroborated t) (res_weight r)) (t_refuted t)
        (if res_symptom r then t_backends t else {[res_backend r]} ∪ t_backends t)
  | StatusRefuted => mkTally (t_corroborated t) (fadd (t_refuted t) (res_weight r)) (t_backends t)
  | _ => t
  end.

Definition scoreRule (rule : Rule) (matches : list Match) (run : ruleEvidence) : hypothesisScore :=
  let t := foldl count_result (mkTally fzero fzero ∅) (run_results run) in
  let sources := alertSource :: sortedKeys (t_backends t) in
  let raw := round4 (fsub (fadd AlertMatchScore (t_corroborated t)) (fmul RefutationFactor (t_refuted t))) in
  let cap := SourceCap (length sources) in
  mkHypothesis rule matches run (t_corroborated t) (t_refuted t) sources raw cap
    (clamp raw BaselineConfidence cap) (fgt (t_refuted t) (t_corroborated t)).

(** The order of the hypotheses, best first. *)
Definition hypothesis_before (a b : hypothesisScore) : bool :=
  if negb (Bool.eqb (h_contradicted a) (h_contradicted b)) then negb (h_contradicted a)
  else if negb (feq (h_confidence a) (h_confidence b)) then fgt (h_confidence a) (h_confidence b)
  else if negb (Nat.eqb (length (h_sources a)) (length (h_sources b)))
  then Nat.ltb (length (h_sources b)) (length (h_sources a))
  else rule_hypothesis (h_rule a) <?s rule_hypothesis (h_rule b).

(** ** Report texts *)

(** [*result.Value]: present for every corroborated or refuted result
    ([Evidence.probe_evidence_is_observed]). *)
Definition observed (r : Result) : string := formatValue (default fzero (res_value r)).

Definition symptom_mark (b : bool) : string := if b then " (symptom)" else "".

Definition supportingEvidence (s : hypothesisScore) : list string :=
  let out := foldl (fun out m =>
    appendEvidence out [alertSource +:+ ": alert " +:+ m_alert_name m +:+ " fired for " +:+ m_service m]) [] (h_matches s) in
  foldl (fun out r =>
    if bool_decide (res_status r = StatusCorroborated)
    then appendEvidence out [res_backend r +:+ symptom_mark (res_symptom r) +:+ ": " +:+ res_claim r +:+ " (observed "
           +:+ observed r +:+ " " +:+ res_comparator r +:+ " " +:+ formatValue (res_threshold r) +:+ ")"]
    else out) out (run_results (h_run s)).

Definition result_factor (r : Result) : string :=
  let label := res_backend r +:+ " probe " +:+ res_probe_id r +:+ symptom_mark (res_symptom r) in
  match res_status r with
  | StatusCorroborated =>
      label +:+ " corroborated: observed " +:+ observed r +:+ " " +:+ res_comparator r +:+ " "
      +:+ formatValue (res_threshold r) +:+ " (+" +:+ fmt_fixed 2 (res_weight r) +:+ ")"
  | StatusRefuted =>
      label +:+ " refuted: observed " +:+ observed r +:+ ", expected " +:+ res_comparator r +:+ " "
      +:+ formatValue (res_threshold r) +:+ " (-" +:+ fmt_fixed 2 (fmul RefutationFactor (res_weight r)) +:+ ")"
  | StatusNoData => label +:+ " returned no matching series (not counted)"
  | StatusUnavailable => label +:+ " unavailable: " +:+ res_error r +:+ " (not counted)"
  end.

(** [score.matches[0]] and what the texts take from it; a hypothesis always has a
    match. *)
Definition first_match (s : hypothesisScore) : option Match := head (h_matches s).
Definition first_text (f : Match -> string) (s : hypothesisScore) : string := default "" (f <$> first_match s).

Definition scoreFactors (s : hypothesisScore) : list string :=
  ["alert match via " +:+ first_text m_reason s +:+ " (+" +:+ fmt_fixed 2 AlertMatchScore +:+ ")"]
  ++ (result_factor <$> run_results (h_run s))
  ++ ["independent sources: " +:+ Join (h_sources s) ", " +:+ " (cap " +:+ fmt_fixed 2 (h_cap s) +:+ ")"].

Fixpoint alert_items (rule : string) (matches : list Match) (seen : gset string) : list RCAEvidence :=
  match matches with
  | [] => []
  | m :: matches =>
      let key := m_alert_name m +:+ "|" +:+ m_service m in
      if bool_decide (key ∈ seen) then alert_items rule matches seen
      else mkRCAEvidence rule "alert" alertSource (m_alert_name m) (m_service m) "" "matched" None "" None AlertMatchScore
             ("alert matched by " +:+ m_reason m) false "" (m_observed_at m)
           :: alert_items rule matches ({[key]} ∪ seen)
  end.

Definition probe_item (s : hypothesisScore) (r : Result) : RCAEvidence :=
  mkRCAEvidence (rule_id (h_rule s)) "probe" (res_backend r) (res_probe_id r) (run_service (h_run s)) (res_query r)
    (status_text (res_status r)) (res_value r) (res_comparator r) (Some (res_threshold r)) (res_weight r)
    (res_claim r) (res_symptom r) (res_error r) (res_evaluated_at r).

Definition evidenceItems (s : hypothesisScore) : list RCAEvidence :=
  alert_items (rule_id (h_rule s)) (h_matches s) ∅ ++ (probe_item s <$> run_results (h_run s)).

Definition probeTimelineEvents (incidentID : string) (items : list RCAEvidence) : list TimelineEvent :=
  omap (fun item =>
    match ev_value item with
    | Some v =>
        if negb (ev_kind item =?s "probe") then None
        else Some (mkTimelineEvent "" incidentID ("probe_" +:+ ev_status item) (ev_source item)
          (ev_reference item +:+ ": " +:+ ev_claim item +:+ " (observed " +:+ formatValue v +:+ ", threshold "
           +:+ ev_comparator item +:+ " " +:+ formatValue (default fzero (ev_threshold item)) +:+ ")")
          (list_to_map [("rule_id", VString (ev_rule_id item)); ("probe_id", VString (ev_reference item));
             ("query", VString (ev_query item)); ("value", VFloat v); ("service", VString (ev_service item))])
          (of_int 1) (ev_observed_at item) zero_time)
    | None => None
    end) items.

(** ** Remediation candidates *)

Definition diagnostics (service : string) : RCACandidate :=
  mkRCACandidate CollectDiagnostics service ∅ "low" false.

(** The match whose alert supplies the targets: the first one on the service the
    probes ran for, else the first one. *)
Definition target_match (s : hypothesisScore) : option Match :=
  match list_find (fun m => m_service m = run_service (h_run s)) (h_matches s) with
  | Some (_, m) => Some m
  | None => first_match s
  end.

Definition render_one (service : string) (labels : gmap string string) (t : CandidateTemplate) : RCACandidate + string :=
  let '(target, parameters, reason) := RenderTemplate t service labels in
  if negb (reason =?s "") then inr ("remediation " +:+ tpl_action t +:+ " not proposed: " +:+ reason)
  else inl (mkRCACandidate (tpl_action t) target (default ∅ parameters) (tpl_risk t) (negb (tpl_risk t =?s "low"))).

Definition keep_left {A B} (x : A + B) : option A := match x with inl a => Some a | inr _ => None end.
Definition keep_right {A B} (x : A + B) : option B := match x with inl _ => None | inr b => Some b end.

Definition renderCandidates (s : hypothesisScore) : list RCACandidate * list string :=
  let service := default "" (m_service <$> target_match s) in
  let labels := default ∅ (m_labels <$> target_match s) in
  let rendered := render_one service labels <$> rule_remediations (h_rule s) in
  match omap keep_left rendered with
  | [] => ([diagnostics service], omap keep_right rendered)
  | candidates => (candidates, omap keep_right rendered)
  end.

(** ** Choosing the hypothesis *)

Definition empty_score : RCAScore :=
  mkRCAScore "" BaselineConfidence fzero fzero fzero fzero fzero [] fzero fzero false BaselineConfidence.

Definition insufficientEvidence (incident : Incident) : analysis :=
  mkAnalysis "" "Signals have been collected, but no alert names a known failure mode." insufficientHypothesis
    BaselineConfidence
    ["no alert matched a failure-mode rule by alertname or " +:+ FailureModeLabel +:+ " label"]
    ["no corroboration probes were run"] [diagnostics (inc_service incident)] [] empty_score.

(** [byRule] and [order] of [scoreHypotheses]. *)
Definition group_match (acc : gmap string (list Match) * list string) (m : Match) : gmap string (list Match) * list string :=
  let '(byRule, order) := acc in
  match byRule !! m_rule_id m with
  | None => (<[m_rule_id m := [m]]> byRule, order ++ [m_rule_id m])
  | Some ms => (<[m_rule_id m := ms ++ [m]]> byRule, order)
  end.

Definition no_run : ruleEvidence := mkRuleEvidence "" [].

(** The scores in [order]; a rule id in [order] always has a match. *)
Definition score_group (byRule : gmap string (list Match)) (runs : gmap string ruleEvidence) (id : string)
    : option hypothesisScore :=
  match byRule !! id with
  | Some (m :: ms) => Some (scoreRule (m_rule m) (m :: ms) (default no_run (runs !! id)))
  | _ => None
  end.

Definition scores_of (matches : list Match) (runs : gmap string ruleEvidence) : list hypothesisScore :=
  let '(byRule, order) := foldl group_match (∅, []) matches in
  omap (score_group byRule runs) order.

Definition score_record (best : hypothesisScore) : RCAScore :=
  mkRCAScore (rule_id (h_rule best)) BaselineConfidence AlertMatchScore (round4 (h_corroborated best))
    (round4 (h_refuted best)) (round4 (fmul RefutationFactor (h_refuted best))) (h_raw best) (h_sources best)
    (h_cap best) fzero (h_contradicted best) (h_confidence best).

Definition report_best (best : hypothesisScore) (items : list RCAEvidence) : analysis :=
  let service := if run_service (h_run best) =?s "" then first_text m_service best else run_service (h_run best) in
  if h_contradicted best then
    mkAnalysis (rule_id (h_rule best))
      (first_text m_alert_name best +:+ " matched the " +:+ rule_hypothesis (h_rule best)
       +:+ " rule, but backend evidence contradicts it (corroborated " +:+ fmt_fixed 2 (h_corroborated best)
       +:+ " < refuted " +:+ fmt_fixed 2 (h_refuted best) +:+ "). Confidence " +:+ fmt_fixed 4 (h_confidence best)
       +:+ "; only diagnostics are proposed.")
      (rule_hypothesis (h_rule best)) (h_confidence best) (supportingEvidence best) (scoreFactors best)
      [diagnostics service] items (score_record best)
  else
    let '(candidates, skipped) := renderCandidates best in
    mkAnalysis (rule_id (h_rule best))
      (rule_hypothesis (h_rule best) +:+ " likely impacted " +:+ service +:+ ". Confidence "
       +:+ fmt_fixed 4 (h_confidence best) +:+ " = min(max(" +:+ fmt_fixed 2 AlertMatchScore +:+ " alert match + "
       +:+ fmt_fixed 2 (h_corroborated best) +:+ " corroborated - "
       +:+ fmt_fixed 2 (fmul RefutationFactor (h_refuted best)) +:+ " refutation penalty, "
       +:+ fmt_fixed 2 BaselineConfidence +:+ "), " +:+ fmt_fixed 2 (h_cap best) +:+ " cap for "
       +:+ itoa (Z.of_nat (length (h_sources best))) +:+ " independent source(s): " +:+ Join (h_sources best) ", " +:+ ").")
      (rule_hypothesis (h_rule best)) (h_confidence best) (supportingEvidence best) (scoreFactors best ++ skipped)
      candidates items (score_record best).

Definition scoreHypotheses (incident : Incident) (matches : list Match) (runs : gmap string ruleEvidence) : analysis :=
  let scores := scores_of matches runs in
  match sort_stable hypothesis_before scores with
  | [] => insufficientEvidence incident
  | best :: _ => report_best best (scores ≫= evidenceItems)
  end.

(** ** Topology *)

Definition applyTopologyFallback (incident : Incident) (top : IncidentTopology) (result : analysis) : analysis :=
  let root := top_root_service top in
  if negb (an_hypothesis result =?s insufficientHypothesis) || (top_suppressed_alert_count top =? 0) || (root =?s "")
  then result
  else
    let confidence := if top_root_inferred top then lit 58 100 else lit 72 100 in
    let s := an_score result in
    mkAnalysis (an_rule_id result)
      ("Topology places the failure domain for incident " +:+ Quote (inc_title incident) +:+ " at " +:+ root
       +:+ ". It establishes the affected dependency but not the component-level failure mode.")
      ("Failure at root dependency " +:+ root) confidence
      [(if top_root_inferred top then "shared dependency inferred from downstream alert paths"
        else "root service emitted alert evidence in the incident window");
       itoa (top_alert_count top) +:+ " alerts across " +:+ itoa (Z.of_nat (length (top_affected_services top)))
       +:+ " services share dependency root " +:+ root]
      ["specific metric, log, or trace evidence is still required to identify the failure mode"]
      [diagnostics root] (an_items result)
      (mkRCAScore (sc_rule_id s) (sc_baseline s) (sc_alert_match s) (sc_corroborated s) (sc_refuted s)
        (sc_refutation_penalty s) (sc_raw s) [alertSource; "topology"] (SourceCap 2) (sc_topology_adjustment s)
        (sc_contradicted s) confidence).

(** The confidence and the score after an observed root confirmed the match. *)
Definition nudge (result : analysis) (top : IncidentTopology) : float64 * RCAScore :=
  let s := an_score result in
  if top_root_inferred top then (an_confidence result, s)
  else if negb (an_rule_id result =?s "") && negb (sc_contradicted s) then
    let adjusted := clamp (fadd (an_confidence result) (lit 3 100)) BaselineConfidence (sc_source_cap s) in
    (adjusted,
     mkRCAScore (sc_rule_id s) (sc_baseline s) (sc_alert_match s) (sc_corroborated s) (sc_refuted s)
       (sc_refutation_penalty s) (sc_raw s) (sc_sources s) (sc_source_cap s)
       (round4 (fsub adjusted (an_confidence result))) (sc_contradicted s) adjusted)
  else (an_confidence result, s).

Definition enrichWithTopology (result : analysis) (top : IncidentTopology) : analysis :=
  if top_suppressed_alert_count top =? 0 then result
  else
    let '(confidence, score) := nudge result top in
    mkAnalysis (an_rule_id result)
      (an_summary result +:+ " Topology correlation identified " +:+ (if top_root_inferred top then "inferred" else "observed")
       +:+ " root service " +:+ top_root_service top +:+ ", grouped " +:+ itoa (top_alert_count top) +:+ " alerts across "
       +:+ itoa (Z.of_nat (length (top_affected_services top))) +:+ " services, and suppressed "
       +:+ itoa (top_suppressed_alert_count top) +:+ " downstream alerts.")
      (an_hypothesis result) confidence
      (appendEvidence (an_evidence result)
        [itoa (top_suppressed_alert_count top) +:+ " downstream alerts were suppressed behind root service " +:+ top_root_service top;
         "blast radius includes " +:+ Join (top_affected_services top) ", "])
      (foldl (fun factors path => appendEvidence factors ["dependency path: " +:+ Join (path_services path) " -> "])
        (an_factors result) (top_paths top))
      (an_candidates result) (an_items result) score.

Definition analyze (cor : Correlator) (col : option Collector) (now : Z) (incident : Incident) (signals : list Signal)
    (top : IncidentTopology) : analysis :=
  let matches := MatchSignals cor incident signals in
  let runs := collectEvidence col now incident matches in
  enrichWithTopology (applyTopologyFallback incident top (scoreHypotheses incident matches runs)) top.

(** The AI service may only advise. *)
Definition validateAdvisoryResponse (payload : params) : result unit :=
  match payload !! "executed", payload !! "advisory_only" with
  | Some (VBool false), Some (VBool true) => Ok tt
  | _, _ => Fail (errorf "AI suggestion violated advisory-only contract")
  end.

#[local] Arguments SourceCap : simpl never.
#[local] Arguments round4 : simpl never.
#[local] Arguments clamp : simpl never.

(** ** Lemmas: bounds *)

Lemma clamp_bounds v lo hi :
  IsNaN v = false -> IsNaN lo = false -> IsNaN hi = false -> fle lo hi = true ->
  fle lo (clamp v lo hi) = true /\ fle (clamp v lo hi) hi = true.
Proof.
  intros Hv Hlo Hhi Hle. unfold clamp.
  destruct (flt v lo) eqn:E1; [by split; [apply fle_refl|]|].
  destruct (fgt v hi) eqn:E2; [by split; [|apply fle_refl]|].
  split; by apply flt_false_fge.
Qed.

Lemma SourceCap_bounds n : fle BaselineConfidence (SourceCap n) = true /\ IsNaN (SourceCap n) = false.
Proof. destruct n as [|[|[|n]]]; split; vm_compute; reflexivity. Qed.

Lemma round4_not_nan v : IsNaN (round4 v) = false.
Proof.
  unfold round4. assert (of_int 10000 = S754_finite false 5497558138880000 (-39)) as -> by (vm_compute; reflexivity).
  apply of_int_div_not_nan.
Qed.

Lemma clamp_cap_bounds v n :
  IsNaN v = false ->
  fle BaselineConfidence (clamp v BaselineConfidence (SourceCap n)) = true /\
  fle (clamp v BaselineConfidence (SourceCap n)) (SourceCap n) = true.
Proof. intros Hv. destruct (SourceCap_bounds n). by apply clamp_bounds. Qed.

Lemma fle_not_nan x y : fle x y = true -> IsNaN x = false /\ IsNaN y = false.
Proof. unfold fle, SFleb. by destruct x as [[]|[]| |[] m e], y as [[]|[]| |[] m' e']. Qed.

Lemma scoreRule_bounds rule ms run :
  let s := scoreRule rule ms run in
  h_cap s = SourceCap (length (h_sources s)) /\
  fle BaselineConfidence (h_confidence s) = true /\ fle (h_confidence s) (h_cap s) = true.
Proof. simpl. split; [done|]. apply clamp_cap_bounds, round4_not_nan. Qed.

(** ** Lemmas: where matches and evidence come from *)

Section provenance.
Context (P : Match -> Prop).

Lemma choose_match_elem incident matches :
  Forall P matches ->
  forall id m, (foldl (choose_match incident) (∅, []) matches).1 !! id = Some m -> P m /\ m_rule_id m = id.
Proof.
  induction matches as [|x matches IH] using rev_ind; intros HP id m; [done|].
  apply Forall_app in HP as [HP Hx]. inversion Hx; subst. rewrite foldl_snoc.
  destruct (foldl _ _ matches) as [chosen order]. simpl in *.
  destruct (chosen !! m_rule_id x) eqn:E; [case_match|]; simpl; auto;
    rewrite lookup_insert_Some; intros [[<- <-]|[_ ?]]; auto.
Qed.

Lemma primaryMatches_elem incident matches m :
  Forall P matches -> m ∈ primaryMatches incident matches -> P m.
Proof.
  intros HP. unfold primaryMatches. pose proof (choose_match_elem incident matches HP) as H.
  destruct (foldl _ _ matches) as [chosen order]. simpl in H.
  intros (id & _ & Hl)%list_elem_of_omap. by apply H in Hl as [? _].
Qed.

Lemma group_match_elem matches :
  Forall P matches ->
  forall id ms, (foldl group_match (∅, []) matches).1 !! id = Some ms ->
  ms <> [] /\ Forall (fun m => P m /\ m_rule_id m = id) ms.
Proof.
  induction matches as [|x matches IH] using rev_ind; intros HP id ms; [done|].
  apply Forall_app in HP as [HP Hx]. inversion Hx; subst. rewrite foldl_snoc.
  specialize (IH HP). destruct (foldl _ _ matches) as [byRule order]. simpl in *.
  destruct (byRule !! m_rule_id x) as [old|] eqn:E; simpl;
    rewrite lookup_insert_Some; intros [[<- <-]|[_ ?]]; auto.
  split; [by intros []%app_nil|]. apply Forall_app. apply IH in E as [_ E]. auto.
Qed.

Lemma scores_of_elem matches runs s :
  Forall P matches -> s ∈ scores_of matches runs ->
  exists id m ms, s = scoreRule (m_rule m) (m :: ms) (default no_run (runs !! id)) /\
    Forall (fun m => P m /\ m_rule_id m = id) (m :: ms).
Proof.
  intros HP. unfold scores_of. pose proof (group_match_elem matches HP) as H.
  destruct (foldl _ _ matches) as [byRule order]. simpl in H.
  intros (id & _ & Hl)%list_elem_of_omap. unfold score_group in Hl.
  destruct (byRule !! id) as [[|m ms]|] eqn:E; try done. injection Hl as <-.
  apply H in E as [_ E]. by exists id, m, ms.
Qed.
End provenance.

Definition run_of (col : option Collector) (now : Z) (m : Match) : ruleEvidence :=
  mkRuleEvidence (m_service m) (Run col (rule_probes (m_rule m)) (m_service m) now).

Lemma collectEvidence_elem (P : Match -> Prop) col now incident matches id run :
  Forall P matches -> collectEvidence col now incident matches !! id = Some run ->
  exists m, P m /\ m_rule_id m = id /\ run = run_of col now m.
Proof.
  intros HP. unfold collectEvidence.
  assert (Forall P (primaryMatches incident matches)) as HQ.
  { apply Forall_forall. intros m. by apply primaryMatches_elem. }
  induction (primaryMatches incident matches) as [|x l IH] using rev_ind; [done|].
  apply Forall_app in HQ as [HQ Hx]. inversion Hx; subst. rewrite foldl_snoc, lookup_insert_Some.
  intros [[<- <-]|[_ ?]]; [|auto]. by exists x.
Qed.

(** ** Lemmas: sources and candidates of the chosen hypothesis *)

Definition tally_of (results : list Result) : tally := foldl count_result (mkTally fzero fzero ∅) results.

Lemma tally_backends results b :
  b ∈ t_backends (tally_of results) <->
  exists r, r ∈ results /\ res_status r = StatusCorroborated /\ res_symptom r = false /\ res_backend r = b.
Proof.
  induction results as [|x results IH] using rev_ind; [split; [set_solver|intros (r & [] % elem_of_nil & _)]|].
  unfold tally_of in *. rewrite foldl_snoc. unfold count_result at 1.
  setoid_rewrite elem_of_app. setoid_rewrite list_elem_of_singleton.
  destruct (res_status x) eqn:Es; [destruct (res_symptom x) eqn:Ey| | |]; simpl; set_unfold;
    rewrite ?IH; split; try naive_solver congruence.
Qed.

(** The probe of a matched rule that makes [src] an independent source. *)
Definition corroborates (col : option Collector) (now : Z) (matches : list Match) (id src : string) : Prop :=
  exists m probe, m ∈ matches /\ m_rule_id m = id /\ probe ∈ rule_probes (m_rule m) /\
    pr_symptom probe = false /\ pr_backend probe = src /\
    res_status (runOne col probe (m_service m) now) = StatusCorroborated.

Definition score_ok (col : option Collector) (now : Z) (matches : list Match) (s : hypothesisScore) : Prop :=
  exists id m ms run,
    s = scoreRule (m_rule m) (m :: ms) run /\
    Forall (fun m => m ∈ matches /\ m_rule_id m = id) (m :: ms) /\
    (run = no_run \/ exists p, p ∈ matches /\ m_rule_id p = id /\ run = run_of col now p).

Lemma scores_ok col now incident matches s :
  s ∈ scores_of matches (collectEvidence col now incident matches) -> score_ok col now matches s.
Proof.
  intros H. apply (scores_of_elem (fun m => m ∈ matches)) in H as (id & m & ms & -> & Hms).
  2: by apply Forall_forall.
  exists id, m, ms, (default no_run (collectEvidence col now incident matches !! id)). split_and!; [done|done|].
  destruct (collectEvidence col now incident matches !! id) as [run|] eqn:E; [|by left]. right.
  apply (collectEvidence_elem (fun m => m ∈ matches)) in E as (p & Hp & Hid & ->); [|by apply Forall_forall]. by exists p.
Qed.

Lemma score_ok_sources col now matches s src :
  score_ok col now matches s -> src ∈ h_sources s ->
  src = alertSource \/
  exists m, head (h_matches s) = Some m /\ h_rule s = m_rule m /\ m ∈ matches /\
    corroborates col now matches (m_rule_id m) src.
Proof.
  intros (id & m & ms & run & -> & Hms & Hrun). simpl. intros [->|Hin]%elem_of_cons; [by left|]. right.
  apply Forall_cons in Hms as [[Hm <-] _]. exists m. split_and!; try done.
  rewrite elem_of_sortedKeys in Hin. apply tally_backends in Hin as (r & Hr & Hs & Hy & Hb).
  destruct Hrun as [->|(p & Hp & Hid & ->)]; [by apply elem_of_nil in Hr|]. simpl in Hr.
  apply list_elem_of_fmap in Hr as (probe & -> & Hprobe).
  destruct (runOne_static col probe (m_service p) now) as (_ & Eb & _ & Ey & _). exists p, probe.
  rewrite <- Hb, <- Hy, Eb, Ey. by split_and!.
Qed.

Lemma score_ok_sources_nodup col now matches s :
  score_ok col now matches s ->
  (forall m probe, m ∈ matches -> probe ∈ rule_probes (m_rule m) -> pr_backend probe <> alertSource) ->
  NoDup (h_sources s).
Proof.
  intros Hok Hb. assert (exists t, h_sources s = alertSource :: sortedKeys (t_backends t)) as [t Ht].
  { destruct Hok as (id & m & ms & run & -> & _). by eexists. }
  rewrite Ht. constructor; [|apply NoDup_sortedKeys]. intros Hin.
  destruct Hok as (id & m & ms & run & -> & Hms & Hrun). simpl in Ht. injection Ht as Ht. rewrite <- Ht in Hin.
  rewrite elem_of_sortedKeys in Hin. apply tally_backends in Hin as (r & Hr & _ & _ & Hrb).
  destruct Hrun as [->|(p & Hp & Hid & ->)]; [by apply elem_of_nil in Hr|]. simpl in Hr.
  apply list_elem_of_fmap in Hr as (probe & -> & Hprobe).
  destruct (runOne_static col probe (m_service p) now) as (_ & Eb & _). rewrite Eb in Hrb. by apply (Hb p probe).
Qed.

(** What [scoreHypotheses] reports: nothing matched, or one of the scores. *)
Lemma scoreHypotheses_cases incident matches runs :
  scoreHypotheses incident matches runs = insufficientEvidence incident \/
  exists best items, best ∈ scores_of matches runs /\ items = scores_of matches runs ≫= evidenceItems /\
    scoreHypotheses incident matches runs = report_best best items.
Proof.
  unfold scoreHypotheses. destruct (sort_stable _ _) as [|best rest] eqn:E; [by left|]. right.
  exists best, (scores_of matches runs ≫= evidenceItems). split_and!; try done.
  rewrite <- (elem_of_sort_stable hypothesis_before), E. by left.
Qed.

Lemma report_best_fields best items :
  let a := report_best best items in
  an_rule_id a = rule_id (h_rule best) /\ an_confidence a = h_confidence best /\
  an_score a = score_record best /\ an_items a = items.
Proof. unfold report_best. destruct (h_contradicted best); [done|]. by destruct (renderCandidates best). Qed.

(** A confidence and score that respect the cap for their sources. *)
Record capped (a : analysis) : Prop := {
  cap_low : fle BaselineConfidence (an_confidence a) = true;
  cap_high : fle (an_confidence a) (SourceCap (length (sc_sources (an_score a)))) = true;
  cap_final : sc_final (an_score a) = an_confidence a;
  cap_field : an_rule_id a <> "" -> sc_source_cap (an_score a) = SourceCap (length (sc_sources (an_score a)));
}.

Lemma capped_scoreHypotheses col now incident matches :
  capped (scoreHypotheses incident matches (collectEvidence col now incident matches)).
Proof.
  destruct (scoreHypotheses_cases incident matches (collectEvidence col now incident matches))
    as [->|(best & items & Hin & _ & ->)].
  - split; try done; vm_compute; reflexivity.
  - destruct (report_best_fields best items) as (_ & Hc & Hs & _).
    apply scores_ok in Hin as (id & m & ms & run & -> & _).
    destruct (scoreRule_bounds (m_rule m) (m :: ms) run) as (Hcap & Hlo & Hhi).
    split; rewrite ?Hc, ?Hs; try done.
Qed.

Lemma capped_fallback incident top a : capped a -> capped (applyTopologyFallback incident top a).
Proof.
  intros Ha. unfold applyTopologyFallback. case_match; [done|].
  split; simpl; try done; destruct (top_root_inferred top); vm_compute; reflexivity.
Qed.

Lemma capped_enrich top a : capped a -> capped (enrichWithTopology a top).
Proof.
  intros [Hlo Hhi Hf Hc]. unfold enrichWithTopology. case_match; [done|].
  unfold nudge. destruct (top_root_inferred top); [by split|].
  destruct (negb (an_rule_id a =?s "") && _) eqn:E; [|by split]. reflect_tests. rewrite Hc by done.
  assert (IsNaN (fadd (an_confidence a) (lit 3 100)) = false) as Hn.
  { apply fle_not_nan in Hlo as [_ Hn].
    assert (exists s m e, lit 3 100 = S754_finite s m e) as (s & m & e & ->) by (vm_compute; eauto).
    by apply fadd_finite_not_nan. }
  destruct (clamp_cap_bounds (fadd (an_confidence a) (lit 3 100)) (length (sc_sources (an_score a))) Hn).
  split; simpl; auto.
Qed.

Lemma sources_fallback incident top a src :
  src ∈ sc_sources (an_score (applyTopologyFallback incident top a)) ->
  src ∈ sc_sources (an_score a) \/ src ∈ [alertSource; "topology"] /\ top_suppressed_alert_count top <> 0 /\ top_root_service top <> "".
Proof. unfold applyTopologyFallback. split_tests; simpl; auto. Qed.

Lemma enrich_keeps top a :
  let b := enrichWithTopology a top in
  an_rule_id b = an_rule_id a /\ sc_sources (an_score b) = sc_sources (an_score a) /\ an_candidates b = an_candidates a /\
  sc_contradicted (an_score b) = sc_contradicted (an_score a) /\ an_items b = an_items a.
Proof.
  unfold enrichWithTopology. case_match; [done|]. unfold nudge. destruct (top_root_inferred top); [done|].
  by destruct (negb _ && _).
Qed.

Lemma fallback_keeps incident top a :
  let b := applyTopologyFallback incident top a in
  an_rule_id b = an_rule_id a /\ an_items b = an_items a /\ sc_contradicted (an_score b) = sc_contradicted (an_score a).
Proof. unfold applyTopologyFallback. by destruct (_ || _). Qed.

Lemma match_elem rules cor incident signals m :
  NewWithRules rules = Ok cor -> m ∈ MatchSignals cor incident signals ->
  m_rule_id m = rule_id (m_rule m) /\ m_rule m ∈ rules.
Proof.
  intros Hc. unfold MatchSignals. rewrite elem_of_sort_stable, list_elem_of_omap.
  intros (signal & _ & Hm). apply (match_signal_spec rules cor incident signal m Hc) in Hm as [Hn Hm].
  split; [by rewrite Hm|]. by inversion Hn.
Qed.

Lemma ValidateProbe_backend probe : ValidateProbe probe = Ok tt -> pr_backend probe <> alertSource.
Proof.
  unfold ValidateProbe. intros H Hb. rewrite Hb in H.
  destruct (TrimSpace (pr_id probe) =?s ""); discriminate H.
Qed.

Lemma match_backends rules cor incident signals m probe :
  NewWithRules rules = Ok cor -> m ∈ MatchSignals cor incident signals -> probe ∈ rule_probes (m_rule m) ->
  pr_backend probe <> alertSource.
Proof.
  intros Hc Hm Hp. destruct (match_elem rules cor incident signals m Hc Hm) as [_ Hr].
  destruct (new_table rules cor Hc) as [Hrs _ _]. rewrite Forall_forall in Hrs. apply Hrs in Hr as [_ _ _ Hps _ _ _ _].
  rewrite Forall_forall in Hps. by apply ValidateProbe_backend, Hps.
Qed.

Lemma NoDup_fallback_sources incident top a :
  NoDup (sc_sources (an_score a)) -> NoDup (sc_sources (an_score (applyTopologyFallback incident top a))).
Proof.
  intros H. unfold applyTopologyFallback. destruct (_ || _); [done|]. simpl.
  repeat constructor; rewrite ?list_elem_of_singleton; [discriminate|apply not_elem_of_nil].
Qed.

(** The chosen hypothesis when a rule matched. *)
Lemma scoreHypotheses_sources rules cor col now incident signals :
  NewWithRules rules = Ok cor ->
  let matches := MatchSignals cor incident signals in
  let a := scoreHypotheses incident matches (collectEvidence col now incident matches) in
  NoDup (sc_sources (an_score a)) /\
  forall src, src ∈ sc_sources (an_score a) -> src = alertSource \/ corroborates col now matches (an_rule_id a) src.
Proof.
  intros Hc matches. simpl.
  destruct (scoreHypotheses_cases incident matches (collectEvidence col now incident matches))
    as [->|(best & items & Hin & _ & ->)].
  - split; [constructor|]. intros src []%elem_of_nil.
  - destruct (report_best_fields best items) as (Hid & _ & Hs & _). rewrite Hid, Hs. simpl.
    apply scores_ok in Hin. split.
    + eapply score_ok_sources_nodup; [exact Hin|]. intros m probe Hm. by apply (match_backends rules cor incident signals).
    + intros src Hsrc. destruct (score_ok_sources _ _ _ _ _ Hin Hsrc) as [?|(m & _ & Hr & Hm & Hco)]; [by left|right].
      destruct (match_elem rules cor incident signals m Hc Hm) as [Hmid _]. by rewrite Hr, <- Hmid.
Qed.

(** ** Lemmas: candidates *)

Definition from_catalog (matches : list Match) (c : RCACandidate) : Prop :=
  accepted (cand_action_type c) (cand_target c) (cand_parameters c) /\
  cand_requires_approval c = negb (cand_risk c =?s "low") /\
  exists m t, m ∈ matches /\ t ∈ rule_remediations (m_rule m) /\ cand_action_type c = tpl_action t /\ cand_risk c = tpl_risk t.

Lemma render_one_ok service labels t c :
  render_one service labels t = inl c ->
  accepted (cand_action_type c) (cand_target c) (cand_parameters c) /\
  cand_requires_approval c = negb (cand_risk c =?s "low") /\ cand_action_type c = tpl_action t /\ cand_risk c = tpl_risk t.
Proof.
  unfold render_one. pose proof (RenderTemplate_spec t service labels) as H.
  destruct (RenderTemplate t service labels) as [[target ps] reason].
  destruct (reason =?s "") eqn:E; simpl; [|done]. intros [= <-]. simpl. reflect_tests.
  destruct ps as [ps|]; simpl; [|by destruct H]. destruct H as (_ & _ & Ha & _). done.
Qed.

Lemma renderCandidates_ok s c :
  c ∈ (renderCandidates s).1 ->
  (exists service, c = diagnostics service) \/
  (accepted (cand_action_type c) (cand_target c) (cand_parameters c) /\
   cand_requires_approval c = negb (cand_risk c =?s "low") /\
   exists t, t ∈ rule_remediations (h_rule s) /\ cand_action_type c = tpl_action t /\ cand_risk c = tpl_risk t).
Proof.
  unfold renderCandidates. set (f := render_one _ _). set (rendered := f <$> _).
  assert (forall c, c ∈ omap keep_left rendered -> exists t, t ∈ rule_remediations (h_rule s) /\ f t = inl c) as Hk.
  { intros c' (x & Hx & Hl)%list_elem_of_omap. apply list_elem_of_fmap in Hx as (t & -> & Ht).
    exists t. destruct (f t); simpl in Hl; by simplify_eq. }
  destruct (omap keep_left rendered) as [|c' cs] eqn:E.
  - intros ->%list_elem_of_singleton. left. by eexists.
  - intros Hc. right. apply Hk in Hc as (t & Ht & Hf). apply render_one_ok in Hf as (? & ? & ? & ?). eauto 10.
Qed.

Lemma renderCandidates_not_nil s : (renderCandidates s).1 <> [].
Proof. unfold renderCandidates. by destruct (omap keep_left _). Qed.

Lemma report_best_candidates best items c :
  c ∈ an_candidates (report_best best items) ->
  (exists service, c = diagnostics service) \/ h_contradicted best = false /\ c ∈ (renderCandidates best).1.
Proof.
  unfold report_best. destruct (h_contradicted best); simpl.
  - intros ->%list_elem_of_singleton. left. by eexists.
  - destruct (renderCandidates best); simpl. auto.
Qed.

Lemma an_candidates_fallback incident top a c :
  c ∈ an_candidates (applyTopologyFallback incident top a) ->
  c ∈ an_candidates a \/ exists service, c = diagnostics service.
Proof.
  unfold applyTopologyFallback. destruct (_ || _); [by left|]. simpl. intros ->%list_elem_of_singleton. right. by eexists.
Qed.

(** ** Lemmas: no backend configured *)

Definition silent (r : Result) : Prop := res_status r = StatusUnavailable /\ res_value r = None.

Lemma runOne_no_backend probe service now : silent (runOne None probe service now).
Proof. unfold runOne, silent. by destruct (Render (pr_query probe) service). Qed.

Lemma tally_silent results : Forall silent results -> tally_of results = mkTally fzero fzero ∅.
Proof.
  unfold tally_of. induction 1 as [|r results [Hs _] _ IH]; [done|]. simpl. unfold count_result at 2. by rewrite Hs.
Qed.

Lemma score_ok_silent now matches s :
  score_ok None now matches s ->
  h_sources s = [alertSource] /\ h_contradicted s = false /\ h_confidence s = lit 45 100 /\
  Forall silent (run_results (h_run s)).
Proof.
  intros (id & m & ms & run & -> & _ & Hrun). simpl.
  assert (Forall silent (run_results run)) as Hsil.
  { destruct Hrun as [->|(p & _ & _ & ->)]; [constructor|]. simpl. apply Forall_fmap, Forall_forall. intros. apply runOne_no_backend. }
  pose proof (tally_silent _ Hsil) as Ht. unfold tally_of in Ht. rewrite Ht. simpl.
  by split_and!.
Qed.

Lemma alert_items_value rule matches seen ev : ev ∈ alert_items rule matches seen -> ev_value ev = None.
Proof.
  revert seen. induction matches as [|m matches IH]; intros seen; simpl; [intros []%elem_of_nil|].
  case_bool_decide; [apply IH|]. intros [->|H']%elem_of_cons; [done|]. by eapply IH.
Qed.

Lemma evidenceItems_silent s ev :
  Forall silent (run_results (h_run s)) -> ev ∈ evidenceItems s -> ev_value ev = None.
Proof.
  intros Hsil. unfold evidenceItems. rewrite elem_of_app. intros [?|H']; [by eapply alert_items_value|].
  apply list_elem_of_fmap in H' as (r & -> & Hr). rewrite Forall_forall in Hsil. by apply Hsil in Hr as [_ ?].
Qed.

Lemma omap_none {A B} (f : A -> option B) l : (forall x, x ∈ l -> f x = None) -> omap f l = [].
Proof.
  induction l as [|x l IH]; intros H; [done|]. simpl. rewrite H by (by left). apply IH. intros y Hy. apply H. by right.
Qed.

Lemma topology_confidence incident top a :
  an_confidence a = lit 35 100 /\ an_rule_id a = "" \/
  an_confidence a = lit 45 100 /\ sc_source_cap (an_score a) = lit 55 100 /\ an_hypothesis a <> insufficientHypothesis ->
  an_confidence (enrichWithTopology (applyTopologyFallback incident top a) top)
    ∈ [lit 35 100; lit 45 100; lit 48 100; lit 58 100; lit 72 100].
Proof.
  intros [[Hc Hid]|(Hc & Hcap & Hh)].
  - destruct (fallback_keeps incident top a) as (Hid' & _). rewrite Hid in Hid'.
    assert (an_confidence (applyTopologyFallback incident top a) ∈ [lit 35 100; lit 58 100; lit 72 100]) as Hb.
    { unfold applyTopologyFallback. destruct (_ || _); [rewrite Hc; by left|]. simpl.
      destruct (top_root_inferred top); [right; by left|right; right; by left]. }
    revert Hid' Hb. generalize (applyTopologyFallback incident top a). intros b Hb0 Hb.
    assert (an_confidence (enrichWithTopology b top) = an_confidence b) as ->.
    { unfold enrichWithTopology, nudge. rewrite Hb0. by destruct (_ =? 0), (top_root_inferred top). }
    clear -Hb. rewrite !elem_of_cons in Hb. rewrite !elem_of_cons. tauto.
  - assert (applyTopologyFallback incident top a = a) as ->.
    { unfold applyTopologyFallback. by rewrite (proj2 (eqb_string_false _ _) Hh). }
    unfold enrichWithTopology, nudge. rewrite Hcap, Hc.
    assert (clamp (fadd (lit 45 100) (lit 3 100)) BaselineConfidence (lit 55 100) = lit 48 100) as -> by (vm_compute; reflexivity).
    destruct (_ =? 0); [rewrite Hc; right; by left|].
    destruct (top_root_inferred top); [right; by left|]. destruct (negb _ && _); [right; right; by left|right; by left].
Qed.

Lemma scoreHypotheses_silent rules cor now incident signals :
  NewWithRules rules = Ok cor -> Forall (fun r => rule_hypothesis r <> insufficientHypothesis) rules ->
  let matches := MatchSignals cor incident signals in
  let a := scoreHypotheses incident matches (collectEvidence None now incident matches) in
  sc_contradicted (an_score a) = false /\ (forall ev, ev ∈ an_items a -> ev_value ev = None) /\
  (an_confidence a = lit 35 100 /\ an_rule_id a = "" \/
   an_confidence a = lit 45 100 /\ sc_source_cap (an_score a) = lit 55 100 /\ an_hypothesis a <> insufficientHypothesis).
Proof.
  intros Hc Hhyp matches. simpl.
  destruct (scoreHypotheses_cases incident matches (collectEvidence None now incident matches))
    as [->|(best & items & Hbest & Hitems & ->)].
  { split_and!; [done|intros ev []%elem_of_nil|by left]. }
  apply scores_ok in Hbest. destruct (score_ok_silent now matches best Hbest) as (Hs & Hn & Hf & _).
  destruct (report_best_fields best items) as (_ & -> & -> & ->). subst items. split_and!; [done| |right; split_and!].
  - intros ev (s & Hev & Hin)%list_elem_of_bind. apply scores_ok, score_ok_silent in Hin as (_ & _ & _ & Hsil).
    by eapply evidenceItems_silent.
  - done.
  - destruct Hbest as (id & m & ms & run & -> & _).
    destruct (scoreRule_bounds (m_rule m) (m :: ms) run) as (Hcap & _). rewrite Hs in Hcap. exact Hcap.
  - unfold report_best. rewrite Hn. destruct (renderCandidates best). simpl.
    destruct Hbest as (id & m & ms & run & -> & Hms & _). apply Forall_cons in Hms as [[Hm _] _]. simpl.
    rewrite Forall_forall in Hhyp. apply Hhyp. by apply (match_elem rules cor incident signals m Hc Hm).
Qed.

(** ** Properties *)

(** C10: confidence is earned from independent sources. Whatever the signals, the
    backends' answers and the topology, the reported confidence is a number
    between the 0.35 baseline and the cap for the number of distinct sources
    listed in the score (0.55 for one, 0.80 for two, 0.95 beyond); and every
    listed source other than the alert is either the topology, which had
    suppressed alerts behind a named root, or a backend on which a probe of the
    matched rule that tests a cause, not a symptom, was corroborated. *)
Theorem confidence_within_evidence rules cor col now incident signals top :
  NewWithRules rules = Ok cor ->
  let matches := MatchSignals cor incident signals in
  let a := analyze cor col now incident signals top in
  capped a /\ NoDup (sc_sources (an_score a)) /\
  forall src, src ∈ sc_sources (an_score a) ->
    src = alertSource \/
    src = "topology" /\ top_suppressed_alert_count top <> 0 /\ top_root_service top <> "" \/
    corroborates col now matches (an_rule_id a) src.
Proof.
  intros Hc matches. unfold analyze. fold matches. simpl.
  destruct (scoreHypotheses_sources rules cor col now incident signals Hc) as [Hnd Hsrc]. fold matches in Hnd, Hsrc.
  pose proof (capped_scoreHypotheses col now incident matches) as Hcap. revert Hnd Hsrc Hcap.
  set (a := scoreHypotheses _ _ _). intros Hnd Hsrc Hcap.
  destruct (fallback_keeps incident top a) as (Hid & _).
  set (b := applyTopologyFallback incident top a) in *.
  destruct (enrich_keeps top b) as (Hid' & Hs' & _). split_and!.
  - by apply capped_enrich, capped_fallback.
  - rewrite Hs'. by apply NoDup_fallback_sources.
  - rewrite Hs', Hid', Hid. intros src Hin. apply sources_fallback in Hin as [Hin|(Hin & H1 & H2)].
    + destruct (Hsrc src Hin); auto.
    + apply elem_of_cons in Hin as [?|?%list_elem_of_singleton]; auto.
Qed.

(** C34: nothing unsafe is ever proposed. The list of candidates is never empty,
    and each of them is either a diagnostics collection or a low-to-high risk
    action of a matched rule's templates whose target and parameters the action
    catalog accepts, marked as needing approval unless its risk is low; when the
    backends contradict the chosen hypothesis, only diagnostics are proposed. *)
Theorem candidates_safe cor col now incident signals top :
  let matches := MatchSignals cor incident signals in
  let a := analyze cor col now incident signals top in
  an_candidates a <> [] /\
  forall c, c ∈ an_candidates a ->
    (exists service, c = diagnostics service) \/ sc_contradicted (an_score a) = false /\ from_catalog matches c.
Proof.
  intros matches. unfold analyze. fold matches. simpl.
  pose proof (scoreHypotheses_cases incident matches (collectEvidence col now incident matches)) as Hcases. revert Hcases.
  set (a := scoreHypotheses _ _ _). intros Hcases.
  destruct (enrich_keeps top (applyTopologyFallback incident top a)) as (_ & _ & -> & -> & _).
  destruct (fallback_keeps incident top a) as (_ & _ & ->). split.
  - unfold applyTopologyFallback. destruct (_ || _); [|done].
    destruct Hcases as [->|(best & items & _ & _ & ->)]; [done|]. unfold report_best.
    destruct (h_contradicted best); [done|]. pose proof (renderCandidates_not_nil best). by destruct (renderCandidates best).
  - intros c [Hin|?]%an_candidates_fallback; [|by left].
    destruct Hcases as [Ha|(best & items & Hbest & _ & Ha)]; rewrite Ha in Hin |- *.
    { apply list_elem_of_singleton in Hin as ->. left. by eexists. }
    apply report_best_candidates in Hin as [?|[Hcon Hin]]; [by left|].
    apply renderCandidates_ok in Hin as [?|(H1 & H2 & t & Ht & H3)]; [by left|right].
    destruct (report_best_fields best items) as (_ & _ & -> & _). split; [done|].
    apply scores_ok in Hbest as (id & m & ms & run & -> & Hms & _). apply Forall_cons in Hms as [[Hm _] _].
    split_and!; [done|done|]. by exists m, t.
Qed.

(** With no backend configured nothing is corroborated, refuted or put on the
    timeline as an observation, and the confidence takes one of five values: the
    baseline, the bare alert match (0.45), the same raised by an observed
    topology root (0.48), or the two topology fallbacks (0.58 and 0.72). *)
Theorem no_backend_no_corroboration rules cor now incident signals top :
  NewWithRules rules = Ok cor -> Forall (fun r => rule_hypothesis r <> insufficientHypothesis) rules ->
  let a := analyze cor None now incident signals top in
  sc_contradicted (an_score a) = false /\ probeTimelineEvents (inc_id incident) (an_items a) = [] /\
  (forall ev, ev ∈ an_items a -> ev_value ev = None) /\
  an_confidence a ∈ [lit 35 100; lit 45 100; lit 48 100; lit 58 100; lit 72 100].
Proof.
  intros Hc Hhyp. unfold analyze. set (matches := MatchSignals cor incident signals). simpl.
  destruct (scoreHypotheses_silent rules cor now incident signals Hc Hhyp) as (Hcon & Hval & Hconf). fold matches in Hcon, Hval, Hconf.
  revert Hcon Hval Hconf. generalize (scoreHypotheses incident matches (collectEvidence None now incident matches)).
  intros a Hcon Hval Hconf.
  destruct (enrich_keeps top (applyTopologyFallback incident top a)) as (_ & _ & _ & -> & ->).
  destruct (fallback_keeps incident top a) as (_ & -> & ->). split_and!; [done| |done|by apply topology_confidence].
  apply omap_none. intros ev Hev. by rewrite Hval.
Qed.

Definition demo_topology : IncidentTopology := mkIncidentTopology "inc-1" "postgres" false ["payments-api"; "postgres"] 3 2 [].
Definition demo_querier : Querier := fun query at_ => Sample (of_int 1) true.
Definition demo_collector : Collector := NewCollector second {[Loki := Some demo_querier]}.

Lemma no_backend_no_corroboration_witness :
  let a := analyze demo_correlator None 50 demo_incident demo_signals demo_topology in
  sc_contradicted (an_score a) = false /\ probeTimelineEvents (inc_id demo_incident) (an_items a) = [] /\
  (forall ev, ev ∈ an_items a -> ev_value ev = None) /\
  an_confidence a ∈ [lit 35 100; lit 45 100; lit 48 100; lit 58 100; lit 72 100].
Proof.
  apply (no_backend_no_corroboration DefaultRules); [vm_compute; reflexivity|].
  repeat (apply Forall_cons; split; [intros H; vm_compute in H; discriminate H|]). apply Forall_nil, I.
Defined.

(** One corroborated cause probe on Loki: two sources, so a cap of 0.80. *)
Example demo_analysis :
  let a := analyze demo_correlator (Some demo_collector) 50 demo_incident demo_signals demo_topology in
  (an_rule_id a, an_hypothesis a, sc_sources (an_score a), an_confidence a) =
  (RuleBadConfigRollout, "Bad config rollout introduced an invalid runtime configuration", [alertSource; Loki], lit 73 100).
Proof. vm_compute. reflexivity. Qed.

Lemma confidence_within_evidence_witness :
  let a := analyze demo_correlator (Some demo_collector) 50 demo_incident demo_signals demo_topology in
  capped a /\ NoDup (sc_sources (an_score a)).
Proof.
  destruct (confidence_within_evidence DefaultRules demo_correlator (Some demo_collector) 50 demo_incident demo_signals demo_topology)
    as (H1 & H2 & _); [vm_compute; reflexivity|]. by split.
Defined.
