(* ===== verification/Database.v ===== *)
(** * The database and the effects of the sources

    The PostgreSQL tables of the migrations as maps from primary keys to rows,
    and the monad in which every handler runs. A statement either applies
    atomically or fails, whenever the environment says so; a transaction restores
    the tables when its body or its commit fails; what was published to the
    message stream is not undone by a rollback. Handlers run one at a time: a
    concurrent execution of the sources is a sequence of their transactions, and
    every theorem about a transaction holds from any state of the tables. *)
From Stdlib Require Import Ascii String ZArith Lia.
From stdpp Require Import base gmap strings list.
From S2P Require Import Prelude GoStrings GoFloat GoValue Json Marshal Ledger Types.
Open Scope Z_scope.

(** ** Rows *)

(** [approval_requests], [internal/approvals/types.go]. *)
Record Request := mkRequest {
  req_id : string;
  req_remediation_id : string;
  req_incident_id : string;
  req_action_type : string;
  req_target : string;
  req_parameters : params;
  req_risk : string;
  req_status : string;
  req_requested_by : string;
  req_requested_at : Z;
  req_escalates_at : Z;
  req_expires_at : Z;
  req_escalated_at : option Z;
  req_decided_at : option Z;
  req_decided_by : string;
  req_decision_reason : string;
  req_decision_source : string;
  req_notification_status : string;
  req_notification_attempts : Z;
  req_last_notification_error : string;
  req_created_at : Z;
  req_updated_at : Z;
}.

(** [queue.Event], the message of a job. *)
Record Event := mkEvent {
  evt_id : string;
  evt_type : string;
  evt_occurred_at : Z;
  evt_producer : string;
  evt_trace_id : string;
  evt_idempotency_key : string;
  evt_payload : params;
}.

(** [remediation_dispatches], the outbox. *)
Record Dispatch := mkDispatch {
  dsp_id : string;
  dsp_remediation_id : string;
  dsp_reason : string;
  dsp_subject : string;
  dsp_event : Event;
  dsp_state : string;
  dsp_attempts : Z;
  dsp_last_error : string;
  dsp_next_attempt_at : Z;
  dsp_published_at : option Z;
  dsp_created_at : Z;
}.

(** [remediation_execution_receipts] and [worker_heartbeats]. *)
Record Receipt := mkReceipt { rcp_action_type : string; rcp_target : string; rcp_result : params }.
Record Heartbeat := mkHeartbeat { hb_supported_actions : list string; hb_last : Z }.

(** [service_dependencies]: unique per pair of services, which is the key. *)
Record DependencyRow := mkDependencyRow {
  dr_id : string;
  dr_type : string;
  dr_criticality : string;
  dr_created_at : Z;
}.

(** What was observed: [services], [service_dependencies], [incident_alerts],
    [signals], [incident_timeline_events] and [rca_reports]. *)
Record Observed := mkObserved {
  ob_services : gmap string Service;
  ob_dependencies : gmap (string * string) DependencyRow;
  ob_alerts : gmap (string * string) IncidentAlert;
  ob_signals : list Signal;
  ob_timeline : list TimelineEvent;
  ob_reports : gmap string RCAReport;
}.
Definition nothing_observed : Observed := mkObserved ∅ ∅ ∅ [] [] ∅.

Record DB := mkDB {
  db_incidents : gmap string Incident;
  db_remediations : gmap string RemediationAction;
  db_approvals : gmap string Request;
  db_dispatches : gmap string Dispatch;
  db_receipts : gmap string Receipt;
  db_targets : gmap (string * string) params;
  db_heartbeats : gmap string Heartbeat;
  db_audit : list AuditRow;
  db_chain : option (Z * string);
  db_observed : Observed;
}.

Definition set_incidents (f : gmap string Incident -> gmap string Incident) (d : DB) : DB :=
  mkDB (f (db_incidents d)) (db_remediations d) (db_approvals d) (db_dispatches d) (db_receipts d) (db_targets d)
    (db_heartbeats d) (db_audit d) (db_chain d) (db_observed d).
Definition set_remediations (f : gmap string RemediationAction -> gmap string RemediationAction) (d : DB) : DB :=
  mkDB (db_incidents d) (f (db_remediations d)) (db_approvals d) (db_dispatches d) (db_receipts d) (db_targets d)
    (db_heartbeats d) (db_audit d) (db_chain d) (db_observed d).
Definition set_approvals (f : gmap string Request -> gmap string Request) (d : DB) : DB :=
  mkDB (db_incidents d) (db_remediations d) (f (db_approvals d)) (db_dispatches d) (db_receipts d) (db_targets d)
    (db_heartbeats d) (db_audit d) (db_chain d) (db_observed d).
Definition set_dispatches (f : gmap string Dispatch -> gmap string Dispatch) (d : DB) : DB :=
  mkDB (db_incidents d) (db_remediations d) (db_approvals d) (f (db_dispatches d)) (db_receipts d) (db_targets d)
    (db_heartbeats d) (db_audit d) (db_chain d) (db_observed d).
Definition set_execution (receipts : gmap string Receipt) (targets : gmap (string * string) params) (d : DB) : DB :=
  mkDB (db_incidents d) (db_remediations d) (db_approvals d) (db_dispatches d) receipts targets
    (db_heartbeats d) (db_audit d) (db_chain d) (db_observed d).
Definition set_heartbeats (f : gmap string Heartbeat -> gmap string Heartbeat) (d : DB) : DB :=
  mkDB (db_incidents d) (db_remediations d) (db_approvals d) (db_dispatches d) (db_receipts d) (db_targets d)
    (f (db_heartbeats d)) (db_audit d) (db_chain d) (db_observed d).
Definition set_ledger (audit : list AuditRow) (chain : option (Z * string)) (d : DB) : DB :=
  mkDB (db_incidents d) (db_remediations d) (db_approvals d) (db_dispatches d) (db_receipts d) (db_targets d)
    (db_heartbeats d) audit chain (db_observed d).
Definition set_observed (f : Observed -> Observed) (d : DB) : DB :=
  mkDB (db_incidents d) (db_remediations d) (db_approvals d) (db_dispatches d) (db_receipts d) (db_targets d)
    (db_heartbeats d) (db_audit d) (db_chain d) (f (db_observed d)).

(** ** Environment and world *)

(** What one call cannot control: the clock, which statements and messages fail,
    the identifiers drawn, what JSONB columns give back, whether an advisory
    try-lock is free, which rows another replica holds locked, and which jobs run
    past their deadline, before or after their effect. Effects are numbered in the order they happen. *)
Record env := mkEnv {
  e_now : Z;
  e_fault : nat -> option string;
  e_id : nat -> string;
  e_publish : nat -> option string;
  e_notify : nat -> option string;
  e_lock : nat -> bool;
  e_locked : string -> bool;
  e_late : nat -> option bool;
  e_jsonb : string -> string;
}.

Record world := mkWorld { w_db : DB; w_tick : nat; w_sent : list (string * Event) }.

Definition M (A : Type) : Type := env -> world -> result A * world.

Definition ret {A} (a : A) : M A := fun _ w => (Ok a, w).
Definition throw {A} (err : error) : M A := fun _ w => (Fail err, w).
Definition bind {A B} (m : M A) (k : A -> M B) : M B := fun e w =>
  match m e w with
  | (Ok a, w') => k a e w'
  | (Fail err, w') => (Fail err, w')
  end.

Notation "x <- m ;; k" := (bind m (fun x => k)) (at level 100, m at next level, right associativity) : go_scope.
Notation "' p <- m ;; k" := (bind m (fun p => k)) (at level 100, p pattern, m at next level, right associativity) : go_scope.
Notation "m ;;; k" := (bind m (fun _ => k)) (at level 100, right associativity) : go_scope.

(** The outcome as a value: a call whose error the code inspects or drops. *)
Definition attempt {A} (m : M A) : M (result A) := fun e w => let '(r, w') := m e w in (Ok r, w').
Definition ignore {A} (m : M A) : M unit := fun e w => let '(_, w') := m e w in (Ok tt, w').
Definition lift {A} (r : result A) : M A := fun _ w => (r, w).

(** [fmt.Errorf("prefix: %w", err)] around a call. *)
Definition wrap {A} (prefix : string) (m : M A) : M A := fun e w =>
  match m e w with
  | (Fail err, w') => (Fail (wrapf prefix err), w')
  | r => r
  end.

Definition tick (w : world) : world := mkWorld (w_db w) (S (w_tick w)) (w_sent w).

(** A statement: fails without effect when the environment says so; otherwise it
    applies, or reports a constraint it would break. *)
Definition stmt {A} (f : DB -> result (A * DB)) : M A := fun e w =>
  match e_fault e (w_tick w) with
  | Some msg => (Fail (mkError KDatabase msg), tick w)
  | None =>
      match f (w_db w) with
      | Fail err => (Fail err, tick w)
      | Ok (a, d) => (Ok a, mkWorld d (S (w_tick w)) (w_sent w))
      end
  end.
Definition query {A} (f : DB -> A) : M A := stmt (fun d => Ok (f d, d)).
Definition exec (f : DB -> DB) : M unit := stmt (fun d => Ok (tt, f d)).

(** [QueryRow(...).Scan]: [sql.ErrNoRows] when nothing matches. *)
Definition no_rows : error := mkError KNoRows "sql: no rows in result set".
Definition query_row {A} (f : DB -> option A) : M A :=
  stmt (fun d => match f d with Some a => Ok (a, d) | None => Fail no_rows end).

(** An UPDATE of one row by primary key under a condition, and whether it matched. *)
Definition update_if {R} (sel : DB -> gmap string R) (upd : (gmap string R -> gmap string R) -> DB -> DB)
    (id : string) (cond : R -> bool) (f : R -> R) : M bool :=
  stmt (fun d => match sel d !! id with
                 | Some row => if cond row then Ok (true, upd (<[id := f row]>) d) else Ok (false, d)
                 | None => Ok (false, d)
                 end).

Definition jsonb_columns : M (string -> string) := fun e w => (Ok (e_jsonb e), w).
(** The rows [SKIP LOCKED] passes over. *)
Definition row_locks : M (string -> bool) := fun e w => (Ok (e_locked e), w).
(** Whether the job that starts now is in time; if not, whether its effect happens. *)
Definition deadline : M (option bool) := fun e w => (Ok (e_late e (w_tick w)), tick w).
Definition now : M Z := fun e w => (Ok (e_now e), w).
(** PostgreSQL's [now()] has microseconds. *)
Definition db_now : M Z := fun e w => (Ok (TruncateMicro (e_now e)), w).
Definition NewID (prefix : string) : M string := fun e w => (Ok (prefix +:+ "_" +:+ e_id e (w_tick w)), tick w).
Definition try_lock : M bool := fun e w => (Ok (e_lock e (w_tick w)), tick w).

(** BEGIN, the body, COMMIT; ROLLBACK when the body or the commit fails. *)
Definition in_tx {A} (begin_text commit_text : string) (body : M A) : M A := fun e w =>
  match wrap begin_text (exec id) e w with
  | (Fail err, w') => (Fail err, w')
  | (Ok _, w0) =>
      match body e w0 with
      | (Fail err, w1) => (Fail err, mkWorld (w_db w0) (w_tick w1) (w_sent w1))
      | (Ok a, w1) =>
          match e_fault e (w_tick w1) with
          | Some msg => (Fail (wrapf commit_text (mkError KDatabase msg)), mkWorld (w_db w0) (S (w_tick w1)) (w_sent w1))
          | None => (Ok a, tick w1)
          end
      end
  end.

(** [Store.InTx]. *)
Definition InTx {A} (body : M A) : M A := in_tx "begin transaction" "commit transaction" body.

(** A transaction whose body may also decide to return without committing
    ([inr]): the deferred ROLLBACK then undoes it. The commit error is reported
    the way the code at that return does. *)
Definition tx_choice {A B} (begin_error : error -> error) (commit_error : A -> error -> error) (body : M (A + B)) : M (A + B) :=
  fun e w =>
  match e_fault e (w_tick w) with
  | Some msg => (Fail (begin_error (mkError KDatabase msg)), tick w)
  | None =>
      let w0 := tick w in
      match body e w0 with
      | (Fail err, w1) => (Fail err, mkWorld (w_db w0) (w_tick w1) (w_sent w1))
      | (Ok (inr b), w1) => (Ok (inr b), mkWorld (w_db w0) (w_tick w1) (w_sent w1))
      | (Ok (inl a), w1) =>
          match e_fault e (w_tick w1) with
          | Some msg => (Fail (commit_error a (mkError KDatabase msg)), mkWorld (w_db w0) (S (w_tick w1)) (w_sent w1))
          | None => (Ok (inl a), tick w1)
          end
      end
  end.

(** JetStream accepts the message or reports an error. *)
Definition Publish (subject : string) (event : Event) : M unit := fun e w =>
  match e_publish e (w_tick w) with
  | Some msg => (Fail (errorf msg), tick w)
  | None => (Ok tt, mkWorld (w_db w) (S (w_tick w)) (w_sent w ++ [(subject, event)]))
  end.

Fixpoint for_each {A} (l : list A) (f : A -> M unit) : M unit :=
  match l with [] => ret tt | x :: l => f x ;;; for_each l f end.

(** ** Guarantees

    [guar R m]: whatever the environment does, the tables after [m] are related by
    [R] to the tables before, also when [m] fails. For a reflexive and transitive
    [R] it is enough to check the statements [m] is made of. *)

Definition guar {A} (R : DB -> DB -> Prop) (m : M A) : Prop :=
  forall e w, R (w_db w) (w_db (m e w).2).

Create HintDb guar discriminated.
#[export] Hint Extern 0 (Reflexive _) => typeclasses eauto : guar.
#[export] Hint Extern 0 (Transitive _) => typeclasses eauto : guar.

Section guarantees.
Context (R : DB -> DB -> Prop) `{!Reflexive R, !Transitive R}.

Lemma guar_ret {A} (a : A) : guar R (ret a).
Proof. intros e w. reflexivity. Qed.

Lemma guar_throw {A} err : guar R (throw (A := A) err).
Proof. intros e w. reflexivity. Qed.

Lemma guar_lift {A} (r : result A) : guar R (lift r).
Proof. intros e w. reflexivity. Qed.

Lemma guar_now : guar R now.
Proof. intros e w. reflexivity. Qed.

Lemma guar_jsonb_columns : guar R jsonb_columns.
Proof. intros e w. reflexivity. Qed.

Lemma guar_row_locks : guar R row_locks.
Proof. intros e w. reflexivity. Qed.

Lemma guar_deadline : guar R deadline.
Proof. intros e w. reflexivity. Qed.

Lemma guar_db_now : guar R db_now.
Proof. intros e w. reflexivity. Qed.

Lemma guar_NewID prefix : guar R (NewID prefix).
Proof. intros e w. reflexivity. Qed.

Lemma guar_try_lock : guar R try_lock.
Proof. intros e w. reflexivity. Qed.

Lemma guar_Publish subject event : guar R (Publish subject event).
Proof. intros e w. unfold Publish. destruct (e_publish e (w_tick w)); simpl; reflexivity. Qed.

Lemma guar_bind {A B} (m : M A) (k : A -> M B) : guar R m -> (forall a, guar R (k a)) -> guar R (bind m k).
Proof.
  intros Hm Hk e w. unfold bind. specialize (Hm e w). destruct (m e w) as [[a|err] w']; simpl in *; [|done].
  etrans; [exact Hm|apply Hk].
Qed.

Lemma guar_wrap {A} prefix (m : M A) : guar R m -> guar R (wrap prefix m).
Proof. intros Hm e w. unfold wrap. specialize (Hm e w). by destruct (m e w) as [[a|err] w']. Qed.

Lemma guar_attempt {A} (m : M A) : guar R m -> guar R (attempt m).
Proof. intros Hm e w. unfold attempt. specialize (Hm e w). by destruct (m e w) as [[a|err] w']. Qed.

Lemma guar_ignore {A} (m : M A) : guar R m -> guar R (ignore m).
Proof. intros Hm e w. unfold ignore. specialize (Hm e w). by destruct (m e w) as [[a|err] w']. Qed.

Lemma guar_stmt {A} (f : DB -> result (A * DB)) :
  (forall d a d', f d = Ok (a, d') -> R d d') -> guar R (stmt f).
Proof.
  intros Hf e w. unfold stmt. destruct (e_fault e (w_tick w)); simpl; [reflexivity|].
  destruct (f (w_db w)) as [[a d']|err] eqn:E; simpl; [by eapply Hf|reflexivity].
Qed.

Lemma guar_exec (f : DB -> DB) : (forall d, R d (f d)) -> guar R (exec f).
Proof. intros Hf. apply guar_stmt. intros d a d' [= _ <-]. apply Hf. Qed.

Lemma guar_query {A} (f : DB -> A) : guar R (query f).
Proof. apply guar_stmt. intros d a d' [= _ <-]. reflexivity. Qed.

Lemma guar_query_row {A} (f : DB -> option A) : guar R (query_row f).
Proof. apply guar_stmt. intros d a d'. destruct (f d); [|done]. intros [= _ <-]. reflexivity. Qed.

Lemma guar_in_tx {A} b c (body : M A) : guar R body -> guar R (in_tx b c body).
Proof.
  intros Hb e w. unfold in_tx, wrap, exec, stmt. destruct (e_fault e (w_tick w)) as [msg|]; simpl; [reflexivity|].
  specialize (Hb e (mkWorld (w_db w) (S (w_tick w)) (w_sent w))). simpl in Hb.
  destruct (body e _) as [[a|err] w1]; simpl in *; [|reflexivity].
  destruct (e_fault e (w_tick w1)); simpl; [reflexivity|done].
Qed.

Lemma guar_InTx {A} (body : M A) : guar R body -> guar R (InTx body).
Proof. apply guar_in_tx. Qed.

Lemma guar_update_if {Row} (sel : DB -> gmap string Row) upd id cond f :
  (forall d row, sel d !! id = Some row -> cond row = true -> R d (upd (<[id := f row]>) d)) ->
  guar R (update_if sel upd id cond f).
Proof.
  intros Hu. apply guar_stmt. intros d a d'. destruct (sel d !! id) as [row|] eqn:E; [|by intros [= _ <-]].
  destruct (cond row) eqn:C; intros [= _ <-]; [auto|reflexivity].
Qed.

Lemma guar_for_each {A} (l : list A) f : (forall x, guar R (f x)) -> guar R (for_each l f).
Proof. intros Hf. induction l; simpl; [apply guar_ret|]. by apply guar_bind. Qed.
End guarantees.

#[export] Hint Resolve guar_ret guar_throw guar_lift guar_now guar_NewID guar_try_lock guar_Publish guar_bind guar_wrap guar_attempt
  guar_ignore guar_query guar_query_row guar_in_tx guar_InTx guar_for_each : guar.

(** Walks through the structure of a handler down to its statements. *)
Ltac guar_step :=
  match goal with
  | |- guar _ (match ?x with _ => _ end) => destruct x
  | |- guar _ (if ?b then _ else _) => destruct b
  | |- guar _ (let _ := _ in _) => cbv zeta
  | |- guar _ (ret _) => apply guar_ret
  | |- guar _ (throw _) => apply guar_throw
  | |- guar _ (lift _) => apply guar_lift
  | |- guar _ now => apply guar_now
  | |- guar _ db_now => apply guar_db_now
  | |- guar _ jsonb_columns => apply guar_jsonb_columns
  | |- guar _ row_locks => apply guar_row_locks
  | |- guar _ deadline => apply guar_deadline
  | |- guar _ (NewID _) => apply guar_NewID
  | |- guar _ try_lock => apply guar_try_lock
  | |- guar _ (Publish _ _) => apply guar_Publish
  | |- guar _ (query _) => apply guar_query
  | |- guar _ (query_row _) => apply guar_query_row
  | |- guar _ (bind _ _) => apply guar_bind
  | |- guar _ (wrap _ _) => apply guar_wrap
  | |- guar _ (attempt _) => apply guar_attempt
  | |- guar _ (ignore _) => apply guar_ignore
  | |- guar _ (InTx _) => apply guar_InTx
  | |- guar _ (in_tx _ _ _) => apply guar_in_tx
  | |- guar _ (for_each _ _) => apply guar_for_each
  | |- forall _, _ => intros ?
  end.
Ltac guar_walk := repeat (guar_step; try typeclasses eauto); auto with guar.

(** ** Guarantees of transaction bodies

    [okay R m]: [R] relates the tables before and after whenever [m] succeeds; what
    a failing body leaves behind is rolled back. *)

Definition okay {A} (R : DB -> DB -> Prop) (m : M A) : Prop :=
  forall e w a w', m e w = (Ok a, w') -> R (w_db w) (w_db w').

Section bodies.
Context (R : DB -> DB -> Prop) `{!Reflexive R, !Transitive R}.

Lemma okay_guar {A} (m : M A) : guar R m -> okay R m.
Proof. intros Hm e w a w' E. specialize (Hm e w). by rewrite E in Hm. Qed.

Lemma okay_throw {A} err : okay R (throw (A := A) err).
Proof. by intros e w a w'. Qed.

Lemma okay_bind {A B} (m : M A) (k : A -> M B) : okay R m -> (forall a, okay R (k a)) -> okay R (bind m k).
Proof.
  intros Hm Hk e w b w'. unfold bind. destruct (m e w) as [[a|err] w1] eqn:E; [|done]. intros E'.
  etrans; [by eapply Hm|by eapply Hk].
Qed.

Lemma okay_wrap {A} prefix (m : M A) : okay R m -> okay R (wrap prefix m).
Proof. intros Hm e w a w'. unfold wrap. destruct (m e w) as [[b|err] w1] eqn:E; [|done]. intros [= <- <-]. by eapply Hm. Qed.

Lemma okay_for_each {A} (l : list A) f : (forall x, okay R (f x)) -> okay R (for_each l f).
Proof. intros Hf. induction l; simpl; [apply okay_guar, guar_ret; typeclasses eauto|]. by apply okay_bind. Qed.

Lemma okay_in_tx {A} b c (body : M A) : okay R body -> guar R (in_tx b c body).
Proof.
  intros Hb e w. unfold in_tx, wrap, exec, stmt. destruct (e_fault e (w_tick w)) as [msg|]; simpl; [reflexivity|].
  destruct (body e _) as [[a|err] w1] eqn:E; simpl; [|reflexivity].
  destruct (e_fault e (w_tick w1)); simpl; [reflexivity|]. by apply Hb in E.
Qed.

Lemma okay_tx_choice {A B} b c (body : M (A + B)) : okay R body -> guar R (tx_choice b c body).
Proof.
  intros Hb e w. unfold tx_choice. destruct (e_fault e (w_tick w)) as [msg|]; simpl; [reflexivity|].
  destruct (body e _) as [[[a|b']|err] w1] eqn:E; simpl; [|reflexivity|reflexivity].
  destruct (e_fault e (w_tick w1)); simpl; [reflexivity|]. by apply Hb in E.
Qed.

Lemma okay_InTx {A} (body : M A) : okay R body -> guar R (InTx body).
Proof. apply okay_in_tx. Qed.
End bodies.

Ltac okay_step :=
  match goal with
  | |- okay _ (match ?x with _ => _ end) => destruct x
  | |- okay _ (if ?b then _ else _) => destruct b
  | |- okay _ (let _ := _ in _) => cbv zeta
  | |- okay _ (throw _) => apply okay_throw
  | |- okay _ (ret _) => apply okay_guar, guar_ret
  | |- okay _ (lift _) => apply okay_guar, guar_lift
  | |- okay _ now => apply okay_guar, guar_now
  | |- okay _ db_now => apply okay_guar, guar_db_now
  | |- okay _ jsonb_columns => apply okay_guar, guar_jsonb_columns
  | |- okay _ row_locks => apply okay_guar, guar_row_locks
  | |- okay _ deadline => apply okay_guar, guar_deadline
  | |- okay _ (NewID _) => apply okay_guar, guar_NewID
  | |- okay _ try_lock => apply okay_guar, guar_try_lock
  | |- okay _ (Publish _ _) => apply okay_guar, guar_Publish
  | |- okay _ (query _) => apply okay_guar, guar_query
  | |- okay _ (query_row _) => apply okay_guar, guar_query_row
  | |- okay _ (attempt (Publish _ _)) => apply okay_guar, guar_attempt, guar_Publish
  | |- okay _ (bind _ _) => apply okay_bind
  | |- okay _ (wrap _ _) => apply okay_wrap
  | |- okay _ (for_each _ _) => apply okay_for_each
  | |- forall _, _ => intros ?
  end.

(** Down to the statements and the calls that have a guarantee of their own,
    registered as hints. *)
Ltac handler_walk :=
  repeat (first [ assumption | solve [auto with guar nocore] | solve [apply okay_guar; auto with guar nocore] | okay_step
                | match goal with
                  | |- guar _ (InTx _) => apply okay_InTx
                  | |- guar _ (tx_choice _ _ _) => apply okay_tx_choice
                  | |- guar _ (in_tx _ _ _) => apply okay_in_tx
                  end
                | guar_step ]; try typeclasses eauto).

(** ** Successful runs, step by step *)

Lemma bind_ok {A B} (m : M A) (k : A -> M B) e w b w' :
  bind m k e w = (Ok b, w') -> exists a w1, m e w = (Ok a, w1) /\ k a e w1 = (Ok b, w').
Proof. unfold bind. destruct (m e w) as [[a|err] w1]; [|done]. eauto. Qed.

Lemma wrap_ok {A} prefix (m : M A) e w a w' : wrap prefix m e w = (Ok a, w') -> m e w = (Ok a, w').
Proof. unfold wrap. by destruct (m e w) as [[b|err] w1]. Qed.

Lemma ret_ok {A} (a b : A) e w w' : ret a e w = (Ok b, w') -> b = a /\ w' = w.
Proof. by intros [= -> ->]. Qed.

Lemma lift_ok {A} (r : result A) e w a w' : lift r e w = (Ok a, w') -> r = Ok a /\ w' = w.
Proof. by intros [= -> ->]. Qed.

Lemma now_ok e w t w' : now e w = (Ok t, w') -> t = e_now e /\ w' = w.
Proof. by intros [= -> ->]. Qed.

Lemma db_now_ok e w t w' : db_now e w = (Ok t, w') -> t = TruncateMicro (e_now e) /\ w' = w.
Proof. by intros [= -> ->]. Qed.

Lemma jsonb_ok e w f w' : jsonb_columns e w = (Ok f, w') -> f = e_jsonb e /\ w' = w.
Proof. by intros [= -> ->]. Qed.

Lemma row_locks_ok e w f w' : row_locks e w = (Ok f, w') -> f = e_locked e /\ w' = w.
Proof. by intros [= -> ->]. Qed.

Lemma NewID_ok prefix e w id w' : NewID prefix e w = (Ok id, w') -> w_db w' = w_db w /\ w_sent w' = w_sent w.
Proof. by intros [= _ <-]. Qed.

Lemma stmt_ok {A} (f : DB -> result (A * DB)) e w a w' :
  stmt f e w = (Ok a, w') -> f (w_db w) = Ok (a, w_db w') /\ w_sent w' = w_sent w.
Proof.
  unfold stmt. destruct (e_fault e (w_tick w)); [done|]. destruct (f (w_db w)) as [[b d]|]; [|done]. by intros [= <- <-].
Qed.

Lemma stmt_fail {A} (f : DB -> result (A * DB)) e w err w' :
  stmt f e w = (Fail err, w') -> w_db w' = w_db w.
Proof.
  unfold stmt. destruct (e_fault e (w_tick w)); [by intros [= _ <-]|].
  destruct (f (w_db w)) as [[b d]|]; [done|]. by intros [= _ <-].
Qed.

Lemma query_ok {A} (f : DB -> A) e w a w' :
  query f e w = (Ok a, w') -> a = f (w_db w) /\ w_db w' = w_db w /\ w_sent w' = w_sent w.
Proof. intros [[= -> ->] ?]%stmt_ok. done. Qed.

Lemma query_row_ok {A} (f : DB -> option A) e w a w' :
  query_row f e w = (Ok a, w') -> f (w_db w) = Some a /\ w_db w' = w_db w /\ w_sent w' = w_sent w.
Proof. intros [H ?]%stmt_ok. destruct (f (w_db w)); [|done]. by injection H as -> ->. Qed.

Lemma exec_ok f e w u w' : exec f e w = (Ok u, w') -> w_db w' = f (w_db w) /\ w_sent w' = w_sent w.
Proof. intros [[= _ ->] ?]%stmt_ok. done. Qed.

Lemma update_if_ok {Row} (sel : DB -> gmap string Row) upd id cond f e w b w' :
  update_if sel upd id cond f e w = (Ok b, w') ->
  w_sent w' = w_sent w /\
  match b with
  | true => exists row, sel (w_db w) !! id = Some row /\ cond row = true /\ w_db w' = upd (<[id := f row]>) (w_db w)
  | false => w_db w' = w_db w /\ forall row, sel (w_db w) !! id = Some row -> cond row = false
  end.
Proof.
  intros [H ?]%stmt_ok. split; [done|]. destruct (sel (w_db w) !! id) as [row|]; [destruct (cond row) eqn:C|];
    injection H as <- <-; [eauto| |]; (split; [done|]); intros row' [= ?]; congruence.
Qed.

Lemma in_tx_ok {A} b c (body : M A) e w a w' :
  in_tx b c body e w = (Ok a, w') ->
  exists w0 w1, w_db w0 = w_db w /\ w_sent w0 = w_sent w /\ body e w0 = (Ok a, w1) /\ w_db w' = w_db w1 /\ w_sent w' = w_sent w1.
Proof.
  unfold in_tx, wrap, exec, stmt. destruct (e_fault e (w_tick w)) as [|]; [done|].
  destruct (body e _) as [[x|] w1] eqn:E; [|done]. destruct (e_fault e (w_tick w1)); [done|]. intros [= <- <-].
  eexists _, w1. split_and!; [..|exact E| |]; done.
Qed.

Lemma tx_choice_ok {A B} b c (body : M (A + B)) e w r w' :
  tx_choice b c body e w = (Ok r, w') ->
  exists w0 w1, w_db w0 = w_db w /\ w_sent w0 = w_sent w /\ body e w0 = (Ok r, w1) /\
    w_db w' = (match r with inl _ => w_db w1 | inr _ => w_db w end).
Proof.
  unfold tx_choice. destruct (e_fault e (w_tick w)) as [|]; [done|].
  destruct (body e _) as [[[x|y]|] w1] eqn:E; [|by intros [= <- <-]; exists (tick w), w1|done].
  destruct (e_fault e (w_tick w1)); [done|]. intros [= <- <-]. by exists (tick w), w1.
Qed.

Lemma tx_choice_fail {A B} b c (body : M (A + B)) e w err w' :
  tx_choice b c body e w = (Fail err, w') -> w_db w' = w_db w.
Proof.
  unfold tx_choice. destruct (e_fault e (w_tick w)) as [|]; [by intros [= _ <-]|].
  destruct (body e _) as [[[x|y]|] w1] eqn:E; [|done|by intros [= _ <-]].
  destruct (e_fault e (w_tick w1)); [by intros [= _ <-]|done].
Qed.

(** A failed transaction leaves the tables as they were. *)
Lemma in_tx_fail {A} b c (body : M A) e w err w' :
  in_tx b c body e w = (Fail err, w') -> w_db w' = w_db w.
Proof.
  unfold in_tx, wrap, exec, stmt. destruct (e_fault e (w_tick w)) as [|]; [by intros [= _ <-]|].
  destruct (body e _) as [[x|] w1] eqn:E; [|by intros [= _ <-]]. destruct (e_fault e (w_tick w1)); [by intros [= _ <-]|done].
Qed.

Lemma attempt_ok {A} (m : M A) e w r w' : attempt m e w = (Ok r, w') -> m e w = (r, w').
Proof. unfold attempt. destruct (m e w). by intros [= -> ->]. Qed.

Lemma unchanged {A} (m : M A) e w a w' : guar eq m -> m e w = (a, w') -> w_db w' = w_db w.
Proof. intros Hm E. specialize (Hm e w). by rewrite E in Hm. Qed.

(** ** All or nothing

    [atomic m]: when [m] fails, the tables are as they were. *)
Definition atomic {A} (m : M A) : Prop := forall e w err w', m e w = (Fail err, w') -> w_db w' = w_db w.

Lemma atomic_read {A} (m : M A) : guar eq m -> atomic m.
Proof. intros Hm e w err w'. by apply unchanged. Qed.

Lemma atomic_in_tx {A} b c (body : M A) : atomic (in_tx b c body).
Proof. intros e w err w'. apply in_tx_fail. Qed.

(** Reads, then something atomic. *)
Lemma atomic_after {A B} (m : M A) (k : A -> M B) : guar eq m -> (forall a, atomic (k a)) -> atomic (bind m k).
Proof.
  intros Hm Hk e w err w'. unfold bind. specialize (Hm e w). destruct (m e w) as [[a|err'] w1]; simpl in Hm.
  - intros H%Hk. congruence.
  - intros [= _ <-]. done.
Qed.

(** Something atomic, then what cannot fail. *)
Lemma atomic_then {A B} (m : M A) (k : A -> M B) : atomic m -> (forall a e w, is_ok (k a e w).1 = true) -> atomic (bind m k).
Proof.
  intros Hm Hk e w err w'. unfold bind. destruct (m e w) as [[a|err'] w1] eqn:E; [|intros [= <- <-]; by eapply Hm].
  specialize (Hk a e w1). destruct (k a e w1) as [[]]; done.
Qed.

Ltac atomic_walk := repeat first
  [ progress cbv zeta | progress intros | apply atomic_after; [solve [auto with guar nocore]|] | apply atomic_in_tx
  | match goal with
    | |- atomic (if ?b then _ else _) => destruct b
    | |- atomic (match ?x with _ => _ end) => destruct x
    | |- atomic (throw _) => apply atomic_read, guar_throw
    | |- atomic (ret _) => apply atomic_read, guar_ret
    end ].

(** Splits a successful run into the runs of its parts. *)
Ltac run_inv H :=
  lazymatch type of H with
  | bind _ _ _ _ = (Ok _, _) =>
      let a := fresh "a" in let w := fresh "w" in let H1 := fresh "H" in
      apply bind_ok in H as (a & w & H1 & H); run_inv H1; run_inv H
  | wrap _ _ _ _ = (Ok _, _) => apply wrap_ok in H; run_inv H
  | ret _ _ _ = (Ok _, _) => apply ret_ok in H as [? ?]; subst
  | lift _ _ _ = (Ok _, _) => let E := fresh "E" in apply lift_ok in H as [E ?]; subst
  | now _ _ = (Ok _, _) => apply now_ok in H as [? ?]; subst
  | db_now _ _ = (Ok _, _) => apply db_now_ok in H as [? ?]; subst
  | jsonb_columns _ _ = (Ok _, _) => apply jsonb_ok in H as [? ?]; subst
  | NewID _ _ _ = (Ok _, _) => let E1 := fresh "E" in let E2 := fresh "E" in apply NewID_ok in H as [E1 E2]
  | query _ _ _ = (Ok _, _) => let E1 := fresh "E" in let E2 := fresh "E" in apply query_ok in H as (-> & E1 & E2)
  | query_row _ _ _ = (Ok _, _) => let E0 := fresh "E" in let E1 := fresh "E" in let E2 := fresh "E" in apply query_row_ok in H as (E0 & E1 & E2)
  | exec _ _ _ = (Ok _, _) => let E1 := fresh "E" in let E2 := fresh "E" in apply exec_ok in H as [E1 E2]
  | throw _ _ _ = (Ok _, _) => discriminate H
  | (let _ := _ in _) _ _ = (Ok _, _) => cbv zeta in H; run_inv H
  | (match ?x with (_, _) => _ end) _ _ = (Ok _, _) => destruct x; run_inv H
  | _ => idtac
  end.
