(* ===== verification/AuditLog.v ===== *)
(** * The audit service ([internal/audit/service.go])

    Appending an entry under the lock on the chain head, alone or inside the
    transaction of the state change it records, and verifying the ledger. *)
From Stdlib Require Import Ascii String ZArith Lia.
From stdpp Require Import base gmap strings list.
From S2P Require Import Prelude GoStrings GoValue Marshal Ledger Types Database.
Open Scope Z_scope.

(** INSERT INTO audit_logs: the id, the position and the hash are unique. *)
Definition insert_audit (row : AuditRow) : M unit :=
  stmt (fun d =>
    if existsb (fun r => (row_id r =?s row_id row) || (row_position r =? row_position row) || (row_hash r =?s row_hash row))
         (db_audit d)
    then Fail (mkError KDatabase "duplicate key value violates unique constraint")
    else Ok (tt, set_ledger (db_audit d ++ [row]) (db_chain d) d)).

(** UPDATE audit_chain_state ... WHERE last_position = $3 AND last_hash = $4 *)
Definition advance_head (position : Z) (hash : string) (previousPosition : Z) (previousHash : string) : M bool :=
  stmt (fun d =>
    if bool_decide (db_chain d = Some (previousPosition, previousHash))
    then Ok (true, set_ledger (db_audit d) (Some (position, hash)) d) else Ok (false, d)).

Definition stamped (entry : Entry) (id : string) (created : Z) : Entry :=
  mkEntry id (ent_actor_id entry) (ent_actor_type entry) (ent_action entry) (ent_resource_type entry) (ent_resource_id entry)
    (ent_request_id entry) (ent_ip_address entry) (ent_before entry) (ent_after entry) (ent_metadata entry) created.

Definition WriteTx (entry : Entry) : M unit :=
  id <- (if ent_id entry =?s "" then NewID "aud" else ret (ent_id entry)) ;;
  time <- now ;;
  let entry := stamped entry id (TruncateMicro (if IsZero (ent_created_at entry) then time else ent_created_at entry)) in
  prepared <- wrap "prepare audit log" (lift (prepareEntry entry)) ;;
  '(previousPosition, previousHash) <- wrap "lock audit chain head" (query_row db_chain) ;;
  let position := previousPosition + 1 in
  hash <- wrap "hash audit log" (lift (calculateHash (entry_row entry prepared position previousHash "") position previousHash)) ;;
  jsonb <- jsonb_columns ;;
  wrap "write audit log" (insert_audit (stored jsonb (entry_row entry prepared position previousHash hash))) ;;;
  moved <- wrap "advance audit chain head" (advance_head position hash previousPosition previousHash) ;;
  if moved then ret tt else throw (errorf "advance audit chain head: concurrent or missing chain state").

Definition Write (entry : Entry) : M unit :=
  id <- (if ent_id entry =?s "" then NewID "aud" else ret (ent_id entry)) ;;
  time <- now ;;
  let entry := stamped entry id (if IsZero (ent_created_at entry) then time else ent_created_at entry) in
  in_tx "begin audit write" "commit audit write" (WriteTx entry).

(** A failed append is reported to the log and does not fail the caller. *)
Definition Record_ (entry : Entry) : M unit := ignore (Write entry).

(** An invalid ledger is reported without completing the read-only transaction. *)
Definition Verify : M Verification :=
  outcome <- tx_choice (wrapf "begin audit verification") (fun _ err => wrapf "complete audit verification" err) (
    '(statePosition, stateHash) <- wrap "read audit chain head" (query_row db_chain) ;;
    time <- now ;;
    rows <- wrap "read audit chain" (query (fun d => sort_stable (fun a b => row_position a <? row_position b) (db_audit d))) ;;
    report <- lift (verify_chain rows statePosition stateHash time) ;;
    ret (if ver_valid report then inl report else inr report)) ;;
  ret (match outcome with inl report | inr report => report end).

Definition ListEntries (limit : Z) : M (list AuditRow) :=
  let limit := if limit <=? 0 then 100 else limit in
  wrap "list audit logs" (query (fun d =>
    take (Z.to_nat limit) (sort_stable (fun a b => row_position b <? row_position a) (db_audit d)))).

(** An entry with the fields the handlers leave empty. *)
Definition audit_entry (actor actorType action resourceType resourceID : string) (before after metadata : option params) : Entry :=
  mkEntry "" actor actorType action resourceType resourceID "" "" before after metadata zero_time.

(** ** What an append does *)

(** The rows from position [p] and hash [h] on are the entries [writes], each sealed with
    the hash of its content, its position and the hash before it, in the form the columns
    keep. *)
Inductive sealed : list ((string -> string) * Entry) -> Z -> string -> list AuditRow -> Z -> string -> Prop :=
  | sealed_nil p h : sealed [] p h [] p h
  | sealed_cons jsonb entry writes p h row rows q g :
      chained_row jsonb entry p h = Ok row -> sealed writes (p + 1) (row_hash row) rows q g ->
      sealed ((jsonb, entry) :: writes) p h (row :: rows) q g.

(** The ledger holds the entries [writes] and its persisted head is its end. *)
Definition ledger_from (writes : list ((string -> string) * Entry)) (d : DB) : Prop :=
  exists p h, db_chain d = Some (p, h) /\ sealed writes 0 GenesisHash (db_audit d) p h.

Definition ledger_grows (d d' : DB) : Prop := forall writes, ledger_from writes d -> exists more, ledger_from (writes ++ more) d'.

Lemma sealed_snoc writes p h rows q g jsonb entry row :
  sealed writes p h rows q g -> chained_row jsonb entry q g = Ok row ->
  sealed (writes ++ [(jsonb, entry)]) p h (rows ++ [row]) (q + 1) (row_hash row).
Proof. induction 1; intros Hr; simpl; econstructor; eauto using sealed_nil. Qed.

#[export] Instance ledger_grows_refl : Reflexive ledger_grows.
Proof. intros d writes H. exists []. by rewrite app_nil_r. Qed.
#[export] Instance ledger_grows_trans : Transitive ledger_grows.
Proof. intros d1 d2 d3 H1 H2 writes (m1 & (m2 & H)%H2)%H1. exists (m1 ++ m2). by rewrite app_assoc. Qed.

Lemma ledger_untouched d d' : db_audit d' = db_audit d -> db_chain d' = db_chain d -> ledger_grows d d'.
Proof. intros HA HC writes H. exists []. rewrite app_nil_r. unfold ledger_from. by rewrite HA, HC. Qed.

(** The tables after some appends: the same but for the ledger, which only grew. *)
Record appended (d d' : DB) : Prop := {
  app_rows : exists rows, db_audit d' = db_audit d ++ rows;
  app_ledger : ledger_grows d d';
  app_incidents : db_incidents d' = db_incidents d;
  app_remediations : db_remediations d' = db_remediations d;
  app_approvals : db_approvals d' = db_approvals d;
  app_dispatches : db_dispatches d' = db_dispatches d;
  app_receipts : db_receipts d' = db_receipts d;
  app_targets : db_targets d' = db_targets d;
  app_heartbeats : db_heartbeats d' = db_heartbeats d;
  app_observed : db_observed d' = db_observed d;
}.

#[export] Instance appended_refl : Reflexive appended.
Proof. intros d. split; try done. exists []. by rewrite app_nil_r. Qed.

#[export] Instance appended_trans : Transitive appended.
Proof.
  intros d1 d2 d3 [[r1 ?] ? ? ? ? ? ? ? ? ?] [[r2 ?] ? ? ? ? ? ? ? ? ?]. split; try congruence; [|by etrans].
  exists (r1 ++ r2). rewrite app_assoc. congruence.
Qed.

(** Whatever comes of it, an append touches no other table. *)
Record ledger_only (d d' : DB) : Prop := {
  lo_incidents : db_incidents d' = db_incidents d;
  lo_remediations : db_remediations d' = db_remediations d;
  lo_approvals : db_approvals d' = db_approvals d;
  lo_dispatches : db_dispatches d' = db_dispatches d;
  lo_receipts : db_receipts d' = db_receipts d;
  lo_targets : db_targets d' = db_targets d;
  lo_heartbeats : db_heartbeats d' = db_heartbeats d;
  lo_observed : db_observed d' = db_observed d;
}.
#[export] Instance ledger_only_refl : Reflexive ledger_only.
Proof. by split. Qed.
#[export] Instance ledger_only_trans : Transitive ledger_only.
Proof. intros d1 d2 d3 [] []. split; congruence. Qed.

Lemma WriteTx_only entry : guar ledger_only (WriteTx entry).
Proof.
  unfold WriteTx. guar_walk; apply guar_stmt; try typeclasses eauto.
  - intros d u d'. destruct (existsb _ _); [done|]. by intros [= _ <-].
  - intros d u d'. by case_bool_decide; intros [= _ <-].
Qed.

(** ** The ledger of the database *)

(** The persisted head is the end of the chain the rows form. *)
Definition ledger_ok (d : DB) : Prop :=
  exists p h, db_chain d = Some (p, h) /\ linked 0 GenesisHash (db_audit d) p h.

(** The entry's states survive JSONB: plain numbers only. *)
Definition plain_entry (entry : Entry) : Prop :=
  forall p, prepareEntry entry = Ok p -> plain_prepared p = true.

Lemma linked_valid rows p h : linked 0 GenesisHash rows p h -> validHash h = true.
Proof.
  intros Hl. destruct rows as [|x rows _] using rev_ind.
  - inversion Hl; subst. apply genesis_valid.
  - apply linked_snoc in Hl as (h' & _ & _ & _ & Hcalc & _). by eapply calculateHash_valid.
Qed.

Lemma WriteTx_run entry e w w' :
  WriteTx entry e w = (Ok tt, w') ->
  exists id created p position previous row,
    prepareEntry (stamped entry id created) = Ok p /\ db_chain (w_db w) = Some (position, previous) /\
    chained_row (e_jsonb e) (stamped entry id created) position previous = Ok row /\
    w_db w' = set_ledger (db_audit (w_db w) ++ [row]) (Some (position + 1, row_hash row)) (w_db w) /\
    w_sent w' = w_sent w.
Proof.
  unfold WriteTx. intros H. apply bind_ok in H as (id & w1 & H1 & H).
  assert (w_db w1 = w_db w /\ w_sent w1 = w_sent w) as [D1 S1] by (destruct (_ =?s _); by run_inv H1).
  clear H1. run_inv H. destruct a2; run_inv H.
  apply stmt_ok in H0 as [I S2]. apply stmt_ok in H1 as [J S3].
  destruct (existsb _ _); [done|]. injection I as _ I. case_bool_decide; [|done]. injection J as J.
  eexists id, _, a, z, s, _. rewrite <- D1, <- E1.
  split_and!; [exact E|by rewrite E1|unfold chained_row; by rewrite E, E3| |congruence].
  rewrite <- J, <- I. done.
Qed.

(** The row carries what the entry says happened. *)
Record records (row : AuditRow) (entry : Entry) : Prop := {
  rec_actor : row_actor_id row = ent_actor_id entry;
  rec_actor_type : row_actor_type row = ent_actor_type entry;
  rec_action : row_action row = ent_action entry;
  rec_resource_type : row_resource_type row = ent_resource_type entry;
  rec_resource : row_resource_id row = ent_resource_id entry;
}.

(** The tables with one more row in the ledger. *)
Definition logged (entry : Entry) (d d' : DB) : Prop :=
  exists row chain, d' = set_ledger (db_audit d ++ [row]) chain d /\ records row entry /\ ledger_grows d d'.

Lemma WriteTx_grows entry e w w' : WriteTx entry e w = (Ok tt, w') -> ledger_grows (w_db w) (w_db w').
Proof.
  intros (id & created & p & position & previous & row & _ & Hc & Hrow & -> & _)%WriteTx_run writes (q & g & Hc' & HS).
  rewrite Hc in Hc'. injection Hc' as <- <-. exists [(e_jsonb e, stamped entry id created)], (position + 1), (row_hash row).
  split; [done|]. eapply sealed_snoc; [exact HS|exact Hrow].
Qed.

Lemma WriteTx_logged entry e w u w' :
  WriteTx entry e w = (Ok u, w') -> logged entry (w_db w) (w_db w') /\ w_sent w' = w_sent w.
Proof.
  destruct u. intros H. apply WriteTx_grows in H as HG.
  apply WriteTx_run in H as (id & created & p & position & previous & row & Hp & _ & Hrow & HD & HS).
  split; [|done]. eexists row, _. split; [exact HD|]. split; [|done]. unfold chained_row in Hrow. rewrite Hp in Hrow.
  destruct (calculateHash _ _ _); [|done]. injection Hrow as <-. by split.
Qed.

Lemma logged_appended entry d d' : logged entry d d' -> appended d d'.
Proof. intros (row & chain & -> & _ & HG). split; try done. by eexists. Qed.

(** An append that fails is rolled back with its transaction. *)
Lemma WriteTx_appended entry : okay appended (WriteTx entry).
Proof. intros e w u w' [H _]%WriteTx_logged. by eapply logged_appended. Qed.
#[export] Hint Resolve WriteTx_appended : guar.

Lemma Write_appended entry : guar appended (Write entry).
Proof. unfold Write. handler_walk. Qed.

Lemma Record_appended entry : guar appended (Record_ entry).
Proof. unfold Record_. apply guar_ignore, Write_appended. Qed.

Lemma WriteTx_keeps_ledger entry e w w' :
  jsonb_faithful (e_jsonb e) -> plain_entry entry -> ledger_ok (w_db w) ->
  WriteTx entry e w = (Ok tt, w') -> ledger_ok (w_db w').
Proof.
  intros HF HP (p0 & h0 & Hc & Hl) H.
  apply WriteTx_run in H as (id & created & p & position & previous & row & Hp & Hc' & Hrow & -> & _).
  rewrite Hc in Hc'. injection Hc' as <- <-. exists (p0 + 1), (row_hash row). split; [done|]. simpl.
  eapply linked_app; [exact Hl|]. eapply chained_row_linked; [exact HF|exact Hp| |by eapply linked_valid|exact Hrow].
  by apply HP.
Qed.

(** ** Sealed rows *)

(** The columns keep the entry's states as they were hashed. *)
Definition kept_as_written (write : (string -> string) * Entry) : Prop := jsonb_faithful write.1 /\ plain_entry write.2.

Lemma sealed_length writes p h rows q g : sealed writes p h rows q g -> q = p + Z.of_nat (length rows).
Proof. induction 1; simpl; lia. Qed.

Lemma chained_row_fields jsonb entry p h row :
  chained_row jsonb entry p h = Ok row -> row_position row = p + 1 /\ row_previous row = h.
Proof. unfold chained_row. destruct (prepareEntry entry); [|done]. destruct (calculateHash _ _ _); [|done]. by intros [= <-]. Qed.

Lemma sealed_rows writes p h rows q g : sealed writes p h rows q g -> forall i row, rows !! i = Some row ->
  row_position row = p + Z.of_nat i + 1 /\
  row_previous row = match i with O => h | S j => match rows !! j with Some before => row_hash before | None => "" end end.
Proof.
  induction 1 as [|jsonb entry writes p h row rows q g Hr _ IH]; intros i x Hi; [done|]. apply chained_row_fields in Hr as [Hp Hh].
  destruct i as [|i]; simpl in Hi; [injection Hi as <-; split; [lia|done]|]. destruct (IH _ _ Hi) as [Hpos Hprev]. split; [lia|].
  rewrite Hprev. by destruct i.
Qed.

Lemma sealed_last writes p h rows q g :
  sealed writes p h rows q g -> g = match last rows with Some row => row_hash row | None => h end.
Proof. induction 1 as [|jsonb entry writes p h row rows q g _ _ IH]; [done|]. rewrite IH, last_cons. by destruct (last rows). Qed.

Lemma sealed_linked writes p h rows q g :
  Forall kept_as_written writes -> validHash h = true -> sealed writes p h rows q g -> linked p h rows q g.
Proof.
  intros HF Hh HS. revert HF Hh. induction HS as [|jsonb entry writes p h row rows q g Hr _ IH]; intros HF Hh; [constructor|].
  apply Forall_cons in HF as [[HJ HP] HF]. assert (linked p h [row] (p + 1) (row_hash row)) as HL.
  { unfold chained_row in Hr. destruct (prepareEntry entry) as [pr|] eqn:Hp; [|done].
    eapply (chained_row_linked jsonb entry pr); [done|done|by apply HP|done|]. unfold chained_row. by rewrite Hp. }
  apply (linked_app _ _ [row] _ _ _ _ _ HL). apply IH; [done|]. by inversion HL.
Qed.

(** The query orders the rows by position; a chain is in that order already. *)
Lemma chain_in_order rows p h :
  linked 0 GenesisHash rows p h -> sort_stable (fun a b => row_position a <? row_position b) rows = rows.
Proof.
  intros [Hs _]%linked_positions. apply sort_stable_id. eapply StronglySorted_mono; [|exact Hs].
  intros a b Hab. unfold not_after. apply Z.ltb_ge. simpl in Hab. lia.
Qed.

Lemma Verify_run e w r w' :
  ledger_ok (w_db w) -> Verify e w = (Ok r, w') ->
  ver_valid r = true /\ ver_entries r = Z.of_nat (length (db_audit (w_db w))).
Proof.
  intros (p & h & Hc & Hl) H. unfold Verify in H. apply bind_ok in H as (out & w9 & H & H9). apply ret_ok in H9 as [-> ->].
  apply tx_choice_ok in H as (w0 & w1 & D0 & _ & H & _). run_inv H.
  rewrite D0, Hc in E. injection E as <- <-. rewrite E0, D0, (chain_in_order _ _ _ Hl) in E4.
  destruct (verify_chain_entries _ _ _ (e_now e) Hl) as (r' & HV & Hva & Hen). rewrite HV in E4. injection E4 as <-.
  rewrite Hva. split; [done|]. apply linked_length in Hl. lia.
Qed.

Lemma prepareEntry_stamped entry id created : prepareEntry (stamped entry id created) = prepareEntry entry.
Proof. done. Qed.

Lemma Write_run entry e w u w' :
  Write entry e w = (Ok u, w') ->
  exists id created w0 w1, w_db w0 = w_db w /\ WriteTx (stamped entry id created) e w0 = (Ok tt, w1) /\ w_db w' = w_db w1.
Proof.
  unfold Write. intros H. apply bind_ok in H as (id & wi & H1 & H).
  assert (w_db wi = w_db w) as D1 by (destruct (_ =?s _); by run_inv H1).
  run_inv H. apply in_tx_ok in H as (w0 & w1 & D0 & _ & H & D & _). destruct u.
  eexists id, _, w0, w1. split_and!; [congruence|exact H|done].
Qed.

Lemma Write_fails entry e w err w' : Write entry e w = (Fail err, w') -> w_db w' = w_db w.
Proof.
  unfold Write, bind. destruct (ent_id entry =?s ""); simpl; intros H; apply in_tx_fail in H; done.
Qed.

(** ** Properties *)

(** Every append leaves a ledger that verifies. Starting from a ledger whose
    head ends the chain of its rows, a successful [Write] of an entry with plain
    states adds exactly one row, which carries the entry, and the [Verify] that
    follows, when its statements succeed, reports a valid ledger one longer; a
    failed [Write] leaves every table unchanged. *)
Theorem Write_then_Verify entry e w :
  jsonb_faithful (e_jsonb e) -> plain_entry entry -> ledger_ok (w_db w) ->
  match Write entry e w with
  | (Ok _, w1) =>
      (exists row, db_audit (w_db w1) = db_audit (w_db w) ++ [row] /\ row_action row = ent_action entry /\
         row_resource_id row = ent_resource_id entry /\ row_actor_id row = ent_actor_id entry) /\
      forall e' r w2, Verify e' w1 = (Ok r, w2) ->
        ver_valid r = true /\ ver_entries r = Z.of_nat (length (db_audit (w_db w))) + 1
  | (Fail _, w1) => w_db w1 = w_db w
  end.
Proof.
  intros HF HP Hok. destruct (Write entry e w) as [[u|err] w1] eqn:H; [|by eapply Write_fails].
  apply Write_run in H as (id & created & w0 & w2 & D0 & H & D). rewrite <- D0 in Hok.
  assert (ledger_ok (w_db w1)) as Hok1 by (rewrite D; by eapply (WriteTx_keeps_ledger (stamped entry id created))).
  apply WriteTx_run in H as (id' & created' & p & position & previous & row & Hp & _ & Hrow & D2 & _).
  assert (db_audit (w_db w1) = db_audit (w_db w) ++ [row]) as Haud by (rewrite D, D2, <- D0; done).
  split.
  - exists row. split; [done|]. unfold chained_row in Hrow. rewrite Hp in Hrow.
    destruct (calculateHash _ _ _); [|done]. by injection Hrow as <-.
  - intros e' r w3 HV. apply Verify_run in HV as [Hva Hen]; [|done]. split; [done|].
    rewrite Hen, Haud, length_app. simpl. lia.
Qed.

Definition quiet_env : env :=
  mkEnv 1709210096123456789 (fun _ => None) (fun n => itoa (Z.of_nat n)) (fun _ => None) (fun _ => None) (fun _ => true) (fun _ => false)
    (fun _ => None) sorted_jsonb.
Definition empty_db : DB := mkDB ∅ ∅ ∅ ∅ ∅ ∅ ∅ [] (Some (0, GenesisHash)) nothing_observed.

Definition demo_write : result unit * world := Write demo_entry quiet_env (mkWorld empty_db 0 []).

Lemma Write_then_Verify_witness :
  is_ok demo_write.1 = true /\ length (db_audit (w_db demo_write.2)) = 1%nat /\
  forall e' r w2, Verify e' demo_write.2 = (Ok r, w2) -> ver_valid r = true.
Proof.
  assert (plain_entry demo_entry) as HP.
  { intros p E. assert (prepareEntry demo_entry = Ok demo_prepared) as E' by (vm_compute; reflexivity).
    rewrite <- (Ok_inj _ _ (eq_trans (eq_sym E') E)). vm_compute. reflexivity. }
  assert (ledger_ok empty_db) as HO by (exists 0, GenesisHash; split; [reflexivity|constructor]).
  pose proof (Write_then_Verify demo_entry quiet_env (mkWorld empty_db 0 []) sorted_jsonb_faithful HP HO) as H.
  fold demo_write in H. assert (is_ok demo_write.1 = true) as O by (vm_compute; reflexivity).
  assert (length (db_audit (w_db demo_write.2)) = 1%nat) as L by (vm_compute; reflexivity).
  split; [exact O|]. split; [exact L|]. revert H O. clear. generalize demo_write. intros [[u|err] w1]; simpl; [|discriminate].
  intros [_ H] _ e' r w2 HV. exact (proj1 (H e' r w2 HV)).
Defined.
