(* ===== verification/Store.v ===== *)
(** * The incident store: remediations and incident status
    ([internal/incidents/store.go])

    One definition per query or conditional update the remediation paths use.
    JSON columns come back as [json.Unmarshal] decodes them ([reread_map]); times
    the database fills in have its clock's value. *)
From Stdlib Require Import Ascii String ZArith Lia.
From stdpp Require Import base gmap strings list relations.
From S2P Require Import Prelude GoStrings GoFloat GoValue Marshal Lifecycle Types Database.
Open Scope Z_scope.

(** ** Updates of a remediation row *)

(** The columns a conditional update may change; the others identify the action. *)
Definition rem_with (r : RemediationAction) (status approved_by : string) (dry_run : bool) (queued started completed : option Z)
    (result : option params) (error : string) : RemediationAction :=
  mkRemediation (rem_id r) (rem_incident_id r) (rem_action_type r) (rem_target r) (rem_parameters r) status (rem_risk r)
    (rem_idempotency_key r) (rem_proposed_by r) approved_by (rem_policy_decision r) dry_run (rem_attempt r) (rem_max_attempts r)
    queued started completed result error (rem_created_at r).

Definition set_status (r : RemediationAction) (status : string) : RemediationAction :=
  rem_with r status (rem_approved_by r) (rem_dry_run r) (rem_queued_at r) (rem_started_at r) (rem_completed_at r)
    (rem_result r) (rem_error r).
Definition set_decision (r : RemediationAction) (status approved_by : string) : RemediationAction :=
  rem_with r status approved_by (rem_dry_run r) (rem_queued_at r) (rem_started_at r) (rem_completed_at r) (rem_result r) (rem_error r).

Definition has_status (l : list string) (r : RemediationAction) : bool := bool_decide (rem_status r ∈ l).

Definition update_remediation (id : string) (cond : RemediationAction -> bool) (f : RemediationAction -> RemediationAction) : M bool :=
  update_if db_remediations set_remediations id cond f.

(** ** Reads *)

Definition GetRemediation (id : string) : M RemediationAction :=
  wrap "get remediation" (query_row (fun d => db_remediations d !! id)).

(** The LEFT JOIN of [incidentSelect]: the service's name comes from its own row. *)
Definition scanIncident (d : DB) (i : Incident) : Incident :=
  mkIncident (inc_id i) (inc_title i) (inc_service_id i) (default "" (svc_name <$> ob_services (db_observed d) !! inc_service_id i))
    (inc_severity i) (inc_status i) (inc_dedupe_key i) (inc_fingerprint i) (inc_started_at i) (inc_detected_at i) (inc_resolved_at i)
    (inc_summary i) (inc_created_at i) (inc_updated_at i) (inc_environment i) (inc_last_seen_at i) (inc_alerts_cleared_at i).

Definition GetIncident (id : string) : M Incident :=
  wrap "get incident" (query_row (fun d => scanIncident d <$> db_incidents d !! id)).

Definition rows_of (d : DB) : list RemediationAction := (map_to_list (db_remediations d)).*2.

Definition ListRemediations (incidentID : string) : M (list RemediationAction) :=
  wrap "list remediations" (query (fun d =>
    sort_stable (fun a b => rem_created_at a <? rem_created_at b)
      (filter (fun r => rem_incident_id r = incidentID) (rows_of d)))).

(** The rows for the same incident, action, target and parameters. *)
Definition similar (incidentID actionType target : string) (parameters : params) (r : RemediationAction) : bool :=
  (rem_incident_id r =?s incidentID) && (rem_action_type r =?s actionType) && (rem_target r =?s target) &&
  bool_decide (rem_parameters r = reread_map parameters).

Definition count_rows (p : RemediationAction -> bool) (d : DB) : Z :=
  Z.of_nat (length (filter (fun r => p r = true) (rows_of d))).

Definition CountRecentSimilarRemediations (incidentID actionType target : string) (parameters : params) : M Z :=
  time <- db_now ;;
  wrap "count recent remediations" (query (count_rows (fun r =>
    similar incidentID actionType target parameters r && (time - 10 * minute <=? rem_created_at r)))).

Definition CountFailedRemediations (incidentID actionType target : string) (parameters : params) : M Z :=
  wrap "count failed remediations" (query (count_rows (fun r =>
    similar incidentID actionType target parameters r && has_status [Rem.StateFailed; Rem.StateTimedOut] r))).

(** [ORDER BY created_at DESC LIMIT 1]; no row is no error. *)
Definition FindActiveRemediationByAction (incidentID actionType target : string) (parameters : params)
    : M (option RemediationAction) :=
  wrap "find active remediation" (query (fun d =>
    head (sort_stable (fun a b => rem_created_at b <? rem_created_at a)
      (filter (fun r => similar incidentID actionType target parameters r &&
         negb (has_status [Rem.StatePolicyBlocked; Rem.StateRejected; Rem.StateSucceeded; Rem.StateFailed; Rem.StateTimedOut; Rem.StateCancelled] r) = true)
        (rows_of d))))).

(** ** Writes *)

(** INSERT: the primary key and the idempotency key are unique, the incident exists
    and the risk is one of the three. *)
Definition insert_remediation (a : RemediationAction) : M unit :=
  stmt (fun d =>
    if bool_decide (is_Some (db_remediations d !! rem_id a)) ||
       existsb (fun r => rem_idempotency_key r =?s rem_idempotency_key a) (rows_of d) ||
       negb (bool_decide (is_Some (db_incidents d !! rem_incident_id a))) ||
       negb (bool_decide (rem_risk a ∈ ["low"; "medium"; "high"]))
    then Fail (mkError KDatabase "remediation_actions constraint violated")
    else Ok (tt, set_remediations (<[rem_id a := a]>) d)).

Definition CreateRemediation (a : RemediationAction) : M unit :=
  id <- (if rem_id a =?s "" then NewID "rem" else ret (rem_id a)) ;;
  time <- now ;;
  wrap "create remediation" (insert_remediation
    (mkRemediation id (rem_incident_id a) (rem_action_type a) (rem_target a) (reread_map (rem_parameters a)) (rem_status a)
      (rem_risk a) (rem_idempotency_key a) (rem_proposed_by a) (rem_approved_by a) (reread_map (rem_policy_decision a))
      (rem_dry_run a) (rem_attempt a) (rem_max_attempts a) (rem_queued_at a) (rem_started_at a) (rem_completed_at a)
      (reread_map <$> rem_result a) (rem_error a)
      (if IsZero (rem_created_at a) then time else rem_created_at a))).

Definition CancelRemediation (id expectedStatus : string) : M bool :=
  time <- db_now ;;
  wrap "cancel remediation" (update_remediation id (fun r => rem_status r =?s expectedStatus)
    (fun r => rem_with r Rem.StateCancelled (rem_approved_by r) (rem_dry_run r) (rem_queued_at r) (rem_started_at r)
                (Some time) (rem_result r) (rem_error r))).

Definition MarkRemediationQueued (id : string) (dryRun : bool) : M Z :=
  time <- db_now ;;
  reserved <- wrap "mark remediation queued" (update_remediation id (has_status [Rem.StateApproved])
    (fun r => rem_with r Rem.StateQueued (rem_approved_by r) dryRun (Some time) (rem_started_at r)
                (rem_completed_at r) (rem_result r) (rem_error r))) ;;
  if reserved then ret time else throw (errorf "remediation queue reservation is no longer available").

Definition ReleaseRemediationQueueReservation (id : string) : M unit :=
  wrap "release remediation queue reservation" (update_remediation id (has_status [Rem.StateQueued])
    (fun r => rem_with r Rem.StateApproved (rem_approved_by r) (rem_dry_run r) None (rem_started_at r)
                (rem_completed_at r) (rem_result r) (rem_error r))) ;;;
  ret tt.

Definition started_or (r : RemediationAction) (time : Z) : option Z := Some (default time (rem_started_at r)).

Definition ClaimRemediation (id : string) : M bool :=
  time <- db_now ;;
  wrap "claim remediation" (update_remediation id (has_status [Rem.StateQueued; Rem.StateRunning])
    (fun r => rem_with r Rem.StateRunning (rem_approved_by r) (rem_dry_run r) (rem_queued_at r) (started_or r time)
                (rem_completed_at r) (rem_result r) (rem_error r))).

Definition MarkRemediationRunning (id : string) (result : option params) : M bool :=
  time <- db_now ;;
  wrap "mark remediation running" (update_remediation id (has_status [Rem.StateQueued; Rem.StateRunning])
    (fun r => rem_with r Rem.StateRunning (rem_approved_by r) (rem_dry_run r) (rem_queued_at r) (started_or r time)
                (rem_completed_at r) (reread_map <$> result) (rem_error r))).

Definition CompleteRemediation (id status : string) (result : option params) (execErr : string) : M bool :=
  time <- db_now ;;
  wrap "complete remediation" (update_remediation id (has_status [Rem.StateQueued; Rem.StateRunning])
    (fun r => rem_with r status (rem_approved_by r) (rem_dry_run r) (rem_queued_at r) (rem_started_at r)
                (Some time) (reread_map <$> result) execErr)).

Definition UpsertWorkerHeartbeat (workerID : string) (at_ : Z) (supported : list string) : M unit :=
  wrap "upsert worker heartbeat" (exec (set_heartbeats (<[workerID := mkHeartbeat supported at_]>))).

(** ** Incident status *)

Definition inc_with (i : Incident) (status : string) (time : Z) : Incident :=
  mkIncident (inc_id i) (inc_title i) (inc_service_id i) (inc_service i) (inc_severity i) status (inc_dedupe_key i)
    (inc_fingerprint i) (inc_started_at i) (inc_detected_at i)
    (if status =?s Inc.StatusResolved then Some time else inc_resolved_at i) (inc_summary i) (inc_created_at i) time
    (inc_environment i) (inc_last_seen_at i) (inc_alerts_cleared_at i).

(** One statement checks the lifecycle and applies the change; a second one tells
    why nothing changed. *)
Definition TransitionIncident (id status : string) : M (string * bool) :=
  time <- db_now ;;
  moved <- wrap "transition incident" (stmt (fun d =>
    match db_incidents d !! id with
    | Some i => if bool_decide (inc_status i ∈ Inc.AllowedFrom status)
                then Ok (Some (inc_status i), set_incidents (<[id := inc_with i status time]>) d) else Ok (None, d)
    | None => Ok (None, d)
    end)) ;;
  match moved with
  | Some previous => ret (previous, true)
  | None =>
      current <- attempt (query_row (fun d => inc_status <$> (db_incidents d !! id))) ;;
      match current with
      | Ok previous => ret (previous, false)
      | Fail err =>
          if bool_decide (err_kind err = KNoRows) then throw (mkError KIncidentNotFound "incident not found")
          else throw (wrapf "read incident status" err)
      end
  end.

Lemma GetIncident_ok id e w i w' :
  GetIncident id e w = (Ok i, w') -> w_db w' = w_db w /\ exists j, db_incidents (w_db w) !! id = Some j /\ i = scanIncident (w_db w) j.
Proof. intros ((j & Hj & ->)%fmap_Some & D & _)%wrap_ok%query_row_ok. split; [done|]. by exists j. Qed.
