(* ===== verification/Progress.v ===== *)
(** * Guarantees of the handlers

    Two relations between the tables before and after any run, failing runs
    included. [progress]: rows are never removed, what identifies them never
    changes, statuses move along the lifecycle tables, a decided approval keeps
    its decision, jobs keep their message, receipts are kept and the audit ledger
    only grows. [steady]: moreover no remediation is authorised to run and no
    approval is granted; it holds of every operation but proposing, requesting
    approval and deciding. *)
From Stdlib Require Import Ascii String ZArith Lia.
From stdpp Require Import base gmap strings list relations.
From S2P Require Import Prelude GoStrings GoValue Actions Marshal Ledger Lifecycle Types Database AuditLog Store.
Open Scope Z_scope.

(** ** Rows that stay *)

Section rows.
Context {K : Type} `{Countable K} {A : Type} (S : A -> A -> Prop).

(** Every row is still there, changed along [S] only. *)
Definition rows_kept (m m' : gmap K A) : Prop :=
  forall k a, m !! k = Some a -> exists a', m' !! k = Some a' /\ S a a'.

Lemma rows_kept_refl `{!Reflexive S} m : rows_kept m m.
Proof. intros k a Hk. by exists a. Qed.

Lemma rows_kept_trans `{!Transitive S} m1 m2 m3 : rows_kept m1 m2 -> rows_kept m2 m3 -> rows_kept m1 m3.
Proof. intros H1 H2 k a (a' & (a'' & ? & ?)%H2 & ?)%H1. exists a''. split; [done|by etrans]. Qed.

Lemma rows_kept_new `{!Reflexive S} m m' : m ⊆ m' -> rows_kept m m'.
Proof. intros Hm k a Hk. exists a. split; [by eapply lookup_weaken|done]. Qed.

Lemma rows_kept_update `{!Reflexive S} m k a a' : m !! k = Some a -> S a a' -> rows_kept m (<[k := a']> m).
Proof.
  intros Hk Hs i x Hx. destruct (decide (i = k)) as [->|Hne].
  - exists a'. rewrite lookup_insert_eq. by assert (x = a) as -> by congruence.
  - exists x. by rewrite lookup_insert_ne.
Qed.

Lemma rows_kept_back `{!Reflexive S} m k a a' : m !! k = Some a -> S a' a -> rows_kept (<[k := a']> m) m.
Proof.
  intros Hk Hs i x [[<- <-]|[Hne Hx]]%lookup_insert_Some; [by exists a|by exists x].
Qed.
End rows.

(** ** How a row may change *)

Record same_action (r r' : RemediationAction) : Prop := {
  sa_id : rem_id r' = rem_id r;
  sa_incident : rem_incident_id r' = rem_incident_id r;
  sa_action : rem_action_type r' = rem_action_type r;
  sa_target : rem_target r' = rem_target r;
  sa_parameters : rem_parameters r' = rem_parameters r;
  sa_risk : rem_risk r' = rem_risk r;
  sa_key : rem_idempotency_key r' = rem_idempotency_key r;
  sa_proposer : rem_proposed_by r' = rem_proposed_by r;
  sa_policy : rem_policy_decision r' = rem_policy_decision r;
}.

(** A step of the remediation table, or the release of a queue reservation. *)
Definition life_step (a b : string) : Prop :=
  Rem.CanTransition a b = true \/ a = Rem.StateQueued /\ b = Rem.StateApproved.

Definition action_moves (r r' : RemediationAction) : Prop :=
  same_action r r' /\ rtc life_step (rem_status r) (rem_status r').

Record incident_moves (i i' : Incident) : Prop := {
  im_id : inc_id i' = inc_id i;
  im_environment : inc_environment i' = inc_environment i;
  im_detected : inc_detected_at i' = inc_detected_at i;
  im_created : inc_created_at i' = inc_created_at i;
  im_status : rtc Inc.step (inc_status i) (inc_status i');
}.

Record same_request (r r' : Request) : Prop := {
  sr_id : req_id r' = req_id r;
  sr_remediation : req_remediation_id r' = req_remediation_id r;
  sr_incident : req_incident_id r' = req_incident_id r;
  sr_action : req_action_type r' = req_action_type r;
  sr_target : req_target r' = req_target r;
  sr_parameters : req_parameters r' = req_parameters r;
  sr_proposer : req_requested_by r' = req_requested_by r;
  sr_expires : req_expires_at r' = req_expires_at r;
}.

Definition decision_of (r : Request) : string * option Z * string * string * string :=
  (req_status r, req_decided_at r, req_decided_by r, req_decision_reason r, req_decision_source r).

Definition request_moves (r r' : Request) : Prop :=
  same_request r r' /\ (req_status r <> "pending" -> decision_of r' = decision_of r).

Definition job_of (x : Dispatch) : string * string * string * string * Event * Z :=
  (dsp_id x, dsp_remediation_id x, dsp_reason x, dsp_subject x, dsp_event x, dsp_created_at x).
Definition same_job (x x' : Dispatch) : Prop := job_of x' = job_of x.

Record same_alert (a a' : IncidentAlert) : Prop := {
  al_key : ia_dedupe_key a' = ia_dedupe_key a;
  al_name : ia_alert_name a' = ia_alert_name a;
  al_service : ia_service a' = ia_service a;
  al_first : ia_first_seen_at a' = ia_first_seen_at a;
}.

Definition same_dependency (x x' : DependencyRow) : Prop := dr_id x' = dr_id x /\ dr_created_at x' = dr_created_at x.

(** A report but for its advisory summary. *)
Definition findings_of (r : RCAReport) :=
  (rep_id r, rep_incident_id r, rep_deterministic_summary r, rep_primary_hypothesis r, rep_contributing_factors r, rep_evidence r,
   rep_confidence r, rep_topology r, rep_evidence_items r, rep_score r, rep_candidates r, rep_created_at r).
Definition same_report (r r' : RCAReport) : Prop := findings_of r' = findings_of r.

(** Services, signals and timeline are only added to; alerts, dependencies and
    reports are kept. *)
Record observed_moves (o o' : Observed) : Prop := {
  om_services : ob_services o ⊆ ob_services o';
  om_dependencies : rows_kept same_dependency (ob_dependencies o) (ob_dependencies o');
  om_alerts : rows_kept same_alert (ob_alerts o) (ob_alerts o');
  om_signals : ob_signals o `prefix_of` ob_signals o';
  om_timeline : ob_timeline o `prefix_of` ob_timeline o';
  om_reports : rows_kept same_report (ob_reports o) (ob_reports o');
}.

(** The keys and references of the schema, and one rule of the ingestion: no alert
    fired since its incident was marked as cleared. *)
Record context_ok (d : DB) : Prop := {
  co_incidents : forall id i, db_incidents d !! id = Some i ->
    inc_id i = id /\ is_Some (ob_services (db_observed d) !! inc_service_id i);
  co_alerts : forall id key a, ob_alerts (db_observed d) !! (id, key) = Some a ->
    ia_dedupe_key a = key /\ is_Some (db_incidents d !! id);
  co_services : forall id svc, ob_services (db_observed d) !! id = Some svc -> svc_id svc = id;
  co_names : forall id1 id2 svc1 svc2, ob_services (db_observed d) !! id1 = Some svc1 -> ob_services (db_observed d) !! id2 = Some svc2 ->
    svc_name svc1 = svc_name svc2 -> id1 = id2;
  co_quiet : forall id i t key a, db_incidents d !! id = Some i -> inc_alerts_cleared_at i = Some t ->
    ob_alerts (db_observed d) !! (id, key) = Some a -> ia_status a = "firing" -> ia_last_seen_at a < t;
}.

Record progress (d d' : DB) : Prop := {
  pg_remediations : rows_kept action_moves (db_remediations d) (db_remediations d');
  pg_incidents : rows_kept incident_moves (db_incidents d) (db_incidents d');
  pg_requests : rows_kept request_moves (db_approvals d) (db_approvals d');
  pg_dispatches : rows_kept same_job (db_dispatches d) (db_dispatches d');
  pg_receipts : db_receipts d ⊆ db_receipts d';
  pg_audit : exists rows, db_audit d' = db_audit d ++ rows;
  pg_ledger : ledger_grows d d';
  pg_observed : observed_moves (db_observed d) (db_observed d');
  pg_context : context_ok d -> context_ok d';
}.

(** States a remediation only reaches once it was allowed to run. *)
Definition authorised_states : list string :=
  [Rem.StateApproved; Rem.StateQueued; Rem.StateRunning; Rem.StateSucceeded; Rem.StateFailed].
Definition authorised (r : RemediationAction) : bool := has_status authorised_states r.

Definition no_authority (r' r : RemediationAction) : Prop :=
  authorised r' = true -> authorised r = true /\ rem_approved_by r' = rem_approved_by r.
Definition no_grant (q' q : Request) : Prop := req_status q' = "approved" -> req_status q = "approved".

Definition keyed_jobs (d : DB) : Prop := forall k x, db_dispatches d !! k = Some x -> dsp_id x = k.

(** The key columns are the keys of the tables. *)
Record keyed (d : DB) : Prop := {
  keyed_remediations : forall k r, db_remediations d !! k = Some r -> rem_id r = k;
  keyed_requests : forall k q, db_approvals d !! k = Some q -> req_id q = k;
  keyed_dispatches : keyed_jobs d;
}.

Record steady (d d' : DB) : Prop := {
  st_progress : progress d d';
  st_remediations : rows_kept no_authority (db_remediations d') (db_remediations d);
  st_requests : rows_kept no_grant (db_approvals d') (db_approvals d);
  st_jobs : keyed_jobs d -> keyed_jobs d';
}.

(** ** Both are preorders *)

#[export] Instance same_action_refl : Reflexive same_action.
Proof. by split. Qed.
#[export] Instance same_action_trans : Transitive same_action.
Proof. intros r1 r2 r3 [] []. split; congruence. Qed.
#[export] Instance action_moves_refl : Reflexive action_moves.
Proof. intros r. split; [done|apply rtc_refl]. Qed.
#[export] Instance action_moves_trans : Transitive action_moves.
Proof. intros r1 r2 r3 [? ?] [? ?]. split; by etrans. Qed.
#[export] Instance incident_moves_refl : Reflexive incident_moves.
Proof. by split. Qed.
#[export] Instance incident_moves_trans : Transitive incident_moves.
Proof. intros i1 i2 i3 [] []. split; first [congruence|by etrans]. Qed.
#[export] Instance same_alert_refl : Reflexive same_alert.
Proof. by split. Qed.
#[export] Instance same_alert_trans : Transitive same_alert.
Proof. intros a1 a2 a3 [] []. split; congruence. Qed.
#[export] Instance same_dependency_refl : Reflexive same_dependency.
Proof. by split. Qed.
#[export] Instance same_dependency_trans : Transitive same_dependency.
Proof. intros x1 x2 x3 [] []. split; congruence. Qed.
#[export] Instance same_report_refl : Reflexive same_report.
Proof. done. Qed.
#[export] Instance same_report_trans : Transitive same_report.
Proof. intros r1 r2 r3. unfold same_report. congruence. Qed.
#[export] Instance observed_moves_refl : Reflexive observed_moves.
Proof. intros o. split; first [apply rows_kept_refl, _|reflexivity]. Qed.
#[export] Instance observed_moves_trans : Transitive observed_moves.
Proof.
  intros o1 o2 o3 [] []. split; first [by etrans|eapply rows_kept_trans; [typeclasses eauto|eassumption|eassumption]].
Qed.
#[export] Instance request_moves_refl : Reflexive request_moves.
Proof. intros r. split; [by split|done]. Qed.
#[export] Instance request_moves_trans : Transitive request_moves.
Proof.
  intros r1 r2 r3 [[] D1] [[] D2]. split; [split; congruence|]. intros Hn. rewrite D2, D1; [done|done|].
  specialize (D1 Hn). injection D1 as ->. done.
Qed.
#[export] Instance same_job_refl : Reflexive same_job.
Proof. intros x. done. Qed.
#[export] Instance same_job_trans : Transitive same_job.
Proof. intros x1 x2 x3. unfold same_job. congruence. Qed.
#[export] Instance no_authority_refl : Reflexive no_authority.
Proof. intros r ?. done. Qed.
#[export] Instance no_authority_trans : Transitive no_authority.
Proof. intros r1 r2 r3 H1 H2 H. destruct (H1 H) as [A1 ?]. destruct (H2 A1). split; congruence. Qed.
#[export] Instance no_grant_refl : Reflexive no_grant.
Proof. intros r ?. done. Qed.
#[export] Instance no_grant_trans : Transitive no_grant.
Proof. unfold no_grant. intros r1 r2 r3 ? ? ?. auto. Qed.

#[export] Instance progress_refl : Reflexive progress.
Proof. intros d. split; try apply rows_kept_refl, _; [done| |reflexivity|reflexivity|done]. exists []. by rewrite app_nil_r. Qed.

#[export] Instance progress_trans : Transitive progress.
Proof.
  intros d1 d2 d3 [R1 I1 Q1 D1 C1 [rows1 A1] L1 O1 U1] [R2 I2 Q2 D2 C2 [rows2 A2] L2 O2 U2].
  split; try (eapply rows_kept_trans; [typeclasses eauto|eassumption|eassumption]); [by etrans| |by etrans|by etrans|auto].
  exists (rows1 ++ rows2). by rewrite A2, A1, app_assoc.
Qed.

#[export] Instance steady_refl : Reflexive steady.
Proof. intros d. split; [done|apply rows_kept_refl, _|apply rows_kept_refl, _|done]. Qed.

#[export] Instance steady_trans : Transitive steady.
Proof.
  intros d1 d2 d3 [P1 R1 Q1 J1] [P2 R2 Q2 J2]. split; [by etrans|..|auto];
    (eapply rows_kept_trans; [typeclasses eauto|eassumption|eassumption]).
Qed.

(** ** Changes of the tables *)

Lemma no_new_rows (d : DB) : exists rows, db_audit d = db_audit d ++ rows.
Proof. exists []. by rewrite app_nil_r. Qed.

(** Settles the tables a change leaves alone. *)
Ltac other_tables := simpl; first [apply rows_kept_refl, _ | reflexivity | done | apply no_new_rows | by apply ledger_untouched | by intros []].

Lemma progress_remediations d f : rows_kept action_moves (db_remediations d) (f (db_remediations d)) -> progress d (set_remediations f d).
Proof. intros H. split; first [exact H|other_tables]. Qed.
Lemma progress_incidents d f :
  rows_kept incident_moves (db_incidents d) (f (db_incidents d)) -> (context_ok d -> context_ok (set_incidents f d)) ->
  progress d (set_incidents f d).
Proof. intros H Hq. split; first [exact H|exact Hq|other_tables]. Qed.
Lemma progress_observed d f :
  observed_moves (db_observed d) (f (db_observed d)) -> (context_ok d -> context_ok (set_observed f d)) -> progress d (set_observed f d).
Proof. intros H Hq. split; first [exact H|exact Hq|other_tables]. Qed.

(** A change of one incident that keeps its id, a known service, and does not mark
    it as cleared. *)
Lemma context_incident d id i i' :
  db_incidents d !! id = Some i -> inc_id i' = inc_id i -> is_Some (ob_services (db_observed d) !! inc_service_id i') ->
  inc_alerts_cleared_at i' = inc_alerts_cleared_at i \/ inc_alerts_cleared_at i' = None ->
  context_ok d -> context_ok (set_incidents (<[id := i']>) d).
Proof.
  intros Hi Hid Hsvc Hc HC. destruct HC as [CI CA CS CN CQ]. split; simpl; [| |done|done|].
  - intros k j [[<- <-]|[_ Hj]]%lookup_insert_Some; [|by apply CI]. split; [|done]. rewrite Hid. by apply CI.
  - intros k key a Ha. destruct (CA _ _ _ Ha) as [? ?]. split; [done|]. destruct (decide (k = id)) as [->|]; [rewrite lookup_insert_eq; eauto|].
    by rewrite lookup_insert_ne.
  - intros k j t key a [[<- <-]|[_ Hj]]%lookup_insert_Some; [|by eapply CQ]. destruct Hc as [->| ->]; [by eapply CQ|done].
Qed.
Lemma progress_requests d f : rows_kept request_moves (db_approvals d) (f (db_approvals d)) -> progress d (set_approvals f d).
Proof. intros H. split; first [exact H|other_tables]. Qed.
Lemma progress_dispatches d f : rows_kept same_job (db_dispatches d) (f (db_dispatches d)) -> progress d (set_dispatches f d).
Proof. intros H. split; first [exact H|other_tables]. Qed.

(** A change outside remediations and requests authorises nothing. *)
Lemma steady_other d d' :
  progress d d' -> db_remediations d' = db_remediations d -> db_approvals d' = db_approvals d ->
  (keyed_jobs d -> keyed_jobs d') -> steady d d'.
Proof. intros HP HR HQ HJ. split; [done|rewrite HR; apply rows_kept_refl, _|rewrite HQ; apply rows_kept_refl, _|done]. Qed.

Lemma steady_remediation d id r r' :
  db_remediations d !! id = Some r -> same_action r r' -> life_step (rem_status r) (rem_status r') -> no_authority r' r ->
  steady d (set_remediations (<[id := r']>) d).
Proof.
  intros Hr Hs Hl Hn. split; [|apply rows_kept_back with r; try done; apply _|apply rows_kept_refl, _|done].
  apply (progress_remediations d). eapply rows_kept_update; [apply _|done|]. split; [done|by apply rtc_once].
Qed.

Lemma steady_request d id q q' :
  db_approvals d !! id = Some q -> request_moves q q' -> no_grant q' q -> steady d (set_approvals (<[id := q']>) d).
Proof.
  intros Hq Hm Hn. split; [|apply rows_kept_refl, _|apply rows_kept_back with q; try done; apply _|done].
  apply (progress_requests d). by eapply rows_kept_update; [apply _|..].
Qed.

Lemma steady_dispatches d f :
  rows_kept same_job (db_dispatches d) (f (db_dispatches d)) -> (keyed_jobs d -> keyed_jobs (set_dispatches f d)) ->
  steady d (set_dispatches f d).
Proof. intros H HJ. apply steady_other; [|done..]. by apply (progress_dispatches d). Qed.

(** A new job under its id. *)
Lemma steady_new_job d x :
  db_dispatches d !! dsp_id x = None -> steady d (set_dispatches (<[dsp_id x := x]>) d).
Proof.
  intros Hn. apply steady_dispatches; [apply rows_kept_new; [apply _|by apply insert_subseteq]|].
  intros HJ k y. simpl. intros [[<- <-]|[_ Hy]]%lookup_insert_Some; [done|by apply HJ].
Qed.

Lemma steady_job d id x x' :
  db_dispatches d !! id = Some x -> same_job x x' -> steady d (set_dispatches (<[id := x']>) d).
Proof.
  intros Hx Hj. apply steady_dispatches; [by eapply rows_kept_update; [apply _|..]|].
  intros HJ k y. simpl. intros [[<- <-]|[_ Hy]]%lookup_insert_Some; [|by apply HJ].
  rewrite <- (HJ _ _ Hx). unfold same_job, job_of in Hj. by injection Hj.
Qed.

Lemma update_remediation_steady id cond f :
  (forall r, cond r = true -> same_action r (f r) /\ life_step (rem_status r) (rem_status (f r)) /\ no_authority (f r) r) ->
  guar steady (update_remediation id cond f).
Proof.
  intros Hf. apply guar_update_if; [typeclasses eauto|]. intros d r Hr Hc. destruct (Hf r Hc) as (? & ? & ?).
  by eapply steady_remediation.
Qed.

Lemma update_request_steady id cond f :
  (forall q, cond q = true -> request_moves q (f q) /\ no_grant (f q) q) ->
  guar steady (update_if db_approvals set_approvals id cond f).
Proof.
  intros Hf. apply guar_update_if; [typeclasses eauto|]. intros d q Hq Hc. destruct (Hf q Hc). by eapply steady_request.
Qed.

Lemma guar_mono {A} (R S : DB -> DB -> Prop) (m : M A) : (forall d d', R d d' -> S d d') -> guar R m -> guar S m.
Proof. intros HRS Hm e w. apply HRS, Hm. Qed.

Lemma guar_steady_progress {A} (m : M A) : guar steady m -> guar progress m.
Proof. apply guar_mono. intros d d' H. apply H. Qed.
Lemma okay_steady_progress {A} (m : M A) : okay steady m -> okay progress m.
Proof. intros Hm e w a w' H. by eapply st_progress, Hm. Qed.
#[export] Hint Resolve guar_steady_progress okay_steady_progress : guar.

(** ** Every store operation *)

Lemma has_status_elem l r : has_status l r = true <-> rem_status r ∈ l.
Proof. unfold has_status. apply bool_decide_eq_true. Qed.

(** The statuses [l] may step to [b], which grants nothing they did not have. *)
Definition steps_to (b : string) (l : list string) : bool :=
  forallb (fun a => (Rem.CanTransition a b || ((a =?s Rem.StateQueued) && (b =?s Rem.StateApproved))) &&
                    (negb (bool_decide (b ∈ authorised_states)) || bool_decide (a ∈ authorised_states))) l.

(** An update that moves rows in one of the states [l] to state [b]. *)
Lemma update_status_steady l b id f :
  steps_to b l = true ->
  (forall r, same_action r (f r) /\ rem_status (f r) = b /\ rem_approved_by (f r) = rem_approved_by r) ->
  guar steady (update_remediation id (has_status l) f).
Proof.
  intros Hl Hf. apply update_remediation_steady. intros r Hr. destruct (Hf r) as (Hs & Hb & Ha). apply has_status_elem in Hr.
  apply (forallb_elem _ _ _ Hl), andb_true_iff in Hr as [H1 H2]. split_and!; [done|rewrite Hb|].
  - apply orb_true_iff in H1 as [?|?]; [by left|right]. by reflect_tests.
  - intros Hx. split; [|done]. unfold authorised in *. rewrite has_status_elem in *. rewrite Hb in Hx.
    apply orb_true_iff in H2 as [?|?]; by reflect_tests.
Qed.

Ltac status_update b := apply (update_status_steady _ b); [by vm_compute|by repeat split].

Lemma CancelRemediation_steady id expected :
  Rem.CanTransition expected Rem.StateCancelled = true -> guar steady (CancelRemediation id expected).
Proof.
  intros Hc. unfold CancelRemediation. guar_walk. apply update_remediation_steady. intros r Hr.
  split_and!; [by split|reflect_tests; rewrite Hr; by left|]. intros Hx. vm_compute in Hx. discriminate.
Qed.

Lemma MarkRemediationQueued_steady id dry : guar steady (MarkRemediationQueued id dry).
Proof. unfold MarkRemediationQueued. guar_walk. status_update Rem.StateQueued. Qed.

Lemma ReleaseReservation_steady id : guar steady (ReleaseRemediationQueueReservation id).
Proof. unfold ReleaseRemediationQueueReservation. guar_walk. status_update Rem.StateApproved. Qed.

Lemma ClaimRemediation_steady id : guar steady (ClaimRemediation id).
Proof. unfold ClaimRemediation. guar_walk. status_update Rem.StateRunning. Qed.

Lemma MarkRemediationRunning_steady id result : guar steady (MarkRemediationRunning id result).
Proof. unfold MarkRemediationRunning. guar_walk. status_update Rem.StateRunning. Qed.

Definition outcomes : list string := [Rem.StateSucceeded; Rem.StateFailed; Rem.StateTimedOut].

Lemma CompleteRemediation_steady id status result err :
  bool_decide (status ∈ outcomes) = true -> guar steady (CompleteRemediation id status result err).
Proof.
  intros Hs. unfold CompleteRemediation. guar_walk. apply (update_status_steady _ status); [|by repeat split].
  assert (forallb (fun b => steps_to b [Rem.StateQueued; Rem.StateRunning]) outcomes = true) as H by (vm_compute; reflexivity).
  apply (forallb_elem _ _ _ H). by reflect_tests.
Qed.

Lemma UpsertWorkerHeartbeat_steady worker at_ supported : guar steady (UpsertWorkerHeartbeat worker at_ supported).
Proof.
  unfold UpsertWorkerHeartbeat. guar_walk. apply guar_exec; [typeclasses eauto|]. intros d.
  apply steady_other; [|done..]. split; other_tables.
Qed.

Lemma TransitionIncident_steady id status : guar steady (TransitionIncident id status).
Proof.
  unfold TransitionIncident. guar_walk. apply guar_stmt; [typeclasses eauto|]. intros d x d'.
  destruct (db_incidents d !! id) as [i|] eqn:Ei; [|by intros [= _ <-]].
  case_bool_decide as Hin; intros [= _ <-]; [|reflexivity]. apply Inc.elem_of_AllowedFrom in Hin.
  apply steady_other; [|done..]. apply (progress_incidents d);
    [|intros HC; eapply context_incident; [done|done|exact (proj2 (co_incidents _ HC _ _ Ei))|by left|done]].
  eapply rows_kept_update; [apply _|done|]. split; try done. by apply rtc_once.
Qed.

#[export] Hint Extern 0 (bool_decide (_ ∈ outcomes) = true) => vm_compute; reflexivity : guar.
#[export] Hint Resolve MarkRemediationQueued_steady ReleaseReservation_steady ClaimRemediation_steady
  MarkRemediationRunning_steady CompleteRemediation_steady UpsertWorkerHeartbeat_steady TransitionIncident_steady : guar.

Lemma CreateRemediation_progress a : guar progress (CreateRemediation a).
Proof.
  unfold CreateRemediation. handler_walk. apply guar_stmt; [typeclasses eauto|]. intros d u d'. simpl.
  destruct (bool_decide (is_Some (db_remediations d !! a0))) eqn:E; [done|]. simpl.
  destruct (_ || _); [done|]. intros [= _ <-]. reflect_tests. apply (progress_remediations d), rows_kept_new; [apply _|].
  apply insert_subseteq. by apply eq_None_not_Some.
Qed.
#[export] Hint Resolve CreateRemediation_progress : guar.

Section reads.
Context (R : DB -> DB -> Prop) `{!Reflexive R, !Transitive R}.

Lemma GetRemediation_guar id : guar R (GetRemediation id).
Proof. unfold GetRemediation. guar_walk. Qed.
Lemma GetIncident_guar id : guar R (GetIncident id).
Proof. unfold GetIncident. guar_walk. Qed.
Lemma CountRecent_guar i a t p : guar R (CountRecentSimilarRemediations i a t p).
Proof. unfold CountRecentSimilarRemediations. guar_walk. Qed.
Lemma CountFailed_guar i a t p : guar R (CountFailedRemediations i a t p).
Proof. unfold CountFailedRemediations. guar_walk. Qed.
Lemma FindActive_guar i a t p : guar R (FindActiveRemediationByAction i a t p).
Proof. unfold FindActiveRemediationByAction. guar_walk. Qed.
End reads.
#[export] Hint Resolve GetRemediation_guar GetIncident_guar CountRecent_guar CountFailed_guar FindActive_guar : guar.

(** Appending to the ledger. *)
Lemma appended_steady d d' : appended d d' -> steady d d'.
Proof.
  intros [HA HL HI HR HQ HD HC HT HH HO]. apply steady_other; [|done..|unfold keyed_jobs; by rewrite HD].
  split; rewrite ?HR, ?HI, ?HQ, ?HD, ?HC, ?HO; first [apply rows_kept_refl, _|done|idtac].
  intros [CI CA CS CN CQ]. split; rewrite ?HI, ?HO; done.
Qed.

Lemma WriteTx_steady entry : okay steady (WriteTx entry).
Proof. intros e w u w' H. by eapply appended_steady, WriteTx_appended. Qed.
Lemma Record_steady entry : guar steady (Record_ entry).
Proof. eapply guar_mono; [apply appended_steady|apply Record_appended]. Qed.
Lemma Write_steady entry : guar steady (Write entry).
Proof. eapply guar_mono; [apply appended_steady|apply Write_appended]. Qed.
#[export] Hint Resolve WriteTx_steady Record_steady Write_steady : guar.

Lemma steady_keyed d d' : steady d d' -> keyed d -> keyed d'.
Proof.
  intros [HP HR HQ HJ] [KR KQ KJ]. split; [..|by apply HJ].
  - intros k r' Hr'. destruct (HR _ _ Hr') as (r & Hr & _). destruct (pg_remediations _ _ HP _ _ Hr) as (r1 & Hr1 & Hs & _).
    assert (r1 = r') as -> by congruence. rewrite (sa_id _ _ Hs). by apply KR.
  - intros k q' Hq'. destruct (HQ _ _ Hq') as (q & Hq & _). destruct (pg_requests _ _ HP _ _ Hq) as (q1 & Hq1 & Hs & _).
    assert (q1 = q') as -> by congruence. rewrite (sr_id _ _ Hs). by apply KQ.
Qed.

Lemma logged_steady entry d d' : logged entry d d' -> steady d d'.
Proof. intros H. by eapply appended_steady, logged_appended. Qed.

(** ** Authority

    What makes a remediation's right to run legitimate, as a property of the
    tables: it collects diagnostics, or an approval request for exactly this
    action was granted by somebody who may grant it. *)
Section authority.
Context (allow_self : bool).

(** The approver is a named person, and not the proposer unless configured so. *)
Record by_other (q : Request) : Prop := {
  bo_named : TrimSpace (req_decided_by q) <> "";
  bo_person : req_decided_by q <> "system";
  bo_separate : allow_self = false -> EqualFold (TrimSpace (req_requested_by q)) (TrimSpace (req_decided_by q)) = false;
}.

Record same_subject (q : Request) (r : RemediationAction) : Prop := {
  ss_proposer : req_requested_by q = rem_proposed_by r;
  ss_action : req_action_type q = rem_action_type r;
  ss_target : req_target q = rem_target r;
  ss_parameters : req_parameters q = rem_parameters r;
}.

Definition granted (d : DB) (id : string) (r : RemediationAction) : Prop :=
  rem_action_type r = CollectDiagnostics \/
  exists k q, db_approvals d !! k = Some q /\ req_remediation_id q = id /\ req_status q = "approved" /\
    rem_approved_by r = req_decided_by q.

Record authority (d : DB) : Prop := {
  au_keyed : keyed d;
  au_stored : forall id r, db_remediations d !! id = Some r -> reread_map (rem_parameters r) = rem_parameters r;
  au_requests : forall k q, db_approvals d !! k = Some q ->
    exists r, db_remediations d !! req_remediation_id q = Some r /\ same_subject q r;
  au_approvers : forall k q, db_approvals d !! k = Some q -> req_status q = "approved" -> by_other q;
  au_granted : forall id r, db_remediations d !! id = Some r -> authorised r = true -> granted d id r;
}.

(** Every run keeps the invariant and makes progress. *)
Definition lawful (d d' : DB) : Prop := authority d -> progress d d' /\ authority d'.

#[export] Instance lawful_refl : Reflexive lawful.
Proof. intros d H. split; [reflexivity|exact H]. Qed.
#[export] Instance lawful_trans : Transitive lawful.
Proof. intros d1 d2 d3 H1 H2 H. destruct (H1 H) as [P1 A1]. destruct (H2 A1) as [P2 A2]. split; [by etrans|done]. Qed.

Lemma same_subject_moves q q' r r' : same_request q q' -> same_action r r' -> same_subject q r -> same_subject q' r'.
Proof. intros [] [] []. split; congruence. Qed.

(** Requests keep their remediation under any progress that adds none. *)
Lemma progress_requests_kept d d' :
  progress d d' -> rows_kept (fun _ _ => True) (db_approvals d') (db_approvals d) ->
  (forall k q, db_approvals d !! k = Some q -> exists r, db_remediations d !! req_remediation_id q = Some r /\ same_subject q r) ->
  forall k q, db_approvals d' !! k = Some q -> exists r, db_remediations d' !! req_remediation_id q = Some r /\ same_subject q r.
Proof.
  intros HP HQ H k q' Hq'. destruct (HQ _ _ Hq') as (q & Hq & _). destruct (H _ _ Hq) as (r & Hr & Hs).
  destruct (pg_requests _ _ HP _ _ Hq) as (q1 & Hq1 & Hm & _). assert (q1 = q') as -> by congruence.
  destruct (pg_remediations _ _ HP _ _ Hr) as (r' & Hr' & Ha & _). exists r'. rewrite (sr_remediation _ _ Hm).
  split; [done|by eapply same_subject_moves].
Qed.

Lemma granted_kept d d' id r r' :
  progress d d' -> same_action r r' -> rem_approved_by r' = rem_approved_by r -> granted d id r -> granted d' id r'.
Proof.
  intros HP Hs Ha [H|(k & q & Hq & Hi & Hst & Hby)]; [left; by rewrite (sa_action _ _ Hs)|right].
  destruct (pg_requests _ _ HP _ _ Hq) as (q' & Hq' & Hm & Hd). exists k, q'. rewrite Hst in Hd.
  specialize (Hd ltac:(discriminate)). injection Hd as Hd _ Hb _ _. rewrite (sr_remediation _ _ Hm), Ha, Hb. by rewrite Hd.
Qed.

Lemma by_other_kept q q' : request_moves q q' -> req_status q = "approved" -> by_other q -> by_other q'.
Proof.
  intros [Hs Hd] Hst [H1 H2 H3]. rewrite Hst in Hd. specialize (Hd ltac:(discriminate)). injection Hd as _ _ Hb _ _.
  split; rewrite ?Hb, ?(sr_proposer _ _ Hs); done.
Qed.

Lemma steady_lawful d d' : steady d d' -> lawful d d'.
Proof.
  intros HS [HK HM HR HA HG]. pose proof (st_progress _ _ HS) as HP. split; [done|]. split.
  - by eapply steady_keyed.
  - intros id r' Hr'. destruct (st_remediations _ _ HS _ _ Hr') as (r & Hr & _).
    destruct (pg_remediations _ _ HP _ _ Hr) as (r1 & Hr1 & Hs & _). assert (r1 = r') as -> by congruence.
    rewrite (sa_parameters _ _ Hs). by eapply HM.
  - eapply progress_requests_kept; [done| |done]. intros k q Hq. destruct (st_requests _ _ HS _ _ Hq) as (q0 & ? & _). by exists q0.
  - intros k q' Hq' Hst. destruct (st_requests _ _ HS _ _ Hq') as (q & Hq & Hn).
    destruct (pg_requests _ _ HP _ _ Hq) as (q1 & Hq1 & Hm). assert (q1 = q') as -> by congruence.
    eapply by_other_kept; [done|by apply Hn|]. by eapply HA, Hn.
  - intros id r' Hr' Ha. destruct (st_remediations _ _ HS _ _ Hr') as (r & Hr & Hn). destruct (Hn Ha) as [Hau Hby].
    destruct (pg_remediations _ _ HP _ _ Hr) as (r1 & Hr1 & Hs & _). assert (r1 = r') as -> by congruence.
    eapply granted_kept; [done|done|done|]. by apply HG.
Qed.

Lemma guar_steady_lawful {A} (m : M A) : guar steady m -> guar lawful m.
Proof. apply guar_mono, steady_lawful. Qed.
Lemma okay_steady_lawful {A} (m : M A) : okay steady m -> okay lawful m.
Proof. intros Hm e w a w' H. by eapply steady_lawful, Hm. Qed.
End authority.
#[export] Hint Resolve guar_steady_lawful okay_steady_lawful : guar.

(** ** Guarantees that hold from some tables only *)

Definition given (P : DB -> Prop) (R : DB -> DB -> Prop) (d d' : DB) : Prop := P d -> R d d'.

#[export] Instance given_refl P R : Reflexive R -> Reflexive (given P R).
Proof. intros HR d _. reflexivity. Qed.

Section given.
Context (P : DB -> Prop) (R : DB -> DB -> Prop) `{!Reflexive R, !Transitive R}.

(** The condition is used by the first part. *)
Lemma given_bind {A B} (m : M A) (k : A -> M B) :
  guar (given P R) m -> (forall a, guar R (k a)) -> guar (given P R) (bind m k).
Proof.
  intros Hm Hk e w Hw. unfold bind. specialize (Hm e w Hw). destruct (m e w) as [[a|err] w']; simpl in *; [|done].
  etrans; [exact Hm|apply Hk].
Qed.

(** The first part leaves the tables alone. *)
Lemma given_after {A B} (m : M A) (k : A -> M B) :
  guar eq m -> (forall a, guar (given P R) (k a)) -> guar (given P R) (bind m k).
Proof.
  intros Hm Hk e w Hw. unfold bind. specialize (Hm e w). destruct (m e w) as [[a|err] w']; simpl in *; rewrite Hm; [|reflexivity].
  apply Hk. by rewrite <- Hm.
Qed.
End given.
