(* ===== verification/Observations.v ===== *)
(** * The incident store: what was observed ([internal/incidents/store.go])

    The service catalog and its dependencies, incidents raised by alerts, the
    alerts attached to them, signals, timeline and analysis reports: one definition
    per query or statement, with the keys, references and checks of the schema. *)
From Stdlib Require Import Ascii String ZArith Lia Sorted SpecFloat.
From stdpp Require Import base gmap strings list relations.
From S2P Require Import Prelude GoStrings GoFloat GoValue Topology Marshal Ledger Lifecycle Types Database AuditLog Store Progress.
Open Scope Z_scope.

(** ** One table at a time *)

Definition set_services (f : gmap string Service -> gmap string Service) : DB -> DB := set_observed (fun o =>
  mkObserved (f (ob_services o)) (ob_dependencies o) (ob_alerts o) (ob_signals o) (ob_timeline o) (ob_reports o)).
Definition set_dependencies (f : gmap (string * string) DependencyRow -> gmap (string * string) DependencyRow) : DB -> DB :=
  set_observed (fun o => mkObserved (ob_services o) (f (ob_dependencies o)) (ob_alerts o) (ob_signals o) (ob_timeline o) (ob_reports o)).
Definition set_alerts (f : gmap (string * string) IncidentAlert -> gmap (string * string) IncidentAlert) : DB -> DB :=
  set_observed (fun o => mkObserved (ob_services o) (ob_dependencies o) (f (ob_alerts o)) (ob_signals o) (ob_timeline o) (ob_reports o)).
Definition add_signal (x : Signal) : DB -> DB := set_observed (fun o =>
  mkObserved (ob_services o) (ob_dependencies o) (ob_alerts o) (ob_signals o ++ [x]) (ob_timeline o) (ob_reports o)).
Definition add_timeline (x : TimelineEvent) : DB -> DB := set_observed (fun o =>
  mkObserved (ob_services o) (ob_dependencies o) (ob_alerts o) (ob_signals o) (ob_timeline o ++ [x]) (ob_reports o)).
Definition set_reports (f : gmap string RCAReport -> gmap string RCAReport) : DB -> DB := set_observed (fun o =>
  mkObserved (ob_services o) (ob_dependencies o) (ob_alerts o) (ob_signals o) (ob_timeline o) (f (ob_reports o))).

Definition services_of (d : DB) : gmap string Service := ob_services (db_observed d).
Definition alerts_of (d : DB) : gmap (string * string) IncidentAlert := ob_alerts (db_observed d).

Definition violated (table : string) : error := mkError KDatabase (table +:+ " constraint violated").

(** ** The service catalog *)

Definition service_named (name : string) (d : DB) : option Service :=
  head (filter (fun svc => svc_name svc = name) (map_to_list (services_of d)).*2).

(** The id and the name of a service are unique. *)
Definition insert_service (svc : Service) : M unit :=
  stmt (fun d =>
    if bool_decide (is_Some (services_of d !! svc_id svc)) || bool_decide (is_Some (service_named (svc_name svc) d))
    then Fail (violated "services") else Ok (tt, set_services (<[svc_id svc := svc]>) d)).

Definition EnsureService (name : string) : M Service :=
  found <- attempt (query_row (service_named name)) ;;
  match found with
  | Ok svc => ret svc
  | Fail err =>
      if negb (bool_decide (err_kind err = KNoRows)) then throw (wrapf "query service" err)
      else
        id <- NewID "svc" ;;
        time <- now ;;
        let svc := mkService id name "" "tier1" "local" None None None time in
        wrap "insert service" (insert_service svc) ;;;
        ret svc
  end.

Definition ListServices : M (list Service) :=
  wrap "list services" (query (fun d => sort_stable (fun a b => svc_name a <?s svc_name b) (map_to_list (services_of d)).*2)).

(** ** Dependencies *)

(** INSERT ... ON CONFLICT (service_id, depends_on_service_id) DO UPDATE, returning
    the id and creation time the row has. *)
Definition upsert_dependency (serviceID dependsOnID : string) (row : DependencyRow) : M (string * Z) :=
  stmt (fun d =>
    let table := ob_dependencies (db_observed d) in
    if negb (bool_decide (dr_type row ∈ ["synchronous"; "asynchronous"; "datastore"; "edge"])) ||
       negb (bool_decide (dr_criticality row ∈ ["critical"; "degraded"; "optional"])) ||
       (serviceID =?s dependsOnID) ||
       negb (bool_decide (is_Some (services_of d !! serviceID))) || negb (bool_decide (is_Some (services_of d !! dependsOnID)))
    then Fail (violated "service_dependencies")
    else match table !! (serviceID, dependsOnID) with
         | Some old =>
             Ok ((dr_id old, dr_created_at old),
                 set_dependencies (<[(serviceID, dependsOnID) := mkDependencyRow (dr_id old) (dr_type row) (dr_criticality row) (dr_created_at old)]>) d)
         | None =>
             if existsb (fun kv => dr_id kv.2 =?s dr_id row) (map_to_list table) then Fail (violated "service_dependencies")
             else Ok ((dr_id row, dr_created_at row), set_dependencies (<[(serviceID, dependsOnID) := row]>) d)
         end).

Definition UpsertServiceDependency (req : ServiceDependencyRequest) : M Dependency :=
  service <- EnsureService (sdr_service req) ;;
  dependsOn <- EnsureService (sdr_depends_on req) ;;
  if svc_id service =?s svc_id dependsOn then throw (errorf "service cannot depend on itself")
  else
    let dependencyType := if sdr_dependency_type req =?s "" then "synchronous" else sdr_dependency_type req in
    let criticality := if sdr_criticality req =?s "" then "critical" else sdr_criticality req in
    id <- NewID "dep" ;;
    time <- now ;;
    stored <- wrap "upsert service dependency"
      (upsert_dependency (svc_id service) (svc_id dependsOn) (mkDependencyRow id dependencyType criticality time)) ;;
    ret (mkDependency stored.1 (svc_id service) (svc_name service) (svc_id dependsOn) (svc_name dependsOn)
           dependencyType criticality stored.2).

(** The rows joined with the names of both services, by name. *)
Definition dependency_rows (d : DB) : list Dependency :=
  sort_stable (fun a b => (dep_service a <?s dep_service b) || (dep_service a =?s dep_service b) && (dep_depends_on a <?s dep_depends_on b))
    (omap (fun kv : (string * string) * DependencyRow =>
       service ← services_of d !! kv.1.1;
       dependency ← services_of d !! kv.1.2;
       Some (mkDependency (dr_id kv.2) kv.1.1 (svc_name service) kv.1.2 (svc_name dependency) (dr_type kv.2) (dr_criticality kv.2)
               (dr_created_at kv.2)))
      (map_to_list (ob_dependencies (db_observed d)))).

Definition ListServiceDependencies : M (list Dependency) := wrap "list service dependencies" (query dependency_rows).

(** ** Incidents *)

Definition defaultSeverity (value : string) : string :=
  if bool_decide (value ∈ ["sev1"; "sev2"; "sev3"; "sev4"]) then value else "sev3".

(** INSERT INTO incidents: a new id, a known service and a known severity. *)
Definition insert_incident (i : Incident) : M unit :=
  stmt (fun d =>
    if bool_decide (is_Some (db_incidents d !! inc_id i)) || negb (bool_decide (is_Some (services_of d !! inc_service_id i))) ||
       negb (bool_decide (inc_severity i ∈ ["sev1"; "sev2"; "sev3"; "sev4"]))
    then Fail (violated "incidents") else Ok (tt, set_incidents (<[inc_id i := i]>) d)).

Definition CreateManualIncident (req : ManualIncidentRequest) : M Incident :=
  service <- EnsureService (mir_service req) ;;
  time <- now ;;
  id <- NewID "inc" ;;
  fingerprint <- NewID "fp" ;;
  let incident := mkIncident id (mir_title req) (svc_id service) (svc_name service) (defaultSeverity (mir_severity req))
    Inc.StatusDetected (svc_name service +:+ ":manual:" +:+ mir_title req +:+ ":manual") fingerprint time time None
    (mir_summary req) time time "local" time None in
  wrap "insert incident" (insert_incident incident) ;;;
  ret incident.

Definition CreateAlertIncident (title serviceName environment severity dedupeKey fingerprint summary : string) (startedAt : Z)
    : M Incident :=
  service <- EnsureService serviceName ;;
  time <- now ;;
  id <- NewID "inc" ;;
  let incident := mkIncident id title (svc_id service) (svc_name service) (defaultSeverity severity) Inc.StatusDetected dedupeKey
    fingerprint startedAt time None summary time time environment time None in
  wrap "insert alert incident" (insert_incident incident) ;;;
  ret incident.

(** UPDATE of one incident by its id; an absent row is no error. *)
Definition update_incident (id : string) (f : Incident -> Incident) : M bool :=
  update_if db_incidents set_incidents id (fun _ => true) f.

Definition PromoteIncidentRoot (incidentID rootService title severity dedupeKey fingerprint summary : string) (startedAt : Z)
    : M Incident :=
  service <- EnsureService rootService ;;
  time <- db_now ;;
  wrap "promote incident root" (stmt (fun d =>
    match db_incidents d !! incidentID with
    | None => Ok (tt, d)
    | Some i =>
        if negb (bool_decide (is_Some (services_of d !! svc_id service))) then Fail (violated "incidents")
        else Ok (tt, set_incidents (<[incidentID :=
          mkIncident (inc_id i) title (svc_id service) (inc_service i) (defaultSeverity severity) (inc_status i) dedupeKey fingerprint
            (Z.min (inc_started_at i) startedAt) (inc_detected_at i) (inc_resolved_at i) summary (inc_created_at i) time
            (inc_environment i) (inc_last_seen_at i) (inc_alerts_cleared_at i)]>) d)
    end)) ;;;
  GetIncident incidentID.

(** ** Queries over incidents *)

Definition queryIncidents (p : DB -> Incident -> bool) (less : Incident -> Incident -> bool) : M (list Incident) :=
  query (fun d => sort_stable less (scanIncident d <$> filter (fun i => p d i = true) (map_to_list (db_incidents d)).*2)).

Definition alert_rows (d : DB) (incidentID : string) : list IncidentAlert :=
  omap (fun kv : (string * string) * IncidentAlert => if kv.1.1 =?s incidentID then Some kv.2 else None) (map_to_list (alerts_of d)).

(** A firing alert that was seen recently enough. *)
Definition fresh_firing (time staleAfter : Z) (a : IncidentAlert) : bool :=
  (ia_status a =?s "firing") && (time - staleAfter <=? ia_last_seen_at a).

Definition activeForGrouping (time : Z) (grouping : Grouping) (d : DB) (i : Incident) : bool :=
  negb (Inc.IsClosed (inc_status i)) &&
  (existsb (fresh_firing time (gr_alert_stale_after grouping)) (alert_rows d (inc_id i)) ||
   (time - gr_window grouping <=? inc_last_seen_at i)).

(** [ORDER BY last_seen_at DESC, id] and [ORDER BY started_at, id]. *)
Definition latest_first (a b : Incident) : bool :=
  (inc_last_seen_at b <? inc_last_seen_at a) || (inc_last_seen_at a =? inc_last_seen_at b) && (inc_id a <?s inc_id b).
Definition oldest_first (a b : Incident) : bool :=
  (inc_started_at a <? inc_started_at b) || (inc_started_at a =? inc_started_at b) && (inc_id a <?s inc_id b).

Definition carries (d : DB) (dedupeKey : string) (i : Incident) : bool :=
  (inc_dedupe_key i =?s dedupeKey) || existsb (fun a => ia_dedupe_key a =?s dedupeKey) (alert_rows d (inc_id i)).

Definition FindOpenByDedupeKey (dedupeKey : string) (grouping : Grouping) : M (option Incident) :=
  time <- db_now ;;
  items <- wrap "find incident by dedupe key"
    (queryIncidents (fun d i => activeForGrouping time grouping d i && carries d dedupeKey i) latest_first) ;;
  ret (head items).

Definition ListOpenIncidents (grouping : Grouping) : M (list Incident) :=
  time <- db_now ;;
  wrap "list open incidents" (queryIncidents (activeForGrouping time grouping) oldest_first).

Definition FindIncidentForResolvedAlert (dedupeKey : string) : M (option Incident) :=
  items <- wrap "find incident for resolved alert"
    (queryIncidents (fun d i => negb (Inc.IsClosed (inc_status i)) &&
       existsb (fun a => (ia_dedupe_key a =?s dedupeKey) && (ia_status a =?s "firing")) (alert_rows d (inc_id i))) latest_first) ;;
  ret (head items).

Definition ListIncidents : M (list Incident) :=
  wrap "list incidents" (queryIncidents (fun _ _ => true) (fun a b => inc_started_at b <? inc_started_at a)).

(** ** Alerts attached to incidents *)

Definition touch (i : Incident) (time : Z) (cleared : option Z) : Incident :=
  mkIncident (inc_id i) (inc_title i) (inc_service_id i) (inc_service i) (inc_severity i) (inc_status i) (inc_dedupe_key i)
    (inc_fingerprint i) (inc_started_at i) (inc_detected_at i) (inc_resolved_at i) (inc_summary i) (inc_created_at i)
    (inc_updated_at i) (inc_environment i) time cleared.

(** INSERT ... ON CONFLICT (incident_id, dedupe_key) DO UPDATE. *)
Definition firing_row (old : option IncidentAlert) (alert : AlertObservation) (time : Z) : IncidentAlert :=
  match old with
  | Some a => mkIncidentAlert (ia_dedupe_key a) (ia_alert_name a) (ia_service a) "firing" (ia_first_seen_at a) time None
  | None => mkIncidentAlert (obs_dedupe_key alert) (obs_alert_name alert) (obs_service alert) "firing" (obs_at alert) time None
  end.

Definition upsert_alert (incidentID : string) (alert : AlertObservation) (time : Z) : M unit :=
  stmt (fun d =>
    if negb (bool_decide (is_Some (db_incidents d !! incidentID))) then Fail (violated "incident_alerts")
    else
      let key := (incidentID, obs_dedupe_key alert) in
      Ok (tt, set_alerts (<[key := firing_row (alerts_of d !! key) alert time]>) d)).

(** Whether the incident's alerts had all cleared before. *)
Definition MarkAlertFiring (incidentID : string) (alert : AlertObservation) : M bool :=
  time <- db_now ;;
  wrap "record firing alert" (upsert_alert incidentID alert time) ;;;
  wrap "touch incident" (stmt (fun d =>
    match db_incidents d !! incidentID with
    | Some i => Ok (bool_decide (is_Some (inc_alerts_cleared_at i)), set_incidents (<[incidentID := touch i time None]>) d)
    | None => Fail no_rows
    end)).

(** How many fresh alerts are still firing on the incident. *)
Definition MarkAlertResolved (incidentID dedupeKey : string) (resolvedAt staleAfter : Z) : M Z :=
  time <- db_now ;;
  wrap "record resolved alert" (exec (fun d =>
    match alerts_of d !! (incidentID, dedupeKey) with
    | Some a =>
        set_alerts (<[(incidentID, dedupeKey) :=
          mkIncidentAlert (ia_dedupe_key a) (ia_alert_name a) (ia_service a) "resolved" (ia_first_seen_at a) time (Some resolvedAt)]>) d
    | None => d
    end)) ;;;
  wrap "touch incident" (update_incident incidentID (fun i => touch i time (inc_alerts_cleared_at i))) ;;;
  wrap "count firing alerts" (query (fun d =>
    Z.of_nat (length (filter (fun a => fresh_firing time staleAfter a = true) (alert_rows d incidentID))))).

Definition MarkAlertsCleared (incidentID : string) : M unit :=
  time <- db_now ;;
  wrap "mark alerts cleared" (update_if db_incidents set_incidents incidentID
    (fun i => bool_decide (inc_alerts_cleared_at i = None)) (fun i => touch i (inc_last_seen_at i) (Some time))) ;;;
  ret tt.

Definition ListIncidentAlerts (incidentID : string) : M (list IncidentAlert) :=
  wrap "list incident alerts" (query (fun d =>
    sort_stable (fun a b => (ia_first_seen_at a <? ia_first_seen_at b) ||
                            (ia_first_seen_at a =? ia_first_seen_at b) && (ia_dedupe_key a <?s ia_dedupe_key b))
      (alert_rows d incidentID))).

(** ** Signals and timeline *)

Definition signal_sources : list string := ["prometheus"; "alertmanager"; "loki"; "otel"; "manual"; "deploy"; "config"].

Definition AddSignal (x : Signal) : M unit :=
  id <- (if sig_id x =?s "" then NewID "sig" else ret (sig_id x)) ;;
  time <- now ;;
  let row := mkSignal id (sig_incident_id x) (sig_service_id x) (sig_source x) (sig_type x) (sig_severity x) (sig_name x)
    (reread_map (sig_body x)) (sig_observed_at x) (if IsZero (sig_created_at x) then time else sig_created_at x) in
  wrap "insert signal" (stmt (fun d =>
    if bool_decide (id ∈ sig_id <$> ob_signals (db_observed d)) || negb (bool_decide (is_Some (db_incidents d !! sig_incident_id x))) ||
       negb (bool_decide (is_Some (services_of d !! sig_service_id x))) || negb (bool_decide (sig_source x ∈ signal_sources))
    then Fail (violated "signals") else Ok (tt, add_signal row d))).

Definition AddTimelineEvent (x : TimelineEvent) : M unit :=
  id <- (if tme_id x =?s "" then NewID "tme" else ret (tme_id x)) ;;
  time <- now ;;
  let row := mkTimelineEvent id (tme_incident_id x) (tme_event_type x) (tme_source x) (tme_summary x) (reread_map (tme_evidence x))
    (tme_confidence x) (tme_occurred_at x) (if IsZero (tme_created_at x) then time else tme_created_at x) in
  wrap "insert timeline event" (stmt (fun d =>
    if bool_decide (id ∈ tme_id <$> ob_timeline (db_observed d)) || negb (bool_decide (is_Some (db_incidents d !! tme_incident_id x)))
    then Fail (violated "incident_timeline_events") else Ok (tt, add_timeline row d))).

Definition signals_for (d : DB) (incidentID : string) : list Signal :=
  filter (fun x => sig_incident_id x = incidentID) (ob_signals (db_observed d)).

Definition ListSignals (incidentID : string) : M (list Signal) :=
  wrap "list signals" (query (fun d => sort_stable (fun a b => sig_observed_at a <? sig_observed_at b) (signals_for d incidentID))).

Definition ListTimeline (incidentID : string) : M (list TimelineEvent) :=
  wrap "list timeline" (query (fun d => sort_stable (fun a b => tme_occurred_at a <? tme_occurred_at b)
    (filter (fun x => tme_incident_id x = incidentID) (ob_timeline (db_observed d))))).

(** ** The topology of an incident *)

Record topology_scan := mkScan { ts_alerts : Z; ts_suppressed : Z; ts_root_observed : bool; ts_affected : gset string }.

(** One row of the loop over the alert signals: the name of the signal's service. *)
Definition scan_signal (root : string) (s : topology_scan) (service : string) : topology_scan :=
  let affected := if negb (service =?s "") then {[service]} ∪ ts_affected s else ts_affected s in
  if service =?s root then mkScan (ts_alerts s + 1) (ts_suppressed s) true affected
  else mkScan (ts_alerts s + 1) (ts_suppressed s + 1) (ts_root_observed s) affected.

Definition alert_services (d : DB) (incidentID : string) : list string :=
  (fun x => default "" (svc_name <$> services_of d !! sig_service_id x)) <$>
    sort_stable (fun a b => (sig_observed_at a <? sig_observed_at b) || (sig_observed_at a =? sig_observed_at b) && (sig_id a <?s sig_id b))
      (filter (fun x => sig_type x = "alert") (signals_for d incidentID)).

Definition GetIncidentTopology (incidentID : string) : M IncidentTopology :=
  incident <- GetIncident incidentID ;;
  observed <- wrap "read topology signals" (query (fun d => alert_services d incidentID)) ;;
  let s := foldl (scan_signal (inc_service incident)) (mkScan 0 0 false {[inc_service incident]}) observed in
  let affected := sortedKeys (ts_affected s ∖ {[""]}) in
  dependencies <- ListServiceDependencies ;;
  let graph := New dependencies in
  ret (mkIncidentTopology incidentID (inc_service incident) ((0 <? ts_alerts s) && negb (ts_root_observed s)) affected
         (ts_alerts s) (ts_suppressed s)
         (omap (fun service => if service =?s inc_service incident then None else graph_path graph service (inc_service incident)) affected)).

(** ** Analysis reports *)

(** What a [NUMERIC(4,3)] column keeps of a float: three decimals, halves away from
    zero, of its shortest decimal; values of ten and more do not fit. *)
Definition numeric_4_3 (x : float64) : option float64 :=
  match x with
  | S754_nan => Some x
  | S754_infinity _ => None
  | S754_zero _ => Some fzero
  | S754_finite s m e =>
      let n := if 0 <=? e then Z.pos m * 2 ^ e else Z.pos m in
      let d := if 0 <=? e then 1 else 2 ^ (- e) in
      let '(digits, exp) := shortest 17 1 n d (magnitude n d) (S754_finite false m e) in
      let thousandths :=
        if -3 <=? exp then digits * 10 ^ (exp + 3) else (2 * digits + 10 ^ (- exp - 3)) / (2 * 10 ^ (- exp - 3)) in
      if 10000 <=? thousandths then None
      else if thousandths =? 0 then Some fzero
      else Some (lit (if s then - thousandths else thousandths) 1000)
  end.

Example numeric_4_3_values :
  (fun p => numeric_4_3 (lit p.1 p.2)) <$> [(7, 10); (12345, 10000); (5, 10000); (4, 10000); (95, 100); (99995, 10000); (-1, 2)] =
  [Some (lit 7 10); Some (lit 1235 1000); Some (lit 1 1000); Some fzero; Some (lit 95 100); None; Some (lit (-1) 2)].
Proof. vm_compute. reflexivity. Qed.

(** The parameters of a candidate come back from their JSON column. *)
Definition reread_candidate (c : RCACandidate) : RCACandidate :=
  mkRCACandidate (cand_action_type c) (cand_target c) (reread_map (cand_parameters c)) (cand_risk c) (cand_requires_approval c).

Definition SaveRCAReport (report : RCAReport) : M unit :=
  id <- (if rep_id report =?s "" then NewID "rca" else ret (rep_id report)) ;;
  time <- now ;;
  wrap "save rca report" (stmt (fun d =>
    match numeric_4_3 (rep_confidence report) with
    | None => Fail (violated "rca_reports")
    | Some confidence =>
        if bool_decide (is_Some (ob_reports (db_observed d) !! id)) || negb (bool_decide (is_Some (db_incidents d !! rep_incident_id report)))
        then Fail (violated "rca_reports")
        else Ok (tt, set_reports (<[id :=
          mkRCAReport id (rep_incident_id report) (rep_deterministic_summary report) (rep_llm_summary report) (rep_primary_hypothesis report)
            (rep_contributing_factors report) (rep_evidence report) confidence (rep_model_backend report) (rep_model_name report)
            (rep_topology report) (rep_evidence_items report) (rep_score report) (reread_candidate <$> rep_candidates report)
            (if rep_llm_status report =?s "" then LLMStatusDisabled else rep_llm_status report)
            (if IsZero (rep_created_at report) then time else rep_created_at report)]>) d)
    end)).

(** [COALESCE(NULLIF(new, ''), old)]. *)
Definition or_old (new old : string) : string := if new =?s "" then old else new.

Definition UpdateRCAReportLLM (reportID status summary backend model : string) : M unit :=
  wrap "update rca llm summary" (update_if (fun d => ob_reports (db_observed d)) set_reports reportID (fun _ => true) (fun r =>
    mkRCAReport (rep_id r) (rep_incident_id r) (rep_deterministic_summary r) summary (rep_primary_hypothesis r)
      (rep_contributing_factors r) (rep_evidence r) (rep_confidence r) (or_old backend (rep_model_backend r))
      (or_old model (rep_model_name r)) (rep_topology r) (rep_evidence_items r) (rep_score r) (rep_candidates r) status
      (rep_created_at r))) ;;;
  ret tt.

Definition reports_for (d : DB) (incidentID : string) : list RCAReport :=
  filter (fun r => rep_incident_id r = incidentID) (map_to_list (ob_reports (db_observed d))).*2.

Definition latest_report (d : DB) (incidentID : string) : option RCAReport :=
  head (sort_stable (fun a b => rep_created_at b <? rep_created_at a) (reports_for d incidentID)).

Definition GetLatestRCAReport (incidentID : string) : M RCAReport :=
  wrap "get rca report" (query_row (fun d => latest_report d incidentID)).

(** ** Guarantees *)

(** A change of incidents and observations only. *)
Lemma steady_context d incidents f :
  rows_kept incident_moves (db_incidents d) incidents -> observed_moves (db_observed d) (f (db_observed d)) ->
  (context_ok d -> context_ok (set_incidents (fun _ => incidents) (set_observed f d))) ->
  steady d (set_incidents (fun _ => incidents) (set_observed f d)).
Proof. intros HI HO HQ. apply steady_other; [|done..]. split; first [exact HI|exact HO|exact HQ|other_tables]. Qed.

Lemma steady_observed d f :
  observed_moves (db_observed d) (f (db_observed d)) -> (context_ok d -> context_ok (set_observed f d)) -> steady d (set_observed f d).
Proof. intros HO HQ. apply steady_other; [|done..]. by apply progress_observed. Qed.

Lemma steady_incidents d f :
  rows_kept incident_moves (db_incidents d) (f (db_incidents d)) -> (context_ok d -> context_ok (set_incidents f d)) ->
  steady d (set_incidents f d).
Proof. intros HI HQ. apply steady_other; [|done..]. by apply progress_incidents. Qed.

(** An update of one incident that keeps its identity and status. *)
Definition same_incident (i i' : Incident) : Prop :=
  inc_id i' = inc_id i /\ inc_environment i' = inc_environment i /\ inc_detected_at i' = inc_detected_at i /\
  inc_created_at i' = inc_created_at i /\ inc_status i' = inc_status i.

Lemma same_incident_moves i i' : same_incident i i' -> incident_moves i i'.
Proof. intros (? & ? & ? & ? & Hs). split; try done. by rewrite Hs. Qed.

Lemma steady_incident d id i i' :
  db_incidents d !! id = Some i -> same_incident i i' ->
  (inc_service_id i' = inc_service_id i \/ is_Some (services_of d !! inc_service_id i')) ->
  inc_alerts_cleared_at i' = inc_alerts_cleared_at i \/ inc_alerts_cleared_at i' = None ->
  steady d (set_incidents (<[id := i']>) d).
Proof.
  intros Hi Hs Hsvc Hc. apply steady_incidents; [eapply rows_kept_update; [apply _|done|by apply same_incident_moves]|].
  intros HC. eapply context_incident; [done|apply Hs| |done|done].
  destruct Hsvc as [->|]; [|done]. exact (proj2 (co_incidents _ HC _ _ Hi)).
Qed.

Lemma update_incident_steady id f :
  (forall i, same_incident i (f i) /\ inc_service_id (f i) = inc_service_id i /\ inc_alerts_cleared_at (f i) = inc_alerts_cleared_at i) ->
  guar steady (update_incident id f).
Proof.
  intros Hf. apply guar_update_if; [typeclasses eauto|]. intros d i Hi _. destruct (Hf i) as (? & ? & ?).
  eapply steady_incident; [done|done|by left|by left].
Qed.

Ltac observed_tables := split; simpl; first [apply rows_kept_refl, _|reflexivity|by apply prefix_app_r|idtac].
(** A change of a table the context does not mention. *)
Ltac same_context := by intros [].

Lemma service_named_Some name d svc :
  service_named name d = Some svc -> svc_name svc = name /\ exists id, services_of d !! id = Some svc.
Proof.
  unfold service_named. intros H. apply head_Some_elem_of in H. apply list_elem_of_filter in H as [Hn H]. split; [done|].
  apply list_elem_of_fmap in H as ([id x] & -> & H). exists id. by apply elem_of_map_to_list in H.
Qed.

Lemma service_named_None name d id svc : service_named name d = None -> services_of d !! id = Some svc -> svc_name svc <> name.
Proof.
  unfold service_named. intros H Hs Hn. apply head_None in H. assert (svc ∈ filter (fun x => svc_name x = name) (map_to_list (services_of d)).*2) as Hin.
  { apply list_elem_of_filter. split; [done|]. apply list_elem_of_fmap. exists (id, svc). split; [done|]. by apply elem_of_map_to_list. }
  rewrite H in Hin. by apply elem_of_nil in Hin.
Qed.

Section observation_reads.
Context (R : DB -> DB -> Prop) `{!Reflexive R, !Transitive R}.
Lemma ListServiceDependencies_guar : guar R ListServiceDependencies.
Proof. unfold ListServiceDependencies. guar_walk. Qed.
Lemma FindOpenByDedupeKey_guar key g : guar R (FindOpenByDedupeKey key g).
Proof. unfold FindOpenByDedupeKey, queryIncidents. guar_walk. Qed.
Lemma ListOpenIncidents_guar g : guar R (ListOpenIncidents g).
Proof. unfold ListOpenIncidents, queryIncidents. guar_walk. Qed.
Lemma FindIncidentForResolvedAlert_guar key : guar R (FindIncidentForResolvedAlert key).
Proof. unfold FindIncidentForResolvedAlert, queryIncidents. guar_walk. Qed.
Lemma ListSignals_guar id : guar R (ListSignals id).
Proof. unfold ListSignals. guar_walk. Qed.
Lemma GetIncidentTopology_guar id : guar R (GetIncidentTopology id).
Proof. unfold GetIncidentTopology, GetIncident, ListServiceDependencies. guar_walk. Qed.
Lemma GetLatestRCAReport_guar id : guar R (GetLatestRCAReport id).
Proof. unfold GetLatestRCAReport. guar_walk. Qed.
End observation_reads.
#[export] Hint Resolve ListServiceDependencies_guar FindOpenByDedupeKey_guar ListOpenIncidents_guar FindIncidentForResolvedAlert_guar
  ListSignals_guar GetIncidentTopology_guar GetLatestRCAReport_guar : guar.

Lemma insert_service_steady svc : guar steady (insert_service svc).
Proof.
  apply guar_stmt; [typeclasses eauto|]. intros d u d'. destruct (_ || _) eqn:E; [done|]. intros [= _ <-]. reflect_tests.
  match goal with H : ~ is_Some (services_of d !! _) |- _ => apply eq_None_not_Some in H as Hid end.
  match goal with H : ~ is_Some (service_named _ d) |- _ => apply eq_None_not_Some in H as Hname end.
  apply steady_observed; [observed_tables; by apply insert_subseteq|]. intros [CI CA CS CN CQ]. split; simpl; [|done| | |done].
  - intros k i Hi. destruct (CI _ _ Hi) as [? [x Hx]]. split; [done|]. exists x. apply lookup_insert_Some. right.
    split; [intros Heq; unfold services_of in Hid; congruence|done].
  - intros k x [[<- <-]|[_ Hx]]%lookup_insert_Some; [done|by apply CS].
  - intros k1 k2 x1 x2 [[<- <-]|[_ H1]]%lookup_insert_Some [[<- <-]|[_ H2]]%lookup_insert_Some Hn; [done|..|by eapply CN].
    + by destruct (service_named_None _ _ _ _ Hname H2).
    + by destruct (service_named_None _ _ _ _ Hname H1).
Qed.
#[export] Hint Resolve insert_service_steady : guar.

Lemma EnsureService_steady name : guar steady (EnsureService name).
Proof. unfold EnsureService. guar_walk. Qed.
#[export] Hint Resolve EnsureService_steady : guar.

Lemma UpsertServiceDependency_steady req : guar steady (UpsertServiceDependency req).
Proof.
  unfold UpsertServiceDependency. guar_walk. apply guar_stmt; [typeclasses eauto|]. intros d u d'. simpl.
  destruct (_ || _); [done|]. destruct (ob_dependencies (db_observed d) !! _) as [old|] eqn:E; [|destruct (existsb _ _); [done|]];
    intros [= _ <-]; (apply steady_observed; [|same_context]; observed_tables).
  - eapply rows_kept_update; [apply _|exact E|done].
  - apply rows_kept_new; [apply _|by apply insert_subseteq].
Qed.

Lemma insert_incident_steady i : inc_alerts_cleared_at i = None -> guar steady (insert_incident i).
Proof.
  intros Hc. apply guar_stmt; [typeclasses eauto|]. intros d u d'. simpl. destruct (_ || _) eqn:E; [done|]. intros [= _ <-]. reflect_tests.
  match goal with H : ~ is_Some (db_incidents d !! _) |- _ => apply eq_None_not_Some in H as Hid end.
  apply steady_incidents; [apply rows_kept_new; [apply _|by apply insert_subseteq]|].
  intros [CI CA CS CN CQ]. split; simpl; [| |done|done|].
  - intros k j [[<- <-]|[_ Hj]]%lookup_insert_Some; [done|by apply CI].
  - intros k key a Ha. destruct (CA _ _ _ Ha) as [? [j Hj]]. split; [done|]. exists j. apply lookup_insert_Some. right. split; [congruence|done].
  - intros k j t key a [[<- <-]|[_ Hj]]%lookup_insert_Some; [congruence|by eapply CQ].
Qed.
#[export] Hint Extern 1 (guar steady (insert_incident _)) => apply insert_incident_steady; reflexivity : guar.

Lemma CreateManualIncident_steady req : guar steady (CreateManualIncident req).
Proof. unfold CreateManualIncident. guar_walk. Qed.
Lemma CreateAlertIncident_steady t s en sev k f su at_ : guar steady (CreateAlertIncident t s en sev k f su at_).
Proof. unfold CreateAlertIncident. guar_walk. Qed.
Lemma PromoteIncidentRoot_steady id s t sev k f su at_ : guar steady (PromoteIncidentRoot id s t sev k f su at_).
Proof.
  unfold PromoteIncidentRoot. guar_walk. apply guar_stmt; [typeclasses eauto|]. intros d u d'.
  destruct (db_incidents d !! id) as [i|] eqn:E; [|by intros [= _ <-]]. destruct (negb _) eqn:F; [done|]. intros [= _ <-]. reflect_tests.
  eapply steady_incident; [exact E|done|by right|by left].
Qed.

Lemma AddSignal_steady x : guar steady (AddSignal x).
Proof.
  unfold AddSignal. guar_walk; (apply guar_stmt; [typeclasses eauto|]; intros d u d'; destruct (_ || _); [done|];
    intros [= _ <-]; apply steady_observed; [observed_tables|same_context]).
Qed.
Lemma AddTimelineEvent_steady x : guar steady (AddTimelineEvent x).
Proof.
  unfold AddTimelineEvent. guar_walk; (apply guar_stmt; [typeclasses eauto|]; intros d u d'; destruct (_ || _); [done|];
    intros [= _ <-]; apply steady_observed; [observed_tables|same_context]).
Qed.

Lemma MarkAlertResolved_steady id key at_ stale : guar steady (MarkAlertResolved id key at_ stale).
Proof.
  unfold MarkAlertResolved. guar_walk; [|by apply update_incident_steady]. apply guar_exec; [typeclasses eauto|]. intros d.
  destruct (alerts_of d !! (id, key)) as [x|] eqn:E; [|reflexivity]. apply steady_observed.
  - observed_tables. eapply rows_kept_update; [apply _|exact E|done].
  - intros [CI CA CS CN CQ]. split; simpl; [done| |done|done|].
    + intros k key' y [[[= <- <-] <-]|[_ Hy]]%lookup_insert_Some; [|by apply CA]. by eapply (CA _ _ _ E).
    + intros k j t key' y Hj Hc [[[= <- <-] <-]|[_ Hy]]%lookup_insert_Some; [done|by eapply CQ].
Qed.

Lemma SaveRCAReport_steady r : guar steady (SaveRCAReport r).
Proof.
  unfold SaveRCAReport. guar_walk; (apply guar_stmt; [typeclasses eauto|]; intros d u d'; destruct (numeric_4_3 _); [|done];
    destruct (bool_decide _) eqn:E; [done|]; simpl; destruct (negb _); [done|];
    intros [= _ <-]; reflect_tests; apply steady_observed; [observed_tables|same_context];
    apply rows_kept_new; [apply _|]; apply insert_subseteq; by apply eq_None_not_Some).
Qed.
Lemma UpdateRCAReportLLM_steady id status summary backend model : guar steady (UpdateRCAReportLLM id status summary backend model).
Proof.
  unfold UpdateRCAReportLLM. guar_walk. apply guar_update_if; [typeclasses eauto|]. intros d r Hr _.
  apply steady_observed; [|same_context]. observed_tables. eapply rows_kept_update; [apply _|exact Hr|done].
Qed.
#[export] Hint Resolve UpsertServiceDependency_steady CreateManualIncident_steady CreateAlertIncident_steady PromoteIncidentRoot_steady
  AddSignal_steady AddTimelineEvent_steady MarkAlertResolved_steady SaveRCAReport_steady UpdateRCAReportLLM_steady : guar.

(** ** Runs *)

(** The tables after an alert fired on an incident. *)
Definition fired (d : DB) (id : string) (i : Incident) (alert : AlertObservation) (time : Z) : DB :=
  set_incidents (<[id := touch i time None]>)
    (set_alerts (<[(id, obs_dedupe_key alert) := firing_row (alerts_of d !! (id, obs_dedupe_key alert)) alert time]>) d).

Lemma MarkAlertFiring_ok id alert e w refired w' :
  MarkAlertFiring id alert e w = (Ok refired, w') ->
  exists i, db_incidents (w_db w) !! id = Some i /\ refired = bool_decide (is_Some (inc_alerts_cleared_at i)) /\
    w_db w' = fired (w_db w) id i alert (TruncateMicro (e_now e)).
Proof.
  unfold MarkAlertFiring, upsert_alert. intros (t & w1 & [-> ->]%db_now_ok & H)%bind_ok.
  apply bind_ok in H as (u & w2 & [H1 _]%wrap_ok%stmt_ok & [H _]%wrap_ok%stmt_ok).
  destruct (negb _); [done|]. injection H1 as _ H1. rewrite <- H1 in H. simpl in H.
  destruct (db_incidents (w_db w) !! id) as [i|] eqn:E; [|done]. injection H as <- <-. by exists i.
Qed.

Lemma fired_steady d id i alert time : db_incidents d !! id = Some i -> steady d (fired d id i alert time).
Proof.
  intros Hi. unfold fired, set_alerts. change (steady d (set_incidents (<[id := touch i time None]>) (set_observed ?f d))) with
    (steady d (set_incidents (fun _ => <[id := touch i time None]> (db_incidents d)) (set_observed f d))). apply steady_context.
  - eapply rows_kept_update; [apply _|done|]. by split.
  - observed_tables. destruct (alerts_of d !! _) as [a|] eqn:E.
    + eapply rows_kept_update; [apply _|exact E|done].
    + apply rows_kept_new; [apply _|by apply insert_subseteq].
  - intros [CI CA CS CN CQ]. split; simpl; [| |done|done|].
    + intros k j [[<- <-]|[_ Hj]]%lookup_insert_Some; [|by apply CI]. exact (CI _ _ Hi).
    + intros k key a Ha. split.
      * apply lookup_insert_Some in Ha as [[[= <- <-] <-]|[_ Ha]]; [|by eapply CA].
        destruct (alerts_of d !! _) as [x|] eqn:E; [|done]. by eapply (CA _ _ _ E).
      * destruct (decide (k = id)) as [->|]; [rewrite lookup_insert_eq; eauto|]. rewrite lookup_insert_ne by done.
        apply lookup_insert_Some in Ha as [[[= <- <-] _]|[_ Ha]]; [done|by eapply CA].
    + intros k j t key a Hj Hc. apply lookup_insert_Some in Hj as [[<- <-]|[Hne Hj]]; [done|].
      intros [[[= <- <-] _]|[_ Ha]]%lookup_insert_Some; [done|by eapply CQ].
Qed.

Lemma MarkAlertFiring_steady id alert : okay steady (MarkAlertFiring id alert).
Proof. intros e w b w' (i & Hi & _ & ->)%MarkAlertFiring_ok. by apply fired_steady. Qed.
#[export] Hint Resolve MarkAlertFiring_steady : guar.

Lemma AddSignal_ok x e w u w' :
  AddSignal x e w = (Ok u, w') -> exists row, w_db w' = add_signal row (w_db w) /\
    sig_incident_id row = sig_incident_id x /\ sig_service_id row = sig_service_id x /\ sig_name row = sig_name x /\
    sig_observed_at row = sig_observed_at x /\ sig_body row = reread_map (sig_body x).
Proof.
  unfold AddSignal. intros H. apply bind_ok in H as (id & w1 & H1 & H). assert (w_db w1 = w_db w) as D1.
  { destruct (_ =?s _); [by apply NewID_ok in H1 as [? _]|by apply ret_ok in H1 as [_ ->]]. }
  run_inv H. apply stmt_ok in H as [H _]. rewrite D1 in H. destruct (_ || _); [done|]. injection H as <-. by eexists.
Qed.

Lemma AddTimelineEvent_ok x e w u w' : AddTimelineEvent x e w = (Ok u, w') -> exists row, w_db w' = add_timeline row (w_db w).
Proof.
  unfold AddTimelineEvent. intros H. apply bind_ok in H as (id & w1 & H1 & H). assert (w_db w1 = w_db w) as D1.
  { destruct (_ =?s _); [by apply NewID_ok in H1 as [? _]|by apply ret_ok in H1 as [_ ->]]. }
  run_inv H. apply stmt_ok in H as [H _]. rewrite D1 in H. destruct (_ || _); [done|]. injection H as <-. by eexists.
Qed.

Lemma elem_of_alert_rows d id a : a ∈ alert_rows d id <-> exists key, alerts_of d !! (id, key) = Some a.
Proof.
  unfold alert_rows. rewrite list_elem_of_omap. split.
  - intros ([[k key] x] & Hx & H). simpl in H. destruct (k =?s id) eqn:E; [|done]. injection H as ->. reflect_tests. subst k.
    exists key. by apply elem_of_map_to_list in Hx.
  - intros [key Ha]. exists ((id, key), a). split; [by apply elem_of_map_to_list|]. simpl. by rewrite String.eqb_refl.
Qed.

(** A count of zero means that no fresh alert is left. *)
Lemma MarkAlertResolved_none id key at_ stale e w n w' :
  MarkAlertResolved id key at_ stale e w = (Ok n, w') -> n <= 0 ->
  forall key' a, alerts_of (w_db w') !! (id, key') = Some a -> ia_status a = "firing" -> ia_last_seen_at a < TruncateMicro (e_now e) - stale.
Proof.
  unfold MarkAlertResolved. intros (t & w1 & [-> ->]%db_now_ok & H)%bind_ok.
  apply bind_ok in H as (u & w2 & _ & H). apply bind_ok in H as (b & w3 & _ & (-> & D & _)%wrap_ok%query_ok). rewrite D.
  intros Hn key' a Ha Hf. destruct (filter _ _) as [|x l] eqn:E; [|simpl in Hn; lia].
  destruct (fresh_firing (TruncateMicro (e_now e)) stale a) eqn:F.
  - assert (a ∈ filter (fun a => fresh_firing (TruncateMicro (e_now e)) stale a = true) (alert_rows (w_db w3) id)) as Hin.
    { apply list_elem_of_filter. split; [done|]. apply elem_of_alert_rows. by exists key'. }
    rewrite E in Hin. by apply elem_of_nil in Hin.
  - unfold fresh_firing in F. rewrite Hf in F. simpl in F. apply Z.leb_gt in F. lia.
Qed.

Definition silent (d : DB) (id : string) (t : Z) : Prop :=
  forall key a, alerts_of d !! (id, key) = Some a -> ia_status a = "firing" -> ia_last_seen_at a < t.

Lemma MarkAlertsCleared_ok id e w u w' :
  MarkAlertsCleared id e w = (Ok u, w') -> w_db w' = w_db w \/
  exists i, db_incidents (w_db w) !! id = Some i /\
    w_db w' = set_incidents (<[id := touch i (inc_last_seen_at i) (Some (TruncateMicro (e_now e)))]>) (w_db w).
Proof.
  unfold MarkAlertsCleared. intros (t & w1 & [-> ->]%db_now_ok & H)%bind_ok.
  apply bind_ok in H as (b & w2 & [_ H]%wrap_ok%update_if_ok & [_ ->]%ret_ok).
  destruct b; [right|left; apply H]. destruct H as (i & Hi & _ & ->). by exists i.
Qed.

Lemma cleared_steady d id i t :
  db_incidents d !! id = Some i -> silent d id t -> steady d (set_incidents (<[id := touch i (inc_last_seen_at i) (Some t)]>) d).
Proof.
  intros Hi Hs. apply steady_incidents; [eapply rows_kept_update; [apply _|done|by split]|].
  intros [CI CA CS CN CQ]. split; simpl; [| |done|done|].
  - intros k j [[<- <-]|[_ Hj]]%lookup_insert_Some; [exact (CI _ _ Hi)|by apply CI].
  - intros k key a Ha. destruct (CA _ _ _ Ha) as [? ?]. split; [done|].
    destruct (decide (k = id)) as [->|]; [rewrite lookup_insert_eq; eauto|by rewrite lookup_insert_ne].
  - intros k j t' key a [[<- <-]|[_ Hj]]%lookup_insert_Some; [|by eapply CQ]. intros [= <-]. apply Hs.
Qed.

(** The topology of an incident, as its queries see the tables. *)
Definition topology_at (d : DB) (incidentID : string) (incident : Incident) : IncidentTopology :=
  let root := inc_service incident in
  let s := foldl (scan_signal root) (mkScan 0 0 false {[root]}) (alert_services d incidentID) in
  let affected := sortedKeys (ts_affected s ∖ {[""]}) in
  mkIncidentTopology incidentID root ((0 <? ts_alerts s) && negb (ts_root_observed s)) affected (ts_alerts s) (ts_suppressed s)
    (omap (fun service => if service =?s root then None else graph_path (New (dependency_rows d)) service root) affected).

Lemma GetIncidentTopology_ok id e w top w' :
  GetIncidentTopology id e w = (Ok top, w') ->
  w_db w' = w_db w /\ exists row, db_incidents (w_db w) !! id = Some row /\ top = topology_at (w_db w) id (scanIncident (w_db w) row).
Proof.
  unfold GetIncidentTopology. intros (i & w1 & (D1 & row & Hrow & ->)%GetIncident_ok & H)%bind_ok.
  apply bind_ok in H as (l & w2 & (-> & D2 & _)%wrap_ok%query_ok & H). cbv zeta in H.
  apply bind_ok in H as (deps & w3 & (-> & D3 & _)%wrap_ok%query_ok & H). apply ret_ok in H as [-> ->].
  rewrite D3, D2, D1. split; [done|]. exists row. split; [exact Hrow|]. unfold topology_at. done.
Qed.

(** The latest report is one of the incident's, and none of them is newer. *)
Lemma latest_report_spec d id r :
  latest_report d id = Some r -> (exists key, ob_reports (db_observed d) !! key = Some r) /\ rep_incident_id r = id /\
  forall key r', ob_reports (db_observed d) !! key = Some r' -> rep_incident_id r' = id -> rep_created_at r' <= rep_created_at r.
Proof.
  unfold latest_report. set (less := fun a b => rep_created_at b <? rep_created_at a).
  assert (forall x, x ∈ reports_for d id <-> rep_incident_id x = id /\ exists key, ob_reports (db_observed d) !! key = Some x) as Hin.
  { intros x. unfold reports_for. rewrite list_elem_of_filter, list_elem_of_fmap. apply and_iff_compat_l. split.
    - intros ([key y] & -> & Hy%elem_of_map_to_list). by exists key.
    - intros [key Hx]. exists (key, x). split; [done|]. by apply elem_of_map_to_list. }
  assert (StronglySorted (not_after less) (sort_stable less (reports_for d id))) as Hs.
  { apply sort_stable_sorted; unfold less.
    - intros x y. rewrite Z.ltb_lt, Z.ltb_ge. lia.
    - intros x y z. rewrite !Z.ltb_ge. lia. }
  pose proof (elem_of_sort_stable less) as He. destruct (sort_stable less (reports_for d id)) as [|x l] eqn:E; [done|].
  intros [= <-]. assert (x ∈ reports_for d id) as [? ?]%Hin by (apply He; rewrite E; left). split_and!; [done|done|].
  intros key r' Hr' Hi. assert (r' ∈ reports_for d id) as Hr by (apply Hin; eauto). apply He in Hr. rewrite E in Hr.
  apply elem_of_cons in Hr as [->|Hr]; [done|]. apply StronglySorted_inv in Hs as [_ Hs].
  rewrite Forall_forall in Hs. specialize (Hs _ Hr). unfold not_after, less in Hs. apply Z.ltb_ge in Hs. exact Hs.
Qed.
