(* ===== verification/Ingestion.v ===== *)
(** * Alert ingestion ([internal/incidents/service.go])

    A webhook delivery becomes incidents: alerts are normalised, resolved ones close
    their alert on the incident that carries it, firing ones are grouped behind the
    root of their failing dependencies and attached to an open incident or to a new
    one. One transaction holds the whole delivery. *)
From Stdlib Require Import Ascii String ZArith Lia Sorted Permutation.
From stdpp Require Import base gmap strings list relations.
From S2P Require Import Prelude GoStrings GoFloat GoValue Topology Marshal Ledger Lifecycle Types Database AuditLog Store Progress Observations.
Open Scope Z_scope.

Definition DefaultAlertStaleAfter : Z := 6 * hour.

Record ServiceManager := mkServiceManager { sm_grouping : Grouping }.

Definition NewServiceManager (groupingWindow : Z) : ServiceManager :=
  mkServiceManager (mkGrouping groupingWindow DefaultAlertStaleAfter).

Definition SetAlertStaleAfter (m : ServiceManager) (staleAfter : Z) : ServiceManager :=
  if 0 <? staleAfter then mkServiceManager (mkGrouping (gr_window (sm_grouping m)) staleAfter) else m.

Definition BuildDedupeKey (service alertName environment fingerprint : string) : string :=
  service +:+ ":" +:+ alertName +:+ ":" +:+ environment +:+ ":" +:+ fingerprint.

Fixpoint firstNonEmpty (values : list string) : string :=
  match values with
  | [] => ""
  | value :: rest => if negb (TrimSpace value =?s "") then value else firstNonEmpty rest
  end.

(** ** Incidents opened by hand *)

Definition CreateManual (req : ManualIncidentRequest) (actor : string) : M Incident :=
  InTx (
    incident <- CreateManualIncident req ;;
    WriteTx (audit_entry actor "user" "incident.created" "incident" (inc_id incident) None
      (Some (list_to_map [("status", VString (inc_status incident)); ("severity", VString (inc_severity incident))])) None) ;;;
    ret incident).

(** ** Normalisation *)

Record normalizedAlert := mkNormalizedAlert {
  na_alert : AlertmanagerAlert;
  na_status : string;
  na_service : string;
  na_service_record : option Service;
  na_alert_name : string;
  na_environment : string;
  na_severity : string;
  na_fingerprint : string;
  na_summary : string;
  na_dedupe_key : string;
}.

Definition with_starts_at (a : AlertmanagerAlert) (t : Z) : AlertmanagerAlert :=
  mkAlertmanagerAlert (am_status a) (am_labels a) (am_annotations a) t (am_ends_at a) (am_fingerprint a) (am_generator_url a).

Definition normalize (payload : AlertmanagerWebhook) (alert : AlertmanagerAlert) (time : Z) : normalizedAlert :=
  let label key def := firstNonEmpty [str_at (am_labels alert) key; str_at (wh_common_labels payload) key; def] in
  let service := label "service" "unknown-service" in
  let alertName := label "alertname" "unknown-alert" in
  let environment := label "environment" "local" in
  let severity := label "severity" "sev3" in
  let fingerprint := firstNonEmpty [am_fingerprint alert; alertName] in
  let summary := firstNonEmpty [str_at (am_annotations alert) "summary"; str_at (wh_common_annotations payload) "summary"; alertName] in
  let status := ToLower (firstNonEmpty [am_status alert; wh_status payload; "firing"]) in
  mkNormalizedAlert (if IsZero (am_starts_at alert) then with_starts_at alert time else alert) status service None alertName environment
    severity fingerprint summary (BuildDedupeKey service alertName environment fingerprint).

Definition with_record (n : normalizedAlert) (svc : Service) : normalizedAlert :=
  mkNormalizedAlert (na_alert n) (na_status n) (na_service n) (Some svc) (na_alert_name n) (na_environment n) (na_severity n)
    (na_fingerprint n) (na_summary n) (na_dedupe_key n).

(** Firing alerts register their service, resolved ones do not. *)
Fixpoint normalize_all (payload : AlertmanagerWebhook) (alerts : list AlertmanagerAlert) : M (list normalizedAlert * list normalizedAlert) :=
  match alerts with
  | [] => ret ([], [])
  | alert :: rest =>
      time <- now ;;
      let normalized := normalize payload alert time in
      if na_status normalized =?s "resolved" then
        others <- normalize_all payload rest ;;
        ret (others.1, normalized :: others.2)
      else
        record <- EnsureService (na_service normalized) ;;
        others <- normalize_all payload rest ;;
        ret (with_record normalized record :: others.1, others.2)
  end.

Definition alert_before (a b : normalizedAlert) : bool :=
  if negb (am_starts_at (na_alert a) =? am_starts_at (na_alert b)) then am_starts_at (na_alert a) <? am_starts_at (na_alert b)
  else if negb (na_service a =?s na_service b) then na_service a <?s na_service b
  else if negb (na_alert_name a =?s na_alert_name b) then na_alert_name a <?s na_alert_name b
  else na_fingerprint a <?s na_fingerprint b.

Definition sortAlerts : list normalizedAlert -> list normalizedAlert := sort_stable alert_before.

Definition normalizeAlerts (payload : AlertmanagerWebhook) : M (list normalizedAlert * list normalizedAlert) :=
  split <- normalize_all payload (wh_alerts payload) ;;
  ret (sortAlerts split.1, sortAlerts split.2).

(** ** Shared pieces *)

Definition writeAudit (entry : Entry) : M unit := wrap ("audit " +:+ ent_action entry) (WriteTx entry).

Definition alert_body (a : AlertmanagerAlert) (status : string) (more : list (string * value)) : params :=
  list_to_map ([("labels", VStrMap (map_to_list (am_labels a))); ("annotations", VStrMap (map_to_list (am_annotations a)));
    ("generator", VString (am_generator_url a)); ("status", VString status)] ++ more).

(** ** Resolved alerts *)

Definition count_resolved (s : IngestionStats) : IngestionStats :=
  mkIngestionStats (is_alert_count s) (is_incident_groups s) (is_affected_service_count s) (is_observed_roots s) (is_inferred_roots s)
    (is_suppressed_alert_count s) (is_truncated_alerts s) (is_resolved_alerts s + 1) (is_unmatched_resolved_alerts s).
Definition count_unmatched (s : IngestionStats) : IngestionStats :=
  mkIngestionStats (is_alert_count s) (is_incident_groups s) (is_affected_service_count s) (is_observed_roots s) (is_inferred_roots s)
    (is_suppressed_alert_count s) (is_truncated_alerts s) (is_resolved_alerts s) (is_unmatched_resolved_alerts s + 1).

Definition resolved_event (incidentID : string) (alert : normalizedAlert) (resolvedAt remaining : Z) : TimelineEvent :=
  mkTimelineEvent "" incidentID "alert_resolved" "alertmanager"
    ("Alert " +:+ na_alert_name alert +:+ " on " +:+ na_service alert +:+ " resolved; " +:+ itoa remaining +:+ " alert(s) still firing")
    (list_to_map [("alert_name", VString (na_alert_name alert)); ("service", VString (na_service alert));
       ("dedupe_key", VString (na_dedupe_key alert)); ("still_firing", VInt remaining)]) (of_int 1) resolvedAt zero_time.

Definition cleared_event (incidentID : string) (alert : normalizedAlert) (resolvedAt : Z) : TimelineEvent :=
  mkTimelineEvent "" incidentID "alerts_cleared" "alertmanager"
    "Every alert on this incident has resolved. The incident stays open until an operator resolves it."
    {["last_alert" := VString (na_alert_name alert)]} (of_int 1) resolvedAt zero_time.

Definition resolveAlert (m : ServiceManager) (alert : normalizedAlert) (actor : string) (stats : IngestionStats) : M IngestionStats :=
  found <- FindIncidentForResolvedAlert (na_dedupe_key alert) ;;
  match found with
  | None => ret (count_unmatched stats)
  | Some incident =>
      record <- EnsureService (na_service alert) ;;
      time <- now ;;
      let resolvedAt := if IsZero (am_ends_at (na_alert alert)) then time else am_ends_at (na_alert alert) in
      AddSignal (mkSignal "" (inc_id incident) (svc_id record) "alertmanager" "alert" (na_severity alert) (na_alert_name alert)
        (alert_body (na_alert alert) "resolved" [("ends_at", VTime resolvedAt)]) resolvedAt zero_time) ;;;
      remaining <- MarkAlertResolved (inc_id incident) (na_dedupe_key alert) resolvedAt (gr_alert_stale_after (sm_grouping m)) ;;
      AddTimelineEvent (resolved_event (inc_id incident) alert resolvedAt remaining) ;;;
      if 0 <? remaining then ret (count_resolved stats)
      else
        MarkAlertsCleared (inc_id incident) ;;;
        AddTimelineEvent (cleared_event (inc_id incident) alert resolvedAt) ;;;
        writeAudit (audit_entry actor "system" "incident.alerts_cleared" "incident" (inc_id incident) None
          (Some (list_to_map [("status", VString (inc_status incident)); ("alerts_cleared", VBool true)]))
          (Some (list_to_map [("last_alert", VString (na_alert_name alert)); ("service", VString (na_service alert))]))) ;;;
        ret (count_resolved stats)
  end.

Fixpoint resolve_all (m : ServiceManager) (alerts : list normalizedAlert) (actor : string) (stats : IngestionStats) : M IngestionStats :=
  match alerts with
  | [] => ret stats
  | alert :: rest =>
      stats <- resolveAlert m alert actor stats ;;
      resolve_all m rest actor stats
  end.

(** ** Grouping *)

Definition topologyGroupsByEnvironment (graph : Graph) (alerts : list normalizedAlert) : list Group :=
  environment ← sortedKeys (list_to_set (na_environment <$> alerts));
  (fun g => mkGroup (group_root g) environment (group_inferred g) (group_members g) (group_paths g)) <$>
    Groups graph (na_service <$> filter (fun a => na_environment a = environment) alerts).

Definition alertsForGroup (alerts : list normalizedAlert) (group : Group) : list normalizedAlert :=
  filter (fun a => na_environment a = group_environment group /\ na_service a ∈ group_members group) alerts.

Definition severityRank (severity : string) : Z :=
  if severity =?s "sev1" then 1 else if severity =?s "sev2" then 2 else if severity =?s "sev3" then 3 else 4.

Definition highestSeverity (alerts : list normalizedAlert) : string :=
  foldl (fun best a => if severityRank (na_severity a) <? severityRank best then na_severity a else best) "sev4" alerts.

Definition correlated_alert : string := "TopologyCorrelatedDependencyFailure".

(** The first alert on the root, or one made up for it; none when there is no alert
    at all, in which case the group is skipped. *)
Definition rootAlertForGroup (alerts : list normalizedAlert) (root : string) : option normalizedAlert :=
  match find (fun a => na_service a =?s root) alerts, alerts with
  | Some a, _ => Some a
  | None, [] => None
  | None, first :: _ =>
      Some (mkNormalizedAlert (na_alert first) (na_status first) root None correlated_alert (na_environment first) (highestSeverity alerts)
        ("topology-" +:+ root) ("Correlated downstream failures point to " +:+ root)
        (BuildDedupeKey root correlated_alert (na_environment first) ("topology-" +:+ root)))
  end.

Definition rootTitle (group : Group) (root : normalizedAlert) : string :=
  if group_inferred group then "Correlated downstream failures indicate " +:+ group_root group +:+ " dependency impact" else na_summary root.
Definition rootSummary (group : Group) (root : normalizedAlert) : string :=
  if group_inferred group
  then "Topology correlation grouped " +:+ itoa (Z.of_nat (length (group_members group))) +:+ " affected services behind inferred dependency "
       +:+ group_root group
  else na_summary root.
Definition rootDedupeKey (group : Group) (root : normalizedAlert) : string :=
  if group_inferred group
  then BuildDedupeKey (group_root group) correlated_alert (na_environment root) ("topology-" +:+ group_root group) else na_dedupe_key root.
Definition rootFingerprint (group : Group) (root : normalizedAlert) : string :=
  if group_inferred group then "topology-" +:+ group_root group else na_fingerprint root.

(** ** The incident of a group *)

(** The nearest incident so far and its distance. *)
Definition nearer (path : option Path) (incident : Incident) (best : option (Incident * nat)) : option (Incident * nat) :=
  match path with
  | None => best
  | Some p =>
      let distance := length (path_services p) in
      match best with
      | Some (_, known) => if Nat.ltb distance known then Some (incident, distance) else best
      | None => Some (incident, distance)
      end
  end.

Fixpoint related_scan (graph : Graph) (root environment : string) (open : list Incident) (upstream downstream : option (Incident * nat))
    : option (Incident * bool) :=
  match open with
  | [] =>
      match upstream, downstream with
      | Some (i, _), _ => Some (i, false)
      | None, Some (i, _) => Some (i, true)
      | None, None => None
      end
  | incident :: rest =>
      if negb (inc_environment incident =?s environment) then related_scan graph root environment rest upstream downstream
      else if inc_service incident =?s root then Some (incident, false)
      else related_scan graph root environment rest
             (nearer (graph_path graph root (inc_service incident)) incident upstream)
             (nearer (graph_path graph (inc_service incident) root) incident downstream)
  end.

Definition relatedOpenIncident (graph : Graph) (root environment : string) (open : list Incident) : option (Incident * bool) :=
  related_scan graph root environment open None None.

(** The incident, whether it is new, and whether its root was promoted. *)
Definition findOrCreateTopologyIncident (m : ServiceManager) (graph : Graph) (group : Group) (root : normalizedAlert)
    (open : list Incident) : M (Incident * bool * bool) :=
  exact <- (if na_service root =?s group_root group then FindOpenByDedupeKey (na_dedupe_key root) (sm_grouping m) else ret None) ;;
  match exact with
  | Some incident => ret (incident, false, false)
  | None =>
      match relatedOpenIncident graph (group_root group) (group_environment group) open with
      | Some (existing, promote) =>
          if negb promote || (inc_service existing =?s group_root group) then ret (existing, false, false)
          else
            promoted <- PromoteIncidentRoot (inc_id existing) (group_root group) (rootTitle group root) (na_severity root)
              (rootDedupeKey group root) (rootFingerprint group root) (rootSummary group root) (am_starts_at (na_alert root)) ;;
            ret (promoted, false, true)
      | None =>
          created <- CreateAlertIncident (rootTitle group root) (group_root group) (group_environment group) (na_severity root)
            (rootDedupeKey group root) (rootFingerprint group root) (rootSummary group root) (am_starts_at (na_alert root)) ;;
          ret (created, true, false)
      end
  end.

(** ** Attaching an alert *)

Definition topologyConfidence (inferred suppressed : bool) : float64 :=
  if inferred then lit 75 100 else if suppressed then lit 92 100 else of_int 1.

Definition attachTopologyAlert (incident : Incident) (n : normalizedAlert) (path : Path) (rootInferred suppressed : bool) : M unit :=
  AddSignal (mkSignal "" (inc_id incident) (default "" (svc_id <$> na_service_record n)) "alertmanager" "alert" (na_severity n)
    (na_alert_name n)
    (alert_body (na_alert n) (am_status (na_alert n))
       [("topology", VMap [("root_service", VString (inc_service incident)); ("observed_service", VString (na_service n));
           ("root_inferred", VBool rootInferred); ("suppressed", VBool suppressed);
           ("dependency_path", VStrings (path_services path))])])
    (am_starts_at (na_alert n)) zero_time) ;;;
  refired <- MarkAlertFiring (inc_id incident)
    (mkAlertObservation (na_dedupe_key n) (na_alert_name n) (na_service n) (am_starts_at (na_alert n))) ;;
  (if (refired : bool) then
     AddTimelineEvent (mkTimelineEvent "" (inc_id incident) "alerts_refired" "alertmanager"
       ("Alert " +:+ na_alert_name n +:+ " on " +:+ na_service n +:+ " fired again after all alerts had cleared")
       (list_to_map [("alert_name", VString (na_alert_name n)); ("service", VString (na_service n))]) (of_int 1)
       (am_starts_at (na_alert n)) zero_time)
   else ret tt) ;;;
  AddTimelineEvent (mkTimelineEvent "" (inc_id incident)
    (if suppressed then "downstream_alert_suppressed" else "alert_received") "alertmanager"
    (if suppressed
     then "Suppressed downstream alert " +:+ na_alert_name n +:+ " on " +:+ na_service n +:+ "; correlated root is " +:+ inc_service incident
     else na_summary n)
    (list_to_map [("alert_name", VString (na_alert_name n)); ("service", VString (na_service n)); ("severity", VString (na_severity n));
       ("environment", VString (na_environment n)); ("root_service", VString (inc_service incident));
       ("root_inferred", VBool rootInferred); ("suppressed", VBool suppressed); ("dependency_path", VStrings (path_services path))])
    (topologyConfidence rootInferred suppressed) (am_starts_at (na_alert n)) zero_time).

(** ** A delivery *)

Definition count_group (s : IngestionStats) (members : nat) (inferred : bool) : IngestionStats :=
  mkIngestionStats (is_alert_count s) (is_incident_groups s + 1) (is_affected_service_count s + Z.of_nat members)
    (if inferred then is_observed_roots s else is_observed_roots s + 1) (if inferred then is_inferred_roots s + 1 else is_inferred_roots s)
    (is_suppressed_alert_count s) (is_truncated_alerts s) (is_resolved_alerts s) (is_unmatched_resolved_alerts s).
Definition count_suppressed (s : IngestionStats) : IngestionStats :=
  mkIngestionStats (is_alert_count s) (is_incident_groups s) (is_affected_service_count s) (is_observed_roots s) (is_inferred_roots s)
    (is_suppressed_alert_count s + 1) (is_truncated_alerts s) (is_resolved_alerts s) (is_unmatched_resolved_alerts s).

Fixpoint attach_all (graph : Graph) (incident : Incident) (rootInferred : bool) (alerts : list normalizedAlert) (actor : string)
    (stats : IngestionStats) : M IngestionStats :=
  match alerts with
  | [] => ret stats
  | n :: rest =>
      let path := default (mkPath (na_service n) (inc_service incident) [na_service n]) (graph_path graph (na_service n) (inc_service incident)) in
      let suppressed := negb (na_service n =?s inc_service incident) in
      attachTopologyAlert incident n path rootInferred suppressed ;;;
      if suppressed then
        writeAudit (audit_entry actor "system" "incident.downstream_alert_suppressed" "incident" (inc_id incident) None None
          (Some (list_to_map [("alert_name", VString (na_alert_name n)); ("observed_service", VString (na_service n));
             ("root_service", VString (inc_service incident)); ("dependency_path", VStrings (path_services path))]))) ;;;
        attach_all graph incident rootInferred rest actor (count_suppressed stats)
      else attach_all graph incident rootInferred rest actor stats
  end.

Fixpoint appendOrReplaceIncident (items : list Incident) (incident : Incident) : list Incident :=
  match items with
  | [] => [incident]
  | x :: rest => if inc_id x =?s inc_id incident then incident :: rest else x :: appendOrReplaceIncident rest incident
  end.

(** One group: its incident, the audit entries on it, its alerts. *)
Definition ingest_group (m : ServiceManager) (graph : Graph) (actor : string) (group : Group) (alerts : list normalizedAlert)
    (root : normalizedAlert) (open : list Incident) (stats : IngestionStats) : M (Incident * IngestionStats) :=
  found <- findOrCreateTopologyIncident m graph group root open ;;
  let '(incident, created, promoted) := found in
  rootInferred <- (if negb created && negb promoted
                   then analysis <- GetIncidentTopology (inc_id incident) ;; ret (top_root_inferred analysis)
                   else ret (group_inferred group)) ;;
  let stats := count_group stats (length (group_members group)) rootInferred in
  (if created then
     writeAudit (audit_entry actor "system" "incident.detected" "incident" (inc_id incident) None
       (Some (list_to_map [("status", VString (inc_status incident)); ("severity", VString (inc_severity incident));
          ("service", VString (inc_service incident)); ("topology_root", VString (inc_service incident));
          ("root_inferred", VBool rootInferred); ("affected_services", VStrings (group_members group))])) None)
   else ret tt) ;;;
  (if promoted then
     writeAudit (audit_entry actor "system" "incident.root_promoted" "incident" (inc_id incident) None
       (Some (list_to_map [("root_service", VString (inc_service incident)); ("root_inferred", VBool rootInferred)])) None)
   else ret tt) ;;;
  stats <- attach_all graph incident rootInferred alerts actor stats ;;
  ret (incident, stats).

Fixpoint ingest_groups (m : ServiceManager) (graph : Graph) (actor : string) (alerts : list normalizedAlert) (groups : list Group)
    (open : list Incident) (stats : IngestionStats) : M (list Incident * IngestionStats) :=
  match groups with
  | [] => ret ([], stats)
  | group :: rest =>
      let groupAlerts := alertsForGroup alerts group in
      match rootAlertForGroup groupAlerts (group_root group) with
      | None => ingest_groups m graph actor alerts rest open stats
      | Some root =>
          done <- ingest_group m graph actor group groupAlerts root open stats ;;
          others <- ingest_groups m graph actor alerts rest (appendOrReplaceIncident open done.1) done.2 ;;
          ret (done.1 :: others.1, others.2)
      end
  end.

Definition ingest (m : ServiceManager) (payload : AlertmanagerWebhook) (actor : string) : M IngestionResult :=
  split <- normalizeAlerts payload ;;
  let alerts := split.1 in
  stats <- resolve_all m split.2 actor
    (mkIngestionStats (Z.of_nat (length alerts)) 0 0 0 0 0 (wh_truncated_alerts payload) 0 0) ;;
  if Nat.eqb (length alerts) 0 then ret (mkIngestionResult [] stats)
  else
    dependencies <- ListServiceDependencies ;;
    let graph := New dependencies in
    open <- ListOpenIncidents (sm_grouping m) ;;
    out <- ingest_groups m graph actor alerts (topologyGroupsByEnvironment graph alerts) open stats ;;
    ret (mkIngestionResult out.1 out.2).

Definition LockIncidentIngestion : M unit := wrap "acquire topology ingestion lock" (exec id).

Definition IngestAlertmanagerWithResult (m : ServiceManager) (payload : AlertmanagerWebhook) (actor : string) : M IngestionResult :=
  InTx (LockIncidentIngestion ;;; ingest m payload actor).

Definition IngestAlertmanager (m : ServiceManager) (payload : AlertmanagerWebhook) (actor : string) : M (list Incident) :=
  result <- IngestAlertmanagerWithResult m payload actor ;;
  ret (ir_incidents result).

(** ** Guarantees *)

Lemma writeAudit_steady entry : okay steady (writeAudit entry).
Proof. unfold writeAudit. handler_walk. Qed.
#[export] Hint Resolve writeAudit_steady : guar.

Lemma CreateManual_steady req actor : guar steady (CreateManual req actor).
Proof. unfold CreateManual. handler_walk. Qed.

Lemma normalize_all_steady payload alerts : guar steady (normalize_all payload alerts).
Proof. induction alerts as [|a l IH]; simpl; handler_walk. Qed.
#[export] Hint Resolve normalize_all_steady : guar.

Lemma MarkAlertsCleared_steady id t e w u w' :
  MarkAlertsCleared id e w = (Ok u, w') -> silent (w_db w) id t -> t <= TruncateMicro (e_now e) -> steady (w_db w) (w_db w').
Proof.
  intros [->|(i & Hi & ->)]%MarkAlertsCleared_ok Hs Ht; [done|]. apply cleared_steady; [done|].
  intros key a Ha Hf. specialize (Hs _ _ Ha Hf). lia.
Qed.

Section steady_ingestion.
Context (m : ServiceManager) (Hstale : 0 <= gr_alert_stale_after (sm_grouping m)).

Lemma resolveAlert_steady alert actor stats : okay steady (resolveAlert m alert actor stats).
Proof.
  unfold resolveAlert. apply okay_bind; [handler_walk..|]. intros [incident|]; [|handler_walk].
  do 3 (apply okay_bind; [handler_walk..|intros ?]). intros e w s w' (n & w1 & H1 & H)%bind_ok.
  pose proof (okay_guar _ _ (MarkAlertResolved_steady _ _ _ _) _ _ _ _ H1) as S1.
  apply bind_ok in H as (u & w2 & H2 & H). pose proof (okay_guar _ _ (AddTimelineEvent_steady _) _ _ _ _ H2) as S2.
  destruct (0 <? n) eqn:E; [apply ret_ok in H as [_ ->]; by etrans|]. reflect_tests.
  apply bind_ok in H as (u3 & w3 & H3 & H). etrans; [exact S1|]. etrans; [exact S2|]. etrans.
  - eapply MarkAlertsCleared_steady; [exact H3| |].
    + apply AddTimelineEvent_ok in H2 as (row & ->). intros key x Hx Hf.
      exact (MarkAlertResolved_none _ _ _ _ _ _ _ _ H1 E _ _ Hx Hf).
    + lia.
  - refine ((_ : okay steady _) _ _ _ _ H). handler_walk.
Qed.
Hint Resolve resolveAlert_steady : guar.

Lemma resolve_all_steady alerts actor stats : okay steady (resolve_all m alerts actor stats).
Proof. revert stats. induction alerts as [|a l IH]; intros stats; simpl; handler_walk. Qed.

Lemma findOrCreate_steady graph group root open : guar steady (findOrCreateTopologyIncident m graph group root open).
Proof. unfold findOrCreateTopologyIncident. handler_walk. Qed.

Lemma attachTopologyAlert_steady incident n path inferred suppressed : okay steady (attachTopologyAlert incident n path inferred suppressed).
Proof. unfold attachTopologyAlert. handler_walk. Qed.
Hint Resolve resolve_all_steady findOrCreate_steady attachTopologyAlert_steady : guar.

Lemma attach_all_steady graph incident inferred alerts actor stats : okay steady (attach_all graph incident inferred alerts actor stats).
Proof. revert stats. induction alerts as [|n l IH]; intros stats; simpl; handler_walk. Qed.
Hint Resolve attach_all_steady : guar.

Lemma ingest_group_steady graph actor g alerts root open stats : okay steady (ingest_group m graph actor g alerts root open stats).
Proof. unfold ingest_group. handler_walk. Qed.
Hint Resolve ingest_group_steady : guar.

Lemma ingest_groups_steady graph actor alerts groups open stats : okay steady (ingest_groups m graph actor alerts groups open stats).
Proof. revert open stats. induction groups as [|g l IH]; intros open stats; simpl; handler_walk. Qed.
Hint Resolve ingest_groups_steady : guar.

Lemma Ingest_steady payload actor : guar steady (IngestAlertmanagerWithResult m payload actor).
Proof.
  unfold IngestAlertmanagerWithResult, LockIncidentIngestion, ingest, normalizeAlerts. apply okay_InTx; [typeclasses eauto|].
  apply okay_bind; [typeclasses eauto|apply okay_wrap, okay_guar, guar_exec; [typeclasses eauto|reflexivity]|]. handler_walk.
Qed.
End steady_ingestion.

(** ** Where alerts end up *)

(** What the group phase keeps, at the time [t] of the delivery: incidents with
    their status, no new cleared marks, alerts that fired at [t], and signals. *)
Record kept (t : Z) (d d' : DB) : Prop := {
  kp_incidents : forall id i, db_incidents d !! id = Some i -> exists i', db_incidents d' !! id = Some i' /\
    inc_status i' = inc_status i /\ inc_environment i' = inc_environment i /\ (inc_alerts_cleared_at i = None -> inc_alerts_cleared_at i' = None);
  kp_alerts : forall k a, alerts_of d !! k = Some a -> ia_status a = "firing" -> ia_last_seen_at a = t ->
    exists a', alerts_of d' !! k = Some a' /\ ia_status a' = "firing" /\ ia_last_seen_at a' = t;
  kp_signals : forall x, x ∈ ob_signals (db_observed d) -> x ∈ ob_signals (db_observed d');
}.

#[export] Instance kept_refl t : Reflexive (kept t).
Proof. intros d. split; [intros id i Hi; by exists i|intros k a Ha ? ?; by exists a|done]. Qed.
#[export] Instance kept_trans t : Transitive (kept t).
Proof.
  intros d1 d2 d3 [I1 A1 S1] [I2 A2 S2]. split; [| |auto].
  - intros id i (i2 & H2 & E2 & F2 & G2)%I1. apply I2 in H2 as (i3 & H3 & E3 & F3 & G3). exists i3.
    split; [done|]. split; [congruence|]. split; [congruence|auto].
  - intros k a Ha Hf Ht. destruct (A1 _ _ Ha Hf Ht) as (a2 & Ha2 & Hf2 & Ht2). by apply (A2 _ _ Ha2).
Qed.

Lemma kept_same t d d' :
  db_incidents d' = db_incidents d -> alerts_of d' = alerts_of d -> ob_signals (db_observed d') = ob_signals (db_observed d) -> kept t d d'.
Proof. intros HI HA HS. split; rewrite ?HI, ?HA, ?HS; [intros id i Hi; by exists i|intros k a Ha ? ?; by exists a|done]. Qed.

Lemma kept_incident t d id i i' :
  db_incidents d !! id = Some i -> inc_status i' = inc_status i -> inc_environment i' = inc_environment i ->
  inc_alerts_cleared_at i' = inc_alerts_cleared_at i -> kept t d (set_incidents (<[id := i']>) d).
Proof.
  intros Hi Hs He Hc. split; [|intros k a Ha ? ?; by exists a|done]. intros k j Hj. simpl. destruct (decide (k = id)) as [->|].
  - rewrite lookup_insert_eq. exists i'. assert (j = i) as -> by congruence. rewrite Hc. done.
  - rewrite lookup_insert_ne by done. by exists j.
Qed.

Section kept_walk.
Context (t : Z).

Lemma writeAudit_kept entry : guar (kept t) (writeAudit entry).
Proof.
  unfold writeAudit. apply guar_wrap. eapply guar_mono; [|apply WriteTx_only]. intros d d' [HI HR HQ HD HC HT HH HO].
  apply kept_same; unfold alerts_of; by rewrite ?HO.
Qed.

Lemma EnsureService_kept name : guar (kept t) (EnsureService name).
Proof.
  unfold EnsureService. guar_walk. apply guar_stmt; [typeclasses eauto|]. intros d u d'. simpl. destruct (_ || _); [done|]. intros [= _ <-].
  by apply kept_same.
Qed.

Lemma AddTimelineEvent_kept x : okay (kept t) (AddTimelineEvent x).
Proof. intros e w u w' (row & ->)%AddTimelineEvent_ok. by apply kept_same. Qed.

Lemma CreateAlertIncident_kept ti s en sev k f su at_ : guar (kept t) (CreateAlertIncident ti s en sev k f su at_).
Proof.
  unfold CreateAlertIncident. guar_walk; [apply EnsureService_kept|]. apply guar_stmt; [typeclasses eauto|]. intros d u d'. simpl.
  destruct (bool_decide (is_Some (db_incidents d !! _))) eqn:E; [done|]. simpl. destruct (_ || _); [done|]. intros [= _ <-]. reflect_tests.
  apply eq_None_not_Some in E. split; [|intros x al Ha ? ?; by exists al|done]. intros id i Hi. exists i. split; [|done]. simpl.
  rewrite lookup_insert_ne; [done|]. intros <-. congruence.
Qed.

Lemma PromoteIncidentRoot_kept id s ti sev k f su at_ : guar (kept t) (PromoteIncidentRoot id s ti sev k f su at_).
Proof.
  unfold PromoteIncidentRoot. guar_walk; [apply EnsureService_kept|]. apply guar_stmt; [typeclasses eauto|]. intros d u d'.
  destruct (db_incidents d !! id) as [i|] eqn:E; [|by intros [= _ <-]]. destruct (negb _); [done|]. intros [= _ <-].
  by eapply kept_incident.
Qed.

Lemma findOrCreate_kept m graph group root open : guar (kept t) (findOrCreateTopologyIncident m graph group root open).
Proof.
  unfold findOrCreateTopologyIncident. guar_walk; [apply PromoteIncidentRoot_kept|apply CreateAlertIncident_kept].
Qed.
End kept_walk.

#[local] Hint Resolve writeAudit_kept : guar.

(** Alert [n] fires at [t] on the open incident [id] of its delivery, and left a
    signal there. *)
Record on_incident (t : Z) (id : string) (n : normalizedAlert) (d : DB) : Prop := {
  oi_incident : exists i, db_incidents d !! id = Some i /\ Inc.IsClosed (inc_status i) = false /\ inc_alerts_cleared_at i = None;
  oi_alert : exists a, alerts_of d !! (id, na_dedupe_key n) = Some a /\ ia_status a = "firing" /\ ia_last_seen_at a = t;
  oi_signal : exists x, x ∈ ob_signals (db_observed d) /\ sig_incident_id x = id /\ sig_name x = na_alert_name n /\
    sig_observed_at x = am_starts_at (na_alert n);
}.

Lemma on_incident_kept t id n d d' : kept t d d' -> on_incident t id n d -> on_incident t id n d'.
Proof.
  intros [KI KA KS] [(i & Hi & Hc & Hn) (a & Ha & Hf & Ht) (x & Hx & H1 & H2 & H3)]. split.
  - destruct (KI _ _ Hi) as (i' & Hi' & Hs & _ & Hcl). exists i'. rewrite Hs. auto.
  - by apply (KA _ _ Ha).
  - exists x. auto.
Qed.

Lemma firing_row_firing old alert t : ia_status (firing_row old alert t) = "firing" /\ ia_last_seen_at (firing_row old alert t) = t.
Proof. by destruct old. Qed.

Lemma attachTopologyAlert_run incident n path inferred suppressed e w u w' i :
  attachTopologyAlert incident n path inferred suppressed e w = (Ok u, w') ->
  db_incidents (w_db w) !! inc_id incident = Some i -> Inc.IsClosed (inc_status i) = false ->
  kept (TruncateMicro (e_now e)) (w_db w) (w_db w') /\ on_incident (TruncateMicro (e_now e)) (inc_id incident) n (w_db w').
Proof.
  unfold attachTopologyAlert. intros H Hi Hc. set (t := TruncateMicro (e_now e)).
  apply bind_ok in H as (u1 & w1 & (row & D1 & R1 & _ & R2 & R3 & _)%AddSignal_ok & H).
  apply bind_ok in H as (refired & w2 & (j & Hj & _ & D2)%MarkAlertFiring_ok & H).
  rewrite D1 in Hj. simpl in Hj. assert (j = i) as -> by congruence.
  assert (kept t (w_db w) (w_db w2) /\ on_incident t (inc_id incident) n (w_db w2)) as [K2 O2].
  { rewrite D2, D1. split; split; simpl.
    - intros k x Hx. destruct (decide (k = inc_id incident)) as [->|].
      + rewrite lookup_insert_eq. eexists. split; [done|]. assert (x = i) as -> by congruence. done.
      + rewrite lookup_insert_ne by done. by exists x.
    - intros k a Ha Hf Ht. unfold alerts_of. simpl. destruct (decide (k = (inc_id incident, na_dedupe_key n))) as [->|].
      + rewrite lookup_insert_eq. eexists. split; [done|]. apply firing_row_firing.
      + rewrite lookup_insert_ne by done. by exists a.
    - intros x Hx. set_solver.
    - rewrite lookup_insert_eq. eexists. split; [done|]. done.
    - unfold alerts_of. simpl. rewrite lookup_insert_eq. eexists. split; [done|]. apply firing_row_firing.
    - exists row. split; [set_solver|]. done. }
  assert (okay (kept t) (if refired then AddTimelineEvent (mkTimelineEvent "" (inc_id incident) "alerts_refired" "alertmanager"
       ("Alert " +:+ na_alert_name n +:+ " on " +:+ na_service n +:+ " fired again after all alerts had cleared")
       (list_to_map [("alert_name", VString (na_alert_name n)); ("service", VString (na_service n))]) (of_int 1)
       (am_starts_at (na_alert n)) zero_time) else ret tt)) as K.
  { destruct refired; [apply AddTimelineEvent_kept|apply okay_guar, guar_ret; typeclasses eauto]. }
  apply bind_ok in H as (u3 & w3 & H3%K & H4%(AddTimelineEvent_kept t)).
  split; [by repeat (etrans; [eassumption|])|]. eapply on_incident_kept; [|exact O2]. by etrans.
Qed.

Lemma attach_all_run graph incident inferred alerts actor : forall stats e w stats' w' i,
  attach_all graph incident inferred alerts actor stats e w = (Ok stats', w') ->
  db_incidents (w_db w) !! inc_id incident = Some i -> Inc.IsClosed (inc_status i) = false ->
  kept (TruncateMicro (e_now e)) (w_db w) (w_db w') /\
  forall n, n ∈ alerts -> on_incident (TruncateMicro (e_now e)) (inc_id incident) n (w_db w').
Proof.
  induction alerts as [|n l IH]; intros stats e w stats' w' i H Hi Hc; simpl in H.
  { apply ret_ok in H as [_ ->]. split; [done|]. intros n Hn. by apply elem_of_nil in Hn. }
  set (t := TruncateMicro (e_now e)) in *. apply bind_ok in H as (u & w1 & H1 & H).
  destruct (attachTopologyAlert_run _ _ _ _ _ _ _ _ _ _ H1 Hi Hc) as [K1 O1]. fold t in K1, O1.
  assert (exists s w2, kept t (w_db w1) (w_db w2) /\ attach_all graph incident inferred l actor s e w2 = (Ok stats', w')) as (s & w2 & K2 & H2).
  { destruct (negb _); [|by exists stats, w1]. apply bind_ok in H as (u2 & w2 & H2 & H). exists (count_suppressed stats), w2. split; [|done].
    pose proof (writeAudit_kept t) as G. match type of H2 with writeAudit ?en e w1 = _ => specialize (G en e w1) end. by rewrite H2 in G. }
  destruct (kp_incidents _ _ _ (transitivity K1 K2) _ _ Hi) as (i2 & Hi2 & Hs & _). rewrite <- Hs in Hc.
  destruct (IH _ _ _ _ _ _ H2 Hi2 Hc) as [K3 O3]. fold t in K3, O3. split; [by repeat (etrans; [eassumption|])|].
  intros x [->|Hx]%elem_of_cons; [|by apply O3]. eapply on_incident_kept; [|exact O1]. by etrans.
Qed.

(** The incidents the groups may be attached to exist and are open. *)
Definition open_ok (d : DB) (open : list Incident) : Prop :=
  forall i, i ∈ open -> exists j, db_incidents d !! inc_id i = Some j /\ Inc.IsClosed (inc_status j) = false.

Lemma open_ok_nil d : open_ok d [].
Proof. intros i Hi. by apply elem_of_nil in Hi. Qed.

Lemma open_ok_kept t d d' open : kept t d d' -> open_ok d open -> open_ok d' open.
Proof.
  intros K H i (j & Hj & Hc)%H. destruct (kp_incidents _ _ _ K _ _ Hj) as (j' & Hj' & Hs & _). exists j'. by rewrite Hs.
Qed.

Lemma elem_of_appendOrReplace items incident i : i ∈ appendOrReplaceIncident items incident -> i = incident \/ i ∈ items.
Proof.
  induction items as [|x l IH]; simpl; [set_solver|]. destruct (_ =?s _); [set_solver|]. set_solver.
Qed.

Lemma queryIncidents_ok p less e w items w' i :
  queryIncidents p less e w = (Ok items, w') -> context_ok (w_db w) -> i ∈ items ->
  exists j, db_incidents (w_db w) !! inc_id i = Some j /\ p (w_db w) j = true /\ i = scanIncident (w_db w) j.
Proof.
  intros (-> & _ & _)%query_ok HC Hi. apply elem_of_sort_stable, list_elem_of_fmap in Hi as (j & -> & Hj).
  apply list_elem_of_filter in Hj as [Hp Hj]. apply list_elem_of_fmap in Hj as ([k x] & -> & Hx). apply elem_of_map_to_list in Hx.
  exists x. split; [|done]. simpl in *. by rewrite (proj1 (co_incidents _ HC _ _ Hx)).
Qed.

Lemma active_open t g d i : activeForGrouping t g d i = true -> Inc.IsClosed (inc_status i) = false.
Proof. unfold activeForGrouping. intros [H _]%andb_true_iff. by apply negb_true_iff in H. Qed.

Lemma ListOpenIncidents_ok g e w open w' :
  ListOpenIncidents g e w = (Ok open, w') -> context_ok (w_db w) -> open_ok (w_db w') open.
Proof.
  unfold ListOpenIncidents. intros (t & w1 & [-> ->]%db_now_ok & H%wrap_ok)%bind_ok HC i Hi.
  assert (w_db w' = w_db w) as -> by (apply query_ok in H as (_ & D & _); exact D).
  destruct (queryIncidents_ok _ _ _ _ _ _ _ H HC Hi) as (j & Hj & Ha%active_open & _). by exists j.
Qed.

Lemma FindOpenByDedupeKey_ok key g e w i w' :
  FindOpenByDedupeKey key g e w = (Ok (Some i), w') -> context_ok (w_db w) -> w_db w' = w_db w /\
  exists j, db_incidents (w_db w) !! inc_id i = Some j /\ activeForGrouping (TruncateMicro (e_now e)) g (w_db w) j = true /\
    carries (w_db w) key j = true /\ i = scanIncident (w_db w) j.
Proof.
  unfold FindOpenByDedupeKey. intros (t & w1 & [-> ->]%db_now_ok & H)%bind_ok HC.
  apply bind_ok in H as (items & w2 & H%wrap_ok & [Hh ->]%ret_ok). symmetry in Hh. apply head_Some_elem_of in Hh. split.
  - by apply query_ok in H as (_ & D & _).
  - destruct (queryIncidents_ok _ _ _ _ _ _ _ H HC Hh) as (j & Hj & [Ha Hk]%andb_true_iff & ->). by exists j.
Qed.

(** ** The choice of an incident *)

Lemma nearer_elem path incident best j n : nearer path incident best = Some (j, n) -> j = incident \/ best = Some (j, n).
Proof.
  unfold nearer. destruct path as [p|]; [|auto]. destruct best as [[k known]|]; [|by intros [= <- _]; left].
  destruct (Nat.ltb _ _); [intros [= <- _]; by left|auto].
Qed.

Lemma related_scan_elem graph root environment open : forall up down i promote,
  related_scan graph root environment open up down = Some (i, promote) ->
  i ∈ open \/ (exists n, up = Some (i, n)) \/ exists n, down = Some (i, n).
Proof.
  induction open as [|x l IH]; intros up down i promote H; simpl in H.
  - destruct up as [[j n]|]; [injection H as <- _; eauto|]. destruct down as [[j n]|]; [|done]. injection H as <- _. eauto.
  - destruct (negb _); [destruct (IH _ _ _ _ H) as [?|?]; [left; by right|by right]|].
    destruct (_ =?s _); [injection H as <- _; left; left|].
    destruct (IH _ _ _ _ H) as [?|[[n [->|Hn]%nearer_elem]|[n [->|Hn]%nearer_elem]]]; [left; by right|left; left|eauto|left; left|eauto].
Qed.

Lemma relatedOpenIncident_elem graph root environment open i promote :
  relatedOpenIncident graph root environment open = Some (i, promote) -> i ∈ open.
Proof. intros [?|[[n ?]|[n ?]]]%related_scan_elem; done. Qed.

Lemma nearer_path path incident best j n : nearer path incident best = Some (j, n) -> j = incident /\ is_Some path \/ best = Some (j, n).
Proof.
  unfold nearer. destruct path as [p|]; [|auto]. destruct best as [[k known]|]; [|by intros [= <- _]; left].
  destruct (Nat.ltb _ _); [intros [= <- _]; by left|auto].
Qed.

(** An incident is promoted only along a dependency path to the new root. *)
Lemma related_scan_promote graph root environment open : forall up down i,
  related_scan graph root environment open up down = Some (i, true) ->
  (i ∈ open /\ inc_environment i = environment /\ is_Some (graph_path graph (inc_service i) root)) \/ exists n, down = Some (i, n).
Proof.
  induction open as [|x l IH]; intros up down i H; simpl in H.
  - destruct up as [[j n]|]; [done|]. destruct down as [[j n]|]; [|done]. injection H as <-. eauto.
  - destruct (inc_environment x =?s environment) eqn:E; simpl in H; [|destruct (IH _ _ _ H) as [(? & ? & ?)|?]; [left; set_solver|by right]].
    destruct (inc_service x =?s root); [done|]. reflect_tests.
    destruct (IH _ _ _ H) as [(? & ? & ?)|[n [[-> ?]|?]%nearer_path]]; [left; set_solver|left; set_solver|eauto].
Qed.

(** Not the root itself, nor before or behind it. *)
Definition unrelated (graph : Graph) (root : string) (i : Incident) : Prop :=
  inc_service i <> root /\ graph_path graph root (inc_service i) = None /\ graph_path graph (inc_service i) root = None.

Lemma nearer_None path incident best : nearer path incident best = None -> path = None /\ best = None.
Proof. unfold nearer. destruct path; [|done]. destruct best as [[]|]; [|done]. by destruct (Nat.ltb _ _). Qed.

Lemma related_scan_None graph root environment open : forall up down,
  related_scan graph root environment open up down = None ->
  (up = None /\ down = None) /\ forall i, i ∈ open -> inc_environment i = environment -> unrelated graph root i.
Proof.
  induction open as [|x l IH]; intros up down H; simpl in H.
  - split; [by destruct up as [[]|], down as [[]|]|]. intros i Hi. by apply elem_of_nil in Hi.
  - destruct (negb _) eqn:En.
    + destruct (IH _ _ H) as [? Hl]. split; [done|]. reflect_tests. intros i [->|Hi]%elem_of_cons; [done|auto].
    + destruct (inc_service x =?s root) eqn:Er; [done|]. destruct (IH _ _ H) as [[[P1 ->]%nearer_None [P2 ->]%nearer_None] Hl]. split; [done|].
      reflect_tests. intros i [->|Hi]%elem_of_cons; [done|auto].
Qed.

Lemma FindOpenByDedupeKey_None key g e w w' id j :
  FindOpenByDedupeKey key g e w = (Ok None, w') -> db_incidents (w_db w) !! id = Some j ->
  activeForGrouping (TruncateMicro (e_now e)) g (w_db w) j && carries (w_db w) key j = false.
Proof.
  unfold FindOpenByDedupeKey. intros (t & w1 & [-> ->]%db_now_ok & H)%bind_ok Hj.
  apply bind_ok in H as (items & w2 & (-> & _)%wrap_ok%query_ok & [Hh _]%ret_ok). symmetry in Hh. apply head_None in Hh.
  destruct (_ && _) eqn:E; [|done]. exfalso. cut (scanIncident (w_db w) j ∈ @nil Incident); [apply not_elem_of_nil|].
  rewrite <- Hh. apply elem_of_sort_stable, list_elem_of_fmap. exists j. split; [done|]. apply list_elem_of_filter. split; [exact E|].
  apply list_elem_of_fmap. exists (id, j). split; [done|]. by apply elem_of_map_to_list.
Qed.

Lemma EnsureService_same name e w svc w' :
  EnsureService name e w = (Ok svc, w') -> db_incidents (w_db w') = db_incidents (w_db w) /\ svc_name svc = name.
Proof.
  unfold EnsureService. intros (found & w1 & H1%attempt_ok & H)%bind_ok. destruct found as [x|err].
  - apply query_row_ok in H1 as (H1 & D1 & _). apply ret_ok in H as [-> ->]. rewrite D1. split; [done|].
    by apply service_named_Some in H1 as [? _].
  - apply stmt_fail in H1. destruct (negb _); [done|]. apply bind_ok in H as (id & w2 & [D2 _]%NewID_ok & H).
    apply bind_ok in H as (t & w3 & [-> ->]%now_ok & H). cbv zeta in H.
    apply bind_ok in H as (u & w4 & [H4 _]%wrap_ok%stmt_ok & [-> ->]%ret_ok).
    destruct (_ || _); [done|]. injection H4 as _ <-. simpl. split; [congruence|done].
Qed.

Lemma insert_incident_ok i e w u w' :
  insert_incident i e w = (Ok u, w') -> db_incidents (w_db w) !! inc_id i = None /\ w_db w' = set_incidents (<[inc_id i := i]>) (w_db w).
Proof.
  intros [H _]%stmt_ok. destruct (bool_decide _) eqn:E; [done|]. simpl in H. destruct (_ || _); [done|]. injection H as _ <-.
  reflect_tests. split; [by apply eq_None_not_Some|done].
Qed.

Lemma CreateAlertIncident_ok title s env sev key f summary at_ e w i w' :
  CreateAlertIncident title s env sev key f summary at_ e w = (Ok i, w') ->
  db_incidents (w_db w) !! inc_id i = None /\ db_incidents (w_db w') = <[inc_id i := i]> (db_incidents (w_db w)) /\
  inc_service i = s /\ inc_environment i = env /\ inc_dedupe_key i = key /\ inc_status i = Inc.StatusDetected /\
  inc_severity i = defaultSeverity sev.
Proof.
  unfold CreateAlertIncident. intros (svc & w1 & [D1 Hn]%EnsureService_same & H)%bind_ok.
  apply bind_ok in H as (t & w2 & [-> ->]%now_ok & H). apply bind_ok in H as (id & w3 & [D3 _]%NewID_ok & H). cbv zeta in H.
  apply bind_ok in H as (u & w4 & [H4 D4]%wrap_ok%insert_incident_ok & [-> ->]%ret_ok). rewrite D4. simpl in *.
  rewrite D3, D1 in *. by split_and!.
Qed.

Lemma PromoteIncidentRoot_ok id s title sev key f summary at_ e w i w' :
  PromoteIncidentRoot id s title sev key f summary at_ e w = (Ok i, w') -> context_ok (w_db w) ->
  exists j, db_incidents (w_db w') !! inc_id i = Some j /\ inc_id i = id /\ inc_status i = inc_status j /\
    dom (db_incidents (w_db w')) = dom (db_incidents (w_db w)).
Proof.
  intros H HC. pose proof (PromoteIncidentRoot_steady id s title sev key f summary at_ e w) as S. rewrite H in S. simpl in S.
  apply st_progress, pg_context in S; [|done].
  unfold PromoteIncidentRoot in H. apply bind_ok in H as (svc & w1 & [D1 _]%EnsureService_same & H).
  apply bind_ok in H as (t & w2 & [-> ->]%db_now_ok & H).
  apply bind_ok in H as (u & w3 & [H3 _]%wrap_ok%stmt_ok & (D3 & j & Hj & ->)%GetIncident_ok). rewrite D3 in *.
  assert (inc_id j = id) as Hid by apply (co_incidents _ S _ _ Hj). exists j. simpl. rewrite Hid. split_and!; [done..|].
  destruct (db_incidents (w_db w1) !! id) as [x|] eqn:E; [|injection H3 as _ <-; by rewrite D1].
  destruct (negb _); [done|]. injection H3 as _ <-. simpl. rewrite dom_insert_lookup_L by (rewrite E; eauto). by rewrite D1.
Qed.

Lemma findOrCreate_open m graph group root open e w incident created promoted w' :
  findOrCreateTopologyIncident m graph group root open e w = (Ok (incident, created, promoted), w') ->
  context_ok (w_db w) -> open_ok (w_db w) open ->
  exists j, db_incidents (w_db w') !! inc_id incident = Some j /\ Inc.IsClosed (inc_status j) = false.
Proof.
  unfold findOrCreateTopologyIncident. intros (exact_ & w1 & H1 & H)%bind_ok HC HO.
  assert (w_db w1 = w_db w) as D1.
  { destruct (_ =?s _); [|by apply ret_ok in H1 as [_ ->]].
    pose proof (FindOpenByDedupeKey_guar eq (na_dedupe_key root) (sm_grouping m) e w) as G. by rewrite H1 in G. }
  destruct exact_ as [i|].
  - apply ret_ok in H as [[= -> -> ->] ->]. destruct (_ =?s _); [|by apply ret_ok in H1 as [? _]].
    apply FindOpenByDedupeKey_ok in H1 as (_ & j & Hj & Ha%active_open & _ & _); [|done]. rewrite D1. by exists j.
  - destruct (relatedOpenIncident _ _ _ _) as [[existing promote]|] eqn:R.
    + apply relatedOpenIncident_elem in R. destruct (HO _ R) as (j & Hj & Hc).
      destruct (_ || _); [apply ret_ok in H as [[= -> -> ->] ->]; rewrite D1; by exists j|].
      apply bind_ok in H as (p & w2 & H2 & [[= -> -> ->] ->]%ret_ok).
      pose proof (PromoteIncidentRoot_kept 0 (inc_id existing) (group_root group) (rootTitle group root) (na_severity root)
        (rootDedupeKey group root) (rootFingerprint group root) (rootSummary group root) (am_starts_at (na_alert root)) e w1) as K.
      rewrite H2 in K. apply PromoteIncidentRoot_ok in H2 as (x & Hx & Hid & _); [|by rewrite D1].
      simpl in K. rewrite D1 in K. destruct (kp_incidents _ _ _ K _ _ Hj) as (j' & Hj' & Hs & _). rewrite <- Hid in Hj'.
      exists j'. by rewrite Hs.
    + apply bind_ok in H as (c & w2 & (_ & Hin & _ & _ & _ & Hs & _)%CreateAlertIncident_ok & [[= -> -> ->] ->]%ret_ok).
      exists c. rewrite Hin, lookup_insert_eq, Hs. done.
Qed.

(** ** Groups and normalised alerts *)

Lemma rootAlertForGroup_None alerts root : rootAlertForGroup alerts root = None -> alerts = [].
Proof. unfold rootAlertForGroup. destruct (find _ _); [done|]. by destruct alerts. Qed.

Lemma ingest_groups_run m graph actor alerts : forall groups open stats e w out w',
  ingest_groups m graph actor alerts groups open stats e w = (Ok out, w') -> 0 <= gr_alert_stale_after (sm_grouping m) ->
  context_ok (w_db w) -> open_ok (w_db w) open ->
  kept (TruncateMicro (e_now e)) (w_db w) (w_db w') /\
  forall g n, g ∈ groups -> n ∈ alertsForGroup alerts g ->
    exists incident, incident ∈ out.1 /\ on_incident (TruncateMicro (e_now e)) (inc_id incident) n (w_db w').
Proof.
  induction groups as [|g l IH]; intros open stats e w out w' H Hst HC HO; simpl in H.
  { apply ret_ok in H as [_ ->]. split; [done|]. intros g n Hg. by apply elem_of_nil in Hg. }
  set (t := TruncateMicro (e_now e)) in *. destruct (rootAlertForGroup _ _) as [root|] eqn:R.
  2: { apply rootAlertForGroup_None in R. destruct (IH _ _ _ _ _ _ H Hst HC HO) as [K O]. fold t in K, O. split; [done|].
       intros g' n [->|Hg]%elem_of_cons Hn; [rewrite R in Hn; by apply elem_of_nil in Hn|by apply (O g')]. }
  apply bind_ok in H as ([incident stats1] & w1 & H1 & H). apply bind_ok in H as (rest & w2 & H2 & [-> ->]%ret_ok). simpl in H2.
  assert (steady (w_db w) (w_db w1)) as S1.
  { exact (ingest_group_steady _ _ _ _ _ _ _ _ _ _ _ _ H1). }
  unfold ingest_group in H1. apply bind_ok in H1 as ([[inc created] promoted] & w3 & H3 & H1).
  pose proof (findOrCreate_open _ _ _ _ _ _ _ _ _ _ _ H3 HC HO) as (j & Hj & Hc).
  pose proof (findOrCreate_kept t m graph g root open e w) as K3. rewrite H3 in K3. simpl in K3.
  apply bind_ok in H1 as (inferred & w4 & H4 & H1). assert (kept t (w_db w3) (w_db w4)) as K4.
  { refine ((_ : okay (kept t) _) _ _ _ _ H4). handler_walk. }
  cbv zeta in H1. apply bind_ok in H1 as (u5 & w5 & H5 & H1). apply bind_ok in H1 as (u6 & w6 & H6 & H1).
  assert (kept t (w_db w4) (w_db w6)) as K6.
  { etrans; [refine ((_ : okay (kept t) _) _ _ _ _ H5)|refine ((_ : okay (kept t) _) _ _ _ _ H6)]; handler_walk. }
  apply bind_ok in H1 as (s7 & w7 & H7 & [[= -> ->] ->]%ret_ok). assert (kept t (w_db w3) (w_db w6)) as K36 by (by etrans).
  destruct (kp_incidents _ _ _ K36 _ _ Hj) as (j6 & Hj6 & Hs6 & _). rewrite <- Hs6 in Hc.
  destruct (attach_all_run _ _ _ _ _ _ _ _ _ _ _ H7 Hj6 Hc) as [K7 O7]. fold t in K7, O7.
  assert (kept t (w_db w) (w_db w7)) as K by (by repeat (etrans; [eassumption|])).
  destruct (kp_incidents _ _ _ K7 _ _ Hj6) as (j7 & Hj7 & Hs7 & _). rewrite <- Hs7 in Hc.
  destruct (IH _ _ _ _ _ _ H2 Hst) as [K2 O2]; [by apply (pg_context _ _ (st_progress _ _ S1))| |].
  { intros i [->|Hi]%elem_of_appendOrReplace; [by exists j7|]. by eapply open_ok_kept. }
  fold t in K2, O2. split; [by etrans|]. intros g' n [->|Hg]%elem_of_cons Hn; simpl.
  - exists inc. split; [left|]. eapply on_incident_kept; [exact K2|by apply O7].
  - destruct (O2 _ _ Hg Hn) as (i & Hi & Hon). exists i. split; [by right|done].
Qed.

Lemma groups_cover graph alerts n :
  n ∈ alerts -> na_service n <> "" -> exists g, g ∈ topologyGroupsByEnvironment graph alerts /\ n ∈ alertsForGroup alerts g.
Proof.
  intros Hn Hs. set (services := na_service <$> filter (fun a => na_environment a = na_environment n) alerts).
  destruct (Groups_cover graph services (na_service n)) as (g & Hg & Hm); [|done|].
  { apply list_elem_of_fmap. exists n. split; [done|]. by apply list_elem_of_filter. }
  exists (mkGroup (group_root g) (na_environment n) (group_inferred g) (group_members g) (group_paths g)). split.
  - unfold topologyGroupsByEnvironment. apply list_elem_of_bind. exists (na_environment n). split.
    + apply list_elem_of_fmap. by exists g.
    + apply elem_of_sortedKeys, elem_of_list_to_set, list_elem_of_fmap. by exists n.
  - unfold alertsForGroup. apply list_elem_of_filter. by split.
Qed.

Lemma firstNonEmpty_default l d : TrimSpace d <> "" -> firstNonEmpty (l ++ [d]) <> "".
Proof.
  intros Hd. induction l as [|x l IH]; simpl.
  - destruct (TrimSpace d =?s "") eqn:E; [by reflect_tests|]. simpl. intros ->. by apply Hd.
  - destruct (TrimSpace x =?s "") eqn:E; [exact IH|]. simpl. intros ->. vm_compute in E. discriminate.
Qed.

Lemma normalize_service payload alert t : na_service (normalize payload alert t) <> "".
Proof. apply (firstNonEmpty_default [_; _]). vm_compute. discriminate. Qed.

Lemma normalize_all_run payload alerts : forall e w out w',
  normalize_all payload alerts e w = (Ok out, w') ->
  (forall alert, alert ∈ alerts -> na_status (normalize payload alert (e_now e)) <> "resolved" ->
    exists svc, with_record (normalize payload alert (e_now e)) svc ∈ out.1) /\
  (forall n, n ∈ out.1 -> na_service n <> "").
Proof.
  induction alerts as [|a l IH]; intros e w out w' H; simpl in H.
  { apply ret_ok in H as [-> _]. split; [|intros n Hn]; [intros alert Ha|]; by apply elem_of_nil in Ha || by apply elem_of_nil in Hn. }
  apply bind_ok in H as (t & w1 & [-> ->]%now_ok & H). cbv zeta in H. destruct (_ =?s _) eqn:E.
  - apply bind_ok in H as (others & w2 & H2 & [-> ->]%ret_ok). apply IH in H2 as [H2 H3]. reflect_tests. split; [|exact H3].
    intros alert [->|Ha]%elem_of_cons Hs; [done|by apply H2].
  - apply bind_ok in H as (svc & w2 & _ & H). apply bind_ok in H as (others & w3 & H3 & [-> ->]%ret_ok). apply IH in H3 as [H3 H4]. split; simpl.
    + intros alert [->|Ha]%elem_of_cons Hs; [exists svc; left|]. destruct (H3 _ Ha Hs) as [x Hx]. exists x. by right.
    + intros n [->|Hn]%elem_of_cons; [apply normalize_service|by apply H4].
Qed.

(** ** The resolve phase *)

(** No incident appears, disappears or changes its status. *)
Definition same_statuses (d d' : DB) : Prop :=
  forall id, inc_status <$> db_incidents d' !! id = inc_status <$> db_incidents d !! id.

#[export] Instance same_statuses_refl : Reflexive same_statuses.
Proof. intros d id. done. Qed.
#[export] Instance same_statuses_trans : Transitive same_statuses.
Proof. intros d1 d2 d3 H1 H2 id. by rewrite H2, H1. Qed.

Lemma same_statuses_eq d d' : db_incidents d' = db_incidents d -> same_statuses d d'.
Proof. intros H id. by rewrite H. Qed.

Lemma same_statuses_update id cond f :
  (forall i, inc_status (f i) = inc_status i) -> guar same_statuses (update_if db_incidents set_incidents id cond f).
Proof.
  intros Hf. apply guar_update_if; [typeclasses eauto|]. intros d i Hi _ k. simpl. destruct (decide (k = id)) as [->|].
  - by rewrite lookup_insert_eq, Hi; simpl; rewrite Hf.
  - by rewrite lookup_insert_ne.
Qed.

Lemma EnsureService_statuses name : guar same_statuses (EnsureService name).
Proof.
  unfold EnsureService. guar_walk. apply guar_stmt; [typeclasses eauto|]. intros d u d'. simpl. destruct (_ || _); [done|]. intros [= _ <-].
  by apply same_statuses_eq.
Qed.
Lemma AddSignal_statuses x : okay same_statuses (AddSignal x).
Proof. intros e w u w' (row & -> & _)%AddSignal_ok. by apply same_statuses_eq. Qed.
Lemma AddTimelineEvent_statuses x : okay same_statuses (AddTimelineEvent x).
Proof. intros e w u w' (row & ->)%AddTimelineEvent_ok. by apply same_statuses_eq. Qed.
Lemma MarkAlertResolved_statuses id key at_ stale : guar same_statuses (MarkAlertResolved id key at_ stale).
Proof.
  unfold MarkAlertResolved. guar_walk; [|by apply same_statuses_update]. apply guar_exec; [typeclasses eauto|]. intros d.
  destruct (alerts_of d !! _); [by apply same_statuses_eq|done].
Qed.
Lemma MarkAlertsCleared_statuses id : guar same_statuses (MarkAlertsCleared id).
Proof. unfold MarkAlertsCleared. guar_walk. by apply same_statuses_update. Qed.
Lemma writeAudit_statuses entry : guar same_statuses (writeAudit entry).
Proof.
  unfold writeAudit. apply guar_wrap. eapply guar_mono; [|apply WriteTx_only]. intros d d' A. apply same_statuses_eq, A.
Qed.
#[local] Hint Resolve EnsureService_statuses AddSignal_statuses AddTimelineEvent_statuses MarkAlertResolved_statuses
  MarkAlertsCleared_statuses writeAudit_statuses : guar.

Lemma resolve_all_statuses m alerts actor stats : okay same_statuses (resolve_all m alerts actor stats).
Proof. revert stats. induction alerts as [|a l IH]; intros stats; simpl; unfold resolveAlert; handler_walk. Qed.

Lemma normalize_all_statuses payload alerts : guar same_statuses (normalize_all payload alerts).
Proof. induction alerts as [|a l IH]; simpl; handler_walk. Qed.

Lemma resolve_all_counts m alerts actor : forall stats e w stats' w',
  resolve_all m alerts actor stats e w = (Ok stats', w') ->
  is_resolved_alerts stats' + is_unmatched_resolved_alerts stats' =
  is_resolved_alerts stats + is_unmatched_resolved_alerts stats + Z.of_nat (length alerts).
Proof.
  induction alerts as [|a l IH]; intros stats e w stats' w' H; simpl in H; [apply ret_ok in H as [-> _]; simpl; lia|].
  apply bind_ok in H as (s & w1 & H1 & H%IH). rewrite H. cut (is_resolved_alerts s + is_unmatched_resolved_alerts s =
    is_resolved_alerts stats + is_unmatched_resolved_alerts stats + 1); [simpl; lia|].
  unfold resolveAlert in H1. apply bind_ok in H1 as ([i|] & w2 & _ & H1); [|apply ret_ok in H1 as [-> _]; simpl; lia].
  do 4 (apply bind_ok in H1 as (? & ? & _ & H1)). apply bind_ok in H1 as (? & ? & _ & H1).
  destruct (0 <? _); [apply ret_ok in H1 as [-> _]; simpl; lia|]. do 3 (apply bind_ok in H1 as (? & ? & _ & H1)).
  apply ret_ok in H1 as [-> _]. simpl. lia.
Qed.

Lemma normalize_all_resolved payload alerts : forall e w out w',
  normalize_all payload alerts e w = (Ok out, w') ->
  (forall alert, alert ∈ alerts -> na_status (normalize payload alert (e_now e)) = "resolved") ->
  out.1 = [] /\ length out.2 = length alerts.
Proof.
  induction alerts as [|a l IH]; intros e w out w' H Hr; cbn [normalize_all] in H; [by apply ret_ok in H as [-> _]|].
  apply bind_ok in H as (t & w1 & [-> ->]%now_ok & H). cbv zeta in H. rewrite (Hr a) in H by left. cbn in H.
  apply bind_ok in H as (others & w2 & H2 & [-> _]%ret_ok). simpl. destruct (IH _ _ _ _ H2) as [-> ->]; [|done].
  intros alert Ha. apply Hr. by right.
Qed.

(** ** Properties *)

(** C13: no firing alert is lost. After a delivery was ingested, every alert of it
    that is not resolved fires, as of now, under its key on an incident of the
    result that exists, is not closed and is not marked as cleared, and a signal
    with its name and start is recorded there. *)
Theorem firing_alerts_attached m payload actor e w r w' alert :
  0 <= gr_alert_stale_after (sm_grouping m) -> context_ok (w_db w) ->
  IngestAlertmanagerWithResult m payload actor e w = (Ok r, w') ->
  alert ∈ wh_alerts payload -> na_status (normalize payload alert (e_now e)) <> "resolved" ->
  exists incident, incident ∈ ir_incidents r /\
    on_incident (TruncateMicro (e_now e)) (inc_id incident) (normalize payload alert (e_now e)) (w_db w').
Proof.
  intros Hst HC H Ha Hs. apply in_tx_ok in H as (w0 & w1 & D0 & _ & H & D1 & _). rewrite D1. rewrite <- D0 in HC.
  apply bind_ok in H as (u & w2 & [D2 _]%wrap_ok%exec_ok & H). unfold id in D2. rewrite <- D2 in HC. unfold ingest, normalizeAlerts in H.
  apply bind_ok in H as (split & w3 & H3 & H). apply bind_ok in H3 as (both & w4 & H4 & [-> ->]%ret_ok). simpl in H.
  pose proof (okay_guar _ _ (normalize_all_steady _ _) _ _ _ _ H4) as S4. apply normalize_all_run in H4 as [Hall Hsvc].
  apply bind_ok in H as (stats & w5 & H5 & H). pose proof (resolve_all_steady m Hst _ _ _ _ _ _ _ H5) as S5.
  assert (context_ok (w_db w5)) as C5 by (apply (pg_context _ _ (st_progress _ _ (transitivity S4 S5))); exact HC).
  destruct (Hall _ Ha Hs) as [svc Hn]. apply (elem_of_sort_stable alert_before) in Hn. fold (sortAlerts both.1) in Hn.
  destruct (Nat.eqb _ _) eqn:L; [apply Nat.eqb_eq, nil_length_inv in L; rewrite L in Hn; by apply elem_of_nil in Hn|].
  apply bind_ok in H as (dependencies & w6 & (-> & D6 & _)%wrap_ok%query_ok & H). cbv zeta in H. rewrite <- D6 in C5.
  apply bind_ok in H as (open & w7 & H7 & H). pose proof (ListOpenIncidents_ok _ _ _ _ _ H7 C5) as HO.
  pose proof (ListOpenIncidents_guar eq (sm_grouping m) e w6) as G7. rewrite H7 in G7. simpl in G7. rewrite G7 in C5.
  apply bind_ok in H as (out & w8 & H8 & [-> ->]%ret_ok).
  destruct (ingest_groups_run _ _ _ _ _ _ _ _ _ _ _ H8 Hst C5 HO) as [_ O].
  destruct (groups_cover (New (dependency_rows (w_db w5))) (sortAlerts both.1) _ Hn) as (g & Hg & Hng).
  { apply Hsvc. by rewrite <- (elem_of_sort_stable alert_before). }
  destruct (O g _ Hg Hng) as (incident & Hi & [O1 O2 O3]). exists incident. split; [done|]. by split.
Qed.

(** Resolved notifications only resolve. A delivery in which every alert is
    resolved returns no incident, opens none and changes no incident's status;
    each of its alerts is counted as applied or as unmatched. *)
Theorem resolved_delivery_opens_nothing m payload actor e w r w' :
  IngestAlertmanagerWithResult m payload actor e w = (Ok r, w') ->
  (forall alert, alert ∈ wh_alerts payload -> na_status (normalize payload alert (e_now e)) = "resolved") ->
  ir_incidents r = [] /\ same_statuses (w_db w) (w_db w') /\
  is_resolved_alerts (ir_stats r) + is_unmatched_resolved_alerts (ir_stats r) = Z.of_nat (length (wh_alerts payload)).
Proof.
  intros H Hr. apply in_tx_ok in H as (w0 & w1 & D0 & _ & H & D1 & _). rewrite D1, <- D0.
  apply bind_ok in H as (u & w2 & [D2 _]%wrap_ok%exec_ok & H). unfold id in D2. rewrite <- D2. unfold ingest, normalizeAlerts in H.
  apply bind_ok in H as (split & w3 & H3 & H). apply bind_ok in H3 as (both & w4 & H4 & [-> ->]%ret_ok). simpl in H.
  pose proof (okay_guar _ _ (normalize_all_statuses _ _) _ _ _ _ H4) as S4. apply normalize_all_resolved in H4 as [E1 E2]; [|done].
  rewrite E1 in H. simpl in H. apply bind_ok in H as (stats & w5 & H5 & [-> ->]%ret_ok). simpl.
  pose proof (resolve_all_statuses _ _ _ _ _ _ _ _ H5) as S5. apply resolve_all_counts in H5.
  unfold sortAlerts in H5. rewrite length_sort_stable, E2 in H5. simpl in H5. split; [done|]. split; [by etrans|lia].
Qed.


(** ** Witnesses *)

Definition demo_manager : ServiceManager := NewServiceManager (30 * minute).
Definition demo_catalog : Observed :=
  mkObserved {["svc_1" := mkService "svc_1" "payments-api" "" "tier1" "local" None None None 0;
               "svc_2" := mkService "svc_2" "postgres" "" "tier1" "local" None None None 0]}
    {[("svc_1", "svc_2") := mkDependencyRow "dep_1" "datastore" "critical" 0]} ∅ [] [] ∅.
Definition catalog_world : world := mkWorld (mkDB ∅ ∅ ∅ ∅ ∅ ∅ ∅ [] (Some (0, GenesisHash)) demo_catalog) 0 [].

Definition demo_alert (name service status : string) : AlertmanagerAlert :=
  mkAlertmanagerAlert status {["alertname" := name; "service" := service; "severity" := "sev2"]} ∅ (1709210000 * second) zero_time name "".
Definition demo_payload (status : string) : AlertmanagerWebhook :=
  mkAlertmanagerWebhook "4" "" 0 status "argus" "" ∅ ∅ ∅
    [demo_alert "HighErrorRate" "payments-api" status; demo_alert "PostgresDown" "postgres" status].

Definition delivered : result IngestionResult * world :=
  IngestAlertmanagerWithResult demo_manager (demo_payload "firing") "alertmanager" quiet_env catalog_world.
Definition incidents_of (r : result IngestionResult) : list Incident := match r with Ok r => ir_incidents r | Fail _ => [] end.
Definition delivered_incidents : list Incident := incidents_of delivered.1.

(** Both alerts end up on one incident, on the root of the failure. *)
Example one_incident_for_both : (inc_service <$> delivered_incidents) = ["postgres"].
Proof. vm_compute. reflexivity. Qed.

Lemma catalog_context : context_ok (w_db catalog_world).
Proof.
  split; simpl.
  - intros id i. by rewrite lookup_empty.
  - intros id key a. by rewrite lookup_empty.
  - intros id svc [[<- <-]|[_ [<- <-]%lookup_singleton_Some]]%lookup_insert_Some; done.
  - intros id1 id2 svc1 svc2 [[<- <-]|[_ [<- <-]%lookup_singleton_Some]]%lookup_insert_Some
      [[<- <-]|[_ [<- <-]%lookup_singleton_Some]]%lookup_insert_Some; done.
  - intros id i t key a. by rewrite lookup_empty.
Qed.

Lemma delivered_ok : is_ok delivered.1 = true.
Proof. vm_compute. reflexivity. Qed.

Lemma firing_alerts_attached_witness :
  exists incident a, incident ∈ delivered_incidents /\
    alerts_of (w_db delivered.2) !! (inc_id incident, "payments-api:HighErrorRate:local:HighErrorRate") = Some a /\ ia_status a = "firing".
Proof.
  pose proof delivered_ok as O. unfold delivered_incidents. destruct delivered as [[r|err] w'] eqn:E; [|discriminate O].
  destruct (firing_alerts_attached demo_manager (demo_payload "firing") "alertmanager" quiet_env catalog_world r w'
    (demo_alert "HighErrorRate" "payments-api" "firing")) as (incident & Hi & [_ (a & Ha & Hf & _) _]).
  - vm_compute. discriminate.
  - exact catalog_context.
  - exact E.
  - left.
  - vm_compute. discriminate.
  - exists incident, a. split; [exact Hi|]. split; [exact Ha|exact Hf].
Defined.

Definition resolved_delivery : result IngestionResult * world :=
  IngestAlertmanagerWithResult demo_manager (demo_payload "resolved") "alertmanager" quiet_env delivered.2.

Lemma resolved_ok : match resolved_delivery.1 with Ok r => is_resolved_alerts (ir_stats r) = 2 | Fail _ => False end.
Proof. vm_compute. reflexivity. Qed.

Lemma resolved_delivery_opens_nothing_witness :
  exists r w', resolved_delivery = (Ok r, w') /\ is_unmatched_resolved_alerts (ir_stats r) = 0 /\ same_statuses (w_db delivered.2) (w_db w').
Proof.
  pose proof resolved_ok as O. destruct resolved_delivery as [[r|err] w'] eqn:E; [|contradiction O]. exists r, w'. split; [reflexivity|].
  destruct (resolved_delivery_opens_nothing demo_manager (demo_payload "resolved") "alertmanager" quiet_env delivered.2 r w') as (_ & Hs & Hc).
  - exact E.
  - intros alert [->|[->|[]%elem_of_nil]%elem_of_cons]%elem_of_cons; vm_compute; reflexivity.
  - split; [|exact Hs]. simpl in O, Hc. rewrite O in Hc. apply (Z.add_cancel_l _ _ 2). exact Hc.
Defined.

Definition demo_graph : Graph := New (dependency_rows (w_db catalog_world)).
Definition demo_alerts : list normalizedAlert := (fun a => normalize (demo_payload "firing") a 0) <$> wh_alerts (demo_payload "firing").
Definition demo_group : Group := default (mkGroup "" "" false [] ∅) (head (topologyGroupsByEnvironment demo_graph demo_alerts)).
Definition demo_root : normalizedAlert := normalize (demo_payload "firing") (demo_alert "PostgresDown" "postgres" "firing") 0.
Definition demo_found : result (Incident * bool * bool) * world :=
  findOrCreateTopologyIncident demo_manager demo_graph demo_group demo_root [] quiet_env catalog_world.

Lemma demo_found_new : match demo_found.1 with Ok (_, created, _) => created = true | Fail _ => False end.
Proof. vm_compute. reflexivity. Qed.

