(* ===== verification/Http.v ===== *)
(** * Calls over HTTP

    What the clients of the sources use of [net/http] and [encoding/json]: a request,
    the answer of a server outside the sources, and decoding of its body into a
    struct. A request keeps its body, or the Go value its JSON body is marshalled from. *)
From Stdlib Require Import Ascii String ZArith Lia.
From stdpp Require Import base gmap strings list.
From S2P Require Import Prelude GoStrings GoValue Json Marshal Types Database.
Open Scope Z_scope.

Inductive RequestBody := Marshalled (v : value) | Text (s : string).

Record HttpRequest := mkHttpRequest {
  hq_method : string;
  hq_url : string;
  hq_headers : list (string * string);
  hq_body : option RequestBody;
}.
Record HttpResponse := mkHttpResponse { hs_code : Z; hs_status : string; hs_body : string }.

(** A server, and what can go wrong on the way to it: [hc_url_error] is the verdict of
    [net/url] on an address, [hc_do] the outcome of the exchange that is the [n]-th
    effect of a call, [hc_elapsed] the time that passed before the [n]-th round of a
    polling loop and [hc_cancelled] whether the caller gave up by then. *)
Record HttpClient := mkHttpClient {
  hc_url_error : string -> option string;
  hc_do : nat -> HttpRequest -> result HttpResponse;
  hc_elapsed : nat -> Z;
  hc_cancelled : nat -> option string;
}.

Definition NewRequest (c : HttpClient) (method url : string) (headers : list (string * string)) (body : option RequestBody) : M HttpRequest :=
  match hc_url_error c url with
  | Some msg => throw (errorf msg)
  | None => ret (mkHttpRequest method url headers body)
  end.

Definition Do (c : HttpClient) (req : HttpRequest) : M HttpResponse := fun _ w => (hc_do c (w_tick w) req, tick w).

(** ** Decoding into structs *)

(** The members of the text's first value; [null] leaves a struct as it is. *)
Definition decode_object (text : string) : result (list (string * json)) :=
  match Decode text with
  | Some (JObj m) => Ok m
  | Some JNull => Ok []
  | Some _ => Fail (errorf "json: cannot unmarshal into a struct")
  | None => Fail (errorf "invalid JSON text")
  end.

(** A field takes every member with its name, in any case; the last one stays. *)
Definition decode_field {A} (decode : A -> json -> result A) (name : string) (zero : A) (m : list (string * json)) : result A :=
  foldl (fun acc kv => let! a := acc in if EqualFold kv.1 name then decode a kv.2 else Ok a) (Ok zero) m.

Definition decode_string (old : string) (j : json) : result string :=
  match j with
  | JStr s => Ok s
  | JNull => Ok old
  | _ => Fail (errorf "json: cannot unmarshal into a string")
  end.

(** [map[string]string]: members are added to the map; [null] makes it nil. *)
Definition decode_string_map (old : option (gmap string string)) (j : json) : result (option (gmap string string)) :=
  match j with
  | JNull => Ok None
  | JObj m =>
      foldl (fun acc kv => let! a := acc in let! s := decode_string "" kv.2 in Ok (Some (<[kv.1 := s]> (default ∅ a))))
        (Ok (Some (default ∅ old))) m
  | _ => Fail (errorf "json: cannot unmarshal into a map")
  end.

(** A slice: the elements of the last list. *)
Fixpoint decode_all {A} (decode : json -> result A) (l : list json) : result (list A) :=
  match l with
  | [] => Ok []
  | x :: l => let! a := decode x in let! rest := decode_all decode l in Ok (a :: rest)
  end.
Definition decode_list {A} (decode : json -> result A) (_ : list A) (j : json) : result (list A) :=
  match j with
  | JNull => Ok []
  | JArr l => decode_all decode l
  | _ => Fail (errorf "json: cannot unmarshal into a slice")
  end.

(** Decoding into an [any]. *)
Fixpoint json_value (j : json) : value :=
  match j with
  | JNull => VNil
  | JBool b => VBool b
  | JNum s => VFloat (number_value s)
  | JStr s => VString s
  | JArr l => VList (List.map json_value l)
  | JObj m => VMap (List.map (fun kv => (kv.1, json_value kv.2)) m)
  end.

(** Into a [map[string]any]: the last member of a name stays. *)
Definition decode_map (text : string) : result params :=
  let! m := decode_object text in
  Ok (list_to_map (rev ((fun kv => (kv.1, json_value (canonical kv.2))) <$> m))).

Section http_guarantees.
Context (R : DB -> DB -> Prop) `{!Reflexive R}.
Lemma NewRequest_guar c method url headers body : guar R (NewRequest c method url headers body).
Proof. unfold NewRequest. destruct (hc_url_error c url); intros e w; reflexivity. Qed.
Lemma Do_guar c req : guar R (Do c req).
Proof. intros e w. unfold Do. simpl. reflexivity. Qed.
End http_guarantees.
#[export] Hint Resolve NewRequest_guar Do_guar : guar.

Example decode_fields :
  (let! m := decode_object (enc (JObj [("state", JStr "running"); ("STATE", JStr "succeeded"); ("metadata", JObj [("a", JStr "b")])])) in
   let! s := decode_field decode_string "state" "" m in
   let! d := decode_field decode_string_map "metadata" None m in Ok (s, d)) = Ok ("succeeded", Some {["a" := "b"]}).
Proof. vm_compute. reflexivity. Qed.
