(* ===== verification/Reports.v ===== *)
(** * The analysis service ([internal/rca/service.go])

    Generating a report stores it with the probe observations it cites and moves the
    incident forward; the advisory summary is added later, and a proposal reuses a
    report no alert arrived after. The advisor is a server outside the sources. *)
From Stdlib Require Import Ascii String ZArith Lia SpecFloat.
From stdpp Require Import base gmap strings list relations.
From S2P Require Import Prelude GoStrings GoFloat GoValue Actions Topology Json Marshal Ledger Lifecycle Types Evidence Correlation RCA.
From S2P Require Import Database AuditLog Store Progress Observations Http.
Open Scope Z_scope.

Record RCAService := mkRCAService {
  rca_ai_url : string;
  rca_ai_token : string;
  rca_client : HttpClient;
  rca_correlator : Correlator;
  rca_collector : option Collector;
}.

Definition new_report (s : RCAService) (id incidentID : string) (a : analysis) (top : IncidentTopology) (time : Z) : RCAReport :=
  mkRCAReport id incidentID (an_summary a) "" (an_hypothesis a) (an_factors a) (an_evidence a) (an_confidence a) "deterministic" "" top
    (an_items a) (an_score a) (an_candidates a) (if negb (rca_ai_url s =?s "") then LLMStatusPending else LLMStatusDisabled) time.

(** ** The advisor *)

Definition ai_headers (s : RCAService) : list (string * string) :=
  if rca_ai_token s =?s "" then [] else [("Authorization", "Bearer " +:+ rca_ai_token s)].

Definition topology_value (top : IncidentTopology) : value :=
  VMap [("incident_id", VString (top_incident_id top)); ("root_service", VString (top_root_service top));
    ("root_inferred", VBool (top_root_inferred top)); ("affected_services", VStrings (top_affected_services top));
    ("alert_count", VInt (top_alert_count top)); ("suppressed_alert_count", VInt (top_suppressed_alert_count top));
    ("dependency_paths", VList ((fun p => VMap [("from", VString (path_from p)); ("to", VString (path_to p));
       ("services", VStrings (path_services p))]) <$> top_paths top))].

Definition ErrAIServiceDisabled : error := mkError KAIDisabled "ai service disabled".

Record Advice := mkAdvice { adv_summary : string; adv_backend : string; adv_model : string }.

Definition callAdvisor (s : RCAService) (incident : Incident) (evidence : list string) (hypothesis : string) (confidence : float64)
    (top : IncidentTopology) : M Advice :=
  if rca_ai_url s =?s "" then throw (errorf "ai service disabled")
  else
    req <- NewRequest (rca_client s) "POST" (rca_ai_url s +:+ "/v1/rca/summarize") (("Content-Type", "application/json") :: ai_headers s)
      (Some (Marshalled (VMap [("incident", VMap [("id", VString (inc_id incident)); ("title", VString (inc_title incident));
           ("service", VString (inc_service incident)); ("severity", VString (inc_severity incident)); ("started_at", VTime (inc_started_at incident))]);
         ("primary_hypothesis", VString hypothesis); ("evidence", VStrings evidence); ("confidence", VFloat confidence);
         ("topology", topology_value top)]))) ;;
    resp <- Do (rca_client s) req ;;
    if 400 <=? hs_code resp then throw (errorf ("ai service returned " +:+ hs_status resp))
    else
      lift (let! m := decode_object (hs_body resp) in
            let! summary := decode_field decode_string "summary" "" m in
            let! backend := decode_field decode_string "backend" "" m in
            let! model := decode_field decode_string "model" "" m in
            Ok (mkAdvice summary backend model)).

(** The outcome of the background call is recorded on the report. *)
Definition recordAdvice (reportID : string) (advice : result Advice) : M unit :=
  ignore (match advice with
          | Ok a => UpdateRCAReportLLM reportID LLMStatusCompleted (adv_summary a) (adv_backend a) (adv_model a)
          | Fail _ => UpdateRCAReportLLM reportID LLMStatusFailed "" "" ""
          end).

(** The part of [summarizeLater] that runs in the background. *)
Definition summarize (s : RCAService) (incident : Incident) (report : RCAReport) (top : IncidentTopology) : M unit :=
  advice <- attempt (callAdvisor s incident (rep_evidence report) (rep_primary_hypothesis report) (rep_confidence report) top) ;;
  recordAdvice (rep_id report) advice.

(** When the pool is full the summary is marked failed at once. *)
Definition summarizeLater (report : RCAReport) : M unit :=
  slot <- try_lock ;;
  if (slot : bool) then ret tt else recordAdvice (rep_id report) (Fail (errorf "no slot")).

(** ** Reports *)

Definition Generate (s : RCAService) (incidentID : string) : M (RCAReport * list RCACandidate) :=
  incident <- GetIncident incidentID ;;
  signals <- ListSignals incidentID ;;
  top <- GetIncidentTopology incidentID ;;
  time <- now ;;
  let a := analyze (rca_correlator s) (rca_collector s) time incident signals top in
  id <- NewID "rca" ;;
  let report := new_report s id incidentID a top time in
  InTx (
    for_each (probeTimelineEvents incidentID (an_items a)) AddTimelineEvent ;;;
    SaveRCAReport report) ;;;
  ignore (TransitionIncident incidentID Inc.StatusRCAGenerated) ;;;
  (if rep_llm_status report =?s LLMStatusPending then summarizeLater report else ret tt) ;;;
  ret (report, an_candidates a).

(** The latest report, when it has candidates and no alert arrived since. *)
Definition ReportForProposal (s : RCAService) (incident : Incident) : M (RCAReport * list RCACandidate * bool) :=
  latest <- attempt (GetLatestRCAReport (inc_id incident)) ;;
  let fresh := '(report, candidates) <- Generate s (inc_id incident) ;; ret (report, candidates, false) in
  match latest with
  | Ok latest =>
      if Nat.ltb 0 (length (rep_candidates latest)) && negb (rep_created_at latest <? inc_last_seen_at incident)
      then ret (latest, rep_candidates latest, true) else fresh
  | Fail _ => fresh
  end.

(** Suggestions of the advisor that keep to advising. *)
Definition SuggestRemediations (s : RCAService) (incidentID : string) : M params :=
  if rca_ai_url s =?s "" then throw (errorf "ai service disabled")
  else
    incident <- GetIncident incidentID ;;
    signals <- ListSignals incidentID ;;
    top <- GetIncidentTopology incidentID ;;
    time <- now ;;
    let a := analyze (rca_correlator s) (rca_collector s) time incident signals top in
    req <- NewRequest (rca_client s) "POST" (rca_ai_url s +:+ "/v1/remediation/suggest") (("Content-Type", "application/json") :: ai_headers s)
      (Some (Marshalled (VMap [("incident", VMap [("id", VString (inc_id incident)); ("title", VString (inc_title incident));
           ("service", VString (inc_service incident)); ("severity", VString (inc_severity incident));
           ("environment", VString (inc_environment incident))]);
         ("evidence", VStrings (an_evidence a));
         ("deterministic_candidates", VList ((fun c => VMap ([("action_type", VString (cand_action_type c)); ("target", VString (cand_target c))]
            ++ (if decide (cand_parameters c = ∅) then [] else [("parameters", VMap (map_to_list (cand_parameters c)))])
            ++ [("risk", VString (cand_risk c)); ("requires_approval", VBool (cand_requires_approval c))])) <$> an_candidates a));
         ("confidence", VFloat (an_confidence a)); ("topology", topology_value top)]))) ;;
    resp <- Do (rca_client s) req ;;
    if 400 <=? hs_code resp then throw (errorf ("governed AI suggestion returned " +:+ hs_status resp))
    else
      payload <- lift (decode_map (hs_body resp)) ;;
      lift (validateAdvisoryResponse payload) ;;;
      ret payload.

(** Asks the advisor to index the runbooks again. *)
Definition ReindexRunbooks (s : RCAService) : M params :=
  if rca_ai_url s =?s "" then throw ErrAIServiceDisabled
  else
    req <- NewRequest (rca_client s) "POST" (rca_ai_url s +:+ "/v1/runbooks/index") (ai_headers s) None ;;
    resp <- Do (rca_client s) req ;;
    if 400 <=? hs_code resp then throw (errorf ("ai service returned " +:+ hs_status resp))
    else lift (decode_map (hs_body resp)).

(** ** Guarantees *)

Section report_reads.
Context (R : DB -> DB -> Prop) `{!Reflexive R, !Transitive R}.
Lemma callAdvisor_guar s i ev h c top : guar R (callAdvisor s i ev h c top).
Proof. unfold callAdvisor. handler_walk. Qed.
Lemma SuggestRemediations_guar s id : guar R (SuggestRemediations s id).
Proof. unfold SuggestRemediations. handler_walk. Qed.
End report_reads.
#[export] Hint Resolve callAdvisor_guar : guar.

Lemma recordAdvice_steady id advice : guar steady (recordAdvice id advice).
Proof. unfold recordAdvice. handler_walk. Qed.
#[export] Hint Resolve recordAdvice_steady : guar.

Lemma summarize_steady s i report top : guar steady (summarize s i report top).
Proof. unfold summarize. handler_walk. Qed.

Lemma Generate_steady s id : guar steady (Generate s id).
Proof. unfold Generate, summarizeLater. handler_walk. Qed.
#[export] Hint Resolve Generate_steady : guar.

Lemma ReportForProposal_steady s i : guar steady (ReportForProposal s i).
Proof. unfold ReportForProposal. handler_walk. Qed.

(** ** Runs *)

Definition event_recorded (x row : TimelineEvent) : Prop :=
  tme_incident_id row = tme_incident_id x /\ tme_event_type row = tme_event_type x /\ tme_summary row = tme_summary x /\
  tme_evidence row = reread_map (tme_evidence x) /\ tme_occurred_at row = tme_occurred_at x.

Lemma AddTimelineEvent_run x e w u w' :
  AddTimelineEvent x e w = (Ok u, w') -> exists row, w_db w' = add_timeline row (w_db w) /\ event_recorded x row.
Proof.
  unfold AddTimelineEvent. intros H. apply bind_ok in H as (id & w1 & H1 & H). assert (w_db w1 = w_db w) as D1.
  { destruct (_ =?s _); [by apply NewID_ok in H1 as [? _]|by apply ret_ok in H1 as [_ ->]]. }
  run_inv H. apply stmt_ok in H as [H _]. rewrite D1 in H. destruct (_ || _); [done|]. injection H as <-. by eexists.
Qed.

Lemma add_events_run l : forall e w u w', for_each l AddTimelineEvent e w = (Ok u, w') ->
  exists rows, Forall2 event_recorded l rows /\
    ob_timeline (db_observed (w_db w')) = ob_timeline (db_observed (w_db w)) ++ rows /\
    ob_reports (db_observed (w_db w')) = ob_reports (db_observed (w_db w)).
Proof.
  induction l as [|x l IH]; intros e w u w' H; simpl in H.
  - apply ret_ok in H as [_ ->]. exists []. rewrite app_nil_r. done.
  - apply bind_ok in H as (u1 & w1 & (row & D1 & Hr)%AddTimelineEvent_run & (rows & HF & HT & HR)%IH). exists (row :: rows).
    rewrite HT, HR, D1. simpl. rewrite <- app_assoc. split; [by constructor|done].
Qed.

(** What a stored report keeps of the one that was generated. *)
Record stored_as (report stored : RCAReport) : Prop := {
  sd_incident : rep_incident_id stored = rep_incident_id report;
  sd_summary : rep_deterministic_summary stored = rep_deterministic_summary report;
  sd_hypothesis : rep_primary_hypothesis stored = rep_primary_hypothesis report;
  sd_evidence : rep_evidence stored = rep_evidence report;
  sd_items : rep_evidence_items stored = rep_evidence_items report;
  sd_score : rep_score stored = rep_score report;
  sd_topology : rep_topology stored = rep_topology report;
  sd_created : rep_created_at stored = rep_created_at report;
  sd_confidence : numeric_4_3 (rep_confidence report) = Some (rep_confidence stored);
  sd_candidates : rep_candidates stored = reread_candidate <$> rep_candidates report;
}.

Lemma stored_as_kept report r r' : same_report r r' -> stored_as report r -> stored_as report r'.
Proof. unfold same_report, findings_of. intros [=] []. split; congruence. Qed.

Lemma SaveRCAReport_run report e w u w' :
  SaveRCAReport report e w = (Ok u, w') -> rep_id report <> "" -> rep_created_at report = e_now e ->
  ob_reports (db_observed (w_db w)) !! rep_id report = None /\ exists stored,
  w_db w' = set_reports (<[rep_id report := stored]>) (w_db w) /\ stored_as report stored.
Proof.
  unfold SaveRCAReport. intros H Hid Ht. apply bind_ok in H as (id & w1 & H1 & H).
  destruct (rep_id report =?s "") eqn:E; reflect_tests; [done|]. apply ret_ok in H1 as [-> ->].
  apply bind_ok in H as (t & w2 & [-> ->]%now_ok & [H _]%wrap_ok%stmt_ok).
  destruct (numeric_4_3 _) as [c|] eqn:N; [|done]. destruct (_ || _) eqn:Eb; [done|]. injection H as _ <-. apply orb_false_iff in Eb as [Eb _].
  split; [apply eq_None_not_Some; by reflect_tests|]. eexists. split; [done|]. split; simpl; try done. rewrite Ht. destruct (IsZero _); done.
Qed.

(** The step after the transaction cannot fail and keeps the report. *)
Lemma after_report_run report e w w' r :
  (ignore (TransitionIncident (rep_incident_id report) Inc.StatusRCAGenerated) ;;;
   (if rep_llm_status report =?s LLMStatusPending then summarizeLater report else ret tt)) e w = (r, w') ->
  r = Ok tt /\ ob_timeline (db_observed (w_db w')) = ob_timeline (db_observed (w_db w)).
Proof.
  unfold bind, ignore at 1. destruct (TransitionIncident _ _ e w) as [x w1] eqn:T.
  assert (db_observed (w_db w1) = db_observed (w_db w)) as D1.
  { assert (guar (fun d d' => db_observed d' = db_observed d) (TransitionIncident (rep_incident_id report) Inc.StatusRCAGenerated)) as G.
    { assert (Transitive (fun d d' : DB => db_observed d' = db_observed d)) by (intros ? ? ? ? ?; congruence).
      assert (Reflexive (fun d d' : DB => db_observed d' = db_observed d)) by (by intros ?).
      unfold TransitionIncident. guar_walk. apply guar_stmt; [done|]. intros d y d'. destruct (db_incidents d !! _); [|by intros [= _ <-]].
      case_bool_decide; by intros [= _ <-]. }
    specialize (G e w). by rewrite T in G. }
  destruct (_ =?s _); [|by intros [= <- <-]; rewrite D1]. unfold summarizeLater, bind, try_lock. simpl.
  destruct (e_lock e (w_tick w1)); [by intros [= <- <-]; rewrite <- D1|]. unfold recordAdvice, ignore.
  destruct (UpdateRCAReportLLM _ _ _ _ _ e (tick w1)) as [y w2] eqn:U. intros [= <- <-]. split; [done|]. rewrite <- D1.
  assert (guar (fun d d' => ob_timeline (db_observed d') = ob_timeline (db_observed d)) (UpdateRCAReportLLM (rep_id report) LLMStatusFailed "" "" "")) as G.
  { assert (Transitive (fun d d' : DB => ob_timeline (db_observed d') = ob_timeline (db_observed d))) by (intros ? ? ? ? ?; congruence).
    assert (Reflexive (fun d d' : DB => ob_timeline (db_observed d') = ob_timeline (db_observed d))) by (by intros ?).
    unfold UpdateRCAReportLLM. guar_walk. by apply guar_update_if. }
  specialize (G e (tick w1)). by rewrite U in G.
Qed.

Lemma after_report_steady report :
  guar steady (ignore (TransitionIncident (rep_incident_id report) Inc.StatusRCAGenerated) ;;;
    (if rep_llm_status report =?s LLMStatusPending then summarizeLater report else ret tt)).
Proof. unfold summarizeLater. handler_walk. Qed.

(** ** Properties *)

(** The report on an incident the tables call for. *)
Definition report_at (s : RCAService) (id incidentID : string) (row : Incident) (time : Z) (d : DB) : RCAReport :=
  let incident := scanIncident d row in
  let top := topology_at d incidentID incident in
  let signals := sort_stable (fun a b => sig_observed_at a <? sig_observed_at b) (signals_for d incidentID) in
  new_report s id incidentID (analyze (rca_correlator s) (rca_collector s) time incident signals top) top time.

(** What a successful run read, and the transaction it made. *)
Lemma Generate_ok s incidentID e w report candidates w' :
  Generate s incidentID e w = (Ok (report, candidates), w') -> exists row id w1 w2,
  db_incidents (w_db w) !! incidentID = Some row /\
  report = report_at s id incidentID row (e_now e) (w_db w) /\
  id <> "" /\ candidates = rep_candidates report /\ w_db w1 = w_db w /\
  (for_each (probeTimelineEvents incidentID (rep_evidence_items report)) AddTimelineEvent ;;; SaveRCAReport report) e w1 = (Ok tt, w2) /\
  exists w3, w_db w3 = w_db w2 /\
  (ignore (TransitionIncident incidentID Inc.StatusRCAGenerated) ;;;
   (if rep_llm_status report =?s LLMStatusPending then summarizeLater report else ret tt)) e w3 = (Ok tt, w').
Proof.
  unfold Generate. intros (i & w1 & (D1 & row & Hrow & ->)%GetIncident_ok & H)%bind_ok.
  apply bind_ok in H as (sigs & w2 & (-> & D2 & _)%wrap_ok%query_ok & H). rewrite D1 in *.
  apply bind_ok in H as (top & w3 & (D3 & row' & Hrow' & ->)%GetIncidentTopology_ok & H). rewrite D2 in *.
  apply bind_ok in H as (t & w4 & [-> ->]%now_ok & H). cbv zeta in H.
  apply bind_ok in H as (id & w5 & E5 & H). destruct (NewID_ok _ _ _ _ _ E5) as [D5 _].
  apply bind_ok in H as (u & w6 & (w7 & w8 & D7 & _ & E7 & D8 & _)%in_tx_ok & H). destruct u.
  apply bind_ok in H as (u & w9 & E9 & H). apply bind_ok in H as ([] & w10 & E10 & H). apply ret_ok in H as [H ->]. injection H as -> ->.
  assert (row' = row) as -> by congruence.
  exists row, id, w7, w8. split_and!; [done|done|by injection E5 as <- _|done|by rewrite D7, D5, D3|exact E7|].
  exists w6. split; [done|]. unfold bind at 1. by rewrite E9.
Qed.

Lemma Generate_all_or_nothing s incidentID : atomic (Generate s incidentID).
Proof.
  unfold Generate. atomic_walk. apply atomic_then; [apply atomic_in_tx|]. intros _ e w. unfold bind, ignore at 1.
  destruct (TransitionIncident _ _ e w) as [x w1]. destruct (_ =?s _); [|done]. unfold summarizeLater, bind, try_lock, recordAdvice, ignore.
  destruct (e_lock e (w_tick w1)); [done|]. by destruct (UpdateRCAReportLLM _ _ _ _ _ e _) as [y w2].
Qed.

(** A report and what it cites are one fact. Generating a report either fails and
    leaves the tables as they were, or stores, under a new id, the findings of the
    analysis of the incident, its signals and its topology as they stood, and appends
    exactly one timeline event per probe reading of the report; the candidates it returns
    are the report's. *)
Theorem Generate_atomic s incidentID e w :
  match Generate s incidentID e w with
  | (Fail _, w') => w_db w' = w_db w
  | (Ok (report, candidates), w') =>
      exists row stored events, db_incidents (w_db w) !! incidentID = Some row /\
        report = report_at s (rep_id report) incidentID row (e_now e) (w_db w) /\
        candidates = rep_candidates report /\
        ob_reports (db_observed (w_db w)) !! rep_id report = None /\
        ob_reports (db_observed (w_db w')) !! rep_id report = Some stored /\ stored_as report stored /\
        ob_timeline (db_observed (w_db w')) = ob_timeline (db_observed (w_db w)) ++ events /\
        Forall2 event_recorded (probeTimelineEvents incidentID (rep_evidence_items report)) events
  end.
Proof.
  destruct (Generate s incidentID e w) as [[[report candidates]|err] w'] eqn:E; [|by eapply Generate_all_or_nothing].
  apply Generate_ok in E as (row & id & w1 & w2 & Hrow & Hrep & Hid & Hc & D1 & E & w3 & D3 & E3).
  apply bind_ok in E as (u & w4 & (events & HF & HT & HR)%add_events_run & E). rewrite D1 in HT, HR.
  apply SaveRCAReport_run in E as (N & stored & D2 & HS); [|by rewrite Hrep..]. rewrite HR in N.
  assert (rep_id report = id) as Eid by (by rewrite Hrep).
  assert (incidentID = rep_incident_id report) as Hinc by (by rewrite Hrep).
  rewrite Hinc in E3. pose proof (after_report_run _ _ _ _ _ E3) as [_ HT']. pose proof (after_report_steady report e w3) as St.
  rewrite E3 in St. apply st_progress, pg_observed, om_reports in St.
  destruct (St (rep_id report) stored) as (stored' & Hs' & Hk); [rewrite D3, D2; simpl; by rewrite lookup_insert_eq|].
  exists row, stored', events. rewrite HT', D3, D2. simpl. rewrite HT. rewrite Eid at 1.
  split_and!; try done. by eapply stored_as_kept.
Qed.

Lemma fresh_report s incident e w :
  match ('(report, candidates) <- Generate s (inc_id incident) ;; ret (report, candidates, false)) e w with
  | (Ok (_, _, true), _) => False
  | (Ok (report, candidates, false), w') => exists w1, w_db w1 = w_db w /\ Generate s (inc_id incident) e w1 = (Ok (report, candidates), w')
  | (Fail _, w') => w_db w' = w_db w
  end.
Proof.
  unfold bind. destruct (Generate s (inc_id incident) e w) as [[[report candidates]|err] w2] eqn:E; [by exists w|].
  by eapply Generate_all_or_nothing.
Qed.

(** Proposals rest on current findings. A proposal reuses a report only when it is
    the newest one stored for the incident, has candidates, and no alert was seen after
    it was written, and then nothing changes; otherwise a report is generated now. Unless
    the read itself fails, a new one is generated only when the newest is missing, empty
    or older than the last alert. *)
Theorem proposals_rest_on_current_report s incident e w :
  match ReportForProposal s incident e w with
  | (Ok (report, candidates, true), w') =>
      w_db w' = w_db w /\ candidates = rep_candidates report /\ candidates <> [] /\ inc_last_seen_at incident <= rep_created_at report /\
      rep_incident_id report = inc_id incident /\ (exists key, ob_reports (db_observed (w_db w)) !! key = Some report) /\
      forall key r, ob_reports (db_observed (w_db w)) !! key = Some r -> rep_incident_id r = inc_id incident ->
        rep_created_at r <= rep_created_at report
  | (Ok (report, candidates, false), w') =>
      (exists w1, w_db w1 = w_db w /\ Generate s (inc_id incident) e w1 = (Ok (report, candidates), w')) /\
      (e_fault e (w_tick w) = None -> match latest_report (w_db w) (inc_id incident) with
        | Some latest => rep_candidates latest = [] \/ rep_created_at latest < inc_last_seen_at incident
        | None => True end)
  | (Fail _, w') => w_db w' = w_db w
  end.
Proof.
  unfold ReportForProposal, bind at 1, attempt. cbv zeta. pose proof (fresh_report s incident e) as Fresh.
  set (fresh := '(report, candidates) <- Generate s (inc_id incident) ;; ret (report, candidates, false)) in *. clearbody fresh.
  destruct (GetLatestRCAReport (inc_id incident) e w) as [latest w1] eqn:G.
  assert (w_db w1 = w_db w) as D1 by (eapply unchanged; [|exact G]; apply GetLatestRCAReport_guar; typeclasses eauto).
  specialize (Fresh w1). rewrite D1 in Fresh.
  unfold GetLatestRCAReport, wrap, query_row, stmt in G. destruct (e_fault e (w_tick w)) as [msg|].
  - injection G as <- _. destruct (fresh e w1) as [[[[report candidates] []]|err] w2]; by try split.
  - destruct (latest_report (w_db w) (inc_id incident)) as [r|] eqn:L; injection G as <- _.
    + destruct (_ && _) eqn:B.
      * apply andb_true_iff in B as [B1 B2]. apply negb_true_iff, Z.ltb_ge in B2. apply Nat.ltb_lt in B1.
        apply latest_report_spec in L as (? & ? & ?). simpl. split_and!; try done. intros HE. rewrite HE in B1. by apply Nat.lt_irrefl in B1.
      * assert (rep_candidates r = [] \/ rep_created_at r < inc_last_seen_at incident) as HP.
        { apply andb_false_iff in B as [B|B]; [left; destruct (rep_candidates r); done|right]. by apply negb_false_iff, Z.ltb_lt in B. }
        destruct (fresh e w1) as [[[[report candidates] []]|err] w2]; by try split.
    + destruct (fresh e w1) as [[[[report candidates] []]|err] w2]; by try split.
Qed.

(** ** A run *)

Definition reports_service : RCAService :=
  mkRCAService "" "" (mkHttpClient (fun _ => None) (fun _ _ => Fail (errorf "unreachable")) (fun _ => 0) (fun _ => None))
    demo_correlator (Some demo_collector).
Definition signalled_world : world :=
  mkWorld (mkDB {["inc-1" := demo_incident]} ∅ ∅ ∅ ∅ ∅ ∅ [] (Some (0, GenesisHash))
    (mkObserved {["svc-1" := mkService "svc-1" "payments-api" "" "tier1" "local" None None None 0]} ∅ ∅ demo_signals [] ∅)) 0 [].

Definition generated : result (RCAReport * list RCACandidate) * world := Generate reports_service "inc-1" quiet_env signalled_world.
Definition reused : result (RCAReport * list RCACandidate * bool) * world :=
  ReportForProposal reports_service demo_incident quiet_env generated.2.

(** The report is stored with its probe readings and moves the incident on; the
    proposal that follows reuses it. *)
Example report_run :
  ((fun out => length out.2) <$> (match generated.1 with Ok r => Some r | Fail _ => None end),
   length (ob_timeline (db_observed (w_db generated.2))), inc_status <$> (db_incidents (w_db generated.2) !! "inc-1"),
   match reused.1 with Ok r => r.2 | Fail _ => false end) = (Some 2%nat, 2%nat, Some Inc.StatusRCAGenerated, true).
Proof. vm_compute. reflexivity. Qed.
