(* ===== verification/Executors.v ===== *)
(** * Executors ([internal/remediation/executor.go])

    Where an approved remediation runs: on Argus's own workers through the outbox, or
    as a workflow of Helios, a server outside the sources. Submitting to Helios waits
    for the workflow for a bounded time; the reconciler follows it from there. *)
From Stdlib Require Import Ascii String ZArith Lia.
From stdpp Require Import base gmap strings list relations.
From S2P Require Import Prelude GoStrings GoValue Json Marshal Lifecycle Types Database Http.
Open Scope Z_scope.

Record ExecutionOutcome := mkOutcome { out_status : string; out_result : option params }.

Record HeliosExecutor := mkHelios {
  he_base_url : string;
  he_admin_token : string;
  he_poll_timeout : Z;
  he_client : HttpClient;
}.

(** The [Executor] interface; [ex_queued] is what [isQueued] reports and [ex_helios]
    what the type assertion to [*HeliosExecutor] gives. *)
Record Executor := mkExecutor {
  ex_name : string;
  ex_queued : bool;
  ex_helios : option HeliosExecutor;
  ex_execute : RemediationAction -> Incident -> bool -> M ExecutionOutcome;
}.

(** An executor reaches outside the database only. *)
Class ExternalExecutor (x : Executor) : Prop :=
  executor_external : forall r i dry, guar eq (ex_execute x r i dry).

Definition LocalExecutor : Executor :=
  mkExecutor "local" true None (fun _ _ _ => throw (errorf "the local executor dispatches through the remediation outbox")).

#[export] Instance LocalExecutor_external : ExternalExecutor LocalExecutor.
Proof. intros r i dry e w. done. Qed.

Definition isQueued (x : Executor) : bool := ex_queued x.

(** [json.Marshal]; its error leaves no bytes. *)
Definition marshalled (m : params) : string := match map_to_json (Some m) with Some t => enc (canonical t) | None => "" end.

(** ** Helios *)

Definition NewHeliosExecutor (baseURL adminToken : string) (pollTimeout : Z) (client : HttpClient) : HeliosExecutor :=
  mkHelios (TrimRight baseURL "/") adminToken pollTimeout client.

Definition heliosTaskType : string := "write_artifact".

Record heliosWorkflowSummary := mkSummary {
  hw_id : string;
  hw_name : string;
  hw_state : string;
  hw_metadata : option (gmap string string);
}.

Definition decode_summary (m : list (string * json)) : result heliosWorkflowSummary :=
  let! id := decode_field decode_string "workflow_id" "" m in
  let! name := decode_field decode_string "name" "" m in
  let! state := decode_field decode_string "state" "" m in
  let! metadata := decode_field decode_string_map "metadata" None m in
  Ok (mkSummary id name state metadata).

Definition bearer (x : HeliosExecutor) : string * string := ("Authorization", "Bearer " +:+ he_admin_token x).

Definition getWorkflow (x : HeliosExecutor) (workflowID : string) : M heliosWorkflowSummary :=
  req <- NewRequest (he_client x) "GET" (he_base_url x +:+ "/api/v1/workflows/" +:+ workflowID) [bearer x] None ;;
  resp <- wrap "get helios workflow" (Do (he_client x) req) ;;
  if 400 <=? hs_code resp then throw (errorf ("get helios workflow returned status " +:+ hs_status resp))
  else wrap "decode helios workflow summary" (lift (let! m := decode_object (hs_body resp) in decode_summary m)).

Definition finished (state : string) : bool := bool_decide (state ∈ ["succeeded"; "failed"; "cancelled"]).

(** The time between two looks at a workflow. *)
Definition poll_interval : Z := 750 * 10 ^ 6.

(** The loop of [pollWorkflow] from its [round]-th round on; [None] when the fuel runs out. *)
Fixpoint poll_loop (fuel round : nat) (x : HeliosExecutor) (workflowID : string) : M (option heliosWorkflowSummary) :=
  match fuel with
  | O => ret None
  | S fuel =>
      summary <- getWorkflow x workflowID ;;
      if finished (hw_state summary) then ret (Some summary)
      else if he_poll_timeout x <? hc_elapsed (he_client x) round then ret (Some summary)
      else
        match hc_cancelled (he_client x) round with
        | Some msg => throw (errorf msg)
        | None => poll_loop fuel (S round) x workflowID
        end
  end.

(** Rounds enough to pass the deadline. *)
Definition poll_rounds (x : HeliosExecutor) : nat := S (S (Z.to_nat (he_poll_timeout x / poll_interval))).

Definition pollWorkflow (x : HeliosExecutor) (workflowID : string) : M heliosWorkflowSummary :=
  polled <- poll_loop (poll_rounds x) 0 x workflowID ;;
  match polled with Some summary => ret summary | None => throw (errorf "poll helios workflow: out of rounds") end.

Definition workflowSpec (r : RemediationAction) (i : Incident) (dryRun : bool) : value :=
  VMap [("name", VString ("argus-remediation-" +:+ rem_id r));
    ("labels", VStrMap [("source", "argus"); ("incident_id", inc_id i); ("remediation_id", rem_id r); ("action_type", rem_action_type r)]);
    ("metadata", VStrMap [("owner", "argus"); ("incident_id", inc_id i); ("incident_service", inc_service i); ("remediation_id", rem_id r);
       ("action_type", rem_action_type r); ("target", rem_target r); ("risk", rem_risk r); ("parameters", marshalled (rem_parameters r));
       ("dry_run", if dryRun then "true" else "false")]);
    ("tasks", VList [VMap [("task_id", VString "record-remediation-execution"); ("task_type", VString heliosTaskType);
       ("timeout_seconds", VInt 15); ("priority", VInt 90); ("cpu_units", VInt 200); ("memory_mb", VInt 128);
       ("expected_duration_seconds", VInt 2); ("idempotency_key", VString (rem_idempotency_key r));
       ("retry_policy", VMap [("max_attempts", VInt (rem_max_attempts r)); ("initial_backoff_seconds", VInt 1); ("max_backoff_seconds", VInt 5);
          ("multiplier", VInt 2)]);
       ("input_payload", VMap [("sink", VString "manifest"); ("dataset", VString "argus_remediation_actions");
          ("artifact", VMap [("incident_id", VString (inc_id i)); ("incident_title", VString (inc_title i)); ("service", VString (inc_service i));
             ("severity", VString (inc_severity i)); ("remediation_id", VString (rem_id r)); ("action_type", VString (rem_action_type r));
             ("target", VString (rem_target r)); ("risk", VString (rem_risk r)); ("parameters", VMap (map_to_list (rem_parameters r)));
             ("idempotency_key", VString (rem_idempotency_key r)); ("attempt", VInt (rem_attempt r)); ("dry_run", VBool dryRun);
             ("submitted_by", VString (rem_proposed_by r)); ("executor_backend", VString "helios")])])]])].

Definition helios_result (summary : heliosWorkflowSummary) (dryRun : bool) : params :=
  let result := list_to_map [("executor", VString "helios"); ("helios_workflow_id", VString (hw_id summary));
    ("helios_workflow_name", VString (hw_name summary)); ("helios_workflow_state", VString (hw_state summary)); ("dry_run", VBool dryRun);
    ("delegated_task_type", VString heliosTaskType)] in
  match hw_metadata summary with
  | Some metadata => <["helios_metadata" := VStrMap (map_to_list metadata)]> result
  | None => result
  end.

Definition submit (x : HeliosExecutor) (r : RemediationAction) (i : Incident) (dryRun : bool) : M heliosWorkflowSummary :=
  req <- NewRequest (he_client x) "POST" (he_base_url x +:+ "/api/v1/workflows") [("Content-Type", "application/json"); bearer x]
    (Some (Marshalled (workflowSpec r i dryRun))) ;;
  resp <- wrap "submit helios workflow" (Do (he_client x) req) ;;
  if 400 <=? hs_code resp then throw (errorf ("submit helios workflow returned status " +:+ hs_status resp))
  else wrap "decode helios workflow response" (lift (let! m := decode_object (hs_body resp) in decode_summary m)).

Definition helios_execute (x : HeliosExecutor) (r : RemediationAction) (i : Incident) (dryRun : bool) : M ExecutionOutcome :=
  if he_base_url x =?s "" then throw (errorf "helios base URL is not configured")
  else if he_admin_token x =?s "" then throw (errorf "helios admin token is not configured")
  else
    created <- submit x r i dryRun ;;
    summary <- pollWorkflow x (hw_id created) ;;
    let result := helios_result summary dryRun in
    if hw_state summary =?s "succeeded" then ret (mkOutcome "succeeded" (Some result))
    else if (hw_state summary =?s "failed") || (hw_state summary =?s "cancelled")
    then throw (errorf ("helios workflow " +:+ hw_id summary +:+ " finished in state " +:+ hw_state summary))
    else ret (mkOutcome "running" (Some result)).

Definition Helios (x : HeliosExecutor) : Executor := mkExecutor "helios" false (Some x) (helios_execute x).

(** ** Guarantees *)

Section helios_reads.
Context (R : DB -> DB -> Prop) `{!Reflexive R, !Transitive R}.
Lemma getWorkflow_guar x id : guar R (getWorkflow x id).
Proof. unfold getWorkflow. handler_walk. Qed.
Lemma poll_loop_guar fuel : forall round x id, guar R (poll_loop fuel round x id).
Proof.
  induction fuel as [|fuel IH]; intros round x id; simpl; [by apply guar_ret|].
  apply guar_bind; [done|apply getWorkflow_guar|intros summary]. guar_walk.
Qed.
Lemma pollWorkflow_guar x id : guar R (pollWorkflow x id).
Proof. unfold pollWorkflow. apply guar_bind; [done|apply poll_loop_guar|intros [summary|]]; guar_walk. Qed.
Lemma submit_guar x r i dry : guar R (submit x r i dry).
Proof. unfold submit. handler_walk. Qed.
End helios_reads.
#[export] Hint Resolve getWorkflow_guar pollWorkflow_guar submit_guar : guar.

Lemma helios_execute_guar (R : DB -> DB -> Prop) `{!Reflexive R, !Transitive R} x r i dry : guar R (helios_execute x r i dry).
Proof. unfold helios_execute. handler_walk. Qed.
#[export] Hint Resolve helios_execute_guar : guar.

#[export] Instance Helios_external x : ExternalExecutor (Helios x).
Proof. intros r i dry. apply helios_execute_guar; typeclasses eauto. Qed.

(** ** Runs *)

(** A wait lasts at least the time it was asked for, so [round] waits take [round] intervals. *)
Class Sleeps (c : HttpClient) : Prop := slept : forall round, poll_interval * Z.of_nat round <= hc_elapsed c round.

Lemma poll_enough x id `{!Sleeps (he_client x)} fuel : forall round e w,
  (poll_rounds x <= round + fuel)%nat -> (0 < fuel)%nat -> (poll_loop fuel round x id e w).1 <> Ok None.
Proof.
  induction fuel as [|fuel IH]; intros round e w Hr Hf; [lia|]. simpl. unfold bind.
  destruct (getWorkflow x id e w) as [[summary|err] w1]; [|done]. destruct (finished _); [done|].
  destruct (he_poll_timeout x <? _) eqn:T; [done|]. destruct (hc_cancelled _ round); [done|]. apply Z.ltb_ge in T.
  apply IH; [lia|]. destruct fuel; [exfalso|lia]. specialize (slept round) as Hs. unfold poll_rounds, poll_interval in *.
  pose proof (Z.div_mod (he_poll_timeout x) (750 * 10 ^ 6) ltac:(lia)). pose proof (Z.mod_pos_bound (he_poll_timeout x) (750 * 10 ^ 6) ltac:(lia)).
  nia.
Qed.

Lemma poll_more fuel : forall more round x id e w, (poll_loop fuel round x id e w).1 <> Ok None ->
  poll_loop (fuel + more) round x id e w = poll_loop fuel round x id e w.
Proof.
  induction fuel as [|fuel IH]; intros more round x id e w; simpl; [done|]. unfold bind.
  destruct (getWorkflow x id e w) as [[summary|err] w1]; [|done]. destruct (finished _); [done|].
  destruct (_ <? _); [done|]. destruct (hc_cancelled _ round); [done|]. apply IH.
Qed.

(** Helios answered a question about a workflow, or accepted a new one. *)
Definition answered (x : HeliosExecutor) (req : HttpRequest) (summary : heliosWorkflowSummary) : Prop :=
  exists n resp m, hc_do (he_client x) n req = Ok resp /\ hs_code resp < 400 /\ decode_object (hs_body resp) = Ok m /\ decode_summary m = Ok summary.
Definition reported (x : HeliosExecutor) (id : string) : heliosWorkflowSummary -> Prop :=
  answered x (mkHttpRequest "GET" (he_base_url x +:+ "/api/v1/workflows/" +:+ id) [bearer x] None).
Definition accepted (x : HeliosExecutor) (r : RemediationAction) (i : Incident) (dryRun : bool) : heliosWorkflowSummary -> Prop :=
  answered x (mkHttpRequest "POST" (he_base_url x +:+ "/api/v1/workflows") [("Content-Type", "application/json"); bearer x]
    (Some (Marshalled (workflowSpec r i dryRun)))).

Lemma exchange_ok x method url headers body text1 text2 text3 e w summary w' :
  (req <- NewRequest (he_client x) method url headers body ;;
   resp <- wrap text1 (Do (he_client x) req) ;;
   if 400 <=? hs_code resp then throw (errorf (text2 +:+ hs_status resp))
   else wrap text3 (lift (let! m := decode_object (hs_body resp) in decode_summary m))) e w = (Ok summary, w') ->
  answered x (mkHttpRequest method url headers body) summary.
Proof.
  unfold NewRequest. intros H. apply bind_ok in H as (req & w1 & H1 & H). destruct (hc_url_error _ _); [done|].
  apply ret_ok in H1 as [-> ->]. apply bind_ok in H as (resp & w2 & H2%wrap_ok & H). injection H2 as Hdo _.
  destruct (400 <=? hs_code resp) eqn:C; [done|]. apply wrap_ok, lift_ok in H as [H _]. apply Z.leb_gt in C.
  destruct (decode_object (hs_body resp)) as [m|] eqn:D; [|done]. exists (w_tick w), resp, m. by split_and!.
Qed.

Lemma getWorkflow_ok x id e w summary w' : getWorkflow x id e w = (Ok summary, w') -> reported x id summary.
Proof. apply exchange_ok. Qed.

Lemma poll_ok x id fuel : forall round e w summary w', poll_loop fuel round x id e w = (Ok (Some summary), w') ->
  reported x id summary /\ (finished (hw_state summary) = false -> exists round', he_poll_timeout x < hc_elapsed (he_client x) round').
Proof.
  induction fuel as [|fuel IH]; intros round e w summary w'; simpl; [done|].
  intros (s & w1 & G%getWorkflow_ok & H)%bind_ok. destruct (finished (hw_state s)) eqn:F.
  - apply ret_ok in H as [[= ->] _]. split; [done|congruence].
  - destruct (_ <? _) eqn:T.
    + apply ret_ok in H as [[= ->] _]. apply Z.ltb_lt in T. split; [done|]. by exists round.
    + destruct (hc_cancelled _ round); [done|]. by apply IH in H.
Qed.

Lemma helios_execute_ok x r i dryRun e w out w' :
  helios_execute x r i dryRun e w = (Ok out, w') ->
  exists created summary, accepted x r i dryRun created /\ reported x (hw_id created) summary /\
    out_result out = Some (helios_result summary dryRun) /\
    (hw_state summary = "succeeded" /\ out_status out = Rem.StateSucceeded \/
     finished (hw_state summary) = false /\ out_status out = Rem.StateRunning /\
     exists round, he_poll_timeout x < hc_elapsed (he_client x) round).
Proof.
  intros E. unfold helios_execute in E. destruct (_ =?s ""); [done|]. destruct (_ =?s ""); [done|].
  apply bind_ok in E as (created & w1 & A%exchange_ok & E). apply bind_ok in E as (summary & w2 & P & E).
  unfold pollWorkflow in P. apply bind_ok in P as ([s|] & w3 & HP & P); [|done]. apply poll_ok in HP as [G HF].
  apply ret_ok in P as [-> _].
  cbv zeta in E. exists created, s. destruct (hw_state s =?s "succeeded") eqn:S1.
  - apply ret_ok in E as [-> _]. reflect_tests. split_and!; try done. by left.
  - destruct (hw_state s =?s "failed") eqn:S2; [done|]. destruct (hw_state s =?s "cancelled") eqn:S3; [done|]. simpl in E.
    apply ret_ok in E as [-> _]. reflect_tests.
    assert (finished (hw_state s) = false) as F. { apply bool_decide_eq_false. rewrite !elem_of_cons, elem_of_nil. naive_solver. }
    split_and!; try done. right. auto.
Qed.

(** ** Properties *)

(** Waiting for Helios ends. Since each wait lasts its interval, the polling loop
    passes its deadline within the quotient of the timeout by the interval plus two
    rounds: with that fuel it never runs out, and more fuel changes nothing. *)
Theorem polling_ends x id e w fuel :
  Sleeps (he_client x) -> (poll_rounds x <= fuel)%nat ->
  (poll_loop fuel 0 x id e w).1 <> Ok None /\ poll_loop fuel 0 x id e w = poll_loop (poll_rounds x) 0 x id e w.
Proof.
  intros Hs Hf. assert ((poll_loop (poll_rounds x) 0 x id e w).1 <> Ok None) as Hn.
  { apply poll_enough; [done|lia|]. unfold poll_rounds. lia. }
  replace fuel with (poll_rounds x + (fuel - poll_rounds x))%nat by lia. rewrite (poll_more _ _ _ _ _ _ _ Hn). by split.
Qed.

(** An execution on Helios reports what Helios reported. When it succeeds, Helios
    accepted exactly the workflow that describes the remediation, and the status comes
    from its answer about that workflow: succeeded only when Helios says so, running
    only when the workflow is unfinished and the time to wait is over; a workflow that
    failed or was cancelled never counts as an outcome. No table is touched. *)
Theorem helios_outcome_reported x r i dryRun e w :
  match helios_execute x r i dryRun e w with
  | (Ok out, w') =>
      w_db w' = w_db w /\ exists created summary, accepted x r i dryRun created /\ reported x (hw_id created) summary /\
        out_result out = Some (helios_result summary dryRun) /\
        (hw_state summary = "succeeded" /\ out_status out = Rem.StateSucceeded \/
         finished (hw_state summary) = false /\ out_status out = Rem.StateRunning /\
         exists round, he_poll_timeout x < hc_elapsed (he_client x) round)
  | (Fail _, w') => w_db w' = w_db w
  end.
Proof.
  destruct (helios_execute x r i dryRun e w) as [[out|err] w'] eqn:E;
    (assert (w_db w' = w_db w) as D by (eapply unchanged, E; apply helios_execute_guar; typeclasses eauto)); [|done].
  split; [done|]. by eapply helios_execute_ok.
Qed.

(** ** Witnesses *)

(** A Helios whose workflow reaches [state] at the fourth exchange; each round takes 50 ms more than the wait. *)
Definition workflow_body (state : string) : string :=
  enc (JObj [("workflow_id", JStr "wf-1"); ("name", JStr "argus-remediation-rem_1"); ("state", JStr state);
    ("labels", JObj [("source", JStr "argus"); ("remediation_id", JStr "rem_1")])]).
Definition demo_client (state : string) : HttpClient :=
  mkHttpClient (fun _ => None)
    (fun n _ => Ok (mkHttpResponse 200 "200 OK" (workflow_body (if Nat.ltb n 3 then "running" else state))))
    (fun round => (poll_interval + 50 * 10 ^ 6) * Z.of_nat round) (fun _ => None).
Definition demo_helios (state : string) : HeliosExecutor := NewHeliosExecutor "http://helios/" "token" (5 * second) (demo_client state).

Lemma demo_client_sleeps state : Sleeps (demo_client state).
Proof. intros round. unfold demo_client, poll_interval. simpl hc_elapsed. lia. Qed.

Definition still_env : env := mkEnv 0 (fun _ => None) (fun _ => "x") (fun _ => None) (fun _ => None) (fun _ => true) (fun _ => false) (fun _ => None) id.
Definition nowhere : world := mkWorld (mkDB ∅ ∅ ∅ ∅ ∅ ∅ ∅ [] None nothing_observed) 0 [].

Lemma polling_ends_witness :
  poll_rounds (demo_helios "running") = 8%nat /\
  (poll_loop 8 0 (demo_helios "running") "wf-1" still_env nowhere).1 <> Ok None /\
  poll_loop 100 0 (demo_helios "running") "wf-1" still_env nowhere = poll_loop 8 0 (demo_helios "running") "wf-1" still_env nowhere.
Proof.
  split; [vm_compute; reflexivity|]. split.
  - apply (polling_ends (demo_helios "running") "wf-1" still_env nowhere 8); [apply demo_client_sleeps|vm_compute; lia].
  - exact (proj2 (polling_ends (demo_helios "running") "wf-1" still_env nowhere 100 (demo_client_sleeps "running") ltac:(vm_compute; lia))).
Defined.

Definition demo_run (state : string) : result ExecutionOutcome :=
  (helios_execute (demo_helios state)
    (mkRemediation "rem_1" "inc_1" "restart_service" "payments-api" ∅ "queued" "medium" "key" "alice" "bob" ∅ false 1 1 None None None None "" 0)
    (mkIncident "inc_1" "t" "svc_1" "payments-api" "sev2" "remediating" "k" "f" 0 0 None "" 0 0 "local" 0 None) false still_env nowhere).1.
Example demo_outcomes :
  ((fun state => match demo_run state with Ok out => out_status out | Fail err => err_text err end) <$> ["succeeded"; "cancelled"; "paused"]) =
  ["succeeded"; "helios workflow wf-1 finished in state cancelled"; "running"].
Proof. vm_compute. reflexivity. Qed.
