(* ===== verification/Approvals.v ===== *)
(** * Approvals ([internal/approvals/store.go] and [service.go])

    An approval request per remediation: created pending, decided once by
    somebody other than the proposer, cancelled, escalated or expired. Every
    transition commits together with the remediation's own and with its audit
    entries. *)
From Stdlib Require Import Ascii String ZArith Lia.
From stdpp Require Import base gmap strings list relations.
From S2P Require Import Prelude GoStrings GoFloat GoValue Marshal Ledger Lifecycle Types Database AuditLog Store Progress.
Open Scope Z_scope.

Definition StatusPending : string := "pending".
Definition StatusApproved : string := "approved".
Definition StatusDenied : string := "denied".
Definition StatusExpired : string := "expired".
Definition StatusCancelled : string := "cancelled".
Definition DecisionApprove : string := "approve".
Definition DecisionDeny : string := "deny".

Definition ErrNotFound : error := mkError KApprovalNotFound "approval request not found".
Definition ErrAlreadyDecided : error := mkError KAlreadyDecided "approval request is no longer pending".
Definition ErrExpired : error := mkError KExpired "approval request has expired".

(** ** Rows *)

(** The columns an update may change. *)
Definition req_with (r : Request) (status : string) (escalated decided : option Z) (by_ reason source notification : string)
    (attempts : Z) (last_error : string) (updated : Z) : Request :=
  mkRequest (req_id r) (req_remediation_id r) (req_incident_id r) (req_action_type r) (req_target r) (req_parameters r)
    (req_risk r) status (req_requested_by r) (req_requested_at r) (req_escalates_at r) (req_expires_at r) escalated decided
    by_ reason source notification attempts last_error (req_created_at r) updated.

Definition decided (r : Request) (status actor reason source : string) (time : Z) : Request :=
  req_with r status (req_escalated_at r) (Some time) actor reason source (req_notification_status r)
    (req_notification_attempts r) (req_last_notification_error r) time.
Definition expired (r : Request) (time : Z) : Request :=
  req_with r StatusExpired (req_escalated_at r) (req_decided_at r) (req_decided_by r) (req_decision_reason r)
    (req_decision_source r) (req_notification_status r) (req_notification_attempts r) (req_last_notification_error r) time.
Definition escalated (r : Request) (time : Z) : Request :=
  req_with r (req_status r) (Some time) (req_decided_at r) (req_decided_by r) (req_decision_reason r)
    (req_decision_source r) (req_notification_status r) (req_notification_attempts r) (req_last_notification_error r) time.
Definition notified (r : Request) (status message : string) (time : Z) : Request :=
  req_with r (req_status r) (req_escalated_at r) (req_decided_at r) (req_decided_by r) (req_decision_reason r)
    (req_decision_source r) status (req_notification_attempts r + 1) message time.

Definition update_request (id : string) (cond : Request -> bool) (f : Request -> Request) : M bool :=
  update_if db_approvals set_approvals id cond f.
Definition is_pending (r : Request) : bool := req_status r =?s StatusPending.
Definition always (_ : Request) : bool := true.

(** [scanRequest]: no row is [ErrNotFound]. *)
Definition scanRequest (f : DB -> option Request) : M Request :=
  found <- attempt (query_row f) ;;
  match found with
  | Ok r => ret r
  | Fail err => if bool_decide (err_kind err = KNoRows) then throw ErrNotFound else throw (wrapf "scan approval request" err)
  end.

Definition requests (d : DB) : list Request := (map_to_list (db_approvals d)).*2.

(** [WHERE remediation_id = $1], a unique index. *)
Definition by_remediation (remediationID : string) (d : DB) : option Request :=
  snd <$> list_find (fun r => req_remediation_id r = remediationID) (requests d).

Definition Get (id : string) : M Request := scanRequest (fun d => db_approvals d !! id).
Definition getByRemediation (remediationID : string) : M Request := scanRequest (by_remediation remediationID).
Definition GetByRemediation (remediationID : string) : M Request := getByRemediation remediationID.

Definition List_ (status : string) (limit : Z) : M (list Request) :=
  let limit := if (limit <=? 0) || (500 <? limit) then 100 else limit in
  wrap "list approval requests" (query (fun d =>
    take (Z.to_nat limit) (sort_stable (fun a b => req_created_at b <? req_created_at a)
      (if TrimSpace status =?s "" then requests d else filter (fun r => req_status r = status) (requests d))))).

Definition CountPending : M Z :=
  wrap "count pending approvals" (query (fun d => Z.of_nat (length (filter (fun r => is_pending r = true) (requests d))))).

Definition writeAuditTx (entry : Entry) : M unit := wrap "write approval audit log" (WriteTx entry).

(** ** Creating a request *)

(** The row the INSERT gives. *)
Definition inserted (r : Request) : Request :=
  mkRequest (req_id r) (req_remediation_id r) (req_incident_id r) (req_action_type r) (req_target r) (reread_map (req_parameters r))
    (req_risk r) (req_status r) (req_requested_by r) (req_requested_at r) (req_escalates_at r) (req_expires_at r) None None "" "" ""
    (req_notification_status r) 0 "" (req_created_at r) (req_updated_at r).

Definition insert_request (r : Request) : M unit :=
  stmt (fun d =>
    if bool_decide (is_Some (db_approvals d !! req_id r)) || bool_decide (is_Some (by_remediation (req_remediation_id r) d)) ||
       negb (bool_decide (is_Some (db_remediations d !! req_remediation_id r))) ||
       negb (bool_decide (is_Some (db_incidents d !! req_incident_id r))) ||
       negb (bool_decide (req_risk r ∈ ["low"; "medium"; "high"]))
    then Fail (mkError KDatabase "approval_requests constraint violated")
    else Ok (tt, set_approvals (<[req_id r := inserted r]>) d)).

Definition requested_entry (r : Request) : Entry :=
  audit_entry (req_requested_by r) "user" "approval.requested" "approval_request" (req_id r) None
    (Some (list_to_map [("status", VString (req_status r)); ("remediation_id", VString (req_remediation_id r));
       ("action_type", VString (req_action_type r)); ("target", VString (req_target r));
       ("parameters", VMap (map_to_list (req_parameters r))); ("risk", VString (req_risk r));
       ("expires_at", VTime (req_expires_at r))])) None.

(** The request that already exists ([inl (inl ..)]), the new one, or the error of
    the INSERT, after which the transaction is rolled back. *)
Definition create_body (r : Request) : M ((Request + Request) + error) :=
  existing <- attempt (getByRemediation (req_remediation_id r)) ;;
  match existing with
  | Ok found => ret (inl (inl found))
  | Fail err =>
      if negb (bool_decide (err_kind err = KApprovalNotFound)) then throw err
      else
        added <- attempt (insert_request r) ;;
        match added with
        | Fail err => ret (inr err)
        | Ok _ => writeAuditTx (requested_entry r) ;;; ret (inl (inr r))
        end
  end.

Definition Create (r : Request) : M Request :=
  outcome <- tx_choice (wrapf "begin approval request")
    (fun a err => match a with inl _ => err | inr _ => wrapf "commit approval request" err end) (create_body r) ;;
  match outcome with
  | inl (inl existing) => ret existing
  | inl (inr created) => ret created
  | inr err =>
      existing <- attempt (GetByRemediation (req_remediation_id r)) ;;
      match existing with
      | Ok found => ret found
      | Fail _ => throw (wrapf "insert approval request" err)
      end
  end.

(** ** Expiry *)

Definition expireRemediationAndAudit (r : Request) (time : Z) : M unit :=
  wrap "time out remediation approval"
    (update_remediation (req_remediation_id r) (has_status [Rem.StateAwaitingApproval]) (fun x => set_status x Rem.StateTimedOut)) ;;;
  writeAuditTx (audit_entry "approval-controller" "system" "approval.expired" "approval_request" (req_id r)
    (Some {["status" := VString StatusPending]})
    (Some (list_to_map [("status", VString StatusExpired); ("expired_at", VTime time)]))
    (Some {["remediation_id" := VString (req_remediation_id r)]})) ;;;
  writeAuditTx (audit_entry "approval-controller" "system" "remediation.approval_timed_out" "remediation" (req_remediation_id r)
    (Some {["status" := VString "awaiting_approval"]})
    (Some (list_to_map [("status", VString "timed_out"); ("approval_request_id", VString (req_id r))])) None).

Definition expireTx (r : Request) (time : Z) : M unit :=
  wrap "expire approval request" (update_request (req_id r) is_pending (fun x => expired x time)) ;;;
  expireRemediationAndAudit r time.

Definition expire (r : Request) (time : Z) : M bool :=
  outcome <- tx_choice id (fun _ err => err) (
    affected <- wrap "expire approval request" (update_request (req_id r) is_pending (fun x => expired x time)) ;;
    if negb affected then ret (inr tt)
    else expireRemediationAndAudit r time ;;; ret (inl tt)) ;;
  ret (match outcome with inl _ => true | inr _ => false end).

Fixpoint expire_all (due : list Request) (time : Z) : M (list Request) :=
  match due with
  | [] => ret []
  | r :: due =>
      ok <- expire r time ;;
      rest <- expire_all due time ;;
      ret (if ok then expired r time :: rest else rest)
  end.

Definition ExpireDue (time limit : Z) : M (list Request) :=
  due <- wrap "list expired approvals" (query (fun d =>
    take (Z.to_nat limit) (sort_stable (fun a b => req_expires_at a <? req_expires_at b)
      (filter (fun r => is_pending r && (req_expires_at r <=? time) = true) (requests d))))) ;;
  expire_all due time.

(** ** Decisions *)

Definition decide_body (id actor actorType decision reason source : string) (time : Z) : M (Request * bool + unit) :=
  request <- scanRequest (fun d => db_approvals d !! id) ;;
  if negb (req_status request =?s StatusPending) then throw ErrAlreadyDecided
  else if negb (time <? req_expires_at request) then
    expireTx request time ;;; ret (inl (request, false))
  else
    let approve := decision =?s DecisionApprove in
    let status := if approve then StatusApproved else StatusDenied in
    let remediationStatus := if approve then Rem.StateApproved else Rem.StateRejected in
    let auditAction := if approve then "approval.approved" else "approval.denied" in
    wrap "record approval decision" (update_request id always (fun r => decided r status actor reason source time)) ;;;
    affected <- wrap "transition approved remediation"
      (update_remediation (req_remediation_id request) (has_status [Rem.StateAwaitingApproval])
        (fun r => set_decision r remediationStatus (if approve then actor else ""))) ;;
    if negb affected then throw (errorf "remediation is no longer awaiting approval")
    else
      writeAuditTx (audit_entry actor actorType auditAction "approval_request" (req_id request)
        (Some {["status" := VString StatusPending]})
        (Some (list_to_map [("status", VString status); ("remediation_id", VString (req_remediation_id request));
          ("remediation_status", VString remediationStatus); ("decided_by", VString actor);
          ("reason", VString reason); ("source", VString source)])) None) ;;;
      writeAuditTx (audit_entry actor actorType ("remediation." +:+ remediationStatus) "remediation" (req_remediation_id request)
        (Some {["status" := VString "awaiting_approval"]})
        (Some (list_to_map [("status", VString remediationStatus); ("approval_request_id", VString (req_id request));
          ("decision_reason", VString reason); ("decision_source", VString source)])) None) ;;;
      ret (inl (decided request status actor reason source time, true)).

(** An expired request is marked so in the same transaction, which commits before
    the caller is told. *)
Definition DecideStore (id actor actorType decision reason source : string) (time : Z) : M Request :=
  outcome <- tx_choice (wrapf "begin approval decision")
    (fun (a : Request * bool) err => wrapf (if snd a then "commit approval decision" else "commit expired approval") err)
    (decide_body id actor actorType decision reason source time) ;;
  match outcome with
  | inl (request, true) => ret request
  | inl (_, false) => throw ErrExpired
  | inr _ => throw ErrNotFound
  end.

Definition cancel_body (remediationID actor reason : string) (time : Z) : M Request :=
  request <- getByRemediation remediationID ;;
  if negb (req_status request =?s StatusPending) then throw ErrAlreadyDecided
  else
    wrap "cancel approval request"
      (update_request (req_id request) always (fun r => decided r StatusCancelled actor reason "api" time)) ;;;
    affected <- wrap "cancel remediation awaiting approval"
      (update_remediation remediationID (has_status [Rem.StateAwaitingApproval]) (fun r => set_status r Rem.StateCancelled)) ;;
    if negb affected then throw (errorf "remediation is no longer awaiting approval")
    else
      writeAuditTx (audit_entry actor "user" "approval.cancelled" "approval_request" (req_id request)
        (Some {["status" := VString StatusPending]})
        (Some (list_to_map [("status", VString StatusCancelled); ("reason", VString reason)]))
        (Some {["remediation_id" := VString remediationID]})) ;;;
      writeAuditTx (audit_entry actor "user" "remediation.cancelled" "remediation" remediationID
        (Some {["status" := VString "awaiting_approval"]})
        (Some (list_to_map [("status", VString "cancelled"); ("approval_request_id", VString (req_id request))])) None) ;;;
      ret (decided request StatusCancelled actor reason "api" time).

Definition CancelStore (remediationID actor reason : string) (time : Z) : M Request :=
  in_tx "begin approval cancellation" "commit approval cancellation" (cancel_body remediationID actor reason time).

(** ** Notifications and escalation *)

Definition MarkNotification (id status message : string) : M unit :=
  time <- db_now ;;
  wrap "update approval notification" (update_request id always (fun r => notified r status message time)) ;;;
  ret tt.

Definition DueEscalations (time limit : Z) : M (list Request) :=
  wrap "list due approval escalations" (query (fun d =>
    take (Z.to_nat limit) (sort_stable (fun a b => req_escalates_at a <? req_escalates_at b)
      (filter (fun r => is_pending r && bool_decide (req_escalated_at r = None) && (req_escalates_at r <=? time) = true) (requests d))))).

Definition MarkEscalated (r : Request) (time : Z) : M bool :=
  outcome <- tx_choice id (fun _ err => err) (
    affected <- wrap "mark approval escalated"
      (update_request (req_id r) (fun x => is_pending x && bool_decide (req_escalated_at x = None)) (fun x => escalated x time)) ;;
    if negb affected then ret (inr tt)
    else
      writeAuditTx (audit_entry "approval-controller" "system" "approval.escalated" "approval_request" (req_id r)
        (Some (list_to_map [("status", VString StatusPending); ("escalated_at", VNil)]))
        (Some (list_to_map [("status", VString StatusPending); ("escalated_at", VTime time)]))
        (Some {["remediation_id" := VString (req_remediation_id r)]})) ;;;
      ret (inl tt)) ;;
  ret (match outcome with inl _ => true | inr _ => false end).

(** ** The service *)

Record Service := mkApprovalService {
  as_notifier : string;
  as_timeout : Z;
  as_escalate_after : Z;
  as_sweep_interval : Z;
  as_allow_self : bool;
}.

Definition NewService (notifier : string) (timeout escalateAfter sweepInterval : Z) (allowSelf : bool) : Service :=
  let timeout := if timeout <=? 0 then 15 * minute else timeout in
  let escalateAfter := if (escalateAfter <=? 0) || (timeout <=? escalateAfter) then timeout / 2 else escalateAfter in
  let sweepInterval := if sweepInterval <=? 0 then 15 * second else sweepInterval in
  mkApprovalService notifier timeout escalateAfter sweepInterval allowSelf.

(** The transport accepts the notification or reports an error. *)
Definition Notify : M unit := fun e w =>
  match e_notify e (w_tick w) with Some msg => (Fail (errorf msg), tick w) | None => (Ok tt, tick w) end.

Definition RequestApproval (s : Service) (incident : Incident) (remediation : RemediationAction) : M Request :=
  time <- now ;;
  id <- NewID "apr" ;;
  let request := mkRequest id (rem_id remediation) (inc_id incident) (rem_action_type remediation) (rem_target remediation)
    (rem_parameters remediation) (rem_risk remediation) StatusPending (rem_proposed_by remediation) time
    (time + as_escalate_after s) (time + as_timeout s) None None "" "" "" "pending" 0 "" time time in
  stored <- Create request ;;
  if negb (req_id stored =?s id) then ret stored
  else
    sent <- attempt Notify ;;
    match sent with
    | Fail err => ignore (MarkNotification (req_id stored) "failed" (err_text err)) ;;; ret stored
    | Ok _ =>
        let status := if as_notifier s =?s "disabled" then "disabled" else "delivered" in
        ignore (MarkNotification (req_id stored) status "") ;;;
        ret (req_with stored (req_status stored) (req_escalated_at stored) (req_decided_at stored) (req_decided_by stored)
               (req_decision_reason stored) (req_decision_source stored) status (req_notification_attempts stored + 1)
               (req_last_notification_error stored) (req_updated_at stored))
    end.

Definition validateDecision (decision reason actor : string) : result unit :=
  if negb (decision =?s DecisionApprove) && negb (decision =?s DecisionDeny)
  then Fail (errorf "decision must be approve or deny")
  else if (TrimSpace actor =?s "") || (actor =?s "system") then Fail (errorf "authenticated approver identity is required")
  else if TrimSpace reason =?s "" then Fail (errorf "decision reason is required")
  else Ok tt.

Definition validateSeparation (requestedBy actor : string) (allowSelf : bool) : result unit :=
  if negb allowSelf && EqualFold (TrimSpace requestedBy) (TrimSpace actor)
  then Fail (errorf "proposer cannot approve or deny their own remediation") else Ok tt.

Definition Decide (s : Service) (id actor actorType decision reason source : string) : M Request :=
  let decision := ToLower (TrimSpace decision) in
  let reason := TrimSpace reason in
  lift (validateDecision decision reason actor) ;;;
  started <- now ;;
  pending <- Get id ;;
  lift (validateSeparation (req_requested_by pending) actor (as_allow_self s)) ;;;
  DecideStore id actor actorType decision reason source started.

Definition DecideByRemediation (s : Service) (remediationID actor actorType decision reason : string) : M Request :=
  request <- GetByRemediation remediationID ;;
  Decide s (req_id request) actor actorType decision reason "api".

Definition CancelByRemediation (remediationID actor reason : string) : M Request :=
  if TrimSpace actor =?s "" then throw (errorf "authenticated actor identity is required")
  else
    time <- now ;;
    CancelStore remediationID actor (TrimSpace reason) time.

Definition escalate_one (time : Z) (r : Request) : M unit :=
  sent <- attempt Notify ;;
  match sent with
  | Fail err => ignore (MarkNotification (req_id r) "escalation_failed" (err_text err))
  | Ok _ => ignore (MarkEscalated r time)
  end.

Definition processDue : M unit :=
  time <- now ;;
  ignore (ExpireDue time 100) ;;;
  due <- attempt (DueEscalations time 100) ;;
  match due with
  | Fail _ => ret tt
  | Ok due => for_each due (escalate_one time)
  end.

(** ** Guarantees *)

Lemma writeAuditTx_steady entry : okay steady (writeAuditTx entry).
Proof. apply okay_wrap, WriteTx_steady. Qed.
#[export] Hint Resolve writeAuditTx_steady : guar.

Section reads.
Context (R : DB -> DB -> Prop) `{!Reflexive R, !Transitive R}.

Lemma scanRequest_guar f : guar R (scanRequest f).
Proof. unfold scanRequest. guar_walk. Qed.
Lemma Get_guar id : guar R (Get id).
Proof. apply scanRequest_guar. Qed.
Lemma GetByRemediation_guar id : guar R (GetByRemediation id).
Proof. apply scanRequest_guar. Qed.
Lemma getByRemediation_guar id : guar R (getByRemediation id).
Proof. apply scanRequest_guar. Qed.
Lemma DueEscalations_guar time limit : guar R (DueEscalations time limit).
Proof. unfold DueEscalations. guar_walk. Qed.
Lemma Notify_guar : guar R Notify.
Proof. intros e w. unfold Notify. destruct (e_notify e (w_tick w)); simpl; reflexivity. Qed.
End reads.
#[export] Hint Resolve scanRequest_guar Get_guar GetByRemediation_guar getByRemediation_guar DueEscalations_guar Notify_guar : guar.

Lemma request_moves_pending r r' : is_pending r = true -> same_request r r' -> request_moves r r'.
Proof. unfold is_pending, request_moves. intros Hp Hs. reflect_tests. split; [done|]. by intros Hn. Qed.

(** An update of pending requests that does not approve them. *)
Lemma update_pending_steady id f :
  (forall r, same_request r (f r) /\ no_grant (f r) r) -> guar steady (update_request id is_pending f).
Proof. intros Hf. apply update_request_steady. intros r Hr. split; [apply request_moves_pending; [done|]|]; apply Hf. Qed.

Ltac pending_update := try apply okay_guar; apply update_pending_steady; intros ?; split; [by split|by intros ?].

Lemma MarkNotification_steady id status message : guar steady (MarkNotification id status message).
Proof.
  unfold MarkNotification. guar_walk. apply update_request_steady. intros r _. split; [split; [by split|done]|by intros ?].
Qed.

Lemma expireRemediationAndAudit_steady r time : okay steady (expireRemediationAndAudit r time).
Proof. unfold expireRemediationAndAudit. handler_walk. apply okay_guar. status_update Rem.StateTimedOut. Qed.
#[export] Hint Resolve MarkNotification_steady expireRemediationAndAudit_steady : guar.

Lemma expireTx_steady r time : okay steady (expireTx r time).
Proof. unfold expireTx. handler_walk. pending_update. Qed.

Lemma expire_steady r time : guar steady (expire r time).
Proof. unfold expire. handler_walk. pending_update. Qed.
#[export] Hint Resolve expireTx_steady expire_steady : guar.

Lemma expire_all_steady due time : guar steady (expire_all due time).
Proof. induction due as [|r due IH]; simpl; handler_walk. Qed.

Lemma MarkEscalated_steady r time : guar steady (MarkEscalated r time).
Proof.
  unfold MarkEscalated. handler_walk. apply okay_guar, update_request_steady. intros x Hx.
  apply andb_true_iff in Hx as [Hx _]. split; [apply request_moves_pending; [done|by split]|by intros ?].
Qed.
#[export] Hint Resolve expire_all_steady MarkEscalated_steady : guar.

Lemma ExpireDue_steady time limit : guar steady (ExpireDue time limit).
Proof. unfold ExpireDue. handler_walk. Qed.
#[export] Hint Resolve ExpireDue_steady : guar.

Lemma processDue_steady : guar steady processDue.
Proof. unfold processDue, escalate_one. handler_walk. Qed.

(** ** Successful runs *)

Lemma scanRequest_ok f e w r w' :
  scanRequest f e w = (Ok r, w') -> f (w_db w) = Some r /\ w_db w' = w_db w /\ w_sent w' = w_sent w.
Proof.
  unfold scanRequest. intros H. apply bind_ok in H as (found & w1 & H1 & H). apply attempt_ok in H1.
  destruct found as [x|err]; [|by destruct (bool_decide _)]. apply ret_ok in H as [-> ->]. by apply query_row_ok in H1.
Qed.

Lemma writeAuditTx_logged entry e w u w' :
  writeAuditTx entry e w = (Ok u, w') -> logged entry (w_db w) (w_db w') /\ w_sent w' = w_sent w.
Proof. intros H%wrap_ok. by apply WriteTx_logged in H. Qed.

(** What a decision makes of the two rows. *)
Definition approves (decision : string) : bool := decision =?s DecisionApprove.
Definition decided_status (decision : string) : string := if approves decision then StatusApproved else StatusDenied.
Definition remediation_status (decision : string) : string := if approves decision then Rem.StateApproved else Rem.StateRejected.
Definition decision_rows (q : Request) (r : RemediationAction) (id actor decision reason source : string) (time : Z) (d : DB) : DB :=
  set_remediations (<[req_remediation_id q := set_decision r (remediation_status decision) (if approves decision then actor else "")]>)
    (set_approvals (<[id := decided q (decided_status decision) actor reason source time]>) d).

Definition decision_entry (q : Request) (actor actorType decision reason source : string) : Entry :=
  audit_entry actor actorType (if approves decision then "approval.approved" else "approval.denied") "approval_request" (req_id q)
    (Some {["status" := VString StatusPending]})
    (Some (list_to_map [("status", VString (decided_status decision)); ("remediation_id", VString (req_remediation_id q));
      ("remediation_status", VString (remediation_status decision)); ("decided_by", VString actor);
      ("reason", VString reason); ("source", VString source)])) None.
Definition outcome_entry (q : Request) (actor actorType decision reason source : string) : Entry :=
  audit_entry actor actorType ("remediation." +:+ remediation_status decision) "remediation" (req_remediation_id q)
    (Some {["status" := VString "awaiting_approval"]})
    (Some (list_to_map [("status", VString (remediation_status decision)); ("approval_request_id", VString (req_id q));
      ("decision_reason", VString reason); ("decision_source", VString source)])) None.

Lemma decide_body_ok id actor actorType decision reason source time e w r w' :
  decide_body id actor actorType decision reason source time e w = (Ok r, w') ->
  exists q, db_approvals (w_db w) !! id = Some q /\ req_status q = StatusPending /\
  match r with
  | inl (out, true) =>
      time < req_expires_at q /\ out = decided q (decided_status decision) actor reason source time /\
      exists rem d1, db_remediations (w_db w) !! req_remediation_id q = Some rem /\ rem_status rem = Rem.StateAwaitingApproval /\
        logged (decision_entry q actor actorType decision reason source)
          (decision_rows q rem id actor decision reason source time (w_db w)) d1 /\
        logged (outcome_entry q actor actorType decision reason source) d1 (w_db w')
  | inl (out, false) =>
      req_expires_at q <= time /\ out = q /\
      exists w0 u, w_db w0 = w_db w /\ expireTx q time e w0 = (Ok u, w')
  | inr _ => False
  end.
Proof.
  unfold decide_body. intros H. apply bind_ok in H as (q & w0 & H0 & H). apply scanRequest_ok in H0 as (Hq & D0 & _).
  exists q. split; [done|]. destruct (req_status q =?s StatusPending) eqn:P; [|done]. reflect_tests. split; [done|]. simpl in H.
  destruct (time <? req_expires_at q) eqn:T; simpl in H; reflect_tests.
  - apply bind_ok in H as (u1 & w1 & H1%wrap_ok & H). apply update_if_ok in H1 as [_ H1].
    apply bind_ok in H as (u2 & w2 & H2%wrap_ok & H). apply update_if_ok in H2 as [_ H2].
    destruct u2; [|discriminate H]. destruct H2 as (rem & Hrem & Hst & D2). apply has_status_elem, list_elem_of_singleton in Hst.
    apply bind_ok in H as (? & w3 & [H3 _]%writeAuditTx_logged & H).
    apply bind_ok in H as (? & w4 & [H4 _]%writeAuditTx_logged & H). apply ret_ok in H as [-> ->].
    assert (w_db w1 = set_approvals (<[id := decided q (decided_status decision) actor reason source time]>) (w_db w)) as D1.
    { destruct u1; [|destruct H1 as [_ H1]; rewrite D0 in H1; by apply H1 in Hq].
      destruct H1 as (q' & Hq' & _ & D1). rewrite D0 in Hq', D1. assert (q' = q) as -> by congruence. exact D1. }
    split_and!; [done|done|]. exists rem, (w_db w3). rewrite D1 in Hrem. split_and!; [exact Hrem|done| |exact H4].
    rewrite D2, D1 in H3. exact H3.
  - apply bind_ok in H as (u & w1 & H1 & H). apply ret_ok in H as [-> ->]. split_and!; [done|done|]. by exists w0, u.
Qed.

Lemma by_remediation_Some remediationID d q :
  by_remediation remediationID d = Some q ->
  req_remediation_id q = remediationID /\ exists k, db_approvals d !! k = Some q.
Proof.
  unfold by_remediation, requests. intros ([i x] & Hf & ->)%fmap_Some. apply list_find_Some in Hf as (Hl & Hr & _).
  split; [done|]. apply list_elem_of_lookup_2, list_elem_of_fmap in Hl as ([k y] & -> & Hy). exists k.
  by apply elem_of_map_to_list in Hy.
Qed.

Lemma by_remediation_keyed remediationID d q :
  keyed d -> by_remediation remediationID d = Some q ->
  req_remediation_id q = remediationID /\ db_approvals d !! req_id q = Some q.
Proof. intros HK (? & k & Hk)%by_remediation_Some. split; [done|]. by rewrite (keyed_requests _ HK _ _ Hk). Qed.

Lemma cancel_body_ok remediationID actor reason time e w r w' :
  keyed (w_db w) -> cancel_body remediationID actor reason time e w = (Ok r, w') ->
  exists q rem d1 entry1 entry2, db_approvals (w_db w) !! req_id q = Some q /\ req_remediation_id q = remediationID /\
    req_status q = StatusPending /\ r = decided q StatusCancelled actor reason "api" time /\
    db_remediations (w_db w) !! remediationID = Some rem /\ rem_status rem = Rem.StateAwaitingApproval /\
    logged entry1 (set_remediations (<[remediationID := set_status rem Rem.StateCancelled]>)
      (set_approvals (<[req_id q := decided q StatusCancelled actor reason "api" time]>) (w_db w))) d1 /\
    logged entry2 d1 (w_db w').
Proof.
  unfold cancel_body. intros HK H. apply bind_ok in H as (q & w0 & H0 & H). apply scanRequest_ok in H0 as (Hq & D0 & _).
  apply (by_remediation_keyed _ _ _ HK) in Hq as [Hi Hq].
  destruct (req_status q =?s StatusPending) eqn:P; [|done]. reflect_tests. simpl in H.
  apply bind_ok in H as (u1 & w1 & H1%wrap_ok & H). apply update_if_ok in H1 as [_ H1].
  apply bind_ok in H as (u2 & w2 & H2%wrap_ok & H). apply update_if_ok in H2 as [_ H2].
  destruct u2; [|discriminate H]. destruct H2 as (rem & Hrem & Hst & D2). apply has_status_elem, list_elem_of_singleton in Hst.
  apply bind_ok in H as (? & w3 & [H3 _]%writeAuditTx_logged & H).
  apply bind_ok in H as (? & w4 & [H4 _]%writeAuditTx_logged & H). apply ret_ok in H as [-> ->]. rewrite D0 in H1.
  destruct u1; [|destruct H1 as [_ H1]; by apply H1 in Hq]. destruct H1 as (q' & Hq' & _ & D1).
  assert (q' = q) as -> by congruence. rewrite D1 in Hrem. rewrite D2, D1 in H3.
  eexists q, rem, (w_db w3), _, _. split_and!; [done..|exact Hrem|done|exact H3|exact H4].
Qed.

(** What a recorded decision does to the tables. *)
Definition decision_recorded (id actor actorType decision reason source : string) (time : Z) (q out : Request) (d d' : DB) : Prop :=
  time < req_expires_at q /\ out = decided q (decided_status decision) actor reason source time /\
  exists rem d1, db_remediations d !! req_remediation_id q = Some rem /\ rem_status rem = Rem.StateAwaitingApproval /\
    logged (decision_entry q actor actorType decision reason source) (decision_rows q rem id actor decision reason source time d) d1 /\
    logged (outcome_entry q actor actorType decision reason source) d1 d'.

(** The request and its remediation are closed when the deadline has passed. *)
Definition expiry_rows (q : Request) (time : Z) (d : DB) : DB :=
  let d1 := set_approvals (<[req_id q := expired q time]>) d in
  match db_remediations d !! req_remediation_id q with
  | Some r => if has_status [Rem.StateAwaitingApproval] r
              then set_remediations (<[req_remediation_id q := set_status r Rem.StateTimedOut]>) d1 else d1
  | None => d1
  end.
Definition expiry_recorded (time : Z) (q : Request) (d d' : DB) : Prop :=
  req_expires_at q <= time /\ exists entry1 entry2 d1,
    ent_action entry1 = "approval.expired" /\ ent_action entry2 = "remediation.approval_timed_out" /\
    logged entry1 (expiry_rows q time d) d1 /\ logged entry2 d1 d'.

Lemma expireTx_ok q time e w u w' :
  db_approvals (w_db w) !! req_id q = Some q -> req_status q = StatusPending -> expireTx q time e w = (Ok u, w') ->
  exists entry1 entry2 d1, ent_action entry1 = "approval.expired" /\ ent_action entry2 = "remediation.approval_timed_out" /\
    logged entry1 (expiry_rows q time (w_db w)) d1 /\ logged entry2 d1 (w_db w').
Proof.
  unfold expireTx, expireRemediationAndAudit. intros Hq Hp H.
  apply bind_ok in H as (u1 & w1 & H1%wrap_ok & H). apply update_if_ok in H1 as [_ H1].
  apply bind_ok in H as (u2 & w2 & H2%wrap_ok & H). apply update_if_ok in H2 as [_ H2].
  apply bind_ok in H as (? & w3 & [H3 _]%writeAuditTx_logged & [H4 _]%writeAuditTx_logged).
  assert (w_db w2 = expiry_rows q time (w_db w)) as D2.
  { destruct u1; [|destruct H1 as [_ H1]; apply H1 in Hq; unfold is_pending in Hq; by rewrite Hp in Hq].
    destruct H1 as (q' & Hq' & _ & D1). assert (q' = q) as -> by congruence. unfold expiry_rows. rewrite D1 in H2. simpl in H2.
    destruct u2; [destruct H2 as (r & -> & -> & ->); done|destruct H2 as [-> H2]].
    destruct (db_remediations (w_db w) !! req_remediation_id q) as [r|]; [|done]. by rewrite (H2 r eq_refl). }
  rewrite D2 in H3. eexists _, _, _. split_and!; [| |exact H3|exact H4]; done.
Qed.

Lemma DecideStore_cases id actor actorType decision reason source time e w :
  keyed (w_db w) ->
  match DecideStore id actor actorType decision reason source time e w with
  | (Ok out, w') => exists q, db_approvals (w_db w) !! id = Some q /\ req_status q = StatusPending /\
      decision_recorded id actor actorType decision reason source time q out (w_db w) (w_db w')
  | (Fail err, w') => w_db w' = w_db w \/ err = ErrExpired /\
      exists q, db_approvals (w_db w) !! id = Some q /\ req_status q = StatusPending /\ expiry_recorded time q (w_db w) (w_db w')
  end.
Proof.
  intros HK. unfold DecideStore, bind. destruct (tx_choice _ _ _ e w) as [[outcome|err] w1] eqn:E.
  - apply tx_choice_ok in E as (w0 & w2 & D0 & _ & H & D). apply decide_body_ok in H as (q & Hq & Hp & H). rewrite D0 in *.
    destruct outcome as [[out [|]]|[]]; [| |done]; simpl.
    + exists q. rewrite D. split_and!; [done|done|exact H].
    + right. split; [done|]. exists q. split_and!; [done|done|]. destruct H as (Ht & -> & w3 & u & D3 & H).
      split; [done|]. apply expireTx_ok in H as (e1 & e2 & d1 & H); [|by rewrite D3, (keyed_requests _ HK _ _ Hq)|done].
      exists e1, e2, d1. by rewrite D, <- D3.
  - left. by eapply tx_choice_fail.
Qed.

(** ** Decisions keep authority *)

Section lawful.
Context (allow_self : bool).

Lemma decision_rows_progress id actor decision reason source time q rem d :
  db_approvals d !! id = Some q -> req_status q = StatusPending ->
  db_remediations d !! req_remediation_id q = Some rem -> rem_status rem = Rem.StateAwaitingApproval ->
  progress d (decision_rows q rem id actor decision reason source time d).
Proof.
  intros Hq Hp Hr Hs. etrans.
  - apply (progress_requests d). eapply rows_kept_update; [apply _|exact Hq|].
    apply (request_moves_pending q (decided q (decided_status decision) actor reason source time)); [by apply eqb_string_true|by split].
  - apply (progress_remediations (set_approvals _ d)). eapply rows_kept_update; [apply _|exact Hr|]. split; [by split|].
    apply rtc_once. left. rewrite Hs. simpl. unfold remediation_status. by destruct (approves decision); vm_compute.
Qed.

Lemma decision_rows_authority id actor decision reason source time q rem d :
  authority allow_self d -> db_approvals d !! id = Some q -> req_status q = StatusPending ->
  db_remediations d !! req_remediation_id q = Some rem -> rem_status rem = Rem.StateAwaitingApproval ->
  by_other allow_self (decided q (decided_status decision) actor reason source time) ->
  authority allow_self (decision_rows q rem id actor decision reason source time d).
Proof.
  intros [HK HM HR HA HG] Hq Hp Hr Hs Hby. pose proof (decision_rows_progress id actor decision reason source time q rem d Hq Hp Hr Hs) as HP.
  split.
  - split; simpl; [..|apply HK]; intros k x [[<- <-]|[_ Hx]]%lookup_insert_Some; simpl; by eapply HK.
  - simpl. intros k x [[<- <-]|[_ Hx]]%lookup_insert_Some; [|by eapply HM]. simpl. by eapply HM.
  - eapply progress_requests_kept; [exact HP| |exact HR]. simpl. by eapply rows_kept_back; [intros ?|exact Hq|].
  - simpl. intros k x [[<- <-]|[_ Hx]]%lookup_insert_Some; [by intros _|by eapply HA].
  - simpl. intros k x [[<- <-]|[Hk Hx]]%lookup_insert_Some Ha.
    + right. eexists id, _. simpl. rewrite lookup_insert_eq. unfold remediation_status, decided_status in *.
      destruct (approves decision); [by split_and!|vm_compute in Ha; discriminate].
    + eapply granted_kept; [exact HP|reflexivity|done|]. by apply HG.
Qed.

Lemma decision_recorded_lawful id actor actorType decision reason source time q out d d' :
  db_approvals d !! id = Some q -> req_status q = StatusPending ->
  by_other allow_self (decided q (decided_status decision) actor reason source time) ->
  decision_recorded id actor actorType decision reason source time q out d d' -> lawful allow_self d d'.
Proof.
  intros Hq Hp Hby (_ & _ & rem & d1 & Hr & Hs & L1 & L2). etrans.
  - intros HA. split; [by apply decision_rows_progress|by apply decision_rows_authority].
  - etrans; by eapply steady_lawful, logged_steady.
Qed.

Lemma expiry_recorded_lawful time q d d' :
  db_approvals d !! req_id q = Some q -> req_status q = StatusPending -> expiry_recorded time q d d' -> lawful allow_self d d'.
Proof.
  intros Hq Hp (_ & entry1 & entry2 & d1 & _ & _ & L1 & L2).
  apply steady_lawful. etrans; [|etrans; [eapply logged_steady, L1|eapply logged_steady, L2]]. unfold expiry_rows.
  assert (steady d (set_approvals (<[req_id q := expired q time]>) d)) as S1.
  { eapply steady_request; [done| |by intros ?]. apply request_moves_pending; [by apply eqb_string_true|by split]. }
  destruct (db_remediations d !! req_remediation_id q) as [r|] eqn:Er; [|done].
  destruct (has_status _ r) eqn:Es; [|done]. etrans; [exact S1|]. apply has_status_elem, list_elem_of_singleton in Es.
  eapply (steady_remediation (set_approvals _ d)); [exact Er|by split|left; by rewrite Es|].
  intros Hx. vm_compute in Hx. discriminate.
Qed.

(** The remediation the request is for is stored, and pending means undecided. *)
Definition about_stored (r : Request) (d : DB) : Prop :=
  req_status r = StatusPending /\
  exists rem, db_remediations d !! req_remediation_id r = Some rem /\ same_subject (inserted r) rem.

Lemma insert_lawful r d :
  about_stored r d -> db_approvals d !! req_id r = None -> lawful allow_self d (set_approvals (<[req_id r := inserted r]>) d).
Proof.
  intros (Hp & rem & Hr & Hs) Hn [HK HM HR HA HG].
  assert (progress d (set_approvals (<[req_id r := inserted r]>) d)) as HP.
  { apply (progress_requests d), rows_kept_new; [apply _|]. by apply insert_subseteq. }
  split; [exact HP|]. split.
  - split; simpl; [apply HK| |apply HK]. intros k x [[<- <-]|[_ Hx]]%lookup_insert_Some; [done|by eapply HK].
  - exact HM.
  - simpl. intros k x [[<- <-]|[_ Hx]]%lookup_insert_Some; [by exists rem|by eapply HR].
  - simpl. intros k x [[<- <-]|[_ Hx]]%lookup_insert_Some; [simpl; by rewrite Hp|by eapply HA].
  - simpl. intros k x Hx Ha. eapply granted_kept; [exact HP|reflexivity|done|]. by apply HG.
Qed.

Lemma create_body_lawful r : okay (given (about_stored r) (lawful allow_self)) (create_body r).
Proof.
  intros e w out w' H Hw. unfold create_body in H. apply bind_ok in H as (existing & w1 & H1%attempt_ok & H).
  assert (w_db w1 = w_db w) as D1.
  { pose proof (getByRemediation_guar eq (req_remediation_id r) e w) as G. by rewrite H1 in G. }
  destruct existing as [found|err]; [apply ret_ok in H as [_ ->]; by rewrite D1|].
  destruct (negb _); [done|]. apply bind_ok in H as (added & w2 & H2%attempt_ok & H).
  destruct added as [u|err2].
  - apply stmt_ok in H2 as [H2 _]. destruct (bool_decide (is_Some _)) eqn:N; [discriminate H2|]. simpl in H2.
    destruct (_ || _); [discriminate H2|]. injection H2 as _ H2. apply bind_ok in H as (? & w3 & [H3 _]%writeAuditTx_logged & H).
    apply ret_ok in H as [_ ->]. rewrite <- H2, D1 in H3. reflect_tests. rewrite D1 in N.
    etrans; [apply insert_lawful; [exact Hw|by apply eq_None_not_Some]|]. by eapply steady_lawful, logged_steady.
  - apply ret_ok in H as [_ ->]. assert (w_db w2 = w_db w1) as ->; [|by rewrite D1].
    by apply stmt_fail in H2.
Qed.

Lemma Create_lawful r : guar (given (about_stored r) (lawful allow_self)) (Create r).
Proof.
  unfold Create. apply given_bind; [typeclasses eauto|..].
  - apply okay_tx_choice; [typeclasses eauto|]. apply create_body_lawful.
  - intros [[?|?]|err]; handler_walk.
Qed.
End lawful.

Lemma insert_request_progress r : guar progress (insert_request r).
Proof.
  apply guar_stmt; [typeclasses eauto|]. intros d u d'. destruct (bool_decide (is_Some _)) eqn:E; [discriminate|]. simpl.
  destruct (_ || _); [discriminate|]. intros [= _ <-]. reflect_tests. apply (progress_requests d), rows_kept_new; [apply _|].
  apply insert_subseteq. by apply eq_None_not_Some.
Qed.
#[export] Hint Resolve insert_request_progress : guar.

Lemma Create_progress r : guar progress (Create r).
Proof. unfold Create, create_body. handler_walk. Qed.
#[export] Hint Resolve Create_progress : guar.

Lemma RequestApproval_progress s incident a : guar progress (RequestApproval s incident a).
Proof. unfold RequestApproval. handler_walk. Qed.
#[export] Hint Resolve RequestApproval_progress : guar.

(** A remediation as the tables hold it, or as it was just written to them. *)
Definition stored_action (a : RemediationAction) (d : DB) : Prop :=
  exists r, db_remediations d !! rem_id a = Some r /\ rem_proposed_by r = rem_proposed_by a /\
    rem_action_type r = rem_action_type a /\ rem_target r = rem_target a /\ rem_parameters r = reread_map (rem_parameters a).

Section requests.
Context (allow_self : bool).

Lemma RequestApproval_lawful s incident a :
  guar (given (stored_action a) (lawful allow_self)) (RequestApproval s incident a).
Proof.
  unfold RequestApproval. apply given_after; [typeclasses eauto|apply guar_now; typeclasses eauto|intros time].
  apply given_after; [typeclasses eauto|apply guar_NewID; typeclasses eauto|intros id]. cbv zeta.
  apply given_bind; [typeclasses eauto|..|intros; handler_walk].
  intros e w (r & Hr & Hp & Ha & Ht & Hm). apply Create_lawful. split; [done|]. exists r. by split; [|split].
Qed.

Lemma cancel_body_lawful remediationID actor reason time :
  okay (lawful allow_self) (cancel_body remediationID actor reason time).
Proof.
  intros e w r w' H HA. apply cancel_body_ok in H as (q & rem & d1 & e1 & e2 & Hq & Hi & Hp & _ & Hr & Hs & L1 & L2); [|apply HA].
  revert HA. apply steady_lawful. etrans; [|etrans; [eapply logged_steady, L1|eapply logged_steady, L2]]. etrans.
  - eapply steady_request; [exact Hq| |].
    + apply (request_moves_pending q (decided q StatusCancelled actor reason "api" time)); [by apply eqb_string_true|by split].
    + by intros ?.
  - eapply (steady_remediation (set_approvals _ (w_db w))); [exact Hr|by split|left; by rewrite Hs|].
    intros Hx. vm_compute in Hx. discriminate.
Qed.

Lemma CancelByRemediation_lawful remediationID actor reason : guar (lawful allow_self) (CancelByRemediation remediationID actor reason).
Proof. unfold CancelByRemediation, CancelStore. handler_walk. apply cancel_body_lawful. Qed.
End requests.
#[export] Hint Resolve CancelByRemediation_lawful : guar.

Lemma validateDecision_ok decision reason actor u :
  validateDecision decision reason actor = Ok u ->
  (decision = DecisionApprove \/ decision = DecisionDeny) /\ TrimSpace actor <> "" /\ actor <> "system" /\ TrimSpace reason <> "".
Proof.
  unfold validateDecision. destruct (decision =?s DecisionApprove) eqn:E1; [|destruct (decision =?s DecisionDeny) eqn:E2; [|discriminate]];
    simpl; (destruct (_ || _) eqn:E3; [discriminate|]); (destruct (TrimSpace reason =?s "") eqn:E4; [discriminate|]);
    reflect_tests; auto.
Qed.

Lemma validateSeparation_ok requestedBy actor allow u :
  validateSeparation requestedBy actor allow = Ok u ->
  allow = false -> EqualFold (TrimSpace requestedBy) (TrimSpace actor) = false.
Proof. unfold validateSeparation. intros H ->. simpl in H. by destruct (EqualFold _ _). Qed.

(** The outcome of a decision, and the checks that come before it. *)
Lemma Decide_cases s id actor actorType decision reason source e w :
  keyed (w_db w) ->
  let choice := ToLower (TrimSpace decision) in
  match Decide s id actor actorType decision reason source e w with
  | (Ok out, w') => exists q, db_approvals (w_db w) !! id = Some q /\ req_status q = StatusPending /\
      (choice = DecisionApprove \/ choice = DecisionDeny) /\ TrimSpace reason <> "" /\
      by_other (as_allow_self s) (decided q (decided_status choice) actor (TrimSpace reason) source (e_now e)) /\
      decision_recorded id actor actorType choice (TrimSpace reason) source (e_now e) q out (w_db w) (w_db w')
  | (Fail err, w') => w_db w' = w_db w \/ err = ErrExpired /\
      exists q, db_approvals (w_db w) !! id = Some q /\ req_status q = StatusPending /\ expiry_recorded (e_now e) q (w_db w) (w_db w')
  end.
Proof.
  intros HK choice. unfold Decide. fold choice. unfold bind at 1, lift at 1.
  destruct (validateDecision choice (TrimSpace reason) actor) as [u|err] eqn:V; [|by left].
  unfold bind at 1, now at 1. unfold bind at 1. destruct (Get id e w) as [[q|err] w1] eqn:G.
  - apply scanRequest_ok in G as (Hq & D1 & _). unfold bind at 1, lift at 1.
    destruct (validateSeparation _ _ _) as [u'|err] eqn:S; [|by left].
    pose proof (DecideStore_cases id actor actorType choice (TrimSpace reason) source (e_now e) e w1) as C. rewrite D1 in C.
    specialize (C HK). destruct (DecideStore _ _ _ _ _ _ _ e w1) as [[out|err] w2]; [|exact C].
    destruct C as (q' & Hq' & Hp & HD). assert (q' = q) as -> by congruence. exists q.
    apply validateDecision_ok in V as (Hc & Ha & Hn & Hr). pose proof (validateSeparation_ok _ _ _ _ S) as HS.
    split_and!; [done|done|exact Hc|intros E; by rewrite E in Hr| |exact HD]. by split.
  - left. pose proof (Get_guar eq id e w) as H. by rewrite G in H.
Qed.

Lemma Decide_lawful s id actor actorType decision reason source :
  guar (lawful (as_allow_self s)) (Decide s id actor actorType decision reason source).
Proof.
  intros e w HA. pose proof (Decide_cases s id actor actorType decision reason source e w (au_keyed _ _ HA)) as C. cbv zeta in C.
  destruct (Decide _ _ _ _ _ _ _ e w) as [[out|err] w']; simpl.
  - destruct C as (q & Hq & Hp & _ & _ & Hby & HD). revert HA. by eapply decision_recorded_lawful.
  - destruct C as [->|(_ & q & Hq & Hp & HX)]; [by split|]. rewrite <- (keyed_requests _ (au_keyed _ _ HA) _ _ Hq) in Hq.
    revert HA. by eapply expiry_recorded_lawful.
Qed.
#[export] Hint Resolve Decide_lawful : guar.

Lemma DecideByRemediation_lawful s remediationID actor actorType decision reason :
  guar (lawful (as_allow_self s)) (DecideByRemediation s remediationID actor actorType decision reason).
Proof. unfold DecideByRemediation. handler_walk. Qed.
#[export] Hint Resolve DecideByRemediation_lawful : guar.

Lemma Decide_keyed s id actor actorType decision reason source e w out w' :
  keyed (w_db w) -> Decide s id actor actorType decision reason source e w = (Ok out, w') -> keyed (w_db w').
Proof.
  intros HK H. pose proof (Decide_cases s id actor actorType decision reason source e w HK) as C. rewrite H in C.
  destruct C as (q & Hq & _ & _ & _ & _ & _ & _ & rem & d1 & Hrem & _ & (row1 & c1 & -> & _) & (row2 & c2 & -> & _)).
  split; simpl; [..|apply HK]; intros k x [[<- <-]|[_ Hx]]%lookup_insert_Some; simpl; by eapply HK.
Qed.

(** ** Properties *)


(** A refused decision grants nothing. When [Decide] fails, either no table
    changed, or the deadline had passed: then the error is [ErrExpired], the
    request is marked expired and its remediation, if it was still awaiting
    approval, timed out. In particular nothing becomes approved. *)
Theorem Decide_refused s id actor actorType decision reason source e w err w' :
  keyed (w_db w) -> Decide s id actor actorType decision reason source e w = (Fail err, w') ->
  w_db w' = w_db w \/
  err = ErrExpired /\ exists q, db_approvals (w_db w) !! id = Some q /\ req_status q = StatusPending /\ req_expires_at q <= e_now e /\
    db_approvals (w_db w') = <[id := expired q (e_now e)]> (db_approvals (w_db w)) /\
    forall k r, db_remediations (w_db w') !! k = Some r -> db_remediations (w_db w) !! k = Some r \/
      k = req_remediation_id q /\ rem_status r = Rem.StateTimedOut.
Proof.
  intros HK H. pose proof (Decide_cases s id actor actorType decision reason source e w HK) as C. rewrite H in C.
  destruct C as [C|(-> & q & Hq & Hp & Ht & e1 & e2 & d1 & _ & _ & (row1 & c1 & -> & _) & (row2 & c2 & -> & _))]; [by left|right].
  split; [done|]. exists q. unfold expiry_rows. split_and!; [done|done|done|..]; simpl.
  - destruct (db_remediations (w_db w) !! req_remediation_id q) as [r|]; [destruct (has_status _ r)|]; simpl;
      by rewrite (keyed_requests _ HK _ _ Hq).
  - intros k r. destruct (db_remediations (w_db w) !! req_remediation_id q) as [x|]; [destruct (has_status _ x)|]; simpl; auto.
    intros [[<- <-]|[_ Hr]]%lookup_insert_Some; auto.
Qed.

(** A request is decided at most once. After a successful decision, whatever
    else the system did in between, the request still carries that decision and
    any further [Decide] on it fails and changes no table. *)
Theorem decided_once s id actor actorType decision reason source e w out w1 :
  keyed (w_db w) -> Decide s id actor actorType decision reason source e w = (Ok out, w1) ->
  forall w2 s' actor' actorType' decision' reason' source' e',
    keyed (w_db w2) -> progress (w_db w1) (w_db w2) ->
    (exists q, db_approvals (w_db w2) !! id = Some q /\ decision_of q = decision_of out) /\
    is_ok (Decide s' id actor' actorType' decision' reason' source' e' w2).1 = false /\
    w_db (Decide s' id actor' actorType' decision' reason' source' e' w2).2 = w_db w2.
Proof.
  intros HK H w2 s' actor' actorType' decision' reason' source' e' HK2 HP.
  pose proof (Decide_cases s id actor actorType decision reason source e w HK) as C. rewrite H in C. cbv zeta in C.
  destruct C as (q & Hq & Hp & Hc & _ & _ & Ht & -> & rem & d1 & _ & _ & (row1 & c1 & -> & _) & (row2 & c2 & D & _)).
  set (out := decided q _ _ _ _ _) in *.
  assert (req_status out <> StatusPending) as Hn by (subst out; simpl; unfold decided_status; by destruct (approves _)).
  assert (db_approvals (w_db w1) !! id = Some out) as Hout by (rewrite D; simpl; apply lookup_insert_eq).
  destruct (pg_requests _ _ HP _ _ Hout) as (q2 & Hq2 & _ & Hd). specialize (Hd Hn). split; [by exists q2|].
  assert (req_status q2 <> StatusPending) as Hn2 by (rewrite (f_equal (fun x => x.1.1.1.1) Hd : req_status q2 = req_status out); exact Hn).
  pose proof (Decide_cases s' id actor' actorType' decision' reason' source' e' w2 HK2) as C. cbv zeta in C.
  destruct (Decide s' _ _ _ _ _ _ e' w2) as [[x|err] w3]; simpl.
  - destruct C as (q3 & Hq3 & Hp3 & _). congruence.
  - destruct C as [C|(_ & q3 & Hq3 & Hp3 & _)]; [done|congruence].
Qed.

(** ** The expiry sweep *)

Lemma expire_ok r time e w b w' :
  expire r time e w = (Ok b, w') ->
  (exists q, db_approvals (w_db w') = <[req_id r := expired q time]> (db_approvals (w_db w))) \/
  w_db w' = w_db w /\ forall q, db_approvals (w_db w) !! req_id r = Some q -> is_pending q = false.
Proof.
  unfold expire. intros H. apply bind_ok in H as (outcome & w1 & H1 & H). apply ret_ok in H as [_ ->].
  apply tx_choice_ok in H1 as (w0 & w2 & D0 & _ & H & D). rewrite <- D0.
  apply bind_ok in H as (affected & w3 & H3%wrap_ok & H). apply update_if_ok in H3 as [_ H3]. destruct affected; simpl in H.
  - left. destruct H3 as (q & _ & _ & D3). exists q. apply bind_ok in H as (u & w4 & H4 & H). apply ret_ok in H as [-> ->].
    rewrite D. clear D. unfold expireRemediationAndAudit in H4. apply bind_ok in H4 as (b2 & w5 & H5%wrap_ok & H4).
    apply update_if_ok in H5 as [_ H5]. apply bind_ok in H4 as (? & w6 & [(row1 & c1 & D6 & _) _]%writeAuditTx_logged & [(row2 & c2 & D7 & _) _]%writeAuditTx_logged).
    rewrite D7, D6. simpl. destruct b2; [destruct H5 as (rem & _ & _ & ->)|destruct H5 as [-> _]]; simpl; by rewrite D3.
  - apply ret_ok in H as [-> ->]. right. split; [by rewrite D, D0|apply H3].
Qed.

Lemma expire_all_ok due time e w out w' :
  expire_all due time e w = (Ok out, w') ->
  forall k q, db_approvals (w_db w') !! k = Some q -> is_pending q = true ->
    db_approvals (w_db w) !! k = Some q /\ k ∉ req_id <$> due.
Proof.
  revert w out w'. induction due as [|r due IH]; intros w out w' H k q Hq Hp; simpl in H.
  - apply ret_ok in H as [_ ->]. split; [done|apply not_elem_of_nil].
  - apply bind_ok in H as (b & w1 & H1 & H). apply bind_ok in H as (rest & w2 & H2 & H). apply ret_ok in H as [_ ->].
    destruct (IH _ _ _ H2 k q Hq Hp) as [H3 H4]. rewrite fmap_cons, not_elem_of_cons. apply expire_ok in H1 as [(x & D)|[D HN]].
    + rewrite D in H3. apply lookup_insert_Some in H3 as [[-> <-]|[Hne H3]]; [done|]. by split_and!.
    + rewrite D in H3. split_and!; [done| |done]. intros ->. by rewrite (HN _ H3) in Hp.
Qed.

Definition due_requests (time : Z) (d : DB) : list Request :=
  filter (fun r => is_pending r && (req_expires_at r <=? time) = true) (requests d).

(** The sweep leaves no overdue approval. When [ExpireDue] succeeds and at most
    [limit] requests were due, every request that is still pending has its deadline
    in the future; it can no longer be approved late. *)
Theorem ExpireDue_complete time limit e w out w' :
  keyed (w_db w) -> Z.of_nat (length (due_requests time (w_db w))) <= limit ->
  ExpireDue time limit e w = (Ok out, w') ->
  forall k q, db_approvals (w_db w') !! k = Some q -> req_status q = StatusPending -> time < req_expires_at q.
Proof.
  intros HK HL H k q Hq Hp. unfold ExpireDue in H. apply bind_ok in H as (due & w1 & H1%wrap_ok & H).
  apply query_ok in H1 as (-> & D1 & _). assert (is_pending q = true) as Hp' by by apply eqb_string_true.
  destruct (expire_all_ok _ _ _ _ _ _ H k q Hq Hp') as [H2 H3]. rewrite D1 in H2.
  destruct (Z.ltb_spec time (req_expires_at q)) as [|Hd]; [done|]. destruct H3. fold (due_requests time (w_db w)).
  rewrite <- (keyed_requests _ HK _ _ H2). apply list_elem_of_fmap. exists q. split; [done|].
  rewrite take_ge by (rewrite length_sort_stable; lia). apply elem_of_sort_stable, list_elem_of_filter. split.
  - rewrite Hp'. by apply Z.leb_le.
  - apply list_elem_of_fmap. exists (k, q). split; [done|]. by apply elem_of_map_to_list.
Qed.

(** ** Witnesses *)

Definition demo_incident : Incident :=
  mkIncident "inc_1" "checkout latency" "svc_1" "payments-api" "sev2" Inc.StatusAwaitingApproval "k" "f" 0 0 None "" 0 0 "local" 0 None.
Definition demo_remediation : RemediationAction :=
  mkRemediation "rem_1" "inc_1" "restart_service" "payments-api" ∅ Rem.StateAwaitingApproval "medium" "inc_1_restart_service_payments-api_1"
    "alice" "" ∅ true 1 1 None None None None "" 0.
Definition demo_request (expires : Z) : Request :=
  mkRequest "apr_1" "rem_1" "inc_1" "restart_service" "payments-api" ∅ "medium" StatusPending "alice" 0 0 expires None None
    "" "" "" "delivered" 1 "" 0 0.
Definition demo_observed : Observed :=
  mkObserved {["svc_1" := mkService "svc_1" "payments-api" "" "tier1" "local" None None None 0]} ∅ ∅ [] [] ∅.
Definition demo_db (expires : Z) : DB :=
  mkDB {["inc_1" := demo_incident]} {["rem_1" := demo_remediation]} {["apr_1" := demo_request expires]} ∅ ∅ ∅ ∅ [] (Some (0, GenesisHash)) demo_observed.
Definition demo_world (expires : Z) : world := mkWorld (demo_db expires) 0 [].
Definition demo_service : Service := NewService "slack" 0 0 0 false.

Lemma demo_keyed expires : keyed (w_db (demo_world expires)).
Proof. split; simpl; [by intros k x [<- <-]%lookup_singleton_Some..|]. intros k x Hx. simpl in Hx. by rewrite lookup_empty in Hx. Qed.

(** The deadline of the demo request lies after, or before, the clock of the run. *)
Definition later : Z := e_now quiet_env + minute.
Definition demo_decide (expires : Z) : result Request * world :=
  Decide demo_service "apr_1" "bob" "user" " Approve " "looks right" "api" quiet_env (demo_world expires).

Lemma demo_decide_ok : is_ok (demo_decide later).1 = true.
Proof. vm_compute. reflexivity. Qed.
Lemma demo_decide_late : is_ok (demo_decide 0).1 = false.
Proof. vm_compute. reflexivity. Qed.


Lemma Decide_refused_witness :
  exists err w', demo_decide 0 = (Fail err, w') /\ (w_db w' = demo_db 0 \/ err = ErrExpired).
Proof.
  pose proof demo_decide_late as O. destruct (demo_decide 0) as [[out|err] w'] eqn:E; [discriminate O|].
  exists err, w'. split; [reflexivity|].
  destruct (Decide_refused _ _ _ _ _ _ _ _ _ _ _ (demo_keyed 0) E) as [D|[Hx _]]; [by left|by right].
Defined.

Lemma decided_once_witness :
  exists out w1, demo_decide later = (Ok out, w1) /\
    is_ok (Decide demo_service "apr_1" "carol" "user" "deny" "second thoughts" "api" quiet_env w1).1 = false.
Proof.
  pose proof demo_decide_ok as O. destruct (demo_decide later) as [[out|err] w1] eqn:E; [|discriminate O].
  exists out, w1. split; [reflexivity|].
  apply (decided_once _ _ _ _ _ _ _ _ _ _ _ (demo_keyed later) E w1); [|reflexivity].
  exact (Decide_keyed _ _ _ _ _ _ _ _ _ _ _ (demo_keyed later) E).
Defined.

Lemma ExpireDue_complete_witness :
  exists out w', ExpireDue (e_now quiet_env) 100 quiet_env (demo_world 0) = (Ok out, w') /\ length out = 1%nat /\
    forall k q, db_approvals (w_db w') !! k = Some q -> req_status q = StatusPending -> e_now quiet_env < req_expires_at q.
Proof.
  assert (match ExpireDue (e_now quiet_env) 100 quiet_env (demo_world 0) with (Ok out, _) => length out = 1%nat | _ => False end) as O
    by (vm_compute; reflexivity).
  destruct (ExpireDue _ _ _ _) as [[out|err] w'] eqn:E; [|contradiction O]. exists out, w'. split; [reflexivity|]. split; [exact O|].
  refine (ExpireDue_complete _ _ _ _ _ _ (demo_keyed 0) _ E). vm_compute. discriminate.
Defined.
