(* ===== verification/Dispatch.v ===== *)
(** * The outbox of remediation jobs ([internal/remediation/dispatch.go])

    Execute writes a job in the transaction that reserves the remediation; the
    dispatcher publishes pending jobs until the stream accepts them, sends stuck
    ones again a bounded number of times, then times the remediation out. *)
From Stdlib Require Import Ascii String ZArith Lia.
From stdpp Require Import base gmap strings list relations.
From S2P Require Import Prelude GoStrings GoFloat GoValue Marshal Ledger Lifecycle Types Database AuditLog Store Progress Approvals.
Open Scope Z_scope.

Definition DispatchExecute : string := "execute".
Definition DispatchRedispatch : string := "redispatch".
Definition DispatchReplay : string := "replay".
Definition RemediationSubject : string := "remediation.execute".

Record DispatcherConfig := mkDispatcherConfig {
  PollInterval : Z;
  BatchSize : Z;
  PublishTimeout : Z;
  RedispatchAfter : Z;
  MaxRedispatches : Z;
  ReconcileInterval : Z;
  RunningStaleAfter : Z;
  WorkerLiveWindow : Z;
}.

Definition DefaultDispatcherConfig : DispatcherConfig :=
  mkDispatcherConfig second 50 (5 * second) (10 * minute) 3 (30 * second) (15 * minute) minute.

Definition or_default (v def : Z) : Z := if v <=? 0 then def else v.

(** [NewDispatcher]: zero or negative fields take the defaults. *)
Definition NewDispatcher (cfg : DispatcherConfig) : DispatcherConfig :=
  let def := DefaultDispatcherConfig in
  mkDispatcherConfig (or_default (PollInterval cfg) (PollInterval def)) (or_default (BatchSize cfg) (BatchSize def))
    (or_default (PublishTimeout cfg) (PublishTimeout def)) (or_default (RedispatchAfter cfg) (RedispatchAfter def))
    (or_default (MaxRedispatches cfg) (MaxRedispatches def)) (or_default (ReconcileInterval cfg) (ReconcileInterval def))
    (or_default (RunningStaleAfter cfg) (RunningStaleAfter def)) (or_default (WorkerLiveWindow cfg) (WorkerLiveWindow def)).

(** ** Jobs *)

Definition reservationEventID (r : RemediationAction) : M string :=
  match rem_queued_at r with
  | None => NewID "evt"
  | Some t => ret (rem_idempotency_key r +:+ "@" +:+ itoa t)
  end.

Definition Job (r : RemediationAction) (dispatchID : string) : M Event :=
  time <- now ;;
  ret (mkEvent dispatchID RemediationSubject time "argus-api" "" (rem_idempotency_key r)
    (list_to_map [("remediation_id", VString (rem_id r)); ("incident_id", VString (rem_incident_id r));
       ("dry_run", VBool (rem_dry_run r)); ("executor", VString "local")])).

(** INSERT: the id is the primary key, the remediation exists, the reason is known. *)
Definition insert_dispatch (x : Dispatch) : M unit :=
  stmt (fun d =>
    if bool_decide (is_Some (db_dispatches d !! dsp_id x)) ||
       negb (bool_decide (is_Some (db_remediations d !! dsp_remediation_id x))) ||
       negb (bool_decide (dsp_reason x ∈ [DispatchExecute; DispatchRedispatch; DispatchReplay]))
    then Fail (mkError KDatabase "remediation_dispatches constraint violated")
    else Ok (tt, set_dispatches (<[dsp_id x := x]>) d)).

Definition Enqueue (r : RemediationAction) (dispatchID reason : string) : M unit :=
  event <- Job r dispatchID ;;
  time <- db_now ;;
  wrap "enqueue remediation dispatch"
    (insert_dispatch (mkDispatch dispatchID (rem_id r) reason RemediationSubject event "pending" 0 "" time None time)).

(** ** Publishing *)

(** [dispatchBackoff]: 1s, 2s, 4s ... capped at 30s. *)
Definition dispatchBackoff (attempts : Z) : Z :=
  let attempts := if attempts <? 1 then 1 else attempts in
  let delay := Z.shiftl second (Z.min (attempts - 1) 5) in
  Z.min delay (30 * second).

Definition Dispatchable (status : string) : bool := (status =?s Rem.StateQueued) || (status =?s Rem.StateRunning).

Definition dsp_with (x : Dispatch) (state : string) (attempts : Z) (last_error : string) (next : Z) (published : option Z) : Dispatch :=
  mkDispatch (dsp_id x) (dsp_remediation_id x) (dsp_reason x) (dsp_subject x) (dsp_event x) state attempts last_error next published
    (dsp_created_at x).

Definition update_dispatch (id : string) (f : Dispatch -> Dispatch) : M unit :=
  update_if db_dispatches set_dispatches id (fun _ => true) f ;;; ret tt.

Definition jobs (d : DB) : list Dispatch := (map_to_list (db_dispatches d)).*2.

(** The due dispatches joined with the status of their remediation. *)
Definition due_dispatches (onlyID : string) (time limit : Z) (locked : string -> bool) (d : DB) : list (Dispatch * string) :=
  take (Z.to_nat limit) (sort_stable (fun a b => dsp_created_at a.1 <? dsp_created_at b.1)
    (omap (fun x => if (dsp_state x =?s "pending") && (dsp_next_attempt_at x <=? time) && ((onlyID =?s "") || (dsp_id x =?s onlyID)) &&
                       negb (locked (dsp_id x))
                    then r ← db_remediations d !! dsp_remediation_id x; Some (x, rem_status r) else None) (jobs d))).

(** One message after the other; the first the stream refuses ends the batch. *)
Fixpoint publish_batch (batch : list (Dispatch * string)) (time : Z) : M Z :=
  match batch with
  | [] => ret 0
  | (p, status) :: batch =>
      if negb (status =?s Rem.StateQueued) && negb (status =?s Rem.StateRunning) then
        update_dispatch (dsp_id p) (fun x =>
          dsp_with x "skipped" (dsp_attempts x) ("remediation is " +:+ status) (dsp_next_attempt_at x) (dsp_published_at x)) ;;;
        publish_batch batch time
      else
        sent <- attempt (Publish (dsp_subject p) (dsp_event p)) ;;
        match sent with
        | Fail pubErr =>
            let attempts := dsp_attempts p + 1 in
            update_dispatch (dsp_id p) (fun x =>
              dsp_with x (dsp_state x) attempts (err_text pubErr) (time + dispatchBackoff attempts) (dsp_published_at x)) ;;;
            ret 0
        | Ok _ =>
            update_dispatch (dsp_id p) (fun x =>
              dsp_with x "published" (dsp_attempts x + 1) "" (dsp_next_attempt_at x) (Some time)) ;;;
            n <- publish_batch batch time ;;
            ret (n + 1)
        end
  end.

Definition publish (cfg : DispatcherConfig) (onlyID : string) : M Z :=
  InTx (
    time <- db_now ;;
    locked <- row_locks ;;
    batch <- wrap "select pending dispatches" (query (due_dispatches onlyID time (BatchSize cfg) locked)) ;;
    publish_batch batch time).

Definition PublishOne (cfg : DispatcherConfig) (dispatchID : string) : M unit := publish cfg dispatchID ;;; ret tt.
Definition PublishPending (cfg : DispatcherConfig) : M Z := publish cfg "".

(** ** Sending a job again *)

Definition ErrNotDispatchable (status : string) : error :=
  mkError KNotDispatchable ("remediation is not queued or running: it is " +:+ status).

Definition redispatchTx (remediationID reason actorID actorType : string) (metadata : params) : M string :=
  '(status, count) <- query_row (fun d =>
    r ← db_remediations d !! remediationID;
    Some (rem_status r, Z.of_nat (length (filter (fun x => dsp_remediation_id x = remediationID) (jobs d))))) ;;
  if negb (Dispatchable status) then throw (ErrNotDispatchable status)
  else
    rem <- GetRemediation remediationID ;;
    reservation <- reservationEventID rem ;;
    let dispatchID := reservation +:+ "#" +:+ reason +:+ "-" +:+ itoa (count + 1) in
    Enqueue rem dispatchID reason ;;;
    WriteTx (audit_entry actorID actorType "remediation.redispatched" "remediation" remediationID
      (Some {["status" := VString status]}) (Some {["status" := VString status]})
      (Some (<["reason" := VString reason]> (<["dispatch_id" := VString dispatchID]> metadata)))) ;;;
    ret dispatchID.

Definition Redispatch (cfg : DispatcherConfig) (remediationID reason actorID actorType : string) (metadata : params) : M string :=
  dispatchID <- InTx (redispatchTx remediationID reason actorID actorType metadata) ;;
  ignore (PublishOne cfg dispatchID) ;;;
  ret dispatchID.

(** ** The reconciler *)

Record ReconcileResult := mkReconcileResult {
  Redispatched : list string;
  Exhausted : list string;
  WaitingForWorker : list string;
}.

Definition ErrStateChanged : error := mkError KStateChanged "remediation state changed".
Definition requireApplied (m : M bool) : M unit :=
  applied <- m ;;
  if applied then ret tt else throw ErrStateChanged.

Definition jobs_of (id : string) (d : DB) : list Dispatch := filter (fun x => dsp_remediation_id x = id) (jobs d).

(** Redispatches since the last execute or replay. *)
Definition redispatches_of (id : string) (d : DB) : Z :=
  let others := filter (fun x => dsp_reason x <> DispatchRedispatch) (jobs_of id d) in
  Z.of_nat (length (filter (fun x => dsp_reason x = DispatchRedispatch /\
    forallb (fun y => dsp_created_at y <? dsp_created_at x) others = true) (jobs_of id d))).

Definition has_worker (action : string) (since : Z) (d : DB) : bool :=
  existsb (fun h => (since <? hb_last h) && bool_decide (action ∈ hb_supported_actions h)) (map_to_list (db_heartbeats d)).*2.

Definition before (t : option Z) (limit : Z) : bool := match t with Some t => t <? limit | None => false end.

(** The condition of the query: waiting or running too long, and nothing sent or
    about to be sent lately. *)
Definition is_stuck (cfg : DispatcherConfig) (time : Z) (d : DB) (r : RemediationAction) : bool :=
  let mine := jobs_of (rem_id r) d in
  ((rem_status r =?s Rem.StateQueued) && before (rem_queued_at r) (time - RedispatchAfter cfg) ||
   (rem_status r =?s Rem.StateRunning) && before (rem_started_at r) (time - RunningStaleAfter cfg) && negb (bool_decide (mine = []))) &&
  negb (existsb (fun x => (dsp_state x =?s "pending") || (time - RedispatchAfter cfg <? dsp_created_at x) ||
                          match dsp_published_at x with Some t => time - RedispatchAfter cfg <? t | None => false end) mine).

Record stuck := mkStuck { st_id : string; st_status : string; st_redispatches : Z; st_has_worker : bool }.

#[export] Instance stuck_eq_dec : EqDecision stuck.
Proof. solve_decision. Defined.

(** NULLs sort last. *)
Definition queued_before (a b : RemediationAction) : bool :=
  match rem_queued_at a, rem_queued_at b with
  | Some x, Some y => x <? y
  | Some _, None => true
  | None, _ => false
  end.

Definition find_stuck (cfg : DispatcherConfig) (time : Z) (locked : string -> bool) (d : DB) : list stuck :=
  (fun r => mkStuck (rem_id r) (rem_status r) (redispatches_of (rem_id r) d)
              (has_worker (rem_action_type r) (time - WorkerLiveWindow cfg) d)) <$>
  take 100 (sort_stable queued_before (filter (fun r => is_stuck cfg time d r && negb (locked (rem_id r)) = true) (rows_of d))).

Definition reconcile_one (cfg : DispatcherConfig) (s : stuck) (result : ReconcileResult) : M ReconcileResult :=
  if negb (st_has_worker s) then
    ret (mkReconcileResult (Redispatched result) (Exhausted result) (WaitingForWorker result ++ [st_id s]))
  else if MaxRedispatches cfg <=? st_redispatches s then
    let reason := "no worker completed the job after " +:+ itoa (st_redispatches s) +:+ " redispatches" in
    requireApplied (CompleteRemediation (st_id s) Rem.StateTimedOut (Some {["reason" := VString reason]}) reason) ;;;
    WriteTx (audit_entry "" "system" "remediation.dispatch_exhausted" "remediation" (st_id s)
      (Some {["status" := VString (st_status s)]})
      (Some (list_to_map [("status", VString Rem.StateTimedOut); ("error", VString reason)])) None) ;;;
    ret (mkReconcileResult (Redispatched result) (Exhausted result ++ [st_id s]) (WaitingForWorker result))
  else
    redispatchTx (st_id s) DispatchRedispatch "" "system"
      (list_to_map [("redispatch", VInt (st_redispatches s + 1)); ("max_redispatches", VInt (MaxRedispatches cfg));
                    ("stuck_in", VString (st_status s))]) ;;;
    ret (mkReconcileResult (Redispatched result ++ [st_id s]) (Exhausted result) (WaitingForWorker result)).

Fixpoint reconcile_all (cfg : DispatcherConfig) (found : list stuck) (result : ReconcileResult) : M ReconcileResult :=
  match found with
  | [] => ret result
  | s :: found => result <- reconcile_one cfg s result ;; reconcile_all cfg found result
  end.

Definition no_result : ReconcileResult := mkReconcileResult [] [] [].

Definition Reconcile (cfg : DispatcherConfig) : M ReconcileResult :=
  result <- InTx (
    query (fun _ => tt) ;;;
    locked <- try_lock ;;
    if negb locked then ret no_result
    else
      query (fun d => filter (fun x => dsp_state x = "pending") (jobs d)) ;;;
      time <- db_now ;;
      locks <- row_locks ;;
      found <- wrap "find stuck remediations" (query (find_stuck cfg time locks)) ;;
      reconcile_all cfg found no_result) ;;
  (if bool_decide (Redispatched result = []) then ret tt else ignore (PublishPending cfg)) ;;;
  ret result.

(** ** Guarantees *)

Lemma update_dispatch_steady id f : (forall x, same_job x (f x)) -> guar steady (update_dispatch id f).
Proof.
  intros Hf. unfold update_dispatch. handler_walk. apply guar_update_if; [typeclasses eauto|]. intros d x Hx _.
  by eapply steady_job.
Qed.

Lemma Enqueue_steady r id reason : guar steady (Enqueue r id reason).
Proof.
  unfold Enqueue, Job. handler_walk. apply guar_stmt; [typeclasses eauto|]. intros d u d'. simpl.
  destruct (bool_decide (is_Some (db_dispatches d !! id))) eqn:E; [discriminate|]. simpl.
  destruct (_ || _); [discriminate|]. intros [= _ <-]. reflect_tests.
  apply (steady_new_job d (mkDispatch id _ _ _ _ _ _ _ _ _ _)). by apply eq_None_not_Some.
Qed.

Lemma publish_batch_steady batch time : guar steady (publish_batch batch time).
Proof.
  induction batch as [|[p status] batch IH]; simpl; handler_walk; by apply update_dispatch_steady.
Qed.
#[export] Hint Resolve Enqueue_steady publish_batch_steady : guar.

Lemma publish_steady cfg id : guar steady (publish cfg id).
Proof. unfold publish. handler_walk. Qed.
#[export] Hint Resolve publish_steady : guar.
Lemma PublishOne_steady cfg id : guar steady (PublishOne cfg id).
Proof. unfold PublishOne. handler_walk. Qed.
Lemma PublishPending_steady cfg : guar steady (PublishPending cfg).
Proof. apply publish_steady. Qed.

Lemma reservationEventID_guar R `{!Reflexive R} r : guar R (reservationEventID r).
Proof. unfold reservationEventID. handler_walk. Qed.
#[export] Hint Resolve PublishOne_steady PublishPending_steady reservationEventID_guar : guar.

Lemma redispatchTx_steady id reason actor type m : okay steady (redispatchTx id reason actor type m).
Proof. unfold redispatchTx. handler_walk. Qed.
#[export] Hint Resolve redispatchTx_steady : guar.

Lemma Redispatch_steady cfg id reason actor type m : guar steady (Redispatch cfg id reason actor type m).
Proof. unfold Redispatch. handler_walk. Qed.

Lemma requireApplied_steady m : guar steady m -> guar steady (requireApplied m).
Proof. intros Hm. unfold requireApplied. handler_walk. Qed.
#[export] Hint Resolve requireApplied_steady : guar.

Lemma reconcile_one_steady cfg s result : okay steady (reconcile_one cfg s result).
Proof. unfold reconcile_one. handler_walk. Qed.
#[export] Hint Resolve reconcile_one_steady : guar.

Lemma reconcile_all_steady cfg found result : okay steady (reconcile_all cfg found result).
Proof. revert result. induction found as [|s found IH]; intros result; simpl; handler_walk. Qed.
#[export] Hint Resolve reconcile_all_steady : guar.

Lemma Reconcile_steady cfg : guar steady (Reconcile cfg).
Proof. unfold Reconcile. handler_walk. Qed.
#[export] Hint Resolve Redispatch_steady Reconcile_steady : guar.

(** ** Successful runs *)

(** The row of a new job. *)
Definition job_event (r : RemediationAction) (dispatchID : string) (time : Z) : Event :=
  mkEvent dispatchID RemediationSubject time "argus-api" "" (rem_idempotency_key r)
    (list_to_map [("remediation_id", VString (rem_id r)); ("incident_id", VString (rem_incident_id r));
       ("dry_run", VBool (rem_dry_run r)); ("executor", VString "local")]).
Definition new_dispatch (r : RemediationAction) (dispatchID reason : string) (time : Z) : Dispatch :=
  mkDispatch dispatchID (rem_id r) reason RemediationSubject (job_event r dispatchID time) "pending" 0 "" (TruncateMicro time) None
    (TruncateMicro time).

Lemma Enqueue_ok r id reason e w u w' :
  Enqueue r id reason e w = (Ok u, w') ->
  db_dispatches (w_db w) !! id = None /\
  w_db w' = set_dispatches (<[id := new_dispatch r id reason (e_now e)]>) (w_db w) /\ w_sent w' = w_sent w.
Proof.
  unfold Enqueue, Job. intros H. apply bind_ok in H as (ev & w1 & H1 & H). run_inv H1. apply bind_ok in H as (t & w2 & H2 & H%wrap_ok).
  run_inv H2. apply stmt_ok in H as [H HS]. simpl in H.
  destruct (bool_decide (is_Some _)) eqn:E; [discriminate H|]. simpl in H.
  destruct (_ || _); [discriminate H|]. injection H as _ H. reflect_tests. split_and!; [by apply eq_None_not_Some|by rewrite <- H|done].
Qed.

Lemma redispatchTx_ok remediationID reason actor type metadata e w id w' :
  redispatchTx remediationID reason actor type metadata e w = (Ok id, w') ->
  exists r entry, db_remediations (w_db w) !! remediationID = Some r /\ Dispatchable (rem_status r) = true /\
    db_dispatches (w_db w) !! id = None /\ ent_action entry = "remediation.redispatched" /\
    logged entry (set_dispatches (<[id := new_dispatch r id reason (e_now e)]>) (w_db w)) (w_db w') /\ w_sent w' = w_sent w.
Proof.
  unfold redispatchTx. intros H. apply bind_ok in H as ([status count] & w1 & H1 & H).
  apply query_row_ok in H1 as (H1 & D1 & S1). destruct (Dispatchable status) eqn:Ed; [|discriminate H]. simpl in H.
  apply bind_ok in H as (r & w2 & H2%wrap_ok & H). apply query_row_ok in H2 as (Hr & D2 & S2). rewrite D1 in Hr.
  rewrite Hr in H1. injection H1 as <- _.
  apply bind_ok in H as (reservation & w3 & H3 & H). 
  assert (w_db w3 = w_db w2 /\ w_sent w3 = w_sent w2) as [D3 S3] by (unfold reservationEventID in H3; destruct (rem_queued_at r); by run_inv H3).
  cbv zeta in H. apply bind_ok in H as (u & w4 & (HN & D4 & S4)%Enqueue_ok & H).
  apply bind_ok in H as (u' & w5 & [L S5]%WriteTx_logged & H). apply ret_ok in H as [-> ->].
  eexists r, _. rewrite D3, D2, D1 in *. rewrite D4 in L. split_and!; [done|done|done| |exact L|congruence]. done.
Qed.

(** A batch: what was sent, and which rows say so. *)
Definition message (x : Dispatch) : string * Event := (dsp_subject x, dsp_event x).

Lemma update_dispatch_ok id f e w u w' :
  update_dispatch id f e w = (Ok u, w') ->
  w_sent w' = w_sent w /\
  (db_dispatches (w_db w) !! id = None /\ w_db w' = w_db w \/
   exists x, db_dispatches (w_db w) !! id = Some x /\ w_db w' = set_dispatches (<[id := f x]>) (w_db w)).
Proof.
  unfold update_dispatch. intros H. apply bind_ok in H as (b & w1 & H1 & H). apply ret_ok in H as [_ ->].
  apply update_if_ok in H1 as [S H1]. split; [done|]. destruct b.
  - destruct H1 as (x & Hx & _ & D). right. by exists x.
  - destruct H1 as [D HN]. left. split; [|done]. destruct (db_dispatches (w_db w) !! id) as [x|]; [|done]. by specialize (HN x eq_refl).
Qed.

(** The rows are the same jobs, and one that is published now was before, or its
    message is among [new]. *)
Definition published_by (new : list (string * Event)) (d d' : DB) : Prop :=
  forall k x', db_dispatches d' !! k = Some x' -> exists x, db_dispatches d !! k = Some x /\ same_job x x' /\
    (dsp_state x' = "published" -> dsp_state x = "published" \/ message x' ∈ new).

Lemma published_by_refl d : published_by [] d d.
Proof. intros k x Hx. exists x. split_and!; [done|done|by left]. Qed.

Lemma published_by_trans l1 l2 d1 d2 d3 : published_by l1 d1 d2 -> published_by l2 d2 d3 -> published_by (l1 ++ l2) d1 d3.
Proof.
  intros H1 H2 k x3 Hx3. destruct (H2 _ _ Hx3) as (x2 & Hx2 & J2 & P2). destruct (H1 _ _ Hx2) as (x1 & Hx1 & J1 & P1).
  exists x1. split_and!; [done|by etrans|]. intros [Hs|Hs]%P2; [|rewrite elem_of_app; auto].
  apply P1 in Hs as [Hs|Hs]; [by left|right]. apply elem_of_app. left. unfold same_job, job_of in J2. unfold message.
  injection J2 as _ _ _ -> -> _. exact Hs.
Qed.

Lemma published_by_update new id f e w u w' :
  (forall x, same_job x (f x)) ->
  (forall x, db_dispatches (w_db w) !! id = Some x -> dsp_state (f x) = "published" -> dsp_state x = "published" \/ message x ∈ new) ->
  update_dispatch id f e w = (Ok u, w') -> published_by new (w_db w) (w_db w').
Proof.
  intros Hj Hs [_ [[_ ->]|(x & Hx & ->)]]%update_dispatch_ok; intros k y; [intros Hy; exists y; split_and!; [done|done|by left]|].
  simpl. intros [[<- <-]|[_ Hy]]%lookup_insert_Some; [|exists y; split_and!; [done|done|by left]].
  exists x. split_and!; [done|apply Hj|]. intros [?|?]%(Hs _ Hx); [by left|right]. pose proof (Hj x) as J. unfold same_job, job_of in J. unfold message in *.
  injection J as _ _ _ -> -> _. done.
Qed.

(** The batch is made of rows of the table. *)
Definition batch_rows (batch : list (Dispatch * string)) (d : DB) : Prop :=
  forall p, p ∈ batch -> exists x, db_dispatches d !! dsp_id p.1 = Some x /\ same_job p.1 x.

Lemma batch_rows_kept batch d d' : batch_rows batch d -> progress d d' -> batch_rows batch d'.
Proof.
  intros HB HP p Hp. destruct (HB p Hp) as (x & Hx & J). destruct (pg_dispatches _ _ HP _ _ Hx) as (x' & Hx' & J').
  exists x'. split; [done|by etrans].
Qed.

Lemma update_dispatch_keeps batch id f e w u w' :
  update_dispatch id f e w = (Ok u, w') -> batch_rows batch (w_db w) -> (forall x, same_job x (f x)) ->
  batch_rows batch (w_db w') /\ w_sent w' = w_sent w.
Proof.
  intros H HB Hf. split; [|by apply update_dispatch_ok in H as [? _]]. eapply batch_rows_kept; [exact HB|].
  pose proof (update_dispatch_steady id f Hf e w) as HS. rewrite H in HS. apply HS.
Qed.

Lemma publish_batch_ok batch time e w n w' :
  batch_rows batch (w_db w) -> publish_batch batch time e w = (Ok n, w') ->
  exists sent, w_sent w' = w_sent w ++ (message <$> sent.*1) /\ n = Z.of_nat (length sent) /\
    (forall p, p ∈ sent -> p ∈ batch /\ Dispatchable p.2 = true) /\ published_by (message <$> sent.*1) (w_db w) (w_db w').
Proof.
  revert w n. induction batch as [|[p status] batch IH]; intros w n HB H; simpl in H.
  - apply ret_ok in H as [-> ->]. exists []. rewrite app_nil_r. split_and!; [done|done|by intros p ?%elem_of_nil|apply published_by_refl].
  - assert (batch_rows batch (w_db w)) as HB' by (intros q Hq; apply HB; by right).
    destruct (negb _ && negb _) eqn:Est.
    + apply bind_ok in H as (u & w1 & H1 & H). destruct (update_dispatch_keeps batch _ _ _ _ _ _ H1 HB' (fun x => eq_refl)) as [HB1 S1].
      destruct (IH _ _ HB1 H) as (sent & S & N & HS & HP). exists sent. rewrite <- S1. split_and!; [done|done| |].
      * intros q Hq. destruct (HS q Hq). split; [by right|done].
      * apply (published_by_trans [] _ _ (w_db w1)); [|done]. by eapply published_by_update; [..|exact H1].
    + apply bind_ok in H as (sent0 & w1 & H1%attempt_ok & H). unfold Publish in H1.
      destruct (e_publish e (w_tick w)) as [msg|]; injection H1 as <- <-.
      * apply bind_ok in H as (u & w2 & H2 & H). apply ret_ok in H as [-> ->]. exists [].
        destruct (update_dispatch_keeps batch _ _ _ _ _ _ H2 HB' (fun x => eq_refl)) as [_ S2].
        rewrite S2, app_nil_r. split_and!; [done|done|by intros q ?%elem_of_nil|].
        change (w_db w) with (w_db (tick w)). eapply published_by_update; [..|exact H2]; [done|simpl; auto].
      * apply bind_ok in H as (u & w2 & H2 & H). apply bind_ok in H as (m & w3 & H3 & H). apply ret_ok in H as [-> ->].
        destruct (update_dispatch_keeps batch _ _ _ _ _ _ H2 HB' (fun x => eq_refl)) as [HB2 S2].
        destruct (IH _ _ HB2 H3) as (sent & S & -> & HS & HP). exists ((p, status) :: sent). simpl.
        split_and!; [rewrite S, S2; simpl; by rewrite <- app_assoc|lia| |].
        -- intros q [->|Hq]%elem_of_cons; [split; [by left|]|by destruct (HS q Hq); split; [right|]].
           simpl. unfold Dispatchable. by destruct (status =?s _), (status =?s _).
        -- apply (published_by_trans [message p] _ _ (w_db w2)); [|done].
           match type of H2 with update_dispatch _ _ _ ?w0 = _ => change (w_db w) with (w_db w0) end.
           eapply published_by_update; [..|exact H2]; [done|]. simpl. intros x Hx _. right.
           destruct (HB (p, status)) as (y & Hy & J); [by left|]. simpl in Hy. assert (y = x) as -> by congruence.
           unfold same_job, job_of in J. unfold message. injection J as _ _ _ -> -> _. by left.
Qed.

Lemma due_dispatches_rows onlyID time limit locked d p :
  keyed_jobs d -> p ∈ due_dispatches onlyID time limit locked d ->
  db_dispatches d !! dsp_id p.1 = Some p.1 /\ dsp_state p.1 = "pending" /\ dsp_next_attempt_at p.1 <= time /\
  exists r, db_remediations d !! dsp_remediation_id p.1 = Some r /\ rem_status r = p.2.
Proof.
  intros HK Hp%subseteq_take%elem_of_sort_stable. apply list_elem_of_omap in Hp as (x & Hx & Hp).
  apply list_elem_of_fmap in Hx as ([k y] & -> & Hy%elem_of_map_to_list). simpl in *.
  destruct (_ && _) eqn:E; [|discriminate Hp]. reflect_tests. destruct (db_remediations d !! dsp_remediation_id y) as [r|] eqn:Er; [|discriminate Hp].
  injection Hp as <-. simpl. rewrite (HK _ _ Hy). split_and!; [done|done|done|]. by exists r.
Qed.

(** ** The reconciler's runs *)

Lemma requireApplied_ok m e w u w' : requireApplied m e w = (Ok u, w') -> m e w = (Ok true, w').
Proof. unfold requireApplied. intros H. apply bind_ok in H as ([|] & w1 & H1 & H); [by apply ret_ok in H as [_ ->]|discriminate H]. Qed.

(** What one stuck remediation contributes. *)
Inductive reconciled (cfg : DispatcherConfig) (s : stuck) (res res' : ReconcileResult) (d d' : DB) : Prop :=
  | rc_waiting :
      st_has_worker s = false -> d' = d -> WaitingForWorker res' = WaitingForWorker res ++ [st_id s] ->
      Redispatched res' = Redispatched res -> Exhausted res' = Exhausted res -> reconciled cfg s res res' d d'
  | rc_exhausted r r' :
      st_has_worker s = true -> MaxRedispatches cfg <= st_redispatches s ->
      db_remediations d !! st_id s = Some r -> has_status [Rem.StateQueued; Rem.StateRunning] r = true ->
      rem_status r' = Rem.StateTimedOut -> db_remediations d' = <[st_id s := r']> (db_remediations d) ->
      db_dispatches d' = db_dispatches d ->
      Exhausted res' = Exhausted res ++ [st_id s] -> Redispatched res' = Redispatched res ->
      WaitingForWorker res' = WaitingForWorker res -> reconciled cfg s res res' d d'
  | rc_redispatched r x :
      st_has_worker s = true -> st_redispatches s < MaxRedispatches cfg ->
      db_remediations d !! st_id s = Some r -> Dispatchable (rem_status r) = true ->
      db_dispatches d !! dsp_id x = None -> dsp_remediation_id x = rem_id r -> dsp_reason x = DispatchRedispatch ->
      db_dispatches d' = <[dsp_id x := x]> (db_dispatches d) -> db_remediations d' = db_remediations d ->
      Redispatched res' = Redispatched res ++ [st_id s] -> Exhausted res' = Exhausted res ->
      WaitingForWorker res' = WaitingForWorker res -> reconciled cfg s res res' d d'.

Lemma reconcile_one_ok cfg s res e w res' w' :
  reconcile_one cfg s res e w = (Ok res', w') -> reconciled cfg s res res' (w_db w) (w_db w').
Proof.
  unfold reconcile_one. intros H. destruct (st_has_worker s) eqn:HW; simpl in H.
  - destruct (Z.leb_spec (MaxRedispatches cfg) (st_redispatches s)) as [HM|HM]; cbv zeta in H.
    + apply bind_ok in H as (u & w1 & H1%requireApplied_ok & H). unfold CompleteRemediation in H1.
      apply bind_ok in H1 as (t & w2 & H2 & H1%wrap_ok). run_inv H2. apply update_if_ok in H1 as [_ (r & Hr & Hs & D1)].
      apply bind_ok in H as (u' & w3 & [(row & c & D3 & _) _]%WriteTx_logged & H). apply ret_ok in H as [-> ->].
      eapply rc_exhausted; [done|done|exact Hr|exact Hs| |rewrite D3, D1; reflexivity|rewrite D3, D1; reflexivity|done..]. done.
    + apply bind_ok in H as (id & w1 & H1 & H). apply ret_ok in H as [-> ->].
      apply redispatchTx_ok in H1 as (r & entry & Hr & Hd & HN & _ & (row & c & D & _) & _).
      eapply (rc_redispatched _ _ _ _ _ _ r (new_dispatch r id DispatchRedispatch (e_now e))); try done; by rewrite D.
  - apply ret_ok in H as [-> ->]. by apply rc_waiting.
Qed.

Definition timed_out_by (cfg : DispatcherConfig) (found : list stuck) (d d' : DB) : Prop :=
  forall id r', db_remediations d' !! id = Some r' -> db_remediations d !! id = Some r' \/
    rem_status r' = Rem.StateTimedOut /\
    exists s, s ∈ found /\ st_id s = id /\ st_has_worker s = true /\ MaxRedispatches cfg <= st_redispatches s.

Definition new_job (s : stuck) (d d' : DB) : Prop :=
  exists x, db_dispatches d !! dsp_id x = None /\ dsp_remediation_id x = st_id s /\ dsp_reason x = DispatchRedispatch /\
    exists x', db_dispatches d' !! dsp_id x = Some x' /\ same_job x x'.

Lemma timed_out_by_cons cfg s found d d1 d' :
  timed_out_by cfg [s] d d1 -> timed_out_by cfg found d1 d' -> timed_out_by cfg (s :: found) d d'.
Proof.
  intros H1 H2 id r' Hr'. destruct (H2 _ _ Hr') as [Hr|(Hs & t & Ht & ?)]; [|right; split; [done|]; exists t; split; [by right|done]].
  destruct (H1 _ _ Hr) as [|(Hs & t & Ht%list_elem_of_singleton & ?)]; [by left|]. subst t. right. split; [done|].
  exists s. split; [by left|done].
Qed.

Lemma reconciled_timed_out cfg s res res' d d' : reconciled cfg s res res' d d' -> timed_out_by cfg [s] d d'.
Proof.
  intros [? ->|r r' HW HM _ _ Ht D|] id z Hx; [by left| |left; congruence].
  rewrite D in Hx. apply lookup_insert_Some in Hx as [[<- <-]|[_ Hx]]; [right|by left]. split; [done|].
  exists s. split; [by left|done].
Qed.

Lemma new_job_later s d d1 d2 : new_job s d d1 -> progress d1 d2 -> new_job s d d2.
Proof.
  intros (x & HN & HR & HX & x' & Hx' & J) HP. destruct (pg_dispatches _ _ HP _ _ Hx') as (x2 & Hx2 & J2).
  exists x. split_and!; [done|done|done|]. exists x2. split; [done|by etrans].
Qed.

Lemma new_job_earlier s d0 d d' : progress d0 d -> new_job s d d' -> new_job s d0 d'.
Proof.
  intros HP (x & HN & H). exists x. split; [|done]. destruct (db_dispatches d0 !! dsp_id x) as [y|] eqn:E; [|done].
  destruct (pg_dispatches _ _ HP _ _ E) as (? & ? & _). congruence.
Qed.

Lemma reconcile_all_ok cfg found res e w res' w' :
  keyed (w_db w) -> reconcile_all cfg found res e w = (Ok res', w') ->
  timed_out_by cfg found (w_db w) (w_db w') /\
  (forall s, s ∈ found -> st_has_worker s = true ->
     if MaxRedispatches cfg <=? st_redispatches s
     then exists r, db_remediations (w_db w') !! st_id s = Some r /\ rem_status r = Rem.StateTimedOut
     else new_job s (w_db w) (w_db w')).
Proof.
  revert res w. induction found as [|s found IH]; intros res w HK H; simpl in H.
  - apply ret_ok in H as [-> ->]. split; [by left|by intros s ?%elem_of_nil].
  - apply bind_ok in H as (res1 & w1 & H1 & H).
    pose proof (reconcile_one_steady _ _ _ _ _ _ _ H1) as S1.
    pose proof (reconcile_all_steady _ _ _ _ _ _ _ H) as S2.
    apply reconcile_one_ok in H1. destruct (IH _ _ (steady_keyed _ _ S1 HK) H) as [T J]. split.
    + eapply timed_out_by_cons; [by eapply reconciled_timed_out|done].
    + intros t [->|Ht]%elem_of_cons HW.
      * destruct H1 as [|r r' _ HM Hr Hst Hr' D|r x _ HM Hr Hd HN Hx HX D]; [congruence| |].
        -- rewrite (proj2 (Z.leb_le _ _) HM).
           assert (db_remediations (w_db w1) !! st_id s = Some r') as E by (rewrite D; apply lookup_insert_eq).
           destruct (pg_remediations _ _ (st_progress _ _ S2) _ _ E) as (r2 & E2 & _).
           exists r2. split; [done|]. destruct (T _ _ E2) as [E3|[? _]]; [congruence|done].
        -- rewrite (proj2 (Z.leb_gt _ _) HM). eapply new_job_later; [|apply S2]. exists x.
           rewrite Hx, (keyed_remediations _ HK _ _ Hr). split_and!; [done|done|done|]. exists x. rewrite D, lookup_insert_eq. done.
      * specialize (J t Ht HW). destruct (_ <=? _); [done|]. eapply new_job_earlier; [apply S1|done].
Qed.

(** Publishing leaves the remediations alone. *)
Definition same_remediations (d d' : DB) : Prop := db_remediations d' = db_remediations d.
#[export] Instance same_remediations_refl : Reflexive same_remediations.
Proof. intros d. done. Qed.
#[export] Instance same_remediations_trans : Transitive same_remediations.
Proof. unfold same_remediations. intros d1 d2 d3. congruence. Qed.

Lemma publish_same_remediations cfg id : guar same_remediations (publish cfg id).
Proof.
  unfold publish. guar_walk. match goal with |- guar _ (publish_batch ?b _) => induction b as [|[p status] batch IH] end;
    simpl; unfold update_dispatch; guar_walk; by apply guar_update_if; [typeclasses eauto|].
Qed.

Lemma find_stuck_elem cfg time locked d s :
  keyed d -> s ∈ find_stuck cfg time locked d ->
  exists r, db_remediations d !! st_id s = Some r /\ is_stuck cfg time d r = true /\ st_status s = rem_status r /\
    st_redispatches s = redispatches_of (st_id s) d /\ st_has_worker s = has_worker (rem_action_type r) (time - WorkerLiveWindow cfg) d.
Proof.
  intros HK (r & -> & Hr)%list_elem_of_fmap. apply subseteq_take, elem_of_sort_stable, list_elem_of_filter in Hr as [Hc Hr].
  apply list_elem_of_fmap in Hr as ([k y] & -> & Hy%elem_of_map_to_list). apply andb_true_iff in Hc as [Hc _]. simpl in *.
  exists y. rewrite (keyed_remediations _ HK _ _ Hy). done.
Qed.

(** ** Properties *)

(** C12: the outbox never loses a job and never lies. When publishing succeeds,
    every message it put on the stream belongs to a pending dispatch of a
    remediation that was queued or running, the count returned is the number of
    messages, and a dispatch is marked published only if it was already or its
    message is among them. When publishing fails, for instance because the commit
    fails after messages went out, no row changes: those jobs are sent again. *)
Theorem publish_at_least_once cfg onlyID e w :
  keyed (w_db w) ->
  match publish cfg onlyID e w with
  | (Ok n, w') => exists sent : list Dispatch,
      w_sent w' = w_sent w ++ (message <$> sent) /\ n = Z.of_nat (length sent) /\
      (forall x, x ∈ sent -> db_dispatches (w_db w) !! dsp_id x = Some x /\ dsp_state x = "pending" /\
         exists r, db_remediations (w_db w) !! dsp_remediation_id x = Some r /\ Dispatchable (rem_status r) = true) /\
      forall k x', db_dispatches (w_db w') !! k = Some x' -> exists x, db_dispatches (w_db w) !! k = Some x /\ same_job x x' /\
        (dsp_state x' = "published" -> dsp_state x = "published" \/ message x' ∈ message <$> sent)
  | (Fail _, w') => w_db w' = w_db w
  end.
Proof.
  intros HK. destruct (publish cfg onlyID e w) as [[n|err] w'] eqn:H; [|by eapply in_tx_fail].
  apply in_tx_ok in H as (w0 & w1 & D0 & S0 & H & D & S). apply bind_ok in H as (time & w2 & H2 & H). run_inv H2.
  apply bind_ok in H as (locked & w3 & H3 & H). apply row_locks_ok in H3 as [-> ->].
  apply bind_ok in H as (batch & w4 & H4%wrap_ok & H). apply query_ok in H4 as (-> & D4 & S4).
  rewrite D0 in H, D4.
  pose proof (fun p => due_dispatches_rows onlyID (TruncateMicro (e_now e)) (BatchSize cfg) (e_locked e) (w_db w) p (keyed_dispatches _ HK)) as HD.
  apply publish_batch_ok in H as (sent & HS & -> & HE & HP).
  - exists sent.*1. rewrite S, HS, S4, S0, length_fmap. split_and!; [done|done| |rewrite D, <- D4; exact HP].
    intros x Hx. apply list_elem_of_fmap in Hx as (p & -> & Hp). destruct (HE p Hp) as [Hb Hd].
    destruct (HD p Hb) as (? & ? & _ & r & Hr & Hs). split_and!; [done|done|]. exists r. by rewrite Hs.
  - intros p Hp. destruct (HD p Hp) as (Hx & _). exists p.1. rewrite D4. by split.
Qed.


Lemma dispatchBackoff_table a :
  dispatchBackoff a =
    if a <=? 1 then second else if a =? 2 then 2 * second else if a =? 3 then 4 * second
    else if a =? 4 then 8 * second else if a =? 5 then 16 * second else 30 * second.
Proof.
  unfold dispatchBackoff. destruct (Z.leb_spec a 1) as [H|H]; [destruct (Z.ltb_spec a 1); [done|by replace a with 1 by lia]|].
  destruct (Z.ltb_spec a 1); [lia|].
  destruct (Z.eqb_spec a 2) as [->|]; [done|]. destruct (Z.eqb_spec a 3) as [->|]; [done|].
  destruct (Z.eqb_spec a 4) as [->|]; [done|]. destruct (Z.eqb_spec a 5) as [->|]; [done|].
  by rewrite (Z.min_r (a - 1) 5) by lia.
Qed.

(** Publish retries back off within bounds: every delay is between one and
    thirty seconds, more attempts never wait less, and the first five delays
    double from one second. *)
Theorem dispatchBackoff_bounds a b :
  second <= dispatchBackoff a <= 30 * second /\ (a <= b -> dispatchBackoff a <= dispatchBackoff b) /\
  (1 <= a <= 5 -> dispatchBackoff a = 2 ^ (a - 1) * second).
Proof.
  rewrite !dispatchBackoff_table. unfold second. split_and!; [split_tests; lia|split_tests; lia|split_tests; lia|].
  intros H. assert (a = 1 \/ a = 2 \/ a = 3 \/ a = 4 \/ a = 5) as C by lia.
  destruct C as [C|[C|[C|[C|C]]]]; subst a; reflexivity.
Qed.

Lemma dispatchBackoff_bounds_witness : dispatchBackoff 3 <= dispatchBackoff 9 /\ dispatchBackoff 3 = 2 ^ (3 - 1) * second.
Proof. destruct (dispatchBackoff_bounds 3 9) as (_ & H1 & H2). split; [apply H1; lia|apply H2; lia]. Defined.

(** ** Witnesses *)

Definition queued_remediation : RemediationAction :=
  rem_with demo_remediation Rem.StateQueued "bob" false (Some 0) None None None "".
Definition queued_job : Dispatch := new_dispatch queued_remediation "inc_1_restart_service_payments-api_1@0" DispatchExecute 0.
Definition queued_db (dispatches : gmap string Dispatch) : DB :=
  mkDB {["inc_1" := demo_incident]} {["rem_1" := queued_remediation]} ∅ dispatches ∅ ∅
    {["worker" := mkHeartbeat ["restart_service"] (e_now quiet_env)]} [] (Some (0, GenesisHash)) demo_observed.
Definition queued_world : world := mkWorld (queued_db {[dsp_id queued_job := queued_job]}) 0 [].

Lemma queued_keyed : keyed (w_db queued_world).
Proof.
  split; simpl; [by intros k x [<- <-]%lookup_singleton_Some|intros k x; by rewrite lookup_empty|].
  intros k x Hx. simpl in Hx. by apply lookup_singleton_Some in Hx as [<- <-].
Qed.

Lemma publish_at_least_once_witness :
  exists w', publish DefaultDispatcherConfig "" quiet_env queued_world = (Ok 1, w') /\ w_sent w' <> [].
Proof.
  pose proof (publish_at_least_once DefaultDispatcherConfig "" quiet_env queued_world queued_keyed) as H.
  assert (match publish DefaultDispatcherConfig "" quiet_env queued_world with (Ok n, _) => n = 1 | _ => False end) as O
    by (vm_compute; reflexivity).
  destruct (publish _ _ _ _) as [[n|err] w']; [|contradiction O]. subst n. exists w'. split; [reflexivity|].
  destruct H as (sent & HS & HN & _). rewrite HS. destruct sent; [discriminate HN|discriminate].
Defined.

(** Queued long ago, and its job never reached a worker. *)
Definition stuck_world : world :=
  mkWorld (queued_db {[dsp_id queued_job := dsp_with queued_job "published" 1 "" 0 (Some 0)]}) 0 [].

Lemma stuck_keyed : keyed (w_db stuck_world).
Proof.
  split; simpl; [by intros k x [<- <-]%lookup_singleton_Some|intros k x; by rewrite lookup_empty|].
  intros k x Hx. simpl in Hx. by apply lookup_singleton_Some in Hx as [<- <-].
Qed.

