(* ===== verification/Remediation.v ===== *)
(** * The remediation service ([internal/remediation/service.go], [executor.go])

    Proposing actions under the policy, deciding and cancelling them, and handing
    an approved one to an executor, with the reservation, the outbox job and the
    audit entry in one transaction. *)
From Stdlib Require Import Ascii String ZArith Lia.
From stdpp Require Import base gmap strings list relations.
From S2P Require Import Prelude GoStrings GoFloat GoValue Actions Policy Json Marshal Sha256 Ledger Lifecycle Types Database AuditLog Store Progress.
From S2P Require Import Http Executors Approvals Dispatch.
Open Scope Z_scope.

(** ** The service *)

Record Service := mkRemediationService {
  rs_policy : Engine;
  rs_exec : Executor;
  rs_approvals : option Approvals.Service;
  rs_dispatcher : option DispatcherConfig;
}.

Definition NewService (policy : Engine) (has_queue : bool) (executor : option Executor) (approvals : option Approvals.Service) : Service :=
  let executor := default LocalExecutor executor in
  mkRemediationService policy executor approvals
    (if has_queue && isQueued executor then Some (NewDispatcher (mkDispatcherConfig 0 0 0 0 0 0 0 0)) else None).

Fixpoint firstNonEmptyRisk (values : list string) : string :=
  match values with
  | [] => "medium"
  | value :: values => if value =?s "" then firstNonEmptyRisk values else value
  end.

Definition BuildIdempotencyKey (incidentID actionType target : string) (attempt : Z) (parameters : params) : string :=
  let base := incidentID +:+ "_" +:+ actionType +:+ "_" +:+ target +:+ "_" +:+ itoa attempt in
  if bool_decide (parameters = ∅) then base
  else base +:+ "_" +:+ take_chars 12 (sha256_hex (marshalled parameters)).

Definition ErrUnavailable : error := errorf "approval workflow is unavailable".

Definition workflow (s : Service) : M Approvals.Service :=
  match rs_approvals s with Some a => ret a | None => throw ErrUnavailable end.

(** ** Proposing *)

Definition proposal_input (incident : Incident) (candidate : RCACandidate) (actor actorRole : string) (recent failed : Z) : Input :=
  mkInput actor actorRole (inc_id incident) (inc_severity incident) (inc_service incident) (inc_environment incident)
    (cand_action_type candidate) (cand_target candidate) (cand_risk candidate) true (cand_parameters candidate) recent failed.

Definition proposal_status (decision : Decision) : string :=
  if d_allow decision then if d_requires_approval decision then Rem.StateAwaitingApproval else Rem.StateApproved
  else Rem.StatePolicyBlocked.

Definition proposed_action (id : string) (incident : Incident) (candidate : RCACandidate) (actor : string) (decision : Decision)
    (recent failed time : Z) : RemediationAction :=
  let attempt := recent + 1 in
  mkRemediation id (inc_id incident) (cand_action_type candidate) (cand_target candidate) (cand_parameters candidate)
    (proposal_status decision) (firstNonEmptyRisk [d_risk decision; cand_risk candidate])
    (BuildIdempotencyKey (inc_id incident) (cand_action_type candidate) (cand_target candidate) attempt (cand_parameters candidate))
    actor ""
    (list_to_map [("allow", VBool (d_allow decision)); ("requires_approval", VBool (d_requires_approval decision));
       ("reason", VString (d_reason decision)); ("max_attempts", VInt (d_max_attempts decision));
       ("failed_attempts", VInt failed); ("same_action_10m", VInt recent)])
    true attempt (d_max_attempts decision) None None None None "" time.

Definition reuse (s : Service) (incident : Incident) (actor : string) (existing : RemediationAction) : M unit :=
  (match rs_approvals s with
   | Some a => if rem_status existing =?s Rem.StateAwaitingApproval then RequestApproval a incident existing ;;; ret tt else ret tt
   | None => ret tt
   end) ;;;
  Record_ (audit_entry actor "user" "remediation.proposal_reused" "remediation" (rem_id existing) None
    (Some (list_to_map [("status", VString (rem_status existing)); ("idempotency_key", VString (rem_idempotency_key existing))])) None).

(** A new row, under the policy's decision. *)
Definition propose_new (s : Service) (incident : Incident) (actor actorRole : string) (candidate : RCACandidate) : M RemediationAction :=
  let params := cand_parameters candidate in
  recentCount <- CountRecentSimilarRemediations (inc_id incident) (cand_action_type candidate) (cand_target candidate) params ;;
  failedCount <- CountFailedRemediations (inc_id incident) (cand_action_type candidate) (cand_target candidate) params ;;
  let decision := Evaluate (rs_policy s) (proposal_input incident candidate actor actorRole recentCount failedCount) in
  id <- NewID "rem" ;;
  time <- now ;;
  let action := proposed_action id incident candidate actor decision recentCount failedCount time in
  InTx (
    CreateRemediation action ;;;
    WriteTx (audit_entry actor "user" "remediation.proposed" "remediation" (rem_id action) None
      (Some (list_to_map [("status", VString (rem_status action)); ("risk", VString (rem_risk action));
         ("idempotency_key", VString (rem_idempotency_key action))])) (Some (rem_policy_decision action)))) ;;;
  (if rem_status action =?s Rem.StateAwaitingApproval
   then a <- workflow s ;; RequestApproval a incident action ;;; ret tt else ret tt) ;;;
  ret action.

(** One candidate: the row an open proposal already has, or a new one. *)
Definition propose_one (s : Service) (incident : Incident) (actor actorRole : string) (candidate : RCACandidate) : M RemediationAction :=
  found <- FindActiveRemediationByAction (inc_id incident) (cand_action_type candidate) (cand_target candidate) (cand_parameters candidate) ;;
  match found with
  | Some existing => reuse s incident actor existing ;;; ret existing
  | None => propose_new s incident actor actorRole candidate
  end.

Fixpoint propose_all (s : Service) (incident : Incident) (actor actorRole : string) (candidates : list RCACandidate)
    : M (list RemediationAction) :=
  match candidates with
  | [] => ret []
  | candidate :: candidates =>
      action <- propose_one s incident actor actorRole candidate ;;
      actions <- propose_all s incident actor actorRole candidates ;;
      ret (action :: actions)
  end.

Definition Propose (s : Service) (incident : Incident) (candidates : list RCACandidate) (actor actorRole : string)
    : M (list RemediationAction) :=
  actions <- propose_all s incident actor actorRole candidates ;;
  (if bool_decide (actions = []) then ret tt
   else
     let awaitingApproval := existsb (fun a => rem_status a =?s Rem.StateAwaitingApproval) actions in
     ignore (TransitionIncident (inc_id incident)
       (if awaitingApproval then Inc.StatusAwaitingApproval else Inc.StatusRemediationProposed))) ;;;
  ret actions.

(** ** Deciding and cancelling *)

Definition Approve (s : Service) (remediationID approvedBy reason : string) : M unit :=
  a <- workflow s ;;
  DecideByRemediation a remediationID approvedBy "user" DecisionApprove reason ;;;
  ret tt.

Definition Reject (s : Service) (remediationID rejectedBy reason : string) : M unit :=
  a <- workflow s ;;
  DecideByRemediation a remediationID rejectedBy "user" DecisionDeny reason ;;;
  ret tt.

Definition Cancel (s : Service) (remediationID actor : string) : M unit :=
  rem <- GetRemediation remediationID ;;
  if rem_status rem =?s Rem.StateAwaitingApproval then
    workflow s ;;;
    CancelByRemediation remediationID actor "remediation cancelled by operator" ;;;
    ret tt
  else
    lift (Rem.RequireTransition (rem_status rem) Rem.StateCancelled) ;;;
    cancelled <- InTx (
      ok <- CancelRemediation remediationID (rem_status rem) ;;
      if (ok : bool) then
        WriteTx (audit_entry actor "user" "remediation.cancelled" "remediation" remediationID
          (Some {["status" := VString (rem_status rem)]}) (Some {["status" := VString Rem.StateCancelled]}) None) ;;;
        ret true
      else ret false) ;;
    if (cancelled : bool) then ret tt
    else
      latest <- GetRemediation remediationID ;;
      throw (mkError KStateChanged (err_text ErrStateChanged +:+ ": remediation moved from " +:+ rem_status rem +:+ " to " +:+
        rem_status latest +:+ " before it could be cancelled")).

(** ** Executing *)

Definition ErrIncidentClosed (incident : Incident) : error :=
  mkError KIncidentClosed ("incident is closed: incident " +:+ inc_id incident +:+ " is " +:+ inc_status incident).

Definition execution_reused (actor remediationID : string) (r : RemediationAction) : M unit :=
  Record_ (audit_entry actor "user" "remediation.execution_reused" "remediation" remediationID None
    (Some (list_to_map [("status", VString (rem_status r)); ("idempotency_key", VString (rem_idempotency_key r))])) None).

Definition map_value (m : option params) : value := match m with Some m => VMap (map_to_list m) | None => VNil end.

(** Each reported status commits with its audit entry, in a transaction of its own or,
    with [tx] the identity, in the one the store is bound to. *)
Definition applyQueuedOutcome (tx : M unit -> M unit) (s : Service) (r : RemediationAction) (outcome : ExecutionOutcome) (actor : string) : M unit :=
  let entry action := audit_entry actor "user" action "remediation" (rem_id r)
    (Some {["status" := VString Rem.StateQueued]})
    (Some (list_to_map [("status", VString (out_status outcome)); ("executor", VString (ex_name (rs_exec s)));
       ("result", map_value (out_result outcome))])) None in
  if out_status outcome =?s Rem.StateQueued then ret tt
  else if out_status outcome =?s Rem.StateRunning then
    tx (
      requireApplied (MarkRemediationRunning (rem_id r) (out_result outcome)) ;;;
      WriteTx (entry "remediation.running"))
  else if out_status outcome =?s Rem.StateSucceeded then
    tx (
      requireApplied (ClaimRemediation (rem_id r)) ;;;
      requireApplied (CompleteRemediation (rem_id r) Rem.StateSucceeded (out_result outcome) "") ;;;
      WriteTx (entry "remediation.completed"))
  else if out_status outcome =?s Rem.StateFailed then
    tx (
      requireApplied (CompleteRemediation (rem_id r) Rem.StateFailed (out_result outcome) "executor reported failure") ;;;
      WriteTx (entry "remediation.failed"))
  else throw (errorf ("unknown execution outcome status " +:+ Quote (out_status outcome))).

Definition reserved (r : RemediationAction) (queuedAt : Z) (dryRun : bool) : RemediationAction :=
  rem_with r (rem_status r) (rem_approved_by r) dryRun (Some queuedAt) (rem_started_at r) (rem_completed_at r) (rem_result r) (rem_error r).

(** The reservation, its audit entry and the outbox job, in one transaction. *)
Definition reserve (s : Service) (r : RemediationAction) (dryRun : bool) (actor remediationID : string) : M (Z * string) :=
  InTx (
    queuedAt <- MarkRemediationQueued (rem_id r) dryRun ;;
    let after := list_to_map [("status", VString Rem.StateQueued); ("dry_run", VBool dryRun); ("executor", VString (ex_name (rs_exec s)))] in
    '(dispatchID, after) <- (if isQueued (rs_exec s) then
        dispatchID <- reservationEventID (reserved r queuedAt dryRun) ;;
        Enqueue (reserved r queuedAt dryRun) dispatchID DispatchExecute ;;;
        ret (dispatchID, <["dispatch_id" := VString dispatchID]> after)
      else ret ("", after)) ;;
    WriteTx (audit_entry actor "user" "remediation.execute_requested" "remediation" remediationID
      (Some {["status" := VString (rem_status r)]}) (Some after) None) ;;;
    ret (queuedAt, dispatchID)).

Definition release (r : RemediationAction) (actor remediationID : string) (err : error) : M unit :=
  InTx (
    ReleaseRemediationQueueReservation (rem_id r) ;;;
    WriteTx (audit_entry actor "user" "remediation.dispatch_failed" "remediation" remediationID
      (Some {["status" := VString Rem.StateQueued]})
      (Some (list_to_map [("status", VString Rem.StateApproved); ("error", VString (err_text err))])) None)).

(** Returns whether the remediation was already executing. *)
Definition Execute (s : Service) (remediationID : string) (dryRun : bool) (actor : string) : M bool :=
  r <- GetRemediation remediationID ;;
  if has_status [Rem.StateSucceeded; Rem.StateQueued; Rem.StateRunning] r then
    execution_reused actor remediationID r ;;; ret true
  else if rem_status r =?s Rem.StateAwaitingApproval then throw (errorf "remediation requires approval")
  else if Rem.IsTerminalState (rem_status r) then throw (errorf ("remediation cannot be executed from state " +:+ rem_status r))
  else
    lift (Rem.RequireTransition (rem_status r) Rem.StateQueued) ;;;
    incident <- GetIncident (rem_incident_id r) ;;
    if Inc.IsClosed (inc_status incident) then throw (ErrIncidentClosed incident)
    else
      reservation <- attempt (reserve s r dryRun actor remediationID) ;;
      match reservation with
      | Fail err =>
          latest <- attempt (GetRemediation (rem_id r)) ;;
          match latest with
          | Ok latest =>
              if has_status [Rem.StateQueued; Rem.StateRunning; Rem.StateSucceeded] latest
              then execution_reused actor remediationID latest ;;; ret true else throw err
          | Fail _ => throw err
          end
      | Ok (queuedAt, dispatchID) =>
          let r := reserved r queuedAt dryRun in
          if isQueued (rs_exec s) then
            (match rs_dispatcher s with Some cfg => ignore (PublishOne cfg dispatchID) | None => ret tt end) ;;;
            ret false
          else
            outcome <- attempt (ex_execute (rs_exec s) r incident dryRun) ;;
            match outcome with
            | Fail err =>
                released <- attempt (release r actor remediationID err) ;;
                match released with
                | Fail releaseErr => throw (mkError (err_kind err) (err_text err +:+ " (releasing the reservation also failed: " +:+ err_text releaseErr +:+ ")"))
                | Ok _ => throw err
                end
            | Ok outcome => applyQueuedOutcome InTx s r outcome actor ;;; ret false
            end
      end.

(** ** Guarantees *)

Lemma guar_lift_bind {A B} (R : DB -> DB -> Prop) `{!Reflexive R} (x : result A) (k : A -> M B) :
  (forall a, x = Ok a -> guar R (k a)) -> guar R (bind (lift x) k).
Proof. intros Hk e w. unfold bind, lift. destruct x as [a|err]; [by apply Hk|simpl; reflexivity]. Qed.

Lemma guar_NewID_bind {B} (R : DB -> DB -> Prop) `{!Reflexive R} p (k : string -> M B) :
  (forall id, id <> "" -> guar R (k id)) -> guar R (bind (NewID p) k).
Proof.
  intros Hk e w. assert (p +:+ "_" +:+ e_id e (w_tick w) <> "") as Hn by by destruct p. exact (Hk _ Hn e (tick w)).
Qed.

(** A transaction that establishes what the rest needs. *)
Lemma guar_tx_bind {A B} (R : DB -> DB -> Prop) (Q : DB -> Prop) `{!Reflexive R, !Transitive R} (body : M A) (k : A -> M B) :
  okay (fun d d' => R d d' /\ Q d') body -> (forall a, guar (given Q R) (k a)) -> guar R (bind (InTx body) k).
Proof.
  intros Hb Hk e w. unfold bind. destruct (InTx body e w) as [[a|err] w1] eqn:E; simpl.
  - apply in_tx_ok in E as (w0 & w2 & D0 & _ & H & D & _). apply Hb in H as [HR HQ]. rewrite D0, <- D in HR. rewrite <- D in HQ.
    etrans; [exact HR|]. by apply Hk.
  - apply in_tx_fail in E. by rewrite E.
Qed.

Lemma workflow_guar R `{!Reflexive R} s : guar R (workflow s).
Proof. unfold workflow. destruct (rs_approvals s); handler_walk. Qed.
Lemma execution_reused_steady actor id r : guar steady (execution_reused actor id r).
Proof. unfold execution_reused. handler_walk. Qed.
Lemma applyQueuedOutcome_steady tx s r outcome actor :
  (forall m, okay steady m -> okay steady (tx m)) -> okay steady (applyQueuedOutcome tx s r outcome actor).
Proof. intros Htx. unfold applyQueuedOutcome. handler_walk; apply Htx; handler_walk. Qed.
Lemma applyQueuedOutcome_tx_steady s r outcome actor : guar steady (applyQueuedOutcome InTx s r outcome actor).
Proof. unfold applyQueuedOutcome. handler_walk. Qed.
Lemma reserve_steady s r dry actor id : guar steady (reserve s r dry actor id).
Proof. unfold reserve. handler_walk. Qed.
Lemma release_steady r actor id err : guar steady (release r actor id err).
Proof. unfold release. handler_walk. Qed.
#[export] Hint Resolve workflow_guar execution_reused_steady applyQueuedOutcome_tx_steady reserve_steady release_steady : guar.

Lemma Execute_steady s id dry actor : ExternalExecutor (rs_exec s) -> guar steady (Execute s id dry actor).
Proof.
  intros HX. unfold Execute. handler_walk; (eapply guar_mono; [|apply HX]; by intros d d' ->).
Qed.

Section lawful.
Context (allow_self : bool).

Lemma Cancel_lawful s id actor : guar (lawful allow_self) (Cancel s id actor).
Proof.
  unfold Cancel. apply guar_bind; [typeclasses eauto|handler_walk|intros rem].
  destruct (_ =?s _); [handler_walk|]. apply guar_lift_bind; [typeclasses eauto|]. intros [] HT.
  assert (guar steady (CancelRemediation id (rem_status rem))) as HC.
  { apply CancelRemediation_steady. unfold Rem.RequireTransition in HT. by destruct (Rem.CanTransition _ _). }
  handler_walk.
Qed.

(** Inserting a proposal that may run unattended only when it collects diagnostics. *)
Lemma proposal_lawful a d :
  db_remediations d !! rem_id a = None -> reread_map (rem_parameters a) = rem_parameters a ->
  (authorised a = true -> rem_action_type a = CollectDiagnostics) ->
  lawful allow_self d (set_remediations (<[rem_id a := a]>) d).
Proof.
  intros HN Hm Ha [HK HM HR HA HG].
  assert (progress d (set_remediations (<[rem_id a := a]>) d)) as HP.
  { apply (progress_remediations d), rows_kept_new; [apply _|]. by apply insert_subseteq. }
  split; [exact HP|]. split.
  - split; simpl; [|apply HK|apply HK]. intros k x [[<- <-]|[_ Hx]]%lookup_insert_Some; [done|by eapply HK].
  - simpl. intros k x [[<- <-]|[_ Hx]]%lookup_insert_Some; [done|by eapply HM].
  - eapply progress_requests_kept; [exact HP| |exact HR]. simpl. apply rows_kept_refl. by intros ?.
  - exact HA.
  - simpl. intros k x [[<- <-]|[_ Hx]]%lookup_insert_Some Hx'; [left; by apply Ha|].
    eapply granted_kept; [exact HP|reflexivity|done|]. by apply HG.
Qed.

Definition created (a : RemediationAction) (time : Z) : RemediationAction :=
  mkRemediation (rem_id a) (rem_incident_id a) (rem_action_type a) (rem_target a) (reread_map (rem_parameters a)) (rem_status a)
    (rem_risk a) (rem_idempotency_key a) (rem_proposed_by a) (rem_approved_by a) (reread_map (rem_policy_decision a))
    (rem_dry_run a) (rem_attempt a) (rem_max_attempts a) (rem_queued_at a) (rem_started_at a) (rem_completed_at a)
    (reread_map <$> rem_result a) (rem_error a) (if IsZero (rem_created_at a) then time else rem_created_at a).

Lemma CreateRemediation_ok a e w u w' :
  rem_id a <> "" -> CreateRemediation a e w = (Ok u, w') ->
  db_remediations (w_db w) !! rem_id a = None /\
  (forall k r, db_remediations (w_db w) !! k = Some r -> rem_idempotency_key r <> rem_idempotency_key a) /\
  w_db w' = set_remediations (<[rem_id a := created a (e_now e)]>) (w_db w).
Proof.
  intros Hid H. unfold CreateRemediation in H. apply eqb_string_false in Hid. rewrite Hid in H.
  apply bind_ok in H as (id & w1 & H1 & H). apply ret_ok in H1 as [-> ->]. apply bind_ok in H as (t & w1 & H1 & H%wrap_ok).
  apply now_ok in H1 as [-> ->]. apply stmt_ok in H as [H _]. simpl in H.
  destruct (bool_decide (is_Some _)) eqn:E; [discriminate H|]. simpl in H. destruct (existsb _ _) eqn:X; [discriminate H|]. simpl in H.
  destruct (_ || _); [discriminate H|]. injection H as _ H. reflect_tests. split_and!; [by apply eq_None_not_Some| |by rewrite <- H].
  intros k r Hr Hk. assert (existsb (fun r => rem_idempotency_key r =?s rem_idempotency_key a) (rows_of (w_db w)) = true) as Y; [|congruence].
  apply existsb_exists. exists r. split; [|by apply eqb_string_true]. apply list_elem_of_In, list_elem_of_fmap. exists (k, r).
  split; [done|by apply elem_of_map_to_list].
Qed.

Lemma proposed_authorised s incident candidate actor role recent failed id time :
  let action := proposed_action id incident candidate actor
    (Evaluate (rs_policy s) (proposal_input incident candidate actor role recent failed)) recent failed time in
  authorised action = true -> rem_action_type action = CollectDiagnostics.
Proof.
  intros action. subst action. set (i := proposal_input _ _ _ _ _ _). unfold authorised, has_status. simpl. unfold proposal_status.
  destruct (d_allow (Evaluate (rs_policy s) i)) eqn:A; [|intros H; vm_compute in H; discriminate].
  destruct (d_requires_approval (Evaluate (rs_policy s) i)) eqn:R; [intros H; vm_compute in H; discriminate|].
  intros _. by destruct (unattended_diagnostics _ _ A R).
Qed.
End lawful.

Section proposing.
Context (allow_self : bool).

Lemma FindActive_ok i a t p e w r w' :
  FindActiveRemediationByAction i a t p e w = (Ok (Some r), w') -> exists k, db_remediations (w_db w) !! k = Some r.
Proof.
  intros H%wrap_ok. apply query_ok in H as (H & _). symmetry in H. apply head_Some_elem_of in H.
  apply elem_of_sort_stable, list_elem_of_filter in H as [_ H]. apply list_elem_of_fmap in H as ([k y] & -> & Hy%elem_of_map_to_list).
  by exists k.
Qed.

Lemma existing_stored d k r : authority allow_self d -> db_remediations d !! k = Some r -> stored_action r d.
Proof.
  intros HA Hr. exists r. rewrite (keyed_remediations _ (au_keyed _ _ HA) _ _ Hr). split_and!; [done|done|done|done|].
  symmetry. by eapply au_stored.
Qed.

Lemma reuse_lawful s incident actor existing :
  guar (given (stored_action existing) (lawful allow_self)) (reuse s incident actor existing).
Proof.
  unfold reuse. apply given_bind; [typeclasses eauto|..|intros; handler_walk].
  destruct (rs_approvals s) as [a|]; [|by intros e w _]. destruct (_ =?s _); [|by intros e w _].
  apply given_bind; [typeclasses eauto|apply RequestApproval_lawful|intros; handler_walk].
Qed.

(** The transaction that stores a proposal. *)
Lemma store_proposal_lawful s incident candidate actor role recent failed id time entry :
  id <> "" ->
  let action := proposed_action id incident candidate actor
    (Evaluate (rs_policy s) (proposal_input incident candidate actor role recent failed)) recent failed time in
  okay (fun d d' => lawful allow_self d d' /\ stored_action action d') (CreateRemediation action ;;; WriteTx entry).
Proof.
  intros Hid action e w u w' H. apply bind_ok in H as (u1 & w1 & H1 & [H _]%WriteTx_logged).
  apply CreateRemediation_ok in H1 as (HN & _ & D1); [|exact Hid]. rewrite D1 in H. split.
  - etrans; [|by eapply steady_lawful, logged_steady]. apply (proposal_lawful _ (created action (e_now e))).
    + exact HN.
    + apply reread_map_idem.
    + intros Ha. by apply (proposed_authorised s incident candidate actor role recent failed id time).
  - destruct H as (row & c & -> & _). exists (created action (e_now e)). simpl. by rewrite lookup_insert_eq.
Qed.

Lemma propose_new_lawful s incident actor role candidate : guar (lawful allow_self) (propose_new s incident actor role candidate).
Proof.
  unfold propose_new. cbv zeta. apply guar_bind; [typeclasses eauto|handler_walk|intros recent].
  apply guar_bind; [typeclasses eauto|handler_walk|intros failed]. apply guar_NewID_bind; [typeclasses eauto|intros id Hid].
  apply guar_bind; [typeclasses eauto|handler_walk|intros time].
  eapply guar_tx_bind; [typeclasses eauto|typeclasses eauto|by apply (store_proposal_lawful s incident candidate actor role recent failed id time)|].
  intros u. apply given_bind; [typeclasses eauto| |intros; handler_walk]. destruct (_ =?s _); [|by intros e w _].
  apply given_after; [typeclasses eauto|handler_walk|intros a].
  apply given_bind; [typeclasses eauto|apply RequestApproval_lawful|intros; handler_walk].
Qed.

Lemma propose_one_lawful s incident actor role candidate : guar (lawful allow_self) (propose_one s incident actor role candidate).
Proof.
  intros e w. unfold propose_one, bind at 1.
  destruct (FindActiveRemediationByAction _ _ _ _ e w) as [[found|err] w1] eqn:F;
    pose proof (FindActive_guar eq (inc_id incident) (cand_action_type candidate) (cand_target candidate) (cand_parameters candidate) e w) as D1;
    rewrite F in D1; simpl in D1; rewrite D1; [|simpl; reflexivity].
  destruct found as [existing|]; [|apply propose_new_lawful].
  apply FindActive_ok in F as [k Hk]. rewrite D1 in Hk.
  assert (guar (given (stored_action existing) (lawful allow_self)) (reuse s incident actor existing ;;; ret existing)) as G
    by (apply given_bind; [typeclasses eauto|apply reuse_lawful|intros; handler_walk]).
  intros HA. apply (G e w1); [|done]. by eapply existing_stored.
Qed.

Lemma Propose_lawful s incident candidates actor role : guar (lawful allow_self) (Propose s incident candidates actor role).
Proof.
  assert (guar (lawful allow_self) (propose_all s incident actor role candidates)) as H
    by (induction candidates; simpl; handler_walk; apply propose_one_lawful).
  unfold Propose. handler_walk.
Qed.
End proposing.

(** ** Runs of Execute *)

Definition queued_row (r : RemediationAction) (dryRun : bool) (time : Z) : RemediationAction :=
  rem_with r Rem.StateQueued (rem_approved_by r) dryRun (Some time) (rem_started_at r) (rem_completed_at r) (rem_result r) (rem_error r).

Lemma reserve_ok s r dryRun actor id e w queuedAt dispatchID w' :
  isQueued (rs_exec s) = true -> reserve s r dryRun actor id e w = (Ok (queuedAt, dispatchID), w') ->
  exists x entry, db_remediations (w_db w) !! rem_id r = Some x /\ rem_status x = Rem.StateApproved /\
    queuedAt = TruncateMicro (e_now e) /\ db_dispatches (w_db w) !! dispatchID = None /\
    ent_action entry = "remediation.execute_requested" /\ ent_actor_id entry = actor /\
    logged entry (set_dispatches (<[dispatchID := new_dispatch (reserved r queuedAt dryRun) dispatchID DispatchExecute (e_now e)]>)
      (set_remediations (<[rem_id r := queued_row x dryRun queuedAt]>) (w_db w))) (w_db w').
Proof.
  intros HQ H. unfold reserve in H. apply in_tx_ok in H as (w0 & w1 & D0 & _ & H & D & _). rewrite <- D0, D. clear D D0.
  apply bind_ok in H as (q & w2 & H2 & H). unfold MarkRemediationQueued in H2. apply bind_ok in H2 as (t & w3 & H3 & H2).
  apply db_now_ok in H3 as [-> ->]. apply bind_ok in H2 as (b & w4 & H4%wrap_ok & H2). apply update_if_ok in H4 as [_ H4].
  destruct b; [|discriminate H2]. apply ret_ok in H2 as [-> ->]. destruct H4 as (x & Hx & Hs & D4).
  apply has_status_elem, list_elem_of_singleton in Hs. cbv zeta in H. rewrite HQ in H.
  apply bind_ok in H as ([did after] & w5 & H5 & H). apply bind_ok in H5 as (did' & w6 & H6 & H5).
  unfold reservationEventID in H6. simpl in H6. apply ret_ok in H6 as [-> ->].
  apply bind_ok in H5 as (u & w7 & (HN & D7 & _)%Enqueue_ok & H5). apply ret_ok in H5 as [[= -> ->] ->].
  apply bind_ok in H as (u' & w8 & [L _]%WriteTx_logged & H). apply ret_ok in H as [[= -> ->] ->].
  rewrite D4 in HN. rewrite D7, D4 in L. eexists x, _. split_and!; [done|done|done|exact HN| | |exact L]; done.
Qed.

(** The remediation a successful call found approved, and the tables it leaves. *)
Definition reserved_for (s : Service) (id : string) (dryRun : bool) (actor : string) (now : Z) (d d' : DB) : Prop :=
  exists r i entry dispatchID,
    db_remediations d !! id = Some r /\ rem_status r = Rem.StateApproved /\
    db_incidents d !! rem_incident_id r = Some i /\ Inc.IsClosed (inc_status i) = false /\
    db_dispatches d !! dispatchID = None /\ ent_action entry = "remediation.execute_requested" /\ ent_actor_id entry = actor /\
    logged entry (set_dispatches (<[dispatchID := new_dispatch (reserved r (TruncateMicro now) dryRun) dispatchID DispatchExecute now]>)
      (set_remediations (<[id := queued_row r dryRun (TruncateMicro now)]>) d)) d'.

Lemma failed_reserve s r dryRun actor id e w err w' :
  reserve s r dryRun actor id e w = (Fail err, w') -> w_db w' = w_db w.
Proof. apply in_tx_fail. Qed.

(** Either refused, or found under way, or reserved and perhaps published. *)
Definition execute_outcome (s : Service) (id : string) (dryRun : bool) (actor : string) (e : env) (w : world) (out : result bool * world) : Prop :=
  match out with
  | (Ok false, w') => exists d, reserved_for s id dryRun actor (e_now e) (w_db w) d /\ steady d (w_db w') /\ same_remediations d (w_db w')
  | (Ok true, w') => appended (w_db w) (w_db w') /\
      exists r, db_remediations (w_db w) !! id = Some r /\ has_status [Rem.StateSucceeded; Rem.StateQueued; Rem.StateRunning] r = true
  | (Fail _, w') => w_db w' = w_db w
  end.

(** The part after the checks. *)
Definition dispatch_part (s : Service) (r : RemediationAction) (dryRun : bool) (actor remediationID : string)
    (reservation : result (Z * string)) : M bool :=
  match reservation with
  | Fail err =>
      latest <- attempt (GetRemediation (rem_id r)) ;;
      match latest with
      | Ok latest =>
          if has_status [Rem.StateQueued; Rem.StateRunning; Rem.StateSucceeded] latest
          then execution_reused actor remediationID latest ;;; ret true else throw err
      | Fail _ => throw err
      end
  | Ok (queuedAt, dispatchID) =>
      (match rs_dispatcher s with Some cfg => ignore (PublishOne cfg dispatchID) | None => ret tt end) ;;; ret false
  end.

Lemma dispatch_part_outcome s r i dryRun actor id e w :
  isQueued (rs_exec s) = true -> keyed (w_db w) -> db_remediations (w_db w) !! id = Some r ->
  has_status [Rem.StateSucceeded; Rem.StateQueued; Rem.StateRunning] r = false ->
  db_incidents (w_db w) !! rem_incident_id r = Some i -> Inc.IsClosed (inc_status i) = false ->
  execute_outcome s id dryRun actor e w
    ((reservation <- attempt (reserve s r dryRun actor id) ;; dispatch_part s r dryRun actor id reservation) e w).
Proof.
  intros HQ HK Hr Hns Hi Hc. pose proof (keyed_remediations _ HK _ _ Hr) as Hid. unfold bind at 1, attempt at 1.
  destruct (reserve s r dryRun actor id e w) as [[[q did]|err] w1] eqn:E; simpl.
  - apply reserve_ok in E as (x & entry & Hx & Hs & -> & HN & Ha & Hact & L); [|exact HQ]. rewrite Hid in *.
    assert (x = r) as -> by congruence.
    assert (guar steady ((match rs_dispatcher s with Some cfg => ignore (PublishOne cfg did) | None => ret tt end) ;;; ret false)) as G1
      by (destruct (rs_dispatcher s); handler_walk).
    assert (guar same_remediations ((match rs_dispatcher s with Some cfg => ignore (PublishOne cfg did) | None => ret tt end) ;;; ret false)) as G2
      by (destruct (rs_dispatcher s); unfold PublishOne; guar_walk; apply publish_same_remediations).
    specialize (G1 e w1). specialize (G2 e w1). destruct (rs_dispatcher s); unfold bind, ignore, ret in *;
      [destruct (PublishOne d did e w1) as [? w2]|]; simpl in *;
      (exists (w_db w1); split_and!; [by exists r, i, entry, did|done|done]).
  - apply failed_reserve in E. unfold bind, attempt. destruct (GetRemediation (rem_id r) e w1) as [[latest|] w2] eqn:G;
      (apply unchanged in G as D2; [|apply GetRemediation_guar; typeclasses eauto]); [|simpl; congruence].
    apply wrap_ok, query_row_ok in G as (G & _). rewrite E, Hid, Hr in G. injection G as <-.
    replace (has_status [Rem.StateQueued; Rem.StateRunning; Rem.StateSucceeded] r) with false; [simpl; congruence|].
    symmetry. unfold has_status in *. apply bool_decide_eq_false. apply bool_decide_eq_false in Hns. intros H. apply Hns.
    rewrite !elem_of_cons in *. tauto.
Qed.

Lemma Execute_cases s id dryRun actor e w :
  isQueued (rs_exec s) = true -> keyed (w_db w) -> execute_outcome s id dryRun actor e w (Execute s id dryRun actor e w).
Proof.
  intros HQ HK. unfold Execute. unfold bind at 1. destruct (GetRemediation id e w) as [[r|err] w1] eqn:G;
    (apply unchanged in G as D1; [|apply GetRemediation_guar; typeclasses eauto]); [|done].
  apply wrap_ok, query_row_ok in G as (Hr & _).
  destruct (has_status [Rem.StateSucceeded; Rem.StateQueued; Rem.StateRunning] r) eqn:Es.
  - unfold bind, execution_reused. pose proof (Record_appended (audit_entry actor "user" "remediation.execution_reused" "remediation" id None
      (Some (list_to_map [("status", VString (rem_status r)); ("idempotency_key", VString (rem_idempotency_key r))])) None) e w1) as A.
    unfold Record_, ignore in *. destruct (Write _ e w1) as [? w2]. simpl in *. rewrite D1 in A. split; [done|]. by exists r.
  - destruct (_ =?s _); [done|]. destruct (Rem.IsTerminalState _); [done|]. unfold bind at 1, lift. destruct (Rem.RequireTransition _ _); [|done].
    unfold bind at 1. destruct (GetIncident (rem_incident_id r) e w1) as [[i|err] w2] eqn:I;
      (apply unchanged in I as D2; [|apply GetIncident_guar; typeclasses eauto]); [|simpl; congruence].
    apply wrap_ok, query_row_ok in I as ((i0 & Hi & ->)%fmap_Some & _).
    change (inc_status (scanIncident (w_db w1) i0)) with (inc_status i0). destruct (Inc.IsClosed (inc_status i0)) eqn:C; [simpl; congruence|].
    rewrite D1 in Hi. rewrite D1 in D2. rewrite <- D2 in HK, Hr, Hi.
    pose proof (dispatch_part_outcome s r i0 dryRun actor id e w2 HQ HK Hr Es Hi C) as O. unfold execute_outcome in *. rewrite D2 in O.
    unfold bind at 1. unfold bind at 1 in O.
    destruct (attempt (reserve s r dryRun actor id) e w2) as [[[[q did]|err]|err] w3]; [|exact O|exact O].
    cbv zeta. rewrite HQ. exact O.
Qed.

(** ** Runs of propose_new *)

Definition has_request (id : string) (d : DB) : Prop :=
  exists k q, db_approvals d !! k = Some q /\ req_remediation_id q = id.

Lemma has_request_kept id d d' : progress d d' -> has_request id d -> has_request id d'.
Proof.
  intros HP (k & q & Hq & Hi). destruct (pg_requests _ _ HP _ _ Hq) as (q' & Hq' & Hm & _). exists k, q'.
  split; [done|]. by rewrite (sr_remediation _ _ Hm).
Qed.

Lemma GetByRemediation_has id e w q w' : GetByRemediation id e w = (Ok q, w') -> has_request id (w_db w) /\ w_db w' = w_db w.
Proof. intros (H & D & _)%scanRequest_ok. apply by_remediation_Some in H as [Hi [k Hk]]. split; [by exists k, q|done]. Qed.

Lemma Create_has r e w out w' : Create r e w = (Ok out, w') -> has_request (req_remediation_id r) (w_db w').
Proof.
  unfold Create. intros H. apply bind_ok in H as (outcome & w1 & H1 & H). apply tx_choice_ok in H1 as (w0 & w2 & D0 & _ & H1 & D1).
  destruct outcome as [[found|new]|err].
  - apply ret_ok in H as [-> ->]. rewrite D1. unfold create_body in H1. apply bind_ok in H1 as (ex & w3 & H3%attempt_ok & H1).
    destruct ex as [x|err]; [apply GetByRemediation_has in H3 as [H3 D3]; apply ret_ok in H1 as [[= <-] ->]; by rewrite D3|].
    destruct (negb _); [discriminate H1|]. apply bind_ok in H1 as ([u|?] & w4 & H4%attempt_ok & H1).
    + apply bind_ok in H1 as (? & ? & _ & H1). apply ret_ok in H1 as [? _]. discriminate.
    + apply ret_ok in H1 as [? _]. discriminate.
  - apply ret_ok in H as [-> ->]. rewrite D1. unfold create_body in H1. apply bind_ok in H1 as (ex & w3 & H3%attempt_ok & H1).
    destruct ex as [x|err]; [apply ret_ok in H1 as [? _]; discriminate|]. destruct (negb _); [discriminate H1|].
    apply bind_ok in H1 as ([u|?] & w4 & H4%attempt_ok & H1); [|apply ret_ok in H1 as [? _]; discriminate].
    apply bind_ok in H1 as (? & w5 & [L _]%writeAuditTx_logged & H1). apply ret_ok in H1 as [_ ->].
    apply stmt_ok in H4 as [H4 _]. destruct (_ || _); [discriminate H4|]. injection H4 as _ H4.
    eapply has_request_kept; [eapply st_progress, logged_steady, L|]. rewrite <- H4. exists (req_id r), (inserted r). simpl.
    by rewrite lookup_insert_eq.
  - apply bind_ok in H as (ex & w3 & H3%attempt_ok & H). destruct ex as [x|err']; [|discriminate H].
    apply ret_ok in H as [-> ->]. apply GetByRemediation_has in H3 as [H3 D3]. by rewrite D3.
Qed.

Lemma RequestApproval_has s incident a e w out w' :
  RequestApproval s incident a e w = (Ok out, w') -> has_request (rem_id a) (w_db w').
Proof.
  unfold RequestApproval. intros H. apply bind_ok in H as (t & w1 & H1 & H). apply now_ok in H1 as [-> ->].
  apply bind_ok in H as (id & w1 & _ & H). cbv zeta in H. apply bind_ok in H as (stored & w2 & H2%Create_has & H). simpl in H2.
  eapply has_request_kept; [|exact H2].
  match type of H with ?m e w2 = _ => assert (guar progress m) as G by handler_walk end.
  specialize (G e w2). by rewrite H in G.
Qed.

(** ** Properties *)




Definition approved_remediation : RemediationAction := set_decision demo_remediation Rem.StateApproved "bob".
Definition approved_db : DB :=
  mkDB {["inc_1" := demo_incident]} {["rem_1" := approved_remediation]} ∅ ∅ ∅ ∅ ∅ [] (Some (0, GenesisHash)) demo_observed.
Definition approved_world : world := mkWorld approved_db 0 [].
Definition local_service : Service := NewService NewEngine true None (Some demo_service).

Lemma approved_keyed : keyed (w_db approved_world).
Proof.
  split; simpl; [by intros k x [<- <-]%lookup_singleton_Some|intros k x; by rewrite lookup_empty|].
  intros k x Hx. simpl in Hx. by rewrite lookup_empty in Hx.
Qed.


Definition restart_candidate : RCACandidate := mkRCACandidate "restart_service" "payments-api" ∅ "medium" true.


(** The same action succeeded long ago for the same incident. *)
Definition finished_db : DB :=
  mkDB {["inc_1" := demo_incident]} {["rem_1" := set_status demo_remediation Rem.StateSucceeded]} ∅ ∅ ∅ ∅ ∅ [] (Some (0, GenesisHash)) demo_observed.

