(* ===== verification/Helios.v ===== *)
(** * Following Helios workflows ([internal/remediation/helios_reconcile.go])

    The reconciler settles the remediations the Helios executor left unfinished: it
    follows a recorded workflow to its end, cancels it when it runs too long, and
    recovers a submission whose process died by adopting its workflow or submitting it
    again. One transaction per pass; what Helios was asked meanwhile is not undone. *)
From Stdlib Require Import Ascii String ZArith Lia.
From stdpp Require Import base gmap strings list relations.
From S2P Require Import Prelude GoStrings GoFloat GoValue Json Marshal Ledger Lifecycle Types Database AuditLog Store Progress.
From S2P Require Import Http Executors Approvals Dispatch Remediation.
Open Scope Z_scope.

Record HeliosReconcileConfig := mkHeliosConfig { Interval : Z; MaxRuntime : Z; SubmitLostAfter : Z }.

Definition DefaultHeliosReconcileConfig : HeliosReconcileConfig := mkHeliosConfig (30 * second) (30 * minute) (2 * minute).

Definition withDefaults (c : HeliosReconcileConfig) : HeliosReconcileConfig :=
  let def := DefaultHeliosReconcileConfig in
  mkHeliosConfig (or_default (Interval c) (Interval def)) (or_default (MaxRuntime c) (MaxRuntime def))
    (or_default (SubmitLostAfter c) (SubmitLostAfter def)).

Record HeliosReconcileResult := mkHeliosResult {
  hr_succeeded : list string;
  hr_failed : list string;
  hr_timed_out : list string;
  hr_adopted : list string;
  hr_resubmitted : list string;
  hr_errors : list string;
}.
Definition no_helios_result : HeliosReconcileResult := mkHeliosResult [] [] [] [] [] [].
Definition add_succeeded (id : string) (r : HeliosReconcileResult) : HeliosReconcileResult :=
  mkHeliosResult (hr_succeeded r ++ [id]) (hr_failed r) (hr_timed_out r) (hr_adopted r) (hr_resubmitted r) (hr_errors r).
Definition add_failed (id : string) (r : HeliosReconcileResult) : HeliosReconcileResult :=
  mkHeliosResult (hr_succeeded r) (hr_failed r ++ [id]) (hr_timed_out r) (hr_adopted r) (hr_resubmitted r) (hr_errors r).
Definition add_timed_out (id : string) (r : HeliosReconcileResult) : HeliosReconcileResult :=
  mkHeliosResult (hr_succeeded r) (hr_failed r) (hr_timed_out r ++ [id]) (hr_adopted r) (hr_resubmitted r) (hr_errors r).
Definition add_adopted (id : string) (r : HeliosReconcileResult) : HeliosReconcileResult :=
  mkHeliosResult (hr_succeeded r) (hr_failed r) (hr_timed_out r) (hr_adopted r ++ [id]) (hr_resubmitted r) (hr_errors r).
Definition add_resubmitted (id : string) (r : HeliosReconcileResult) : HeliosReconcileResult :=
  mkHeliosResult (hr_succeeded r) (hr_failed r) (hr_timed_out r) (hr_adopted r) (hr_resubmitted r ++ [id]) (hr_errors r).
Definition add_error (id : string) (r : HeliosReconcileResult) : HeliosReconcileResult :=
  mkHeliosResult (hr_succeeded r) (hr_failed r) (hr_timed_out r) (hr_adopted r) (hr_resubmitted r) (hr_errors r ++ [id]).

(** ** Helios's list and its cancel call *)

(** The element of the list: the embedded summary and its labels. *)
Definition decode_listed (j : json) : result (heliosWorkflowSummary * option (gmap string string)) :=
  match j with
  | JObj m => let! summary := decode_summary m in let! labels := decode_field decode_string_map "labels" None m in Ok (summary, labels)
  | JNull => Ok (mkSummary "" "" "" None, None)
  | _ => Fail (errorf "json: cannot unmarshal into a struct")
  end.

Definition labelled (remediationID : string) (labels : option (gmap string string)) : bool :=
  (str_at (default ∅ labels) "remediation_id" =?s remediationID) && (str_at (default ∅ labels) "source" =?s "argus").

Definition find_labelled (remediationID : string) (l : list (heliosWorkflowSummary * option (gmap string string))) : option heliosWorkflowSummary :=
  fst <$> List.find (fun wf => labelled remediationID wf.2) l.

Definition findWorkflow (x : HeliosExecutor) (remediationID : string) : M (option heliosWorkflowSummary) :=
  req <- NewRequest (he_client x) "GET" (he_base_url x +:+ "/api/v1/workflows?limit=500") [bearer x] None ;;
  resp <- wrap "list helios workflows" (Do (he_client x) req) ;;
  if 400 <=? hs_code resp then throw (errorf ("list helios workflows returned status " +:+ hs_status resp))
  else
    listed <- wrap "decode helios workflow list" (lift (
      let! m := decode_object (hs_body resp) in decode_field (decode_list decode_listed) "workflows" [] m)) ;;
    ret (find_labelled remediationID listed).

Definition cancelWorkflow (x : HeliosExecutor) (workflowID : string) : M unit :=
  req <- NewRequest (he_client x) "POST" (he_base_url x +:+ "/api/v1/workflows/" +:+ workflowID +:+ "/cancel") [bearer x] None ;;
  resp <- wrap "cancel helios workflow" (Do (he_client x) req) ;;
  if 400 <=? hs_code resp then throw (errorf ("cancel helios workflow returned status " +:+ hs_status resp)) else ret tt.

(** ** Running workflows *)

Record runningHelios := mkRunning { rh_id : string; rh_workflow_id : string; rh_result : params; rh_overdue : bool }.

(** [result->>key]: the text of a member; [jsonb] prints what is not a string. *)
Definition json_text (jsonb : string -> string) (result : option params) (key : string) : option string :=
  v ← (m ← result; m !! key);
  match v with
  | VNil => None
  | VString s => Some s
  | v => (fun t => jsonb (enc (canonical t))) <$> to_json v
  end.

Definition on_helios (jsonb : string -> string) (r : RemediationAction) : bool :=
  (rem_status r =?s Rem.StateRunning) && bool_decide (json_text jsonb (rem_result r) "executor" = Some "helios") &&
  negb (default "" (json_text jsonb (rem_result r) "helios_workflow_id") =?s "").

(** [ORDER BY] a nullable time: NULLs come last. *)
Definition time_before (f : RemediationAction -> option Z) (a b : string * RemediationAction) : bool :=
  match f a.2, f b.2 with
  | Some x, Some y => x <? y
  | Some _, None => true
  | None, _ => false
  end.

Definition running_rows (jsonb : string -> string) (locked : string -> bool) (d : DB) : list (string * RemediationAction) :=
  take 50 (sort_stable (time_before rem_started_at)
    (filter (fun kr => on_helios jsonb kr.2 && negb (locked kr.1) = true) (map_to_list (db_remediations d)))).

(** Scanning a row: whether it is overdue does not fit a [bool] when it never started. *)
Definition scan_running (jsonb : string -> string) (limit : Z) (kr : string * RemediationAction) : result runningHelios :=
  match rem_started_at kr.2 with
  | Some started =>
      Ok (mkRunning kr.1 (default "" (json_text jsonb (rem_result kr.2) "helios_workflow_id")) (default ∅ (rem_result kr.2)) (started <? limit))
  | None => Fail (errorf "sql: Scan error: converting NULL to bool is unsupported")
  end.

Fixpoint scan_all (jsonb : string -> string) (limit : Z) (rows : list (string * RemediationAction)) : result (list runningHelios) :=
  match rows with
  | [] => Ok []
  | kr :: rows => let! r := scan_running jsonb limit kr in let! rest := scan_all jsonb limit rows in Ok (r :: rest)
  end.

(** The end of [settleHelios]: the final state and its audit entry. *)
Definition finish_helios (r : runningHelios) (status action errText : string) (final : params) : M unit :=
  requireApplied (CompleteRemediation (rh_id r) status (Some final) errText) ;;;
  (if (status =?s Rem.StateFailed) || (status =?s Rem.StateTimedOut) then ignore (GetRemediation (rh_id r)) else ret tt) ;;;
  WriteTx (audit_entry "" "system" action "remediation" (rh_id r)
    (Some {["status" := VString Rem.StateRunning]})
    (Some (list_to_map [("status", VString status); ("executor", VString "helios"); ("result", map_value (Some final)); ("error", VString errText)]))
    (Some (list_to_map [("reconciled_by", VString "helios_reconciler"); ("helios_workflow_id", VString (rh_workflow_id r))]))).

Definition settleHelios (x : HeliosExecutor) (r : runningHelios) (summary : heliosWorkflowSummary) (result : HeliosReconcileResult)
    : M HeliosReconcileResult :=
  let final := <["reconciled" := VBool true]> (<["helios_workflow_state" := VString (hw_state summary)]> (rh_result r)) in
  if hw_state summary =?s "succeeded" then
    finish_helios r Rem.StateSucceeded "remediation.completed" "" final ;;;
    ret (add_succeeded (rh_id r) result)
  else if (hw_state summary =?s "failed") || (hw_state summary =?s "cancelled") then
    finish_helios r Rem.StateFailed "remediation.failed"
      ("helios workflow " +:+ rh_workflow_id r +:+ " finished in state " +:+ hw_state summary) final ;;;
    ret (add_failed (rh_id r) result)
  else if negb (rh_overdue r) then ret result
  else
    cancelled <- attempt (cancelWorkflow x (rh_workflow_id r)) ;;
    let errText := "helios workflow " +:+ rh_workflow_id r +:+ " still " +:+ hw_state summary +:+ " after the maximum runtime" in
    finish_helios r Rem.StateTimedOut "remediation.timed_out"
      (match cancelled with Ok _ => errText | Fail err => errText +:+ "; cancelling it failed: " +:+ err_text err end)
      (<["helios_cancel_requested" := VBool (is_ok cancelled)]> final) ;;;
    ret (add_timed_out (rh_id r) result).

Fixpoint settle_all (x : HeliosExecutor) (running : list runningHelios) (result : HeliosReconcileResult) : M HeliosReconcileResult :=
  match running with
  | [] => ret result
  | r :: running =>
      summary <- attempt (getWorkflow x (rh_workflow_id r)) ;;
      result <- (match summary with
                 | Ok summary => settleHelios x r summary result
                 | Fail _ => ret (add_error (rh_id r) result)
                 end) ;;
      settle_all x running result
  end.

Definition settleRunningHelios (x : HeliosExecutor) (cfg : HeliosReconcileConfig) (result : HeliosReconcileResult) : M HeliosReconcileResult :=
  time <- db_now ;;
  locked <- row_locks ;;
  jsonb <- jsonb_columns ;;
  rows <- wrap "find running Helios remediations" (query (running_rows jsonb locked)) ;;
  running <- lift (scan_all jsonb (time - MaxRuntime cfg) rows) ;;
  settle_all x running result.

(** ** Lost submissions *)

Definition is_lost (limit : Z) (d : DB) (kr : string * RemediationAction) : bool :=
  (rem_status kr.2 =?s Rem.StateQueued) && before (rem_queued_at kr.2) limit && bool_decide (jobs_of kr.1 d = []).

Definition lost_ids (limit : Z) (locked : string -> bool) (d : DB) : list string :=
  (take 20 (sort_stable (time_before rem_queued_at)
    (filter (fun kr => is_lost limit d kr && negb (locked kr.1) = true) (map_to_list (db_remediations d))))).*1.

Definition adopted_result (found : heliosWorkflowSummary) : params :=
  list_to_map [("executor", VString "helios"); ("helios_workflow_id", VString (hw_id found)); ("helios_workflow_name", VString (hw_name found));
    ("helios_workflow_state", VString (hw_state found)); ("adopted", VBool true)].

Definition adopt (x : HeliosExecutor) (id : string) (found : heliosWorkflowSummary) (result : HeliosReconcileResult) : M HeliosReconcileResult :=
  let adopted := adopted_result found in
  requireApplied (MarkRemediationRunning id (Some adopted)) ;;;
  WriteTx (audit_entry "" "system" "remediation.running" "remediation" id
    (Some {["status" := VString Rem.StateQueued]})
    (Some (list_to_map [("status", VString Rem.StateRunning); ("executor", VString "helios"); ("result", map_value (Some adopted))]))
    (Some (list_to_map [("reconciled_by", VString "helios_reconciler");
       ("reason", VString "adopted the workflow a crashed submission created")]))) ;;;
  settleHelios x (mkRunning id (hw_id found) adopted false) found (add_adopted id result).

Definition closed_reason : string := "incident closed before the lost Helios submission was recovered".

Definition cancel_lost (id : string) : M unit :=
  requireApplied (CompleteRemediation id Rem.StateCancelled None closed_reason) ;;;
  WriteTx (audit_entry "" "system" "remediation.cancelled" "remediation" id
    (Some {["status" := VString Rem.StateQueued]})
    (Some (list_to_map [("status", VString Rem.StateCancelled); ("error", VString closed_reason)]))
    (Some {["reconciled_by" := VString "helios_reconciler"]})).

(** No workflow carries the remediation's label: submit it again, unless its incident is closed. *)
Definition resubmit (s : Service) (x : HeliosExecutor) (id : string) (result : HeliosReconcileResult) : M HeliosReconcileResult :=
  rem <- GetRemediation id ;;
  incident <- GetIncident (rem_incident_id rem) ;;
  if Inc.IsClosed (inc_status incident) then cancel_lost id ;;; ret result
  else
    outcome <- attempt (helios_execute x rem incident (rem_dry_run rem)) ;;
    match outcome with
    | Fail _ => ret (add_error id result)
    | Ok outcome => applyQueuedOutcome (fun body => body) s rem outcome "system" ;;; ret (add_resubmitted id result)
    end.

Definition recover_one (s : Service) (x : HeliosExecutor) (id : string) (result : HeliosReconcileResult) : M HeliosReconcileResult :=
  found <- attempt (findWorkflow x id) ;;
  match found with
  | Fail _ => ret (add_error id result)
  | Ok (Some found) => adopt x id found result
  | Ok None => resubmit s x id result
  end.

Fixpoint recover_all (s : Service) (x : HeliosExecutor) (ids : list string) (result : HeliosReconcileResult) : M HeliosReconcileResult :=
  match ids with
  | [] => ret result
  | id :: ids => result <- recover_one s x id result ;; recover_all s x ids result
  end.

Definition recoverLostHeliosSubmissions (s : Service) (x : HeliosExecutor) (cfg : HeliosReconcileConfig) (result : HeliosReconcileResult)
    : M HeliosReconcileResult :=
  time <- db_now ;;
  locked <- row_locks ;;
  ids <- wrap "find lost Helios submissions" (query (lost_ids (time - SubmitLostAfter cfg) locked)) ;;
  recover_all s x ids result.

(** One pass. What it collected before an error is only logged and counted, so an
    error carries no result here. *)
Definition ReconcileHelios (s : Service) (cfg : HeliosReconcileConfig) : M HeliosReconcileResult :=
  match ex_helios (rs_exec s) with
  | None => ret no_helios_result
  | Some x =>
      let cfg := withDefaults cfg in
      InTx (
        query (fun _ => tt) ;;;
        locked <- try_lock ;;
        if negb locked then ret no_helios_result
        else
          result <- settleRunningHelios x cfg no_helios_result ;;
          recoverLostHeliosSubmissions s x cfg result)
  end.

(** ** Guarantees *)

Section helios_calls.
Context (R : DB -> DB -> Prop) `{!Reflexive R, !Transitive R}.
Lemma findWorkflow_guar x id : guar R (findWorkflow x id).
Proof. unfold findWorkflow. handler_walk. Qed.
Lemma cancelWorkflow_guar x id : guar R (cancelWorkflow x id).
Proof. unfold cancelWorkflow. handler_walk. Qed.
End helios_calls.
#[export] Hint Resolve findWorkflow_guar cancelWorkflow_guar : guar.

(** A change of one remediation and the ledger only. *)
Record within (id : string) (d d' : DB) : Prop := {
  wi_others : forall k, k <> id -> db_remediations d' !! k = db_remediations d !! k;
  wi_incidents : db_incidents d' = db_incidents d;
  wi_dispatches : db_dispatches d' = db_dispatches d;
  wi_observed : db_observed d' = db_observed d;
}.

#[export] Instance within_refl id : Reflexive (within id).
Proof. by split. Qed.
#[export] Instance within_trans id : Transitive (within id).
Proof. intros d1 d2 d3 [K1 I1 D1 O1] [K2 I2 D2 O2]. split; [|congruence..]. intros k Hk. by rewrite K2, K1. Qed.

Lemma WriteTx_within id entry : guar (within id) (WriteTx entry).
Proof. eapply guar_mono; [|apply WriteTx_only]. intros d d' []. split; congruence. Qed.
Lemma update_within id cond f : guar (within id) (update_remediation id cond f).
Proof. apply guar_update_if; [typeclasses eauto|]. intros d r _ _. split; simpl; try done. intros k Hk. by rewrite lookup_insert_ne. Qed.
#[export] Hint Resolve WriteTx_within update_within : guar.

Lemma MarkRemediationRunning_within id result : guar (within id) (MarkRemediationRunning id result).
Proof. unfold MarkRemediationRunning. guar_walk. Qed.
Lemma ClaimRemediation_within id : guar (within id) (ClaimRemediation id).
Proof. unfold ClaimRemediation. guar_walk. Qed.
Lemma CompleteRemediation_within id status result err : guar (within id) (CompleteRemediation id status result err).
Proof. unfold CompleteRemediation. guar_walk. Qed.
Lemma requireApplied_within id m : guar (within id) m -> guar (within id) (requireApplied m).
Proof. intros Hm. unfold requireApplied. handler_walk. Qed.
#[export] Hint Resolve MarkRemediationRunning_within ClaimRemediation_within CompleteRemediation_within requireApplied_within : guar.

Lemma finish_helios_within r status action err final : guar (within (rh_id r)) (finish_helios r status action err final).
Proof. unfold finish_helios. handler_walk. Qed.
#[export] Hint Resolve finish_helios_within : guar.
Lemma settleHelios_within x r summary result : guar (within (rh_id r)) (settleHelios x r summary result).
Proof. unfold settleHelios. handler_walk. Qed.
Lemma adopt_within x id found result : guar (within id) (adopt x id found result).
Proof. unfold adopt. handler_walk. exact (settleHelios_within x (mkRunning id (hw_id found) (adopted_result found) false) found _). Qed.
Lemma applyQueuedOutcome_within s r outcome actor : guar (within (rem_id r)) (applyQueuedOutcome (fun body => body) s r outcome actor).
Proof. unfold applyQueuedOutcome. handler_walk. Qed.

Lemma finish_helios_steady r status action err final :
  bool_decide (status ∈ outcomes) = true -> okay steady (finish_helios r status action err final).
Proof. intros H. unfold finish_helios. handler_walk. Qed.
#[export] Hint Resolve finish_helios_steady : guar.
Lemma settleHelios_steady x r summary result : okay steady (settleHelios x r summary result).
Proof. unfold settleHelios. handler_walk. Qed.
#[export] Hint Resolve settleHelios_steady : guar.
Lemma settle_all_steady x running : forall result, okay steady (settle_all x running result).
Proof. induction running as [|r running IH]; intros result; simpl; handler_walk. Qed.
#[export] Hint Resolve settle_all_steady : guar.
Lemma settleRunningHelios_steady x cfg result : okay steady (settleRunningHelios x cfg result).
Proof. unfold settleRunningHelios. handler_walk. Qed.
Lemma adopt_steady x id found result : okay steady (adopt x id found result).
Proof. unfold adopt. handler_walk. Qed.
#[export] Hint Resolve settleRunningHelios_steady adopt_steady : guar.

(** ** Runs *)

Lemma applied_ok text id l f e w u w' :
  requireApplied (time <- db_now ;; wrap text (update_remediation id (has_status l) (f time))) e w = (Ok u, w') ->
  exists r, db_remediations (w_db w) !! id = Some r /\ rem_status r ∈ l /\
    w_db w' = set_remediations (<[id := f (TruncateMicro (e_now e)) r]>) (w_db w).
Proof.
  intros H%requireApplied_ok. apply bind_ok in H as (t & w1 & [-> ->]%db_now_ok & H%wrap_ok).
  apply update_if_ok in H as [_ (r & Hr & Hs & D)]. exists r. by apply has_status_elem in Hs.
Qed.

Lemma WriteTx_rows entry e w u w' : WriteTx entry e w = (Ok u, w') -> db_remediations (w_db w') = db_remediations (w_db w).
Proof. intros H. eapply app_remediations, WriteTx_appended, H. Qed.

(** The remediation [id] moved from one of the states [from] to a row of which [P] holds. *)
Definition moved (id : string) (from : list string) (P : RemediationAction -> Prop) (d d' : DB) : Prop :=
  exists r r', db_remediations d !! id = Some r /\ rem_status r ∈ from /\ P r' /\ db_remediations d' = <[id := r']> (db_remediations d).

Lemma finish_helios_ok r status action err final e w u w' :
  finish_helios r status action err final e w = (Ok u, w') ->
  moved (rh_id r) [Rem.StateQueued; Rem.StateRunning] (fun r' => rem_status r' = status) (w_db w) (w_db w').
Proof.
  unfold finish_helios, CompleteRemediation. intros (u1 & w1 & H1%applied_ok & H)%bind_ok. destruct H1 as (row & Hr & Hs & D1).
  apply bind_ok in H as (u2 & w2 & H2 & H%WriteTx_rows).
  assert (w_db w2 = w_db w1) as D2. { eapply (unchanged _ _ _ _ _ _ H2). Unshelve. handler_walk. }
  eexists row, _. split_and!; [done|done| |rewrite H, D2, D1; simpl; reflexivity]. done.
Qed.

(** What a workflow's state makes of its remediation. *)
Definition settled_as (state : string) (overdue : bool) (status : string) : Prop :=
  state = "succeeded" /\ status = Rem.StateSucceeded \/
  (state = "failed" \/ state = "cancelled") /\ status = Rem.StateFailed \/
  finished state = false /\ overdue = true /\ status = Rem.StateTimedOut.

Lemma settleHelios_ok x r summary result e w result' w' :
  settleHelios x r summary result e w = (Ok result', w') ->
  w_db w' = w_db w /\ finished (hw_state summary) = false /\ rh_overdue r = false \/
  moved (rh_id r) [Rem.StateQueued; Rem.StateRunning] (fun r' => settled_as (hw_state summary) (rh_overdue r) (rem_status r')) (w_db w) (w_db w').
Proof.
  unfold settleHelios. cbv zeta. intros H. destruct (hw_state summary =?s "succeeded") eqn:S1; [|destruct (_ || _) eqn:S2].
  - right. apply bind_ok in H as (u & w1 & (a & b & Ha & Hs & Hb & D)%finish_helios_ok & [_ ->]%ret_ok). reflect_tests.
    exists a, b. split_and!; try done. left. done.
  - right. apply bind_ok in H as (u & w1 & (a & b & Ha & Hs & Hb & D)%finish_helios_ok & [_ ->]%ret_ok).
    exists a, b. split_and!; try done. right; left. split; [|done]. apply orb_true_iff in S2 as [?|?]; reflect_tests; auto.
  - assert (finished (hw_state summary) = false) as F.
    { apply orb_false_iff in S2 as [S2 S3]. reflect_tests. apply bool_decide_eq_false. rewrite !elem_of_cons, elem_of_nil. naive_solver. }
    destruct (rh_overdue r); [right|left; by apply ret_ok in H as [_ ->]]. simpl in H.
    apply bind_ok in H as (c & w1 & C%attempt_ok & H).
    assert (w_db w1 = w_db w) as D1 by (eapply unchanged, C; apply cancelWorkflow_guar; typeclasses eauto). rewrite <- D1.
    apply bind_ok in H as (u & w2 & (a & b & Ha & Hs & Hb & D)%finish_helios_ok & [_ ->]%ret_ok).
    exists a, b. split_and!; try done. by right; right.
Qed.

(** The first phase: a row is as it was, or settled by what Helios reported about its workflow. *)
Lemma settle_all_ok x running : forall result e w result' w',
  NoDup (rh_id <$> running) -> settle_all x running result e w = (Ok result', w') ->
  (forall k, db_remediations (w_db w') !! k = db_remediations (w_db w) !! k \/
    exists r summary row row', r ∈ running /\ rh_id r = k /\ reported x (rh_workflow_id r) summary /\
      db_remediations (w_db w) !! k = Some row /\ db_remediations (w_db w') !! k = Some row' /\
      settled_as (hw_state summary) (rh_overdue r) (rem_status row')) /\
  db_incidents (w_db w') = db_incidents (w_db w) /\ db_dispatches (w_db w') = db_dispatches (w_db w) /\
  db_observed (w_db w') = db_observed (w_db w).
Proof.
  induction running as [|r running IH]; intros result e w result' w' ND H; simpl in H.
  { apply ret_ok in H as [_ ->]. split; [by left|done]. }
  apply NoDup_cons in ND as [Hn ND]. apply bind_ok in H as (summary & w1 & G%attempt_ok & H).
  assert (w_db w1 = w_db w) as D1 by (eapply unchanged, G; apply getWorkflow_guar; typeclasses eauto).
  apply bind_ok in H as (result1 & w2 & H2 & H). apply IH in H as (HK & HI & HD & HO); [|done].
  assert (within (rh_id r) (w_db w) (w_db w2) /\ (db_remediations (w_db w2) !! rh_id r = db_remediations (w_db w) !! rh_id r \/
    exists s row row', summary = Ok s /\ db_remediations (w_db w) !! rh_id r = Some row /\ db_remediations (w_db w2) !! rh_id r = Some row' /\
      settled_as (hw_state s) (rh_overdue r) (rem_status row'))) as [[WK WI WD WO] Hr].
  { rewrite <- D1. destruct summary as [s|]; [|apply ret_ok in H2 as [_ ->]; split; [reflexivity|by left]]. split.
    - refine ((_ : okay (within (rh_id r)) _) _ _ _ _ H2). apply okay_guar, settleHelios_within; typeclasses eauto.
    - apply settleHelios_ok in H2 as [(-> & _)|(a & b & Ha & _ & Hb & ->)]; [by left|right]. exists s, a, b. by rewrite lookup_insert_eq. }
  rewrite WI in HI. rewrite WD in HD. rewrite WO in HO. split; [|done]. intros k. destruct (decide (k = rh_id r)) as [->|Hk].
  - destruct (HK (rh_id r)) as [->|(r' & ? & ? & ? & Hin & Hid & _)]; [|by destruct Hn; rewrite <- Hid; apply list_elem_of_fmap_2].
    destruct Hr as [?|(s & row & row' & -> & ? & ? & ?)]; [by left|right]. apply getWorkflow_ok in G. exists r, s, row, row'.
    split_and!; try done. left.
  - rewrite <- (WK k Hk). destruct (HK k) as [?|(r' & s & row & row' & Hin & ?)]; [by left|right]. exists r', s, row, row'.
    split; [by right|done].
Qed.

(** Helios listed its workflows, and which of them carries the remediation's labels. *)
Definition looked_up (x : HeliosExecutor) (id : string) (found : option heliosWorkflowSummary) : Prop :=
  exists n resp m l, hc_do (he_client x) n (mkHttpRequest "GET" (he_base_url x +:+ "/api/v1/workflows?limit=500") [bearer x] None) = Ok resp /\
    hs_code resp < 400 /\ decode_object (hs_body resp) = Ok m /\ decode_field (decode_list decode_listed) "workflows" [] m = Ok l /\
    found = find_labelled id l.

Lemma findWorkflow_ok x id e w found w' : findWorkflow x id e w = (Ok found, w') -> looked_up x id found.
Proof.
  unfold findWorkflow, NewRequest. intros H. apply bind_ok in H as (req & w1 & H1 & H). destruct (hc_url_error _ _); [done|].
  apply ret_ok in H1 as [-> ->]. apply bind_ok in H as (resp & w2 & H2%wrap_ok & H). injection H2 as Hdo _.
  destruct (400 <=? hs_code resp) eqn:C; [done|]. apply bind_ok in H as (l & w3 & H3%wrap_ok & [-> _]%ret_ok).
  apply lift_ok in H3 as [H3 _]. apply Z.leb_gt in C. destruct (decode_object (hs_body resp)) as [m|] eqn:D; [|done].
  exists (w_tick w), resp, m, l. by split_and!.
Qed.

(** What a workflow found for a lost submission makes of its remediation. *)
Definition adopted_as (state status : string) : Prop :=
  state = "succeeded" /\ status = Rem.StateSucceeded \/
  (state = "failed" \/ state = "cancelled") /\ status = Rem.StateFailed \/
  finished state = false /\ status = Rem.StateRunning.

Lemma adopt_ok x id found result e w result' w' :
  adopt x id found result e w = (Ok result', w') ->
  moved id [Rem.StateQueued; Rem.StateRunning] (fun r' => adopted_as (hw_state found) (rem_status r')) (w_db w) (w_db w').
Proof.
  unfold adopt, MarkRemediationRunning. cbv zeta. intros (u1 & w1 & H1%applied_ok & H)%bind_ok. destruct H1 as (r & Hr & Hs & D1).
  apply bind_ok in H as (u2 & w2 & D2%WriteTx_rows & H). rewrite D1 in D2. simpl in D2.
  apply settleHelios_ok in H as [(-> & F & _)|(a & b & Ha & _ & Hb & D)]; eexists r, _; (split_and!; [done|done| |]).
  2: exact D2. 3: rewrite D, D2; apply insert_insert_eq. { by right; right. }
  destruct Hb as [?|[?|(? & [=] & _)]]; [by left|by right; left].
Qed.

(** How a lost submission [r] was recovered, by what Helios listed. *)
Inductive recovery (x : HeliosExecutor) (id : string) (d : DB) (r r' : RemediationAction) : Prop :=
  | recovered_adopted found : looked_up x id (Some found) -> adopted_as (hw_state found) (rem_status r') -> recovery x id d r r'
  | recovered_cancelled i : looked_up x id None -> db_incidents d !! rem_incident_id r = Some i ->
      Inc.IsClosed (inc_status i) = true -> rem_status r' = Rem.StateCancelled -> recovery x id d r r'
  | recovered_resubmitted i created summary : looked_up x id None -> db_incidents d !! rem_incident_id r = Some i ->
      Inc.IsClosed (inc_status i) = false -> accepted x r (scanIncident d i) (rem_dry_run r) created -> reported x (hw_id created) summary ->
      hw_state summary = "succeeded" /\ rem_status r' = Rem.StateSucceeded \/
      finished (hw_state summary) = false /\ rem_status r' = Rem.StateRunning -> recovery x id d r r'.

Lemma outcome_applied s r outcome actor e w u w' :
  applyQueuedOutcome (fun body => body) s r outcome actor e w = (Ok u, w') ->
  out_status outcome ∈ [Rem.StateSucceeded; Rem.StateRunning] ->
  exists a b, db_remediations (w_db w) !! rem_id r = Some a /\ rem_status b = out_status outcome /\
    db_remediations (w_db w') = <[rem_id r := b]> (db_remediations (w_db w)).
Proof.
  unfold applyQueuedOutcome. cbv zeta. intros H [Ho|[Ho|[]%elem_of_nil]%elem_of_cons]%elem_of_cons; rewrite Ho in *; cbn in H.
  - apply bind_ok in H as (u1 & w1 & H1%applied_ok & H). destruct H1 as (a & Ha & _ & D1).
    apply bind_ok in H as (u2 & w2 & H2%applied_ok & H%WriteTx_rows). destruct H2 as (b & Hb & _ & D2).
    eexists a, _. split_and!; [done| |rewrite H, D2, D1; simpl; apply insert_insert_eq]. done.
  - apply bind_ok in H as (u1 & w1 & H1%applied_ok & H%WriteTx_rows). destruct H1 as (a & Ha & _ & D1).
    eexists a, _. split_and!; [done| |rewrite H, D1; simpl; reflexivity]. done.
Qed.

Lemma GetRemediation_ok id e w r w' :
  GetRemediation id e w = (Ok r, w') -> w_db w' = w_db w /\ db_remediations (w_db w) !! id = Some r.
Proof. by intros (? & ? & _)%wrap_ok%query_row_ok. Qed.

Lemma cancel_lost_ok id e w u w' :
  cancel_lost id e w = (Ok u, w') -> moved id [Rem.StateQueued; Rem.StateRunning] (fun r' => rem_status r' = Rem.StateCancelled) (w_db w) (w_db w') /\
  (forall r, db_remediations (w_db w) !! id = Some r -> rem_status r = Rem.StateQueued -> steady (w_db w) (w_db w')).
Proof.
  unfold cancel_lost, CompleteRemediation. intros (u1 & w1 & H1%applied_ok & H)%bind_ok. destruct H1 as (r & Hr & Hs & D1). split.
  - apply WriteTx_rows in H. eexists r, _. split_and!; [done|done| |rewrite H, D1; simpl; reflexivity]. done.
  - intros r' Hr' Hq. assert (r' = r) as -> by congruence. etrans; [|refine ((_ : okay steady _) _ _ _ _ H); handler_walk].
    rewrite D1. eapply steady_remediation; [done| | |]; simpl.
    + by split.
    + rewrite Hq. by left.
    + intros Hx. vm_compute in Hx. discriminate.
Qed.

(** What handling one lost submission does: nothing to others, and its own row is as it
    was or recovered. *)
Definition recovers (x : HeliosExecutor) (id : string) (d d' : DB) : Prop :=
  steady d d' /\ within id d d' /\
  (db_remediations d' !! id = db_remediations d !! id \/
   exists r r', db_remediations d !! id = Some r /\ db_remediations d' !! id = Some r' /\ recovery x id d r r').

Lemma recovers_same x id d : recovers x id d d.
Proof. split_and!; [reflexivity..|by left]. Qed.

Lemma recovers_moved x id d d' l P r :
  steady d d' -> within id d d' -> moved id l P d d' -> db_remediations d !! id = Some r -> (forall r', P r' -> recovery x id d r r') ->
  recovers x id d d'.
Proof.
  intros HS HW (a & b & Ha & _ & Hb & D) Hr HP. assert (a = r) as -> by congruence. split_and!; [done|done|right]. exists r, b.
  rewrite D, lookup_insert_eq. auto.
Qed.

Lemma resubmit_ok s x id result e w result' w' r :
  resubmit s x id result e w = (Ok result', w') -> looked_up x id None ->
  db_remediations (w_db w) !! id = Some r -> rem_id r = id -> rem_status r = Rem.StateQueued -> recovers x id (w_db w) (w_db w').
Proof.
  unfold resubmit. intros H L Hr Hid Hq. apply bind_ok in H as (rem & w1 & [D1 Hr']%GetRemediation_ok & H).
  assert (rem = r) as -> by congruence. apply bind_ok in H as (incident & w2 & (D2 & i & Hi & ->)%GetIncident_ok & H).
  rewrite D1 in D2, Hi, H. rewrite <- D2 in *. simpl in H. destruct (Inc.IsClosed (inc_status i)) eqn:C.
  - apply bind_ok in H as (u & w3 & H & [_ ->]%ret_ok). pose proof (cancel_lost_ok _ _ _ _ _ H) as [HM HS].
    eapply recovers_moved; [by eapply HS| |exact HM|done|intros r' Hs; by eapply recovered_cancelled].
    refine ((_ : okay (within id) _) _ _ _ _ H). unfold cancel_lost. handler_walk.
  - apply bind_ok in H as (out & w3 & X%attempt_ok & H).
    assert (w_db w3 = w_db w2) as D3 by (eapply unchanged, X; apply helios_execute_guar; typeclasses eauto). rewrite <- D3 in *.
    destruct out as [out|]; [|apply ret_ok in H as [_ ->]; apply recovers_same].
    apply helios_execute_ok in X as (created & summary & HA & HRep & _ & HO). apply bind_ok in H as (u & w4 & H & [_ ->]%ret_ok).
    assert (out_status out ∈ [Rem.StateSucceeded; Rem.StateRunning]) as Ho.
    { destruct HO as [[_ ->]|(_ & -> & _)]; apply (bool_decide_unpack _); vm_compute; exact Logic.I. }
    pose proof (outcome_applied _ _ _ _ _ _ _ _ H Ho) as (a & b & Ha & Hb & Db). rewrite Hid in Ha, Db. split_and!.
    + refine ((_ : okay steady _) _ _ _ _ H). by apply applyQueuedOutcome_steady.
    + rewrite <- Hid. refine ((_ : okay (within (rem_id r)) _) _ _ _ _ H). apply okay_guar, applyQueuedOutcome_within; typeclasses eauto.
    + right. exists r, b. rewrite Db, lookup_insert_eq. split_and!; [done|done|]. eapply recovered_resubmitted; [done..|].
      rewrite Hb. destruct HO as [[? ?]|(? & ? & _)]; auto.
Qed.

Lemma recover_one_ok s x id result e w result' w' r :
  recover_one s x id result e w = (Ok result', w') ->
  db_remediations (w_db w) !! id = Some r -> rem_id r = id -> rem_status r = Rem.StateQueued -> recovers x id (w_db w) (w_db w').
Proof.
  unfold recover_one. intros H Hr Hid Hq. apply bind_ok in H as (found & w1 & F%attempt_ok & H).
  assert (w_db w1 = w_db w) as D1 by (eapply unchanged, F; apply findWorkflow_guar; typeclasses eauto). rewrite <- D1 in *.
  destruct found as [[found|]|]; [| |apply ret_ok in H as [_ ->]; apply recovers_same]; apply findWorkflow_ok in F; [|by eapply resubmit_ok].
  pose proof (adopt_ok _ _ _ _ _ _ _ _ H) as HM. eapply recovers_moved; [..|exact HM|done|intros r' Hs; by eapply recovered_adopted].
  - refine ((_ : okay steady _) _ _ _ _ H). handler_walk.
  - refine ((_ : okay (within id) _) _ _ _ _ H). apply okay_guar, adopt_within; typeclasses eauto.
Qed.

Lemma recovery_ext x id d d' r r' :
  db_incidents d' = db_incidents d -> db_observed d' = db_observed d -> recovery x id d' r r' -> recovery x id d r r'.
Proof.
  intros HI HO [found HL HA|i HL Hi HC HS|i c y HL Hi HC HA HR HS]; [by eapply recovered_adopted|rewrite HI in Hi; by eapply recovered_cancelled|].
  rewrite HI in Hi. assert (scanIncident d' i = scanIncident d i) as E by (unfold scanIncident; by rewrite HO). rewrite E in HA.
  by eapply recovered_resubmitted.
Qed.

(** The second phase. *)
Lemma recover_all_ok s x ids : forall result e w result' w',
  recover_all s x ids result e w = (Ok result', w') -> keyed (w_db w) -> NoDup ids ->
  Forall (fun id => exists r, db_remediations (w_db w) !! id = Some r /\ rem_status r = Rem.StateQueued) ids ->
  steady (w_db w) (w_db w') /\
  forall k, db_remediations (w_db w') !! k = db_remediations (w_db w) !! k \/
    exists r r', k ∈ ids /\ db_remediations (w_db w) !! k = Some r /\ db_remediations (w_db w') !! k = Some r' /\ recovery x k (w_db w) r r'.
Proof.
  induction ids as [|id ids IH]; intros result e w result' w' H HK ND HF; simpl in H.
  { apply ret_ok in H as [_ ->]. split; [reflexivity|by left]. }
  apply NoDup_cons in ND as [Hn ND]. apply Forall_cons in HF as [(r & Hr & Hq) HF]. apply bind_ok in H as (result1 & w1 & H1 & H).
  assert (rem_id r = id) as Hid by (by apply (keyed_remediations _ HK)).
  pose proof (recover_one_ok _ _ _ _ _ _ _ _ _ H1 Hr Hid Hq) as (S1 & [WK WI WD WO] & C1).
  apply IH in H as [S2 C2]; [|by eapply steady_keyed|done|].
  2: { apply Forall_forall. intros id' Hin. rewrite Forall_forall in HF.
       destruct (HF _ Hin) as (r' & ? & ?). exists r'. rewrite WK; [done|]. by intros ->. }
  split; [by etrans|]. intros k. destruct (C2 k) as [->|(a & b & Hin & Ha & Hb & HR)].
  - destruct (decide (k = id)) as [->|Hk]; [|left; by apply WK]. destruct C1 as [?|(a & b & ? & ? & ?)]; [by left|right]. exists a, b.
    split_and!; try done. left.
  - right. exists a, b. rewrite WK in Ha by (by intros ->). split_and!; [by right|done|done|]. by eapply recovery_ext.
Qed.

(** ** A pass *)

(** A query's selection from a table: rows of the table, each key once. *)
Lemma selected_rows {Row} (n : nat) less (P : string * Row -> Prop) `{!forall kr, Decision (P kr)} (m : gmap string Row) :
  let rows := take n (sort_stable less (filter P (map_to_list m))) in
  NoDup rows.*1 /\ forall kr, kr ∈ rows -> m !! kr.1 = Some kr.2 /\ P kr.
Proof.
  intros rows. split.
  - eapply sublist_NoDup; [|apply fmap_sublist, sublist_take].
    assert (sort_stable less (filter P (map_to_list m)) ≡ₚ filter P (map_to_list m)) as -> by apply sort_stable_perm.
    eapply sublist_NoDup; [apply (NoDup_fst_map_to_list m)|apply fmap_sublist, sublist_filter].
  - intros [k r] Hin. apply elem_of_take in Hin as (i & Hi & _). apply list_elem_of_lookup_2, elem_of_sort_stable, list_elem_of_filter in Hi as [HP Hi].
    split; [by apply elem_of_map_to_list|done].
Qed.

Lemma scan_all_spec jsonb limit rows : forall running, scan_all jsonb limit rows = Ok running ->
  rh_id <$> running = rows.*1 /\ forall rh, rh ∈ running -> exists r started, (rh_id rh, r) ∈ rows /\ rem_started_at r = Some started /\
    rh_workflow_id rh = default "" (json_text jsonb (rem_result r) "helios_workflow_id") /\ rh_overdue rh = (started <? limit).
Proof.
  induction rows as [|[k r] rows IH]; intros running H; simpl in H.
  { injection H as <-. split; [done|]. by intros rh ?%elem_of_nil. }
  unfold scan_running in H. simpl in H. destruct (rem_started_at r) as [started|] eqn:S; [|done].
  simpl in H. destruct (scan_all jsonb limit rows) as [rest|] eqn:E; [|done]. injection H as <-. destruct (IH rest eq_refl) as [H1 H2].
  split; [rewrite !fmap_cons; simpl; by f_equal|]. intros rh [->|Hin]%elem_of_cons; [exists r, started; split; [left|done]|].
  destruct (H2 _ Hin) as (r' & st & Hr & ?). exists r', st. split; [by right|done].
Qed.

(** Why a row changed in a pass. *)
Definition followed (x : HeliosExecutor) (cfg : HeliosReconcileConfig) (jsonb : string -> string) (time : Z) (d : DB) (k : string)
    (r r' : RemediationAction) : Prop :=
  (rem_status r = Rem.StateRunning /\ json_text jsonb (rem_result r) "executor" = Some "helios" /\
   exists workflow summary started, json_text jsonb (rem_result r) "helios_workflow_id" = Some workflow /\ workflow <> "" /\
     reported x workflow summary /\ rem_started_at r = Some started /\
     settled_as (hw_state summary) (started <? time - MaxRuntime cfg) (rem_status r')) \/
  (rem_status r = Rem.StateQueued /\ before (rem_queued_at r) (time - SubmitLostAfter cfg) = true /\ jobs_of k d = [] /\ recovery x k d r r').

Lemma settleRunning_ok x cfg result e w result' w' :
  settleRunningHelios x cfg result e w = (Ok result', w') ->
  (forall k, db_remediations (w_db w') !! k = db_remediations (w_db w) !! k \/ exists r r', db_remediations (w_db w) !! k = Some r /\
     db_remediations (w_db w') !! k = Some r' /\ rem_status r' <> Rem.StateQueued /\
     followed x cfg (e_jsonb e) (TruncateMicro (e_now e)) (w_db w) k r r') /\
  db_incidents (w_db w') = db_incidents (w_db w) /\ db_dispatches (w_db w') = db_dispatches (w_db w) /\
  db_observed (w_db w') = db_observed (w_db w).
Proof.
  unfold settleRunningHelios. intros (t & w1 & [-> ->]%db_now_ok & H)%bind_ok. apply bind_ok in H as (l & w1 & [-> ->]%row_locks_ok & H).
  apply bind_ok in H as (j & w1 & [-> ->]%jsonb_ok & H). apply bind_ok in H as (rows & w1 & (-> & D1 & _)%wrap_ok%query_ok & H).
  apply bind_ok in H as (running & w2 & [HS ->]%lift_ok & H). apply scan_all_spec in HS as [Hids Hrun].
  unfold running_rows in *. match type of Hids with _ = (take _ (sort_stable ?less (filter ?P _))).*1 =>
    destruct (selected_rows 50 less P (db_remediations (w_db w))) as [ND Hsel] end.
  apply settle_all_ok in H as (HK & HI & HD & HO); [|by rewrite Hids]. rewrite D1 in *. split; [|done].
  intros k. destruct (HK k) as [?|(rh & summary & row & row' & Hin & <- & HR & Hrow & Hrow' & HS)]; [by left|right]. exists row, row'.
  destruct (Hrun _ Hin) as (r & started & Hr & Hst & Hwf & Hov). apply Hsel in Hr as [Hr Hon]. simpl in *.
  assert (r = row) as -> by congruence. apply andb_true_iff in Hon as [Hon _]. unfold on_helios in Hon.
  apply andb_true_iff in Hon as [Hon Hne]. apply andb_true_iff in Hon as [Hrun' Hex]. reflect_tests. rewrite Hov in HS. split_and!; try done.
  - destruct HS as [[_ ->]|[[_ ->]|(_ & _ & ->)]]; discriminate.
  - left. split_and!; [done|done|]. exists (rh_workflow_id rh), summary, started. rewrite Hwf in *.
    destruct (json_text _ (rem_result row) "helios_workflow_id"); simpl in *; [|done]. by split_and!.
Qed.

Lemma recoverLost_ok s x cfg result e w result' w' :
  recoverLostHeliosSubmissions s x cfg result e w = (Ok result', w') -> keyed (w_db w) ->
  steady (w_db w) (w_db w') /\
  forall k, db_remediations (w_db w') !! k = db_remediations (w_db w) !! k \/ exists r r', db_remediations (w_db w) !! k = Some r /\
    db_remediations (w_db w') !! k = Some r' /\ rem_status r = Rem.StateQueued /\
    followed x cfg (e_jsonb e) (TruncateMicro (e_now e)) (w_db w) k r r'.
Proof.
  unfold recoverLostHeliosSubmissions. intros (t & w1 & [-> ->]%db_now_ok & H)%bind_ok HK. apply bind_ok in H as (l & w1 & [-> ->]%row_locks_ok & H).
  apply bind_ok in H as (ids & w1 & (-> & D1 & _)%wrap_ok%query_ok & H). unfold lost_ids in H.
  match type of H with recover_all _ _ (take _ (sort_stable ?less (filter ?P _))).*1 _ _ _ = _ =>
    destruct (selected_rows 20 less P (db_remediations (w_db w))) as [ND Hsel] end.
  assert (forall k, k ∈ (take 20 (sort_stable (time_before rem_queued_at) (filter (fun kr =>
      is_lost (TruncateMicro (e_now e) - SubmitLostAfter cfg) (w_db w) kr && negb (e_locked e kr.1) = true) (map_to_list (db_remediations (w_db w)))))).*1 ->
    exists r, db_remediations (w_db w) !! k = Some r /\ is_lost (TruncateMicro (e_now e) - SubmitLostAfter cfg) (w_db w) (k, r) = true) as Hlost.
  { intros k (kr & -> & Hin)%list_elem_of_fmap. apply Hsel in Hin as [Hr [HL _]%andb_true_iff]. exists kr.2. split; [done|]. by destruct kr. }
  unfold is_lost in Hlost. simpl in Hlost. rewrite <- D1 in HK. apply recover_all_ok in H as [HS HC]; [|done|exact ND|].
  - rewrite D1 in *. split; [done|]. intros k. destruct (HC k) as [?|(r & r' & Hin & Hr & Hr' & HR)]; [by left|right]. exists r, r'.
    destruct (Hlost _ Hin) as (r1 & Hr1 & HL). assert (r1 = r) as -> by congruence. apply andb_true_iff in HL as [[HL1 HL2]%andb_true_iff HL3].
    reflect_tests. split_and!; try done. by right.
  - rewrite D1. apply Forall_forall. intros k Hin. destruct (Hlost _ Hin) as (r & Hr & HL). exists r. apply andb_true_iff in HL as [[HL _]%andb_true_iff _].
    reflect_tests. by split.
Qed.

Lemma followed_ext x cfg jsonb time d d' k r r' :
  db_incidents d' = db_incidents d -> db_dispatches d' = db_dispatches d -> db_observed d' = db_observed d ->
  followed x cfg jsonb time d' k r r' -> followed x cfg jsonb time d k r r'.
Proof.
  intros HI HD HO [?|(? & ? & HJ & HR)]; [by left|right]. split_and!; try done; [|by eapply recovery_ext].
  unfold jobs_of, jobs in *. by rewrite HD in HJ.
Qed.

(** Both phases; a row is changed by one of them at most. *)
Lemma pass_ok s x cfg result e w result' w' :
  (result <- settleRunningHelios x cfg result ;; recoverLostHeliosSubmissions s x cfg result) e w = (Ok result', w') -> keyed (w_db w) ->
  steady (w_db w) (w_db w') /\
  forall k, db_remediations (w_db w') !! k = db_remediations (w_db w) !! k \/ exists r r', db_remediations (w_db w) !! k = Some r /\
    db_remediations (w_db w') !! k = Some r' /\ followed x cfg (e_jsonb e) (TruncateMicro (e_now e)) (w_db w) k r r'.
Proof.
  intros (result1 & w1 & H1 & H2)%bind_ok HK.
  assert (steady (w_db w) (w_db w1)) as S1 by (refine ((_ : okay steady _) _ _ _ _ H1); handler_walk).
  apply settleRunning_ok in H1 as (C1 & HI & HD & HO). apply recoverLost_ok in H2 as [S2 C2]; [|by eapply steady_keyed].
  split; [by etrans|]. intros k. destruct (C2 k) as [->|(r & r' & Hr & Hr' & Hq & HF)].
  - destruct (C1 k) as [?|(r & r' & ? & ? & _ & ?)]; [by left|right]. by exists r, r'.
  - right. exists r, r'. destruct (C1 k) as [E|(a & b & _ & Hb & Hn & _)]; [|congruence]. rewrite <- E.
    split_and!; [done|done|]. by eapply followed_ext.
Qed.

Lemma ReconcileHelios_ok s cfg e w result w' :
  ReconcileHelios s cfg e w = (Ok result, w') -> keyed (w_db w) ->
  steady (w_db w) (w_db w') /\
  forall x, ex_helios (rs_exec s) = Some x ->
  forall k, db_remediations (w_db w') !! k = db_remediations (w_db w) !! k \/ exists r r', db_remediations (w_db w) !! k = Some r /\
    db_remediations (w_db w') !! k = Some r' /\ followed x (withDefaults cfg) (e_jsonb e) (TruncateMicro (e_now e)) (w_db w) k r r'.
Proof.
  unfold ReconcileHelios. destruct (ex_helios (rs_exec s)) as [x|]; [|by intros [_ ->]%ret_ok _]. cbv zeta.
  intros (w0 & w1 & D0 & _ & H & -> & _)%in_tx_ok HK. rewrite <- D0 in *. apply bind_ok in H as (u & w2 & (_ & D2 & _)%query_ok & H).
  apply bind_ok in H as (l & w3 & L & H). injection L as <- <-. rewrite <- D2 in *.
  destruct (e_lock e (w_tick w2)); [apply pass_ok in H as [HS HC]; [|done]|apply ret_ok in H as [_ ->]]; simpl in *.
  - split; [done|]. by intros ? [= <-].
  - split; [reflexivity|by left].
Qed.

Lemma ReconcileHelios_steady s cfg : guar (given keyed steady) (ReconcileHelios s cfg).
Proof.
  intros e w HK. destruct (ReconcileHelios s cfg e w) as [[result|err] w'] eqn:E; simpl; [by apply ReconcileHelios_ok in E as [? _]|].
  unfold ReconcileHelios in E. destruct (ex_helios _); [|done]. apply in_tx_fail in E. by rewrite E.
Qed.

(** ** Properties *)

(** C14: the reconciler only records what Helios says. When a pass changes a
    remediation, either it was running with a recorded workflow and Helios reported that
    workflow: succeeded, or failed or cancelled, or still going past the maximum runtime,
    which becomes succeeded, failed and timed out; or it was queued past the limit with
    no outbox job, and it is adopted in the state of the workflow Helios lists under its
    labels, cancelled when Helios lists none and its incident is closed, or submitted
    again when none is listed. Its action stays the same, and a pass that fails changes
    nothing. *)
Theorem reconciliation_follows_helios s x cfg e w :
  ex_helios (rs_exec s) = Some x -> keyed (w_db w) ->
  match ReconcileHelios s cfg e w with
  | (Ok _, w') =>
      forall k r, db_remediations (w_db w) !! k = Some r -> exists r', db_remediations (w_db w') !! k = Some r' /\ same_action r r' /\
        (r' = r \/ followed x (withDefaults cfg) (e_jsonb e) (TruncateMicro (e_now e)) (w_db w) k r r')
  | (Fail _, w') => w_db w' = w_db w
  end.
Proof.
  intros HX HK. destruct (ReconcileHelios s cfg e w) as [[result|err] w'] eqn:E.
  - apply ReconcileHelios_ok in E as [HS HC]; [|done]. intros k r Hr.
    destruct (pg_remediations _ _ (st_progress _ _ HS) _ _ Hr) as (r' & Hr' & Ha & _). exists r'. split_and!; [done|done|].
    destruct (HC x HX k) as [HE|(a & b & ? & ? & ?)]; [left; congruence|right]. by assert (a = r /\ b = r') as [-> ->] by (split; congruence).
  - unfold ReconcileHelios in E. rewrite HX in E. by apply in_tx_fail in E.
Qed.

(** ** Witnesses *)

Definition helios_service (state : string) : Service := NewService Policy.NewEngine false (Some (Helios (demo_helios state))) None.
(** One remediation runs as a workflow, the submission of another one was lost an hour ago. *)
Definition on_helios_row : RemediationAction :=
  rem_with demo_remediation Rem.StateRunning "bob" false (Some 0) (Some 0) None
    (Some (list_to_map [("executor", VString "helios"); ("helios_workflow_id", VString "wf-1")])) "".
Definition lost_row : RemediationAction :=
  mkRemediation "rem_2" "inc_1" "restart_service" "payments-api" ∅ Rem.StateQueued "medium" "key_2" "alice" "bob" ∅ false 1 1
    (Some (e_now quiet_env - 60 * minute)) None None None "" 0.
Definition helios_world : world :=
  mkWorld (mkDB {["inc_1" := demo_incident]} {["rem_1" := on_helios_row; "rem_2" := lost_row]} ∅ ∅ ∅ ∅ ∅ [] (Some (0, GenesisHash)) demo_observed) 0 [].
Definition reconciled (state : string) : result HeliosReconcileResult * world :=
  ReconcileHelios (helios_service state) (mkHeliosConfig 0 0 0) quiet_env helios_world.

(** What a pass makes of them, by the state Helios gives its workflows. *)
Definition statuses (out : result HeliosReconcileResult * world) : list string := rem_status <$> (map_to_list (db_remediations (w_db out.2))).*2.
Example reconciled_statuses :
  (statuses <$> [reconciled "succeeded"; reconciled "failed"; reconciled "paused"]) =
  [[Rem.StateSucceeded; Rem.StateSucceeded]; [Rem.StateFailed; Rem.StateQueued]; [Rem.StateTimedOut; Rem.StateRunning]].
Proof. vm_compute. reflexivity. Qed.

Lemma helios_keyed : keyed (w_db helios_world).
Proof.
  split; simpl; [|intros k x; by rewrite lookup_empty|intros k x Hx; simpl in Hx; by rewrite lookup_empty in Hx].
  intros k x [[<- <-]|[_ [<- <-]%lookup_singleton_Some]]%lookup_insert_Some; done.
Qed.

Lemma reconciled_first :
  match reconciled "succeeded" with
  | (Ok _, w') => match db_remediations (w_db w') !! "rem_1" with Some r => rem_status r = Rem.StateSucceeded | None => False end
  | (Fail _, _) => False
  end.
Proof. vm_compute. reflexivity. Qed.

Lemma reconciliation_follows_helios_witness :
  exists r' summary, db_remediations (w_db (reconciled "succeeded").2) !! "rem_1" = Some r' /\ rem_status r' = Rem.StateSucceeded /\
    reported (demo_helios "succeeded") "wf-1" summary /\ hw_state summary = "succeeded".
Proof.
  pose proof (reconciliation_follows_helios (helios_service "succeeded") (demo_helios "succeeded") (mkHeliosConfig 0 0 0) quiet_env helios_world
    eq_refl helios_keyed) as H. pose proof reconciled_first as O. fold (reconciled "succeeded") in H.
  destruct (reconciled "succeeded") as [[result|err] w']; [|contradiction O]. simpl.
  destruct (H "rem_1" on_helios_row eq_refl) as (r' & Hr & _ & HF). rewrite Hr in O. exists r'.
  destruct HF as [->|[(_ & _ & workflow & summary & started & Hwf & _ & HR & _ & HS)|(Hq & _)]]; [discriminate O| |discriminate Hq].
  exists summary. injection Hwf as <-. split; [exact Hr|]. split; [exact O|]. split; [exact HR|].
  rewrite O in HS. destruct HS as [[Hs _]|[[_ Hx]|(_ & _ & Hx)]]; [exact Hs|discriminate Hx|discriminate Hx].
Defined.
