(* ===== verification/Workers.v ===== *)
(** * Workers ([internal/workers])

    A worker takes one job message at a time: it reads the remediation, claims it,
    runs the handler of its action under the job timeout and records the outcome
    with its audit entry, then acknowledges the message, asks for redelivery or
    dead-letters it. Effects on the managed targets go through receipts, so a
    message delivered twice acts once. *)
From Stdlib Require Import Ascii String ZArith Lia.
From stdpp Require Import base gmap strings list relations.
From S2P Require Import Prelude GoStrings GoFloat GoValue Actions Json Marshal Ledger Lifecycle Types Database AuditLog Store Progress.
From S2P Require Import Approvals Dispatch Remediation.
Open Scope Z_scope.

(** ** Control state ([control_state.go]) *)

(** The [ControlStateStore] interface. *)
Record ControlStateStore := mkControlState {
  cs_preview : string -> string -> params -> M params;
  cs_apply_once : string -> string -> string -> string -> params -> M params;
}.

(** [mergeState]: the desired values win. *)
Definition mergeState (current desired : params) : params := desired ∪ current.

Definition stateResult (mode resourceType target : string) (before after : params) (reused : bool) : params :=
  list_to_map [("mode", VString mode); ("backend", VString "durable-local-control-state"); ("resource_type", VString resourceType);
    ("target", VString target); ("before", VMap (map_to_list before)); ("after", VMap (map_to_list after)); ("reused", VBool reused)].

(** No row is the empty state. *)
Definition decodeState (m : M params) : M params :=
  found <- attempt m ;;
  match found with
  | Ok state => ret state
  | Fail err => if bool_decide (err = no_rows) then ret ∅ else throw (wrapf "read remediation target state" err)
  end.

Definition currentState (resourceType target : string) : M params :=
  decodeState (query_row (fun d => db_targets d !! (resourceType, target))).

Definition Preview (resourceType target : string) (desired : params) : M params :=
  current <- currentState resourceType target ;;
  ret (stateResult "dry-run" resourceType target current (mergeState current desired) false).

(** A value that cannot be marshalled is no JSON for the column. *)
Definition json_column (m : params) : bool := bool_decide (is_Some (map_to_json (Some m))).

Definition upsert_target (resourceType target : string) (after : params) : M unit :=
  stmt (fun d => if json_column after
    then Ok (tt, set_execution (db_receipts d) (<[(resourceType, target) := reread_map after]> (db_targets d)) d)
    else Fail (mkError KDatabase "invalid input syntax for type json")).

Definition insert_receipt (key actionType target : string) (result : params) : M unit :=
  stmt (fun d =>
    if bool_decide (is_Some (db_receipts d !! key)) || negb (json_column result)
    then Fail (mkError KDatabase "remediation_execution_receipts constraint violated")
    else Ok (tt, set_execution (<[key := mkReceipt actionType target (reread_map result)]> (db_receipts d)) (db_targets d) d)).

(** Under the advisory locks of the key and of the target: the receipt of an
    earlier execution (and that it is reused), or the change and its receipt together. *)
Definition apply_once_body (idempotencyKey actionType resourceType target : string) (desired : params) : M (params * bool) :=
  wrap "lock remediation receipt" (query (fun _ => tt)) ;;;
  wrap "lock remediation target" (query (fun _ => tt)) ;;;
  receipt <- attempt (query_row (fun d => db_receipts d !! idempotencyKey)) ;;
  match receipt with
  | Ok rc => ret (<["reused" := VBool true]> (rcp_result rc), true)
  | Fail err =>
      if negb (bool_decide (err = no_rows)) then throw (wrapf "read remediation receipt" err)
      else
        current <- currentState resourceType target ;;
        let after := mergeState current desired in
        wrap "apply remediation target state" (upsert_target resourceType target after) ;;;
        let result := <["idempotency_key" := VString idempotencyKey]> (stateResult "execute" resourceType target current after false) in
        wrap "write remediation receipt" (insert_receipt idempotencyKey actionType target result) ;;;
        ret (result, false)
  end.

Definition ApplyOnce (idempotencyKey actionType resourceType target : string) (desired : params) : M params :=
  outcome <- tx_choice (B := Empty_set) (wrapf "begin control-state transaction")
    (fun (a : params * bool) err => wrapf (if snd a then "commit reused remediation receipt" else "commit control-state remediation") err)
    (out <- apply_once_body idempotencyKey actionType resourceType target desired ;; ret (inl out)) ;;
  ret (match outcome with inl out => fst out | inr x => match x with end end).

Definition PostgresControlStateStore : ControlStateStore := mkControlState Preview ApplyOnce.

(** ** Handlers ([typed_handlers.go], [runner.go]) *)

(** The [Handler] interface. *)
Record Handler := mkHandler {
  h_name : string;
  h_validate : RemediationAction -> result unit;
  h_execute : RemediationAction -> M params;
  h_dry_run : RemediationAction -> M params;
}.

Definition wrong_action (name action : string) : error := errorf ("handler " +:+ name +:+ " cannot execute action " +:+ action).

Definition validateTypedRequest (state : option ControlStateStore) (action : string) (req : RemediationAction) : result unit :=
  match state with
  | None => Fail (errorf "control-state backend is unavailable")
  | Some _ =>
      if rem_idempotency_key req =?s "" then Fail (errorf "idempotency key is required")
      else if negb (rem_action_type req =?s action) then Fail (wrong_action action (rem_action_type req))
      else Actions.Validate action (rem_target req) (rem_parameters req)
  end.

(** The four typed handlers share their shape: validate, then preview or apply the
    desired state of a resource. *)
Definition typed_handler (state : option ControlStateStore) (name resourceType : string) (desired : RemediationAction -> params) : Handler :=
  let run (use : ControlStateStore -> RemediationAction -> M params) (req : RemediationAction) : M params :=
    lift (validateTypedRequest state name req) ;;;
    match state with Some cs => use cs req | None => throw (errorf "control-state backend is unavailable") end in
  mkHandler name (validateTypedRequest state name)
    (run (fun cs req => cs_apply_once cs (rem_idempotency_key req) name resourceType (rem_target req) (desired req)))
    (run (fun cs req => cs_preview cs resourceType (rem_target req) (desired req))).

Definition cut_target (target : string) : string * string := default (target, "") (Cut target "/").
Definition int_param (req : RemediationAction) (key : string) : value := VInt (default 0 (Integer (lookup_param (rem_parameters req) key))).

Definition PodRestartHandler (state : option ControlStateStore) : Handler :=
  typed_handler state RestartPod "pod" (fun req =>
    list_to_map [("namespace", VString (cut_target (rem_target req)).1); ("pod", VString (cut_target (rem_target req)).2);
                 ("restart_token", VString (rem_idempotency_key req))]).
Definition ConnectionPoolResizeHandler (state : option ControlStateStore) : Handler :=
  typed_handler state ResizeConnectionPool "connection_pool" (fun req => {["max_connections" := int_param req "size"]}).
Definition FeatureFlagToggleHandler (state : option ControlStateStore) : Handler :=
  typed_handler state ToggleFeatureFlag "feature_flag" (fun req => {["enabled" := lookup_param (rem_parameters req) "enabled"]}).
Definition CachePurgeHandler (state : option ControlStateStore) : Handler :=
  typed_handler state PurgeCache "cache_prefix" (fun req =>
    list_to_map [("max_keys", int_param req "max_keys"); ("purge_token", VString (rem_idempotency_key req))]).

Definition staticHandler (name message : string) : Handler :=
  let result mode (req : RemediationAction) : M params :=
    ret (list_to_map [("mode", VString mode); ("message", VString message); ("target", VString (rem_target req))]) in
  mkHandler name
    (fun req => if negb (rem_action_type req =?s name) then Fail (wrong_action name (rem_action_type req))
                else Actions.Validate (rem_action_type req) (rem_target req) (rem_parameters req))
    (result "execute") (result "dry-run").

Definition DefaultHandlers (state : option ControlStateStore) : list Handler :=
  [staticHandler "restart_service" "Typed handler validated restart_service; local demo execution remains bounded and auditable";
   staticHandler "rollback_config" "Typed handler validated rollback_config against known-good demo configuration";
   staticHandler "reload_nginx" "Typed handler validated nginx reload for the demo environment";
   staticHandler "clear_redis_keyspace" "Typed handler validated deletion scope for demo:pressure:* redis keys";
   staticHandler "drain_postgres_connections" "Typed handler validated demo-only postgres connection drain";
   staticHandler "revert_feature_flag" "Typed handler validated optional notification feature flag revert";
   staticHandler "disable_bad_route" "Typed handler validated disabling only the affected bad demo route";
   PodRestartHandler state; ConnectionPoolResizeHandler state; FeatureFlagToggleHandler state; CachePurgeHandler state].

(** ** The runner ([runner.go]) *)

Record RunnerConfig := mkRunnerConfig { Concurrency : Z; JobTimeout : Z; MaxDeliver : Z; FetchWait : Z }.

Definition DefaultRunnerConfig : RunnerConfig := mkRunnerConfig 4 (2 * minute) 5 (2 * second).

Definition Configure (cfg : RunnerConfig) : RunnerConfig :=
  let def := DefaultRunnerConfig in
  mkRunnerConfig (or_default (Concurrency cfg) (Concurrency def)) (or_default (JobTimeout cfg) (JobTimeout def))
    (or_default (MaxDeliver cfg) (MaxDeliver def)) (or_default (FetchWait cfg) (FetchWait def)).

(** The fields of the consumer the code computes. *)
Definition consumer_ack_wait (cfg : RunnerConfig) : Z := JobTimeout cfg + 30 * second.

Record Runner := mkRunner { run_handlers : gmap string Handler; run_cfg : RunnerConfig }.

(** [NewRunner]: the last handler of a name wins. *)
Definition NewRunner (handlers : list Handler) : Runner :=
  mkRunner (foldl (fun m h => <[h_name h := h]> m) ∅ handlers) DefaultRunnerConfig.

(** A message as [json.Unmarshal] decodes it, and how often it was delivered. *)
Record Msg := mkMsg { msg_event : option Event; msg_delivered : Z }.

(** What the worker tells JetStream, and the error it reports. *)
Inductive ack := Ack | Nak (delay : Z) | Term (reason : string).
Record handled := mkHandled { hd_ack : ack; hd_error : option error }.

(** [uint64(n)] of an [int]. *)
Definition to_uint64 (z : Z) : Z := z mod 2 ^ 64.

Definition RetryDelay (delivery : Z) : Z :=
  let ceiling := 60 * second in
  let delivery := if delivery <? 1 then 1 else delivery in
  if 7 <? delivery then ceiling else Z.min (Z.shiftl 1 (delivery - 1) * second) ceiling.

(** [Duration.String] of the durations the texts mention. *)
Definition trim_zeros (s : string) : string :=
  (fix go (fuel : nat) s := match fuel with
     | O => s
     | S fuel => if HasSuffix s "0" then go fuel (TrimSuffix s "0") else s
     end) (String.length s) s.
Definition fraction (v prec : Z) : string :=
  if v =? 0 then "" else "." +:+ trim_zeros (pad_zeros (Z.to_nat prec) (itoa v)).
Definition duration_string (d : Z) : string :=
  let sign := if d <? 0 then "-" else "" in
  let u := Z.abs d in
  if u =? 0 then "0s"
  else if u <? 1000 then sign +:+ itoa u +:+ "ns"
  else if u <? 10 ^ 6 then sign +:+ itoa (u / 1000) +:+ fraction (u mod 1000) 3 +:+ String (ascii_of_nat 194) (String (ascii_of_nat 181) "s")
  else if u <? second then sign +:+ itoa (u / 10 ^ 6) +:+ fraction (u mod 10 ^ 6) 6 +:+ "ms"
  else
    let s := u / second in
    let tail := itoa (s mod 60) +:+ fraction (u mod second) 9 +:+ "s" in
    let m := s / 60 in
    if m =? 0 then sign +:+ tail
    else if m / 60 =? 0 then sign +:+ itoa m +:+ "m" +:+ tail
    else sign +:+ itoa (m / 60) +:+ "h" +:+ itoa (m mod 60) +:+ "m" +:+ tail.

Example durations :
  duration_string <$> [2 * minute; second; 64 * second; 1500 * 10 ^ 6; 5 * 10 ^ 8; 90 * minute; 0]
  = ["2m0s"; "1s"; "1m4s"; "1.5s"; "500ms"; "1h30m0s"; "0s"].
Proof. vm_compute. reflexivity. Qed.

Definition deadLetter (reason : string) (err : error) : M handled := ret (mkHandled (Term reason) (Some err)).

Definition retryLater (r : Runner) (msg : Msg) (cause : error) : M handled :=
  let n := msg_delivered msg in
  if to_uint64 (MaxDeliver (run_cfg r)) <=? n
  then deadLetter "retries_exhausted" (mkError (err_kind cause) ("dead-lettered after " +:+ itoa n +:+ " deliveries: " +:+ err_text cause))
  else ret (mkHandled (Nak (RetryDelay n)) (Some cause)).

Definition acked (err : option error) : M handled := ret (mkHandled Ack err).

Definition auditSkip (remediationID status : string) : M unit :=
  if status =?s Rem.StateSucceeded then ret tt
  else Record_ (audit_entry "" "system" "remediation.execution_skipped" "remediation" remediationID None
    (Some {["status" := VString status]}) (Some {["reason" := VString "remediation is not queued or running"]})).

Definition system_entry (action remediationID : string) (after : params) (metadata : option params) : Entry :=
  audit_entry "" "system" action "remediation" remediationID None (Some after) metadata.

(** The outcome and its audit entry, in one transaction. *)
Definition finish (remediationID status : string) (result : option params) (errText : string) (entry : Entry) : M bool :=
  InTx (
    ok <- CompleteRemediation remediationID status result errText ;;
    if (ok : bool) then WriteTx entry ;;; ret true else ret false).

(** The handler within the job timeout ([Some]), or timed out ([None]): then its
    effect may have happened or not. *)
Definition runHandler (handler : Handler) (req : RemediationAction) : M (option (result params)) :=
  late <- deadline ;;
  let run := if rem_dry_run req then h_dry_run handler req else h_execute handler req in
  match late with
  | None => out <- attempt run ;; ret (Some out)
  | Some true => ignore run ;;; ret None
  | Some false => ret None
  end.

(** A failure that ends the remediation; the message is retried when recording it fails. *)
Definition conclude (r : Runner) (msg : Msg) (remediationID status : string) (result : option params) (errText : string) (entry : Entry)
    (err : option error) : M handled :=
  done_ <- attempt (finish remediationID status result errText entry) ;;
  match done_ with
  | Fail finishErr => retryLater r msg finishErr
  | Ok _ => acked err
  end.

Definition failure_state (status error : string) : params := list_to_map [("status", VString status); ("error", VString error)].

(** After the claim: run the handler and record what it reported. *)
Definition execute_claimed (r : Runner) (msg : Msg) (handler : Handler) (rem : RemediationAction) : M handled :=
  out <- runHandler handler rem ;;
  match out with
  | None =>
      let reason := "handler exceeded the " +:+ duration_string (JobTimeout (run_cfg r)) +:+ " job timeout; outcome unknown, not retried" in
      conclude r msg (rem_id rem) Rem.StateTimedOut None reason
        (system_entry "remediation.timed_out" (rem_id rem) (failure_state Rem.StateTimedOut reason) None) (Some (errorf reason))
  | Some (Fail err) =>
      let deliveryAttempt := msg_delivered msg in
      if (deliveryAttempt <? to_uint64 (rem_max_attempts rem)) && (deliveryAttempt <? to_uint64 (MaxDeliver (run_cfg r))) then
        let backoff := RetryDelay deliveryAttempt in
        Record_ (system_entry "remediation.retry_scheduled" (rem_id rem)
          (list_to_map [("status", VString Rem.StateRunning); ("error", VString (err_text err));
             ("delivery_attempt", VInt deliveryAttempt); ("retry_after", VString (duration_string backoff))]) None) ;;;
        ret (mkHandled (Nak backoff) (Some err))
      else
        conclude r msg (rem_id rem) Rem.StateFailed None (err_text err)
          (system_entry "remediation.failed" (rem_id rem)
            (<["delivery_attempt" := VInt deliveryAttempt]> (failure_state Rem.StateFailed (err_text err))) None) (Some err)
  | Some (Ok result) =>
      completed <- attempt (finish (rem_id rem) Rem.StateSucceeded (Some result) ""
        (system_entry "remediation.completed" (rem_id rem)
          (list_to_map [("status", VString Rem.StateSucceeded); ("result", VMap (map_to_list result))]) None)) ;;
      match completed with
      | Fail err => retryLater r msg err
      | Ok false =>
          Record_ (system_entry "remediation.completion_conflict" (rem_id rem) {["result" := VMap (map_to_list result)]}
            (Some {["reason" := VString "remediation left running before the result was recorded"]})) ;;;
          acked None
      | Ok true => acked None
      end
  end.

(** [event.Payload["remediation_id"].(string)], the zero value when it is not one. *)
Definition event_job (event : Event) : string :=
  match evt_payload event !! "remediation_id" with Some (VString s) => s | _ => "" end.

Definition handleMessage (r : Runner) (msg : Msg) : M handled :=
  match msg_event msg with
  | None => deadLetter "undecodable_payload" (errorf "invalid JSON")
  | Some event =>
      let remediationID := event_job event in
      if remediationID =?s "" then deadLetter "missing_remediation_id" (errorf "job has no remediation_id")
      else
        found <- attempt (GetRemediation remediationID) ;;
        match found with
        | Fail err =>
            if bool_decide (err_kind err = KNoRows) then deadLetter "remediation_not_found" err else retryLater r msg err
        | Ok rem =>
            if negb (rem_status rem =?s Rem.StateQueued) && negb (rem_status rem =?s Rem.StateRunning) then
              auditSkip (rem_id rem) (rem_status rem) ;;; acked None
            else
              match run_handlers r !! rem_action_type rem with
              | None =>
                  let reason := "no handler registered for " +:+ rem_action_type rem in
                  conclude r msg (rem_id rem) Rem.StateFailed None reason
                    (system_entry "remediation.failed" (rem_id rem) (failure_state Rem.StateFailed reason) None) (Some (errorf reason))
              | Some handler =>
                  match h_validate handler rem with
                  | Fail err =>
                      conclude r msg (rem_id rem) Rem.StateFailed None (err_text err)
                        (system_entry "remediation.validation_failed" (rem_id rem) (failure_state Rem.StateFailed (err_text err)) None) (Some err)
                  | Ok _ =>
                      claimed <- attempt (ClaimRemediation (rem_id rem)) ;;
                      match claimed with
                      | Fail err => retryLater r msg err
                      | Ok false =>
                          latest <- attempt (GetRemediation (rem_id rem)) ;;
                          auditSkip (rem_id rem) (match latest with Ok x => rem_status x | Fail _ => "unknown" end) ;;;
                          acked None
                      | Ok true => execute_claimed r msg handler rem
                      end
                  end
              end
        end
  end.

Definition heartbeat (r : Runner) (workerID : string) : M unit :=
  time <- now ;;
  ignore (UpsertWorkerHeartbeat workerID time (sort_strings (map_to_list (run_handlers r)).*1)).

(** ** Guarantees *)

(** What a handler may do to the tables, and that trying out does nothing. *)
Class HandlerContract (h : Handler) : Prop := {
  hc_execute : forall req, guar steady (h_execute h req);
  hc_dry_run : forall req, guar eq (h_dry_run h req);
}.

(** What the typed handlers rely on. *)
Class StateContract (cs : ControlStateStore) : Prop := {
  sc_preview : forall rt t desired, guar eq (cs_preview cs rt t desired);
  sc_apply_once : forall key a rt t desired, guar steady (cs_apply_once cs key a rt t desired);
}.

Lemma steady_execution d receipts targets : db_receipts d ⊆ receipts -> steady d (set_execution receipts targets d).
Proof. intros H. apply steady_other; [|done..]. split; first [exact H|other_tables]. Qed.

Section control_reads.
Context (R : DB -> DB -> Prop) `{!Reflexive R, !Transitive R}.
Lemma currentState_guar rt t : guar R (currentState rt t).
Proof. unfold currentState, decodeState. handler_walk. Qed.
End control_reads.
#[export] Hint Resolve currentState_guar : guar.

Lemma upsert_target_steady rt t after : guar steady (upsert_target rt t after).
Proof.
  apply guar_stmt; [typeclasses eauto|]. intros d u d'. destruct (json_column after); [|discriminate]. intros [= _ <-].
  by apply steady_execution.
Qed.

Lemma insert_receipt_steady key a t result : guar steady (insert_receipt key a t result).
Proof.
  apply guar_stmt; [typeclasses eauto|]. intros d u d'. destruct (bool_decide (is_Some _)) eqn:E; [discriminate|]. simpl.
  destruct (negb _); [discriminate|]. intros [= _ <-]. reflect_tests. apply steady_execution, insert_subseteq. by apply eq_None_not_Some.
Qed.
#[export] Hint Resolve upsert_target_steady insert_receipt_steady : guar.

Lemma ApplyOnce_steady key a rt t desired : guar steady (ApplyOnce key a rt t desired).
Proof. unfold ApplyOnce, apply_once_body. handler_walk. Qed.
#[export] Hint Resolve ApplyOnce_steady : guar.

#[export] Instance PostgresControlStateStore_contract : StateContract PostgresControlStateStore.
Proof. split; intros; simpl; [unfold Preview|]; handler_walk. Qed.

#[export] Instance typed_handler_contract cs name rt desired : StateContract cs -> HandlerContract (typed_handler (Some cs) name rt desired).
Proof.
  intros [HP HA]. split; intros req; unfold typed_handler, h_execute, h_dry_run; handler_walk; auto.
Qed.

#[export] Instance staticHandler_contract name message : HandlerContract (staticHandler name message).
Proof. split; intros req; simpl; handler_walk. Qed.

Lemma DefaultHandlers_contract cs : StateContract cs -> Forall HandlerContract (DefaultHandlers (Some cs)).
Proof. intros HC. unfold DefaultHandlers. repeat (apply Forall_cons_2; [apply _|]). apply Forall_nil_2. Qed.

Lemma NewRunner_contract handlers name h :
  Forall HandlerContract handlers -> run_handlers (NewRunner handlers) !! name = Some h -> HandlerContract h.
Proof.
  intros HF. unfold NewRunner. simpl. assert (map_Forall (fun _ h => HandlerContract h) (∅ : gmap string Handler)) as H0 by apply map_Forall_empty.
  revert H0. generalize (∅ : gmap string Handler). induction HF as [|x l Hx _ IH]; intros m Hm; simpl; [apply Hm|].
  apply IH. by apply map_Forall_insert_2.
Qed.

Section guarantees.
Context (r : Runner) (Hhandlers : forall name h, run_handlers r !! name = Some h -> HandlerContract h).

Lemma finish_steady id status result err entry :
  bool_decide (status ∈ outcomes) = true -> guar steady (finish id status result err entry).
Proof. intros Hs. unfold finish. handler_walk. Qed.
Hint Resolve finish_steady : guar.

Lemma conclude_steady msg id status result err entry error :
  bool_decide (status ∈ outcomes) = true -> guar steady (conclude r msg id status result err entry error).
Proof. intros Hs. unfold conclude, retryLater, deadLetter, acked. handler_walk. Qed.
Hint Resolve conclude_steady : guar.

Lemma runHandler_steady h req : HandlerContract h -> guar steady (runHandler h req).
Proof.
  intros [HE HD]. unfold runHandler. handler_walk; first [apply HE|eapply guar_mono; [|apply HD]; by intros d d' ->].
Qed.
Hint Resolve runHandler_steady : guar.

Lemma auditSkip_steady id status : guar steady (auditSkip id status).
Proof. unfold auditSkip. handler_walk. Qed.
Hint Resolve auditSkip_steady : guar.

Lemma execute_claimed_steady msg h rem : HandlerContract h -> guar steady (execute_claimed r msg h rem).
Proof. intros HC. unfold execute_claimed, retryLater, deadLetter, acked. handler_walk. Qed.
Hint Resolve execute_claimed_steady : guar.

Lemma handleMessage_steady msg : guar steady (handleMessage r msg).
Proof.
  unfold handleMessage, retryLater, deadLetter, acked.
  destruct (msg_event msg); [|handler_walk]. cbv zeta. destruct (_ =?s _); [handler_walk|].
  apply guar_bind; [typeclasses eauto|handler_walk|intros [rem|err]; [|handler_walk]].
  destruct (_ && _); [handler_walk|]. destruct (run_handlers r !! rem_action_type rem) as [h|] eqn:E; [|handler_walk].
  pose proof (Hhandlers _ _ E) as HC. handler_walk.
Qed.

Lemma heartbeat_steady worker : guar steady (heartbeat r worker).
Proof. unfold heartbeat. handler_walk. Qed.
End guarantees.

(** ** Runs of ApplyOnce *)

Definition execute_result (key rt t : string) (current desired : params) : params :=
  <["idempotency_key" := VString key]> (stateResult "execute" rt t current (mergeState current desired) false).

Lemma currentState_ok rt t e w current w' :
  currentState rt t e w = (Ok current, w') -> current = default ∅ (db_targets (w_db w) !! (rt, t)) /\ w_db w' = w_db w.
Proof.
  unfold currentState, decodeState. intros H. apply bind_ok in H as (found & w1 & H1%attempt_ok & H). unfold query_row, stmt in H1.
  destruct (e_fault e (w_tick w)); [injection H1 as <- <-; simpl in H; discriminate H|].
  destruct (db_targets (w_db w) !! (rt, t)) as [s|]; injection H1 as <- <-; simpl in H.
  - by apply ret_ok in H as [-> ->].
  - by apply ret_ok in H as [-> ->].
Qed.

(** Nothing but the receipt of an earlier run is read, or the change and its receipt
    are both written. *)
Lemma apply_once_ok key a rt t desired e w res b w' :
  apply_once_body key a rt t desired e w = (Ok (res, b), w') ->
  (exists rc, db_receipts (w_db w) !! key = Some rc /\ res = <["reused" := VBool true]> (rcp_result rc) /\ w_db w' = w_db w) \/
  (let current := default ∅ (db_targets (w_db w) !! (rt, t)) in
   db_receipts (w_db w) !! key = None /\ res = execute_result key rt t current desired /\
   w_db w' = set_execution (<[key := mkReceipt a t (reread_map res)]> (db_receipts (w_db w)))
     (<[(rt, t) := reread_map (mergeState current desired)]> (db_targets (w_db w))) (w_db w)).
Proof.
  unfold apply_once_body. intros H. apply bind_ok in H as (? & w1 & H1%wrap_ok & H). apply query_ok in H1 as (_ & D1 & _).
  apply bind_ok in H as (? & w2 & H2%wrap_ok & H). apply query_ok in H2 as (_ & D2 & _).
  assert (w_db w2 = w_db w) as D by congruence. clear D1 D2 w1. rewrite <- D. clear D w.
  apply bind_ok in H as (receipt & w3 & H3%attempt_ok & H). destruct receipt as [rc|err].
  - left. apply query_row_ok in H3 as (H3 & D3 & _). apply ret_ok in H as [[= -> ->] ->]. by exists rc.
  - right. destruct (bool_decide (err = no_rows)) eqn:N; [|discriminate H]. reflect_tests. subst err. simpl in H.
    assert (db_receipts (w_db w2) !! key = None /\ w_db w3 = w_db w2) as [HN D3].
    { unfold query_row, stmt in H3. destruct (e_fault e (w_tick w2)); [discriminate H3|].
      destruct (db_receipts (w_db w2) !! key); [discriminate H3|]. by injection H3 as <-. }
    apply bind_ok in H as (current & w4 & H4 & H). apply currentState_ok in H4 as [-> D4]. cbv zeta in H.
    apply bind_ok in H as (? & w5 & H5%wrap_ok & H). apply stmt_ok in H5 as [H5 _].
    destruct (json_column _); [|discriminate H5]. injection H5 as _ H5.
    apply bind_ok in H as (? & w6 & H6%wrap_ok & H). apply stmt_ok in H6 as [H6 _]. destruct (_ || _); [discriminate H6|].
    injection H6 as _ H6. apply ret_ok in H as [[= -> ->] ->]. split_and!; [done|by rewrite D3|]. rewrite <- H6, <- H5, D4, D3. done.
Qed.

Lemma ApplyOnce_ok key a rt t desired e w res w' :
  ApplyOnce key a rt t desired e w = (Ok res, w') ->
  exists w0 w1 b, w_db w0 = w_db w /\ apply_once_body key a rt t desired e w0 = (Ok (res, b), w1) /\ w_db w' = w_db w1.
Proof.
  unfold ApplyOnce. intros H. apply bind_ok in H as ([[out b]|[]] & w1 & H1 & H). apply ret_ok in H as [-> ->].
  apply tx_choice_ok in H1 as (w0 & w2 & D0 & _ & H1 & D). apply bind_ok in H1 as (x & w3 & H3 & H1). apply ret_ok in H1 as [[= <-] ->].
  by exists w0, w3, b.
Qed.

Lemma ApplyOnce_fail key a rt t desired e w err w' : ApplyOnce key a rt t desired e w = (Fail err, w') -> w_db w' = w_db w.
Proof.
  unfold ApplyOnce, bind at 1. destruct (tx_choice _ _ _ e w) as [[o|err'] w1] eqn:E; [by destruct o|]. intros [= _ <-].
  by eapply tx_choice_fail.
Qed.

(** ** Runs of handleMessage *)

Definition job_id (msg : Msg) : string :=
  match msg_event msg with Some event => event_job event | None => "" end.

Definition finished (id : string) (d : DB) : Prop :=
  forall rem, db_remediations d !! id = Some rem -> Dispatchable (rem_status rem) = false.

Lemma Dispatchable_status rem : has_status [Rem.StateQueued; Rem.StateRunning] rem = Dispatchable (rem_status rem).
Proof.
  unfold has_status, Dispatchable. destruct (_ =?s Rem.StateQueued) eqn:A, (_ =?s Rem.StateRunning) eqn:B; reflect_tests; simpl;
    first [apply bool_decide_eq_true|apply bool_decide_eq_false]; rewrite !elem_of_cons, elem_of_nil; tauto.
Qed.

Lemma outcome_finished status : bool_decide (status ∈ outcomes) = true -> Dispatchable status = false.
Proof.
  intros H. reflect_tests. assert (forallb (fun s => negb (Dispatchable s)) outcomes = true) as C by (vm_compute; reflexivity).
  apply (forallb_elem _ _ _ C) in H. by apply negb_true_iff in H.
Qed.

Lemma finish_ok id status result err entry e w b w' :
  bool_decide (status ∈ outcomes) = true -> finish id status result err entry e w = (Ok b, w') -> finished id (w_db w').
Proof.
  intros Hs H. apply in_tx_ok in H as (w0 & w1 & D0 & _ & H & D & _). rewrite D. apply bind_ok in H as (ok & w2 & H2 & H).
  unfold CompleteRemediation in H2. apply bind_ok in H2 as (t & w3 & H3 & H2%wrap_ok). apply db_now_ok in H3 as [-> ->].
  apply update_if_ok in H2 as [_ H2]. destruct ok.
  - apply bind_ok in H as (u & w4 & [(row & c & D4 & _) _]%WriteTx_logged & H). apply ret_ok in H as [_ ->].
    destruct H2 as (x & _ & _ & D2). intros rem. rewrite D4, D2. simpl. rewrite lookup_insert_eq. intros [= <-]. by apply outcome_finished.
  - apply ret_ok in H as [_ ->]. destruct H2 as [D2 HN]. intros rem. rewrite D2. intros Hr. rewrite <- Dispatchable_status. by apply HN.
Qed.

Lemma appended_finished id d d' : appended d d' -> finished id d -> finished id d'.
Proof. intros HA HF rem. rewrite (app_remediations _ _ HA). apply HF. Qed.

Lemma auditSkip_appended id status : guar appended (auditSkip id status).
Proof. unfold auditSkip. guar_walk. apply Record_appended. Qed.

Lemma retryLater_not_ack r msg cause e w h w' : retryLater r msg cause e w = (Ok h, w') -> hd_ack h <> Ack.
Proof. unfold retryLater, deadLetter. destruct (_ <=? _); by intros [-> _]%ret_ok. Qed.

Lemma acked_ok err e w h w' : acked err e w = (Ok h, w') -> h = mkHandled Ack err /\ w' = w.
Proof. by intros [= <- <-]. Qed.
Lemma deadLetter_ok reason err e w h w' : deadLetter reason err e w = (Ok h, w') -> h = mkHandled (Term reason) (Some err) /\ w' = w.
Proof. by intros [= <- <-]. Qed.

Lemma conclude_ack r msg id status result err entry error e w h w' :
  bool_decide (status ∈ outcomes) = true -> conclude r msg id status result err entry error e w = (Ok h, w') -> hd_ack h = Ack ->
  finished id (w_db w').
Proof.
  intros Hs H Ha. apply bind_ok in H as ([b|ferr] & w1 & H1%attempt_ok & H).
  - apply acked_ok in H as [_ ->]. by eapply finish_ok.
  - by apply retryLater_not_ack in H.
Qed.

Lemma execute_claimed_ack r msg handler rem e w h w' :
  execute_claimed r msg handler rem e w = (Ok h, w') -> hd_ack h = Ack -> finished (rem_id rem) (w_db w').
Proof.
  unfold execute_claimed. intros H Ha. apply bind_ok in H as (out & w1 & _ & H). destruct out as [[result|err]|]; cbv zeta in H.
  - apply bind_ok in H as (completed & w2 & H2%attempt_ok & H). destruct completed as [b|err]; [|by apply retryLater_not_ack in H].
    apply finish_ok in H2; [|vm_compute; reflexivity]. destruct b; [by apply acked_ok in H as [_ ->]|].
    apply bind_ok in H as (u & w3 & H3 & H). apply acked_ok in H as [_ ->].
    match type of H3 with Record_ ?en e w2 = _ => pose proof (Record_appended en e w2) as A end. rewrite H3 in A. by eapply appended_finished.
  - destruct (_ && _); [|eapply conclude_ack; [|exact H|exact Ha]; vm_compute; reflexivity].
    apply bind_ok in H as (u & w3 & _ & H). apply ret_ok in H as [-> _]. discriminate Ha.
  - eapply conclude_ack; [|exact H|exact Ha]; vm_compute; reflexivity.
Qed.

Lemma skip_ack id status e w h w' :
  (auditSkip id status ;;; acked None) e w = (Ok h, w') -> appended (w_db w) (w_db w').
Proof.
  intros H. apply bind_ok in H as (u & w1 & H1 & H). apply acked_ok in H as [_ ->].
  pose proof (auditSkip_appended id status e w) as A. by rewrite H1 in A.
Qed.

Lemma handleMessage_acked r msg e w h w' :
  keyed (w_db w) -> handleMessage r msg e w = (Ok h, w') -> hd_ack h = Ack -> finished (job_id msg) (w_db w').
Proof.
  intros HK H Ha. unfold handleMessage in H. unfold job_id. destruct (msg_event msg) as [event|]; [|by apply deadLetter_ok in H as [-> _]].
  cbv zeta in H. generalize dependent (event_job event). intros id H.
  destruct (id =?s ""); [by apply deadLetter_ok in H as [-> _]|]. apply bind_ok in H as (found & w1 & H1%attempt_ok & H).
  destruct found as [rem|err]; [|destruct (bool_decide _); [by apply deadLetter_ok in H as [-> _]|by apply retryLater_not_ack in H]].
  apply wrap_ok, query_row_ok in H1 as (Hr & D1 & _). pose proof (keyed_remediations _ HK _ _ Hr) as Hid.
  destruct (negb _ && negb _) eqn:Es.
  - apply skip_ack in H. eapply appended_finished; [exact H|]. rewrite D1. intros x Hx. assert (x = rem) as -> by congruence.
    apply andb_true_iff in Es as [E1 E2]. apply negb_true_iff in E1, E2. unfold Dispatchable. by rewrite E1, E2.
  - destruct (run_handlers r !! rem_action_type rem) as [handler|];
      [|rewrite <- Hid; eapply conclude_ack; [|exact H|exact Ha]; vm_compute; reflexivity].
    destruct (h_validate handler rem) as [[]|verr];
      [|rewrite <- Hid; eapply conclude_ack; [|exact H|exact Ha]; vm_compute; reflexivity].
    apply bind_ok in H as (claimed & w2 & H2%attempt_ok & H). destruct claimed as [[|]|cerr]; [| |by apply retryLater_not_ack in H].
    + rewrite <- Hid. by eapply execute_claimed_ack.
    + apply bind_ok in H as (latest & w3 & H3%attempt_ok & H). apply skip_ack in H. eapply appended_finished; [exact H|].
      apply unchanged in H3 as D3; [|apply GetRemediation_guar; typeclasses eauto]. rewrite D3.
      unfold ClaimRemediation in H2. apply bind_ok in H2 as (t & w4 & H4 & H2%wrap_ok). apply db_now_ok in H4 as [-> ->].
      apply update_if_ok in H2 as [_ [D2 HN]]. intros x. rewrite D2. rewrite <- Hid. intros Hx. rewrite <- Dispatchable_status. by apply HN.
Qed.

(** ** Calls that always return *)

(** Every run succeeds, with a result in [P]. *)
Definition yields {A} (P : A -> Prop) (m : M A) : Prop := forall e w, exists a w', m e w = (Ok a, w') /\ P a.

Lemma yields_ret {A} (P : A -> Prop) a : P a -> yields P (ret a).
Proof. intros H e w. by exists a, w. Qed.
Lemma yields_bind {A B} (P : B -> Prop) (m : M A) (k : A -> M B) :
  yields (fun _ => True) m -> (forall a, yields P (k a)) -> yields P (bind m k).
Proof. intros Hm Hk e w. unfold bind. destruct (Hm e w) as (a & w1 & -> & _). apply Hk. Qed.
Lemma yields_attempt {A} (m : M A) : yields (fun _ => True) (attempt m).
Proof. intros e w. unfold attempt. destruct (m e w) as [x w1]. by exists x, w1. Qed.
Lemma yields_ignore {A} (m : M A) : yields (fun _ => True) (ignore m).
Proof. intros e w. unfold ignore. destruct (m e w) as [x w1]. by exists tt, w1. Qed.
Lemma yields_deadline : yields (fun _ => True) deadline.
Proof. intros e w. by eexists _, _. Qed.

Ltac yields_step :=
  match goal with
  | |- yields _ (match ?x with _ => _ end) => destruct x eqn:?
  | |- yields _ (if ?b then _ else _) => destruct b eqn:?
  | |- yields _ (let _ := _ in _) => cbv zeta
  | |- yields _ (bind _ _) => apply yields_bind
  | |- yields _ (attempt _) => apply yields_attempt
  | |- yields _ (ignore _) => apply yields_ignore
  | |- yields _ (Record_ _) => apply yields_ignore
  | |- yields _ deadline => apply yields_deadline
  | |- yields _ (ret _) => apply yields_ret; simpl; try done
  | |- forall _, _ => intros ?
  end.

Lemma RetryDelay_range n : second <= RetryDelay n <= 60 * second.
Proof.
  unfold RetryDelay. destruct (Z.ltb_spec n 1); [split; vm_compute; discriminate|]. destruct (Z.ltb_spec 7 n); [unfold second; lia|].
  assert (1 <= Z.shiftl 1 (n - 1)) by (rewrite Z.shiftl_1_l; pose proof (Z.pow_pos_nonneg 2 (n - 1)); lia). unfold second in *. nia.
Qed.

(** A message is redelivered only within the delivery bound, after a bounded delay. *)
Definition bounded_retry (r : Runner) (msg : Msg) (h : handled) : Prop :=
  match hd_ack h with
  | Nak delay => second <= delay <= 60 * second /\ msg_delivered msg < to_uint64 (MaxDeliver (run_cfg r))
  | Ack | Term _ => True
  end.

Lemma retryLater_bounded r msg cause : yields (bounded_retry r msg) (retryLater r msg cause).
Proof.
  unfold retryLater, deadLetter. repeat yields_step. split; [apply RetryDelay_range|]. by apply Z.leb_gt.
Qed.

Lemma handleMessage_bounded r msg : yields (bounded_retry r msg) (handleMessage r msg).
Proof.
  unfold handleMessage, execute_claimed, conclude, runHandler, deadLetter, auditSkip, acked.
  repeat first [apply retryLater_bounded | yields_step]. split; [apply RetryDelay_range|]. by reflect_tests.
Qed.

(** ** Properties *)

(** C5: a remediation acts on its target at most once. After an [ApplyOnce] that
    succeeded, whatever happened in between, every further call with the same
    idempotency key, for any action, target or desired state, leaves all tables as
    they are, and what it returns, when it succeeds, is the recorded result
    marked as reused. The first call changed one target, to the desired values
    over the previous ones, and recorded its receipt; a call that fails changes
    nothing. *)
Theorem ApplyOnce_exactly_once key a rt t desired e w res w1 :
  ApplyOnce key a rt t desired e w = (Ok res, w1) ->
  ((exists rc, db_receipts (w_db w) !! key = Some rc /\ w_db w1 = w_db w) \/
   db_receipts (w_db w) !! key = None /\
   db_targets (w_db w1) = <[(rt, t) := reread_map (desired ∪ default ∅ (db_targets (w_db w) !! (rt, t)))]> (db_targets (w_db w)) /\
   db_receipts (w_db w1) = <[key := mkReceipt a t (reread_map res)]> (db_receipts (w_db w))) /\
  forall w2 a' rt' t' desired' e', progress (w_db w1) (w_db w2) ->
    w_db (ApplyOnce key a' rt' t' desired' e' w2).2 = w_db w2 /\
    forall res', (ApplyOnce key a' rt' t' desired' e' w2).1 = Ok res' ->
      exists rc, db_receipts (w_db w1) !! key = Some rc /\ res' = <["reused" := VBool true]> (rcp_result rc).
Proof.
  intros H. apply ApplyOnce_ok in H as (w0 & w3 & b & D0 & H & D). apply apply_once_ok in H. rewrite D0 in H.
  assert (exists rc, db_receipts (w_db w1) !! key = Some rc) as [rc Hrc].
  { rewrite D. destruct H as [(rc & Hrc & _ & ->)|(_ & _ & ->)]; [by exists rc|]. eexists. apply lookup_insert_eq. }
  split.
  - destruct H as [(rc' & Hrc' & _ & E)|(HN & _ & E)]; [left; exists rc'; by rewrite D|right]. rewrite D, E. by split_and!.
  - intros w2 a' rt' t' desired' e' HP. assert (db_receipts (w_db w2) !! key = Some rc) as H2 by (eapply lookup_weaken; [done|apply HP]).
    destruct (ApplyOnce key a' rt' t' desired' e' w2) as [[res'|err] w4] eqn:E; simpl; [|split; [by eapply ApplyOnce_fail|discriminate]].
    apply ApplyOnce_ok in E as (w5 & w6 & b' & D5 & E & D6). apply apply_once_ok in E. rewrite D5 in E.
    destruct E as [(rc' & Hrc' & -> & E)|(HN & _)]; [|congruence]. assert (rc' = rc) as -> by congruence.
    split; [congruence|]. intros x [= <-]. by exists rc.
Qed.

(** C11: a job message is acknowledged only once its remediation is finished: when
    [handleMessage] acknowledges, the remediation the message names is neither
    queued nor running any more, whatever the handler, the database and the
    clock did. *)
Theorem handleMessage_ack_finished r msg e w h w' :
  keyed (w_db w) -> handleMessage r msg e w = (Ok h, w') -> hd_ack h = Ack ->
  forall rem, db_remediations (w_db w') !! job_id msg = Some rem -> rem_status rem <> Rem.StateQueued /\ rem_status rem <> Rem.StateRunning.
Proof.
  intros HK H Ha rem Hr. pose proof (handleMessage_acked _ _ _ _ _ _ HK H Ha rem Hr) as HD. unfold Dispatchable in HD. by reflect_tests.
Qed.

(** A stale message does nothing. When the remediation of a job is not queued
    or running, because it was cancelled, finished or never queued, handling the
    message changes no remediation, no target and no receipt; at most an audit
    entry is added. *)
Theorem stale_message_inert r msg e w rem :
  db_remediations (w_db w) !! job_id msg = Some rem -> Dispatchable (rem_status rem) = false ->
  appended (w_db w) (w_db (handleMessage r msg e w).2).
Proof.
  intros Hr Hd. unfold handleMessage. unfold job_id in Hr. destruct (msg_event msg) as [event|]; [|reflexivity]. cbv zeta.
  destruct (_ =?s _); [reflexivity|]. unfold bind at 1, attempt. destruct (GetRemediation (event_job event) e w) as [[x|err] w1] eqn:G;
    (apply unchanged in G as D1; [|apply GetRemediation_guar; typeclasses eauto]).
  - apply wrap_ok, query_row_ok in G as (G & _). assert (x = rem) as -> by congruence. unfold Dispatchable in Hd. apply orb_false_iff in Hd as [-> ->].
    simpl. unfold bind. pose proof (auditSkip_appended (rem_id rem) (rem_status rem) e w1) as A. rewrite D1 in A.
    destruct (auditSkip _ _ e w1) as [[?|?] w2]; exact A.
  - rewrite <- D1. destruct (bool_decide _); [reflexivity|]. unfold retryLater. destruct (_ <=? _); reflexivity.
Qed.

(** Message handling is total and retries are bounded: every message is
    acknowledged, dead-lettered or asked to be redelivered; redelivery is asked for
    only below the delivery bound, with a delay between one second and one
    minute. *)
Theorem handleMessage_bounded_retries r msg e w :
  exists h w', handleMessage r msg e w = (Ok h, w') /\
    match hd_ack h with
    | Nak delay => second <= delay <= 60 * second /\ msg_delivered msg < to_uint64 (MaxDeliver (run_cfg r))
    | Ack | Term _ => True
    end.
Proof. apply handleMessage_bounded. Qed.

Definition handler_name (r : Runner) (action : string) : option string := h_name <$> run_handlers r !! action.

Lemma handler_names cs action :
  action ∈ registered ->
  handler_name (NewRunner (DefaultHandlers cs)) action =
    if (action =?s CollectDiagnostics) || (action =?s ScaleWorkerSimulation) then None else Some action.
Proof.
  intros Ha. assert (forallb (fun action => bool_decide (handler_name (NewRunner (DefaultHandlers cs)) action =
    if (action =?s CollectDiagnostics) || (action =?s ScaleWorkerSimulation) then None else Some action)) registered = true) as C
    by (vm_compute; reflexivity).
  apply (forallb_elem _ _ _ C) in Ha. by apply bool_decide_eq_true in Ha.
Qed.

(** The default handlers against the catalog: a registered action has a
    handler exactly when it is neither collecting diagnostics nor the worker
    scaling simulation, and every handler runs the action it is registered for.
    The one action the policy allows unattended therefore has no handler, and its
    job ends in failure. *)
Theorem DefaultHandlers_coverage cs action :
  action ∈ registered ->
  (run_handlers (NewRunner (DefaultHandlers cs)) !! action = None <-> action = CollectDiagnostics \/ action = ScaleWorkerSimulation) /\
  (forall h, run_handlers (NewRunner (DefaultHandlers cs)) !! action = Some h -> h_name h = action).
Proof.
  intros Ha. pose proof (handler_names cs action Ha) as HN. unfold handler_name in HN. revert HN.
  destruct (run_handlers _ !! action) as [h|], (action =?s CollectDiagnostics) eqn:E1, (action =?s ScaleWorkerSimulation) eqn:E2;
    simpl; intros [=]; reflect_tests; split; try tauto; try (by intros x [= <-]). split; [discriminate|tauto].
Qed.

Lemma DefaultHandlers_coverage_witness : run_handlers (NewRunner (DefaultHandlers None)) !! CollectDiagnostics = None.
Proof. apply DefaultHandlers_coverage; [apply (bool_decide_eq_true_1 _); vm_compute; reflexivity|left; reflexivity]. Defined.

(** ** Witnesses *)

Definition worker : Runner := NewRunner (DefaultHandlers (Some PostgresControlStateStore)).
Definition demo_message : Msg := mkMsg (Some (dsp_event queued_job)) 1.

Lemma handleMessage_ack_finished_witness :
  exists h w', handleMessage worker demo_message quiet_env queued_world = (Ok h, w') /\
    forall rem, db_remediations (w_db w') !! "rem_1" = Some rem -> rem_status rem <> Rem.StateQueued /\ rem_status rem <> Rem.StateRunning.
Proof.
  assert (match handleMessage worker demo_message quiet_env queued_world with (Ok h, _) => hd_ack h = Ack | _ => False end) as O
    by (vm_compute; reflexivity).
  destruct (handleMessage worker demo_message quiet_env queued_world) as [[h|err] w'] eqn:E; [|contradiction O].
  exists h, w'. split; [reflexivity|]. exact (handleMessage_ack_finished _ _ _ _ _ _ queued_keyed E O).
Defined.

Lemma stale_message_inert_witness :
  appended (w_db approved_world) (w_db (handleMessage worker demo_message quiet_env approved_world).2).
Proof. apply (stale_message_inert _ _ _ _ approved_remediation); vm_compute; reflexivity. Defined.

Definition resize : result params * world :=
  ApplyOnce "key_1" ResizeConnectionPool "connection_pool" "payments-api" {["max_connections" := VInt 20]} quiet_env (mkWorld empty_db 0 []).

Lemma ApplyOnce_exactly_once_witness :
  exists res w1, resize = (Ok res, w1) /\
    w_db (ApplyOnce "key_1" ResizeConnectionPool "connection_pool" "payments-api" {["max_connections" := VInt 20]} quiet_env w1).2 = w_db w1.
Proof.
  assert (is_ok resize.1 = true) as O by (vm_compute; reflexivity). unfold resize in *.
  destruct (ApplyOnce _ _ _ _ _ _ _) as [[res|err] w1] eqn:E; [|discriminate O]. exists res, w1. split; [reflexivity|].
  destruct (ApplyOnce_exactly_once _ _ _ _ _ _ _ _ _ E) as [_ H]. apply H. reflexivity.
Defined.
