(* ===== verification/Auth.v ===== *)
(** * Authentication and roles ([internal/auth/auth.go])

    A bearer token is verified by an OpenID Connect library outside the sources; its
    role claim is mapped to exactly one Argus role, and a role has permissions. *)
From Stdlib Require Import Ascii String ZArith Lia.
From stdpp Require Import base gmap strings list.
From S2P Require Import Prelude GoStrings GoValue Types.
Open Scope Z_scope.

(** ** Roles and permissions *)

Definition RoleAdmin : string := "admin".
Definition RoleOperator : string := "operator".
Definition RoleViewer : string := "viewer".
Definition RoleIngester : string := "ingester".

Definition PermissionView : string := "view".
Definition PermissionIngestSignal : string := "ingest_signal".
Definition PermissionManageIncident : string := "manage_incident".
Definition PermissionGenerateRCA : string := "generate_rca".
Definition PermissionProposeRemediation : string := "propose_remediation".
Definition PermissionApproveRemediation : string := "approve_remediation".
Definition PermissionExecuteRemediation : string := "execute_remediation".
Definition PermissionViewAudit : string := "view_audit".
Definition PermissionManageService : string := "manage_service".
Definition PermissionReindexRunbook : string := "reindex_runbook".
Definition PermissionManageDeadLetters : string := "manage_dead_letters".

Definition permissionsByRole (role : string) : list string :=
  if role =?s RoleViewer then [PermissionView]
  else if role =?s RoleIngester then [PermissionIngestSignal]
  else if role =?s RoleOperator then
    [PermissionView; PermissionIngestSignal; PermissionManageIncident; PermissionGenerateRCA; PermissionProposeRemediation;
     PermissionApproveRemediation; PermissionExecuteRemediation; PermissionReindexRunbook]
  else [].

Record Principal := mkPrincipal {
  pr_id : string;
  pr_subject : string;
  pr_issuer : string;
  pr_email : string;
  pr_display_name : string;
  pr_role : string;
}.

Definition Can (p : Principal) (permission : string) : bool :=
  (pr_role p =?s RoleAdmin) || bool_decide (permission ∈ permissionsByRole (pr_role p)).

Definition validRole (role : string) : bool := bool_decide (role ∈ [RoleAdmin; RoleOperator; RoleViewer; RoleIngester]).

(** ** The authenticator *)

(** What the library's verifier returns for a token it accepts. *)
Record IDToken := mkIDToken {
  tok_issuer : string;
  tok_subject : string;
  tok_issued_at : Z;
  tok_claims : result params;
}.
Definition tokenVerifier : Type := string -> result IDToken.

Record OIDCAuthenticator := mkAuthenticator {
  oa_verifier : tokenVerifier;
  oa_role_claim_path : list string;
  oa_role_mappings : gmap string string;
  oa_email_claim : string;
  oa_display_name_claim : string;
}.

Definition authError {A} (reason : string) : result A :=
  Fail (mkError (KAuthentication reason) ("authentication failed: " +:+ reason)).

Definition FailureReason (err : error) : string :=
  match err_kind err with KAuthentication reason => reason | _ => "internal_error" end.

Definition parseBearerToken (header : string) : result string :=
  match Fields header with
  | [scheme; token] => if EqualFold scheme "Bearer" && negb (token =?s "") then Ok token else authError "missing_bearer_token"
  | _ => authError "missing_bearer_token"
  end.

(** [BearerToken]: several headers count as none. *)
Definition BearerToken (values : list string) : string := match values with [v] => v | _ => "" end.

(** ** Claims *)

Definition member (v : value) (key : string) : option value :=
  match v with VMap m => snd <$> List.find (fun kv => kv.1 =?s key) m | _ => None end.

Definition claimAtPath (claims : params) (path : list string) : option value :=
  foldl (fun current part => v ← current; member v part) (Some (VMap (map_to_list claims))) path.

Definition claimString (v : option value) : option string :=
  match v with Some (VString s) => Some (TrimSpace s) | _ => None end.

(** Trimmed and not blank, or none of them. *)
Fixpoint nonblank (l : list (option string)) : option (list string) :=
  match l with
  | [] => Some []
  | Some s :: l => if s =?s "" then None else rest ← nonblank l; Some (s :: rest)
  | None :: _ => None
  end.
Definition some_values (l : option (list string)) : option (list string) := match l with Some [] => None | _ => l end.

Definition claimStrings (v : option value) : option (list string) :=
  match v with
  | Some (VString s) => let s := TrimSpace s in if s =?s "" then None else Some [s]
  | Some (VList l) => some_values (nonblank ((fun x => claimString (Some x)) <$> l))
  | Some (VStrings l) => some_values (nonblank ((fun s => Some (TrimSpace s)) <$> l))
  | _ => None
  end.

Definition or_else (s t : string) : string := if s =?s "" then t else s.

Definition Authenticate (a : OIDCAuthenticator) (time : Z) (header : string) : result Principal :=
  let! rawToken := parseBearerToken header in
  match oa_verifier a rawToken with
  | Fail _ => authError "invalid_token"
  | Ok token =>
      if TrimSpace (tok_subject token) =?s "" then authError "missing_subject"
      else if negb (IsZero (tok_issued_at token)) && (time + 5 * minute <? tok_issued_at token) then authError "invalid_token"
      else
        match tok_claims token with
        | Fail _ => authError "invalid_claims"
        | Ok claims =>
            match claimStrings (claimAtPath claims (oa_role_claim_path a)) with
            | None => authError "missing_role_claim"
            | Some roleValues =>
                let mappedRoles : gset string := list_to_set (omap (fun v => oa_role_mappings a !! v) roleValues) in
                match elements mappedRoles with
                | [] => authError "unmapped_role"
                | [role] =>
                    let email := default "" (claimString (claims !! oa_email_claim a)) in
                    let displayName := or_else (or_else (default "" (claimString (claims !! oa_display_name_claim a))) email) (tok_subject token) in
                    Ok (mkPrincipal (tok_issuer token +:+ "#" +:+ tok_subject token) (tok_subject token) (tok_issuer token) email displayName role)
                | _ => authError "ambiguous_role"
                end
            end
        end
  end.

(** ** Configuration *)

Record URL := mkURL { url_scheme : string; url_host : string; url_user : bool; url_query : string; url_fragment : string }.

(** What is used of [net/url] and of the OpenID Connect library. *)
Record OIDCLibrary := mkOIDCLibrary {
  ol_parse : string -> option URL;
  ol_remote : string -> string -> string -> list string -> tokenVerifier;
  ol_discover : string -> string -> list string -> result tokenVerifier;
}.

Record OIDCConfig := mkOIDCConfig {
  oc_issuer_url : string;
  oc_audience : string;
  oc_jwks_url : string;
  oc_role_claim : string;
  oc_role_mappings : string;
  oc_email_claim : string;
  oc_display_name_claim : string;
  oc_signing_algs : list string;
  oc_allow_insecure_http : bool;
}.

Definition allowedSigningAlgorithm (alg : string) : bool :=
  bool_decide (alg ∈ ["RS256"; "RS384"; "RS512"; "PS256"; "PS384"; "PS512"; "ES256"; "ES384"; "ES512"; "EdDSA"]).

Definition validateOIDCURL (lib : OIDCLibrary) (name rawURL : string) (allowInsecureHTTP : bool) : result unit :=
  match ol_parse lib rawURL with
  | None => Fail (errorf ("invalid OIDC " +:+ name +:+ " URL"))
  | Some u =>
      if (url_host u =?s "") || url_user u || negb (url_query u =?s "") || negb (url_fragment u =?s "")
      then Fail (errorf ("invalid OIDC " +:+ name +:+ " URL"))
      else if negb (url_scheme u =?s "https") && negb (allowInsecureHTTP && (url_scheme u =?s "http"))
      then Fail (errorf ("OIDC " +:+ name +:+ " URL must use HTTPS outside local mode"))
      else Ok tt
  end.

Fixpoint parse_mappings (entries : list string) (mappings : gmap string string) : result (gmap string string) :=
  match entries with
  | [] => Ok mappings
  | entry :: entries =>
      match SplitN2 (TrimSpace entry) "=" with
      | [external; argus] =>
          let externalRole := TrimSpace external in
          let argusRole := TrimSpace argus in
          if (externalRole =?s "") || negb (validRole argusRole) then Fail (errorf ("invalid OIDC role mapping " +:+ Quote entry))
          else
            match mappings !! externalRole with
            | Some _ => Fail (errorf ("duplicate OIDC role mapping for " +:+ Quote externalRole))
            | None => parse_mappings entries (<[externalRole := argusRole]> mappings)
            end
      | _ => Fail (errorf ("invalid OIDC role mapping " +:+ Quote entry +:+ "; want provider-role=argus-role"))
      end
  end.

Definition parseRoleMappings (raw : string) : result (gmap string string) :=
  if TrimSpace raw =?s "" then Fail (errorf "ARGUS_OIDC_ROLE_MAPPINGS is required") else parse_mappings (Split raw ",") ∅.

Definition newOIDCAuthenticator (verifier : tokenVerifier) (cfg : OIDCConfig) : result OIDCAuthenticator :=
  let roleClaim := or_else (TrimSpace (oc_role_claim cfg)) "realm_access.roles" in
  if existsb (fun part => TrimSpace part =?s "") (Split roleClaim ".") then Fail (errorf ("invalid OIDC role claim path " +:+ Quote roleClaim))
  else
    let! roleMappings := parseRoleMappings (oc_role_mappings cfg) in
    Ok (mkAuthenticator verifier (Split roleClaim ".") roleMappings (or_else (TrimSpace (oc_email_claim cfg)) "email")
          (or_else (TrimSpace (oc_display_name_claim cfg)) "preferred_username")).

Definition NewOIDCAuthenticator (lib : OIDCLibrary) (cfg : OIDCConfig) : result OIDCAuthenticator :=
  let issuer := TrimRight (TrimSpace (oc_issuer_url cfg)) "/" in
  let audience := TrimSpace (oc_audience cfg) in
  if issuer =?s "" then Fail (errorf "ARGUS_OIDC_ISSUER_URL is required")
  else if audience =?s "" then Fail (errorf "ARGUS_OIDC_AUDIENCE is required")
  else
    let! _ := validateOIDCURL lib "issuer" issuer (oc_allow_insecure_http cfg) in
    let algs := match oc_signing_algs cfg with [] => ["RS256"] | algs => algs end in
    match List.find (fun alg => negb (allowedSigningAlgorithm alg)) algs with
    | Some alg => Fail (errorf ("OIDC signing algorithm " +:+ Quote alg +:+ " is not an approved asymmetric algorithm"))
    | None =>
        let jwks := TrimSpace (oc_jwks_url cfg) in
        let! verifier := (if negb (jwks =?s "") then
            let! _ := validateOIDCURL lib "JWKS" jwks (oc_allow_insecure_http cfg) in Ok (ol_remote lib issuer jwks audience algs)
          else match ol_discover lib issuer audience algs with Ok v => Ok v | Fail err => Fail (wrapf "discover OIDC provider" err) end) in
        newOIDCAuthenticator verifier cfg
    end.

(** ** Properties *)

Lemma elements_singleton_iff (X : gset string) x : elements X = [x] <-> X = {[x]}.
Proof.
  split; [|by intros ->; apply elements_singleton]. intros HX. apply set_eq. intros y. rewrite <- elem_of_elements, HX. set_solver.
Qed.

(** The roles a claim maps to are one. *)
Lemma mapped_once (mappings : gmap string string) values role :
  elements (list_to_set (omap (fun v => mappings !! v) values) : gset string) = [role] <->
  (exists v, v ∈ values /\ mappings !! v = Some role) /\ (forall v r, v ∈ values -> mappings !! v = Some r -> r = role).
Proof.
  rewrite elements_singleton_iff, set_eq. setoid_rewrite elem_of_list_to_set. setoid_rewrite list_elem_of_omap.
  setoid_rewrite elem_of_singleton. split.
  - intros H. split; [by apply H|]. intros v r Hv Hr. apply H. by exists v.
  - intros [H1 H2] r. split; [intros (v & Hv & Hr); by eapply H2|by intros ->].
Qed.

(** What an authenticated caller proved. *)
Record authenticated (a : OIDCAuthenticator) (time : Z) (header : string) (p : Principal) (token : IDToken) : Prop := {
  an_token : exists raw, Fields header = [nth 0 (Fields header) ""; raw] /\ oa_verifier a raw = Ok token;
  an_identity : pr_id p = tok_issuer token +:+ "#" +:+ tok_subject token /\ TrimSpace (tok_subject token) <> "";
  an_issued : IsZero (tok_issued_at token) = true \/ tok_issued_at token <= time + 5 * minute;
  an_role : exists claims values, tok_claims token = Ok claims /\ claimStrings (claimAtPath claims (oa_role_claim_path a)) = Some values /\
    (exists v, v ∈ values /\ oa_role_mappings a !! v = Some (pr_role p)) /\
    (forall v r, v ∈ values -> oa_role_mappings a !! v = Some r -> r = pr_role p);
}.

Lemma parse_mappings_spec entries : forall m0 m, parse_mappings entries m0 = Ok m ->
  (forall k r, m !! k = Some r <-> m0 !! k = Some r \/
     exists entry x y, entry ∈ entries /\ SplitN2 (TrimSpace entry) "=" = [x; y] /\ k = TrimSpace x /\ r = TrimSpace y) /\
  (forall k r, m !! k = Some r -> m0 !! k = None -> k <> "" /\ validRole r = true).
Proof.
  induction entries as [|entry entries IH]; intros m0 m; simpl.
  { intros [= <-]. split; [|congruence]. intros k r. split; [by left|]. intros [?|(? & ? & ? & []%elem_of_nil & _)]. done. }
  destruct (SplitN2 (TrimSpace entry) "=") as [|x [|y [|]]] eqn:P; try done.
  destruct (_ || _) eqn:V; [done|]. destruct (m0 !! TrimSpace x) eqn:D; [done|]. intros H. apply IH in H as [H1 H2].
  apply orb_false_iff in V as [V1 V2]. apply negb_false_iff in V2. reflect_tests. split.
  - intros k r. rewrite H1. split.
    + intros [[[<- <-]|[_ ?]]%lookup_insert_Some|(e' & x' & y' & ? & ?)]; [right; exists entry, x, y|by left|right; exists e', x', y'].
      * split_and!; [left|done..].
      * split; [by right|done].
    + intros [Hk|(e' & x' & y' & [->|Hin]%elem_of_cons & Hs & -> & ->)].
      * left. apply lookup_insert_Some. right. split; [intros <-; congruence|done].
      * left. rewrite P in Hs. injection Hs as <- <-. by rewrite lookup_insert_eq.
      * right. by exists e', x', y'.
  - intros k r Hk Hn. destruct (decide (k = TrimSpace x)) as [->|Hne]; [|apply H2; [done|]; by rewrite lookup_insert_ne].
    destruct (proj1 (H1 _ _) Hk) as [Hi|(e' & x' & y' & ? & ? & ? & ?)].
    + rewrite lookup_insert_eq in Hi. by injection Hi as <-.
    + assert (m !! TrimSpace x = Some (TrimSpace y)) as Hm by (apply H1; left; by rewrite lookup_insert_eq). split; [done|]. congruence.
Qed.

Lemma NewOIDCAuthenticator_roles lib cfg a k r :
  NewOIDCAuthenticator lib cfg = Ok a -> oa_role_mappings a !! k = Some r -> validRole r = true.
Proof.
  unfold NewOIDCAuthenticator, newOIDCAuthenticator, parseRoleMappings. cbv zeta. intros H Hr.
  destruct (_ =?s ""); [done|]. destruct (TrimSpace (oc_audience cfg) =?s ""); [done|]. destruct (validateOIDCURL _ _ _ _); [|done].
  simpl in H. destruct (List.find _ _); [done|]. match type of H with result_bind ?v _ = _ => destruct v as [verifier|]; [|done] end.
  simpl in H. destruct (existsb _ _); [done|]. destruct (TrimSpace (oc_role_mappings cfg) =?s ""); [done|].
  destruct (parse_mappings (Split (oc_role_mappings cfg) ",") ∅) as [m|] eqn:P; [|done]. injection H as <-. simpl in Hr.
  apply parse_mappings_spec in P as [_ P]. by eapply P.
Qed.

(** C16: a caller has the one role its token stands for. [Authenticate] accepts a header
    only when it holds exactly one bearer token the verifier accepts, with a subject and
    not issued in the future, whose role claim names at least one mapped role and maps to
    a single, known Argus role: a token that maps to two roles is refused, not resolved. *)
Theorem Authenticate_single_role lib cfg a time header p :
  NewOIDCAuthenticator lib cfg = Ok a -> Authenticate a time header = Ok p ->
  validRole (pr_role p) = true /\ exists token, authenticated a time header p token.
Proof.
  intros HA. unfold Authenticate, parseBearerToken. destruct (Fields header) as [|scheme [|raw [|]]] eqn:F; try done.
  destruct (_ && _); [|done]. simpl. destruct (oa_verifier a raw) as [token|] eqn:V; [|done].
  destruct (TrimSpace (tok_subject token) =?s "") eqn:S; [done|]. destruct (_ && _) eqn:T; [done|].
  destruct (tok_claims token) as [claims|] eqn:C; [|done]. destruct (claimStrings _) as [values|] eqn:R; [|done].
  destruct (elements _) as [|role [|]] eqn:E; try done. intros [= <-]. apply mapped_once in E as [E1 E2]. reflect_tests.
  split; [destruct E1 as (v & _ & Hv); by eapply NewOIDCAuthenticator_roles|]. exists token. split; simpl.
  - exists raw. by rewrite F.
  - done.
  - apply andb_false_iff in T as [T|T]; [left; by apply negb_false_iff in T|right]. by apply Z.ltb_ge in T.
  - exists claims, values. by split_and!.
Qed.

(** ** Witnesses *)

Definition demo_oidc : OIDCLibrary :=
  mkOIDCLibrary (fun _ => Some (mkURL "https" "sso.example" false "" ""))
    (fun issuer _ _ _ raw =>
       if raw =?s "good"
       then Ok (mkIDToken issuer "u-1" 0 (Ok {["realm_access" := VMap [("roles", VList [VString "sre"; VString "staff"])]; "email" := VString "a@b"]}))
       else Fail (errorf "bad signature"))
    (fun _ _ _ => Fail (errorf "no discovery")).
Definition demo_oidc_config (mappings : string) : OIDCConfig :=
  mkOIDCConfig "https://sso.example/" "argus" "https://sso.example/keys" "" mappings "" "" [] false.
Definition demo_login (mappings header : string) : result Principal :=
  let! a := NewOIDCAuthenticator demo_oidc (demo_oidc_config mappings) in Authenticate a 0 header.

Example demo_logins :
  ((fun p => match demo_login p.1 p.2 with Ok who => pr_role who | Fail err => FailureReason err end) <$>
    [("sre=operator", "bearer good"); ("sre=operator, staff=viewer", "Bearer good"); ("sre=operator,staff=operator", "Bearer good");
     ("sre=operator", "Bearer bad"); ("sre=operator", "Bearer"); ("other=admin", "Bearer good"); ("sre=root", "Bearer good")]) =
  ["operator"; "ambiguous_role"; "operator"; "invalid_token"; "missing_bearer_token"; "unmapped_role"; "internal_error"].
Proof. vm_compute. reflexivity. Qed.

Lemma Authenticate_single_role_witness :
  exists a p token, NewOIDCAuthenticator demo_oidc (demo_oidc_config "sre=operator") = Ok a /\ Authenticate a 0 "bearer good" = Ok p /\
    pr_role p = RoleOperator /\ authenticated a 0 "bearer good" p token.
Proof.
  destruct (NewOIDCAuthenticator demo_oidc (demo_oidc_config "sre=operator")) as [a|] eqn:E; [|vm_compute in E; discriminate E].
  assert (match Authenticate a 0 "bearer good" with Ok p => pr_role p = RoleOperator | Fail _ => False end) as O
    by (vm_compute in E; injection E as <-; vm_compute; reflexivity).
  destruct (Authenticate a 0 "bearer good") as [p|] eqn:P; [|contradiction O].
  destruct (Authenticate_single_role demo_oidc (demo_oidc_config "sre=operator") a 0 "bearer good" p E P) as [_ [token H]].
  exists a, p, token. split; [reflexivity|]. split; [exact P|]. split; [exact O|exact H].
Defined.
