(* ===== verification/Transports.v ===== *)
(** * Approval transports ([internal/approvals/notifier.go], [slack.go])

    Approval requests are announced to a webhook, signed or as a Slack message; a signed
    Slack callback can decide one. Neither carries authority of its own: the callback's
    user maps to a configured identity, which decides under the rules of the workflow. *)
From Stdlib Require Import Ascii String ZArith Lia.
From stdpp Require Import base gmap strings list.
From S2P Require Import Prelude GoStrings Regexp GoValue Json Marshal Sha256 Ledger Types Database AuditLog Store Progress Http Executors Approvals.
Open Scope Z_scope.

(** ** What is used of [net/url] and [net] *)

Record Address := mkAddress { ad_scheme : string; ad_host : string; ad_hostname : string }.
Record NetLibrary := mkNetLibrary { nl_parse : string -> option Address; nl_loopback_ip : string -> bool }.

Definition isLoopback (net : NetLibrary) (host : string) : bool := EqualFold host "localhost" || nl_loopback_ip net host.

Definition secure (net : NetLibrary) (a : Address) : bool :=
  (ad_scheme a =?s "https") || (ad_scheme a =?s "http") && isLoopback net (ad_hostname a).

Definition validateEndpointURL (net : NetLibrary) (raw label : string) : result unit :=
  match nl_parse net raw with
  | Some a =>
      if ad_host a =?s "" then Fail (errorf ("invalid " +:+ label +:+ " URL"))
      else if secure net a then Ok tt
      else Fail (errorf (label +:+ " URL must use HTTPS except for loopback development"))
  | None => Fail (errorf ("invalid " +:+ label +:+ " URL"))
  end.

(** ** The notifier *)

Record WebhookNotifier := mkNotifier {
  wn_url : string;
  wn_secret : string;
  wn_base_url : string;
  wn_mode : string;
  wn_client : HttpClient;
}.

Definition NewWebhookNotifier (net : NetLibrary) (client : HttpClient) (webhookURL secret baseURL mode : string) : result WebhookNotifier :=
  let webhookURL := TrimSpace webhookURL in
  let! _ := (if webhookURL =?s "" then Ok tt else
    match nl_parse net webhookURL with
    | Some a =>
        if ad_host a =?s "" then Fail (errorf "invalid approval webhook URL")
        else if secure net a then Ok tt
        else Fail (errorf "approval webhook must use HTTPS except for loopback development")
    | None => Fail (errorf "invalid approval webhook URL")
    end) in
  let mode := ToLower (TrimSpace mode) in
  let mode := if mode =?s "" then "generic" else mode in
  if negb (mode =?s "generic") && negb (mode =?s "slack") then Fail (errorf "approval webhook mode must be generic or slack")
  else if negb (webhookURL =?s "") && (mode =?s "generic") && (TrimSpace secret =?s "")
  then Fail (errorf "generic approval webhook requires ARGUS_APPROVAL_WEBHOOK_SECRET")
  else
    let baseURL := TrimRight (TrimSpace baseURL) "/" in
    let! _ := validateEndpointURL net baseURL "approval callback" in
    Ok (mkNotifier webhookURL secret baseURL mode client).

Definition notifier_name (n : WebhookNotifier) : string := if wn_url n =?s "" then "disabled" else wn_mode n.

(** [json.Marshal] of the request, whose members keep the order of its fields. *)
Definition parameters_json (m : params) : option json := canonical <$> map_to_json (Some m).
Definition text_member (key value : string) : list (string * json) := if value =?s "" then [] else [(key, JStr value)].
Definition time_member (key : string) (t : option Z) : list (string * json) :=
  match t with Some t => [(key, JStr (RFC3339Nano t))] | None => [] end.

Definition request_json (r : Request) : option json :=
  parameters ← parameters_json (req_parameters r);
  Some (JObj ([("id", JStr (req_id r)); ("remediation_id", JStr (req_remediation_id r)); ("incident_id", JStr (req_incident_id r));
    ("action_type", JStr (req_action_type r)); ("target", JStr (req_target r)); ("parameters", parameters); ("risk", JStr (req_risk r));
    ("status", JStr (req_status r)); ("requested_by", JStr (req_requested_by r)); ("requested_at", JStr (RFC3339Nano (req_requested_at r)));
    ("escalates_at", JStr (RFC3339Nano (req_escalates_at r))); ("expires_at", JStr (RFC3339Nano (req_expires_at r)))]
    ++ time_member "escalated_at" (req_escalated_at r) ++ time_member "decided_at" (req_decided_at r)
    ++ text_member "decided_by" (req_decided_by r) ++ text_member "decision_reason" (req_decision_reason r)
    ++ text_member "decision_source" (req_decision_source r)
    ++ [("notification_status", JStr (req_notification_status r)); ("notification_attempts", JNum (itoa (req_notification_attempts r)))]
    ++ text_member "last_notification_error" (req_last_notification_error r)
    ++ [("created_at", JStr (RFC3339Nano (req_created_at r))); ("updated_at", JStr (RFC3339Nano (req_updated_at r)))])).

Definition decision_url (n : WebhookNotifier) (r : Request) : string := wn_base_url n +:+ "/v1/approval-requests/" +:+ req_id r +:+ "/decision".

(** A map is written with its keys in order. *)
Definition genericPayload (n : WebhookNotifier) (r : Request) (escalation : bool) : option json :=
  request ← request_json r;
  Some (JObj [("approval_request", request);
    ("decision_contract", JObj [("auth", JStr "Argus operator/admin bearer token");
       ("body", JStr ("{" +:+ dq +:+ "decision" +:+ dq +:+ ":" +:+ dq +:+ "approve|deny" +:+ dq +:+ "," +:+ dq +:+ "reason" +:+ dq +:+ ":" +:+ dq +:+ "required" +:+ dq +:+ "}"));
       ("method", JStr "POST")]);
    ("decision_url", JStr (decision_url n r));
    ("event", JStr (if escalation then "approval.escalated" else "approval.requested"))]).

(** Control characters and backquotes are dropped, markup is escaped; the text is valid UTF-8. *)
Definition escape_byte (c : ascii) : string :=
  if (byte_of c <? 32) || Ascii.eqb c "`" then ""
  else if Ascii.eqb c "&" then "&amp;" else if Ascii.eqb c "<" then "&lt;" else if Ascii.eqb c ">" then "&gt;" else String c "".
Fixpoint slackEscape (s : string) : string := match s with "" => "" | String c r => escape_byte c +:+ slackEscape r end.

Definition RFC3339 (t : Z) : string := RFC3339Nano (t - t mod 10 ^ 9).
Definition newline : string := String (chr 10) "".
Definition code (s : string) : string := "`" +:+ slackEscape s +:+ "`".

Definition action_value (approvalID decision : string) : string :=
  enc (JObj [("approval_id", JStr approvalID); ("decision", JStr decision)]).

Definition slack_text (n : WebhookNotifier) (r : Request) (prefix : string) : string :=
  "*" +:+ slackEscape prefix +:+ "*: " +:+ code (req_action_type r) +:+ " on " +:+ code (req_target r) +:+ newline
  +:+ "Parameters: " +:+ code (marshalled (req_parameters r)) +:+ newline
  +:+ "Risk: *" +:+ slackEscape (req_risk r) +:+ "* | Incident: " +:+ code (req_incident_id r) +:+ newline
  +:+ "Deadline: " +:+ RFC3339 (req_expires_at r) +:+ newline +:+ "Request: " +:+ code (req_id r) +:+ newline
  +:+ "Decision endpoint: " +:+ code (decision_url n r) +:+ newline
  +:+ "A reason and an authenticated operator/admin identity are required.".

Definition plain_text (s : string) : json := JObj [("text", JStr s); ("type", JStr "plain_text")].
Definition button (action_id label style value : string) : json :=
  JObj [("action_id", JStr action_id); ("style", JStr style); ("text", plain_text label); ("type", JStr "button"); ("value", JStr value)].

Definition slackPayload (n : WebhookNotifier) (r : Request) (escalation : bool) : json :=
  let prefix := if escalation then "Approval escalation" else "Approval required" in
  JObj [("blocks", JArr [
      JObj [("text", JObj [("text", JStr (slack_text n r prefix)); ("type", JStr "mrkdwn")]); ("type", JStr "section")];
      JObj [("elements", JArr [button "argus_approval_approve" "Approve" "primary" (action_value (req_id r) DecisionApprove);
                               button "argus_approval_deny" "Deny" "danger" (action_value (req_id r) DecisionDeny)]);
            ("type", JStr "actions")]]);
    ("text", JStr (prefix +:+ " for " +:+ req_action_type r +:+ " on " +:+ req_target r))].

Definition NotifyWebhook (n : WebhookNotifier) (r : Request) (escalation : bool) : M unit :=
  if wn_url n =?s "" then ret tt
  else
    match (if wn_mode n =?s "slack" then Some (slackPayload n r escalation) else genericPayload n r escalation) with
    | None => throw (errorf "encode approval notification: json: unsupported value")
    | Some payload =>
        let body := enc payload in
        req <- wrap "create approval notification" (NewRequest (wn_client n) "POST" (wn_url n)
          ([("Content-Type", "application/json"); ("X-Argus-Approval-ID", req_id r)]
           ++ (if wn_secret n =?s "" then [] else [("X-Argus-Signature-256", "sha256=" +:+ hmac_sha256 (wn_secret n) body)]))
          (Some (Text body))) ;;
        resp <- wrap "deliver approval notification" (Do (wn_client n) req) ;;
        if (hs_code resp <? 200) || (300 <=? hs_code resp)
        then throw (errorf ("approval webhook returned " +:+ hs_status resp +:+ ": " +:+ TrimSpace (take_chars 512 (hs_body resp))))
        else ret tt
    end.

(** ** Slack callbacks *)

Definition header_get (headers : list (string * string)) (name : string) : string :=
  default "" (snd <$> List.find (fun kv => EqualFold kv.1 name) headers).

(** [url.ParseQuery]: pairs separated by ampersands; a semicolon or a bad escape is an error. *)
Fixpoint QueryUnescape (s : string) : option string :=
  match s with
  | "" => Some ""
  | String "%" (String a (String b r)) => hi ← hexval a; lo ← hexval b; rest ← QueryUnescape r; Some (String (chr (hi * 16 + lo)) rest)
  | String "%" _ => None
  | String "+" r => rest ← QueryUnescape r; Some (String " " rest)
  | String c r => rest ← QueryUnescape r; Some (String c rest)
  end.
Definition parse_pair (pair : string) : option (string * string) :=
  if Contains pair ";" then None
  else
    let '(key, value) := match Cut pair "=" with Some kv => kv | None => (pair, "") end in
    k ← QueryUnescape key; v ← QueryUnescape value; Some (k, v).
Definition ParseQuery (body : string) : option (list (string * string)) :=
  foldr (fun pair acc => l ← acc; if pair =?s "" then Some l else kv ← parse_pair pair; Some (kv :: l)) (Some []) (Split body "&").
Definition query_get (values : list (string * string)) (key : string) : string :=
  default "" (snd <$> List.find (fun kv => kv.1 =?s key) values).

(** [json.Unmarshal] reads one value and nothing after it. *)
Definition Unmarshal (text : string) : option json :=
  match parse_value (S (String.length text)) text with
  | Some (j, rest) => if skip_ws rest =?s "" then Some j else None
  | None => None
  end.
Definition unmarshal_object (text : string) : result (list (string * json)) :=
  match Unmarshal text with
  | Some (JObj m) => Ok m
  | Some JNull => Ok []
  | _ => Fail (errorf "json: cannot unmarshal")
  end.

(** A struct field that is a struct: [null] leaves it, other values are errors. *)
Definition decode_struct {A} (decode : list (string * json) -> result A) (old : A) (j : json) : result A :=
  match j with
  | JObj m => decode m
  | JNull => Ok old
  | _ => Fail (errorf "json: cannot unmarshal into a struct")
  end.

Record slackActionValue := mkActionValue { sv_approval_id : string; sv_decision : string }.
Definition decode_action_value (m : list (string * json)) : result slackActionValue :=
  let! id := decode_field decode_string "approval_id" "" m in
  let! decision := decode_field decode_string "decision" "" m in
  Ok (mkActionValue id decision).

Record slackCallback := mkCallback {
  sc_type : string;
  sc_trigger_id : string;
  sc_user_id : string;
  sc_actions : list string;
  sc_private_metadata : string;
  sc_values : list string;
}.

(** [view.state.values]: the values of all actions of all blocks. *)
Definition decode_text (field : string) (m : list (string * json)) : result string := decode_field decode_string field "" m.
Definition decode_members {A} (decode : json -> result A) (j : json) : result (list A) :=
  match j with
  | JObj m => decode_all decode (as_map m).*2
  | JNull => Ok []
  | _ => Fail (errorf "json: cannot unmarshal into a map")
  end.
Definition decode_values (_ : list string) (j : json) : result (list string) :=
  let! blocks := decode_members (decode_members (decode_struct (decode_text "value") "")) j in Ok (mjoin blocks).

Definition decode_callback (m : list (string * json)) : result slackCallback :=
  let! type := decode_text "type" m in
  let! trigger := decode_text "trigger_id" m in
  let! user := decode_field (decode_struct (decode_text "id")) "user" "" m in
  let! actions := decode_field (decode_list (decode_struct (decode_text "value") "")) "actions" [] m in
  let! view := decode_field (decode_struct (fun v =>
    let! metadata := decode_text "private_metadata" v in
    let! values := decode_field (decode_struct (decode_field decode_values "values" [])) "state" [] v in
    Ok (metadata, values))) "view" ("", []) m in
  Ok (mkCallback type trigger user actions view.1 view.2).

(** [sw_pick] stands for the order in which Go visits a map: which of the answers that
    are not blank is met first. *)
Record SlackWorkflow := mkSlack {
  sw_service : Service;
  sw_signing_secret : string;
  sw_bot_token : string;
  sw_approvers : gmap string string;
  sw_client : HttpClient;
  sw_pick : list string -> nat;
}.

Fixpoint parse_approvers (items : list string) (approvers : gmap string string) : result (gmap string string) :=
  match items with
  | [] => Ok approvers
  | item :: items =>
      let item := TrimSpace item in
      if item =?s "" then parse_approvers items approvers
      else
        match SplitN2 item "=" with
        | [user; identity] =>
            if (TrimSpace user =?s "") || (TrimSpace identity =?s "")
            then Fail (errorf "Slack approvers must use SLACK_USER_ID=argus-identity entries")
            else parse_approvers items (<[TrimSpace user := TrimSpace identity]> approvers)
        | _ => Fail (errorf "Slack approvers must use SLACK_USER_ID=argus-identity entries")
        end
  end.
Definition parseSlackApprovers (raw : string) : result (gmap string string) := parse_approvers (Split raw ",") ∅.

Definition NewSlackWorkflow (service : Service) (signingSecret botToken rawApprovers : string) (client : HttpClient) (pick : list string -> nat)
    : result SlackWorkflow :=
  let! approvers := parseSlackApprovers rawApprovers in
  Ok (mkSlack service (TrimSpace signingSecret) (TrimSpace botToken) approvers client pick).

Definition Enabled (s : SlackWorkflow) : bool :=
  negb (sw_signing_secret s =?s "") && negb (sw_bot_token s =?s "") && negb (bool_decide (sw_approvers s = ∅)).

Definition slack_signature (secret rawTimestamp body : string) : string := "v0=" +:+ hmac_sha256 secret ("v0:" +:+ rawTimestamp +:+ ":" +:+ body).

Definition verifySlackSignature (secret : string) (headers : list (string * string)) (body : string) (time : Z) : result unit :=
  let rawTimestamp := header_get headers "X-Slack-Request-Timestamp" in
  match ParseInt rawTimestamp with
  | None => Fail (errorf "invalid Slack request timestamp")
  | Some timestamp =>
      let delta := time / 10 ^ 9 - timestamp in
      if (300 <? delta) || (delta <? -300) then Fail (errorf "Slack request timestamp is outside the replay window")
      else if negb (header_get headers "X-Slack-Signature" =?s slack_signature secret rawTimestamp body)
      then Fail (errorf "invalid Slack request signature")
      else Ok tt
  end.

Definition modal (v : slackActionValue) : value :=
  let deny := sv_decision v =?s DecisionDeny in
  let text s := VStrMap [("type", "plain_text"); ("text", s)] in
  VMap [("type", VString "modal"); ("callback_id", VString "argus_approval_decision");
    ("private_metadata", VString (action_value (sv_approval_id v) (sv_decision v)));
    ("title", text (if deny then "Deny remediation" else "Approve remediation")); ("submit", text (if deny then "Deny" else "Approve"));
    ("close", text "Cancel");
    ("blocks", VList [VMap [("type", VString "input"); ("block_id", VString "decision_reason"); ("label", text "Reason");
       ("element", VMap [("type", VString "plain_text_input"); ("action_id", VString "reason"); ("multiline", VBool true); ("min_length", VInt 8);
          ("max_length", VInt 500); ("placeholder", text "What evidence did you review, and why is this decision safe?")])]])].

Definition decode_bool (old : bool) (j : json) : result bool :=
  match j with JBool b => Ok b | JNull => Ok old | _ => Fail (errorf "json: cannot unmarshal into a bool") end.

Definition openReasonModal (s : SlackWorkflow) (triggerID : string) (v : slackActionValue) : M unit :=
  req <- wrap "create Slack modal request" (NewRequest (sw_client s) "POST" "https://slack.com/api/views.open"
    [("Authorization", "Bearer " +:+ sw_bot_token s); ("Content-Type", "application/json")]
    (Some (Marshalled (VMap [("trigger_id", VString triggerID); ("view", modal v)])))) ;;
  resp <- wrap "open Slack approval modal" (Do (sw_client s) req) ;;
  let answer := unmarshal_object (take_chars 2048 (hs_body resp)) in
  let ok := let! m := answer in let! _ := decode_field decode_string "error" "" m in decode_field decode_bool "ok" false m in
  let text := let! m := answer in decode_field decode_string "error" "" m in
  if (hs_code resp <? 200) || (300 <=? hs_code resp) || negb (match ok with Ok b => b | Fail _ => false end)
  then throw (errorf ("Slack rejected approval modal: " +:+ match text with Ok t => t | Fail _ => "" end))
  else ret tt.

Definition reason (s : SlackWorkflow) (c : slackCallback) : string :=
  let answers := filter (fun a => a <> "") (TrimSpace <$> sc_values c) in
  nth (sw_pick s answers mod length answers) answers "".

Definition slack_block_actions (s : SlackWorkflow) (c : slackCallback) : M (list (string * string)) :=
  match sc_actions c with
  | [raw] =>
      if sc_trigger_id c =?s "" then throw (errorf "invalid Slack approval action")
      else
        match (let! m := unmarshal_object raw in decode_action_value m) with
        | Fail _ => throw (errorf "invalid Slack approval action")
        | Ok v =>
            if (sv_approval_id v =?s "") || (negb (sv_decision v =?s DecisionApprove) && negb (sv_decision v =?s DecisionDeny))
            then throw (errorf "invalid Slack approval action")
            else
              openReasonModal s (sc_trigger_id c) v ;;;
              ret [("response_type", "ephemeral");
                   ("text", "Argus opened a reason prompt. The remediation remains blocked until it is submitted.")]
        end
  | _ => throw (errorf "invalid Slack approval action")
  end.

Definition slack_view_submission (s : SlackWorkflow) (c : slackCallback) (actor : string) : M (list (string * string)) :=
  match (let! m := unmarshal_object (sc_private_metadata c) in decode_action_value m) with
  | Fail _ => throw (errorf "invalid Slack approval metadata")
  | Ok v =>
      request <- Decide (sw_service s) (sv_approval_id v) actor "slack_user" (sv_decision v) (reason s c) "slack" ;;
      ret [("response_action", "clear"); ("approval_id", req_id request); ("status", req_status request); ("decided_by", actor)]
  end.

Definition Handle (s : SlackWorkflow) (headers : list (string * string)) (body : string) : M (list (string * string)) :=
  if negb (Enabled s) then throw (errorf "Slack approval callbacks are not configured")
  else
    time <- now ;;
    lift (verifySlackSignature (sw_signing_secret s) headers body time) ;;;
    match ParseQuery body with
    | None => throw (errorf "invalid Slack callback body")
    | Some values =>
        match (let! m := unmarshal_object (query_get values "payload") in decode_callback m) with
        | Fail _ => throw (errorf "invalid Slack callback payload")
        | Ok c =>
            match sw_approvers s !! sc_user_id c with
            | None => throw (errorf "Slack user is not an authorized Argus approver")
            | Some actor =>
                if sc_type c =?s "block_actions" then slack_block_actions s c
                else if sc_type c =?s "view_submission" then slack_view_submission s c actor
                else throw (errorf "unsupported Slack callback type")
            end
        end
    end.

(** ** Guarantees *)

Section transports.
Context (R : DB -> DB -> Prop) `{!Reflexive R, !Transitive R}.
Lemma NotifyWebhook_guar n r escalation : guar R (NotifyWebhook n r escalation).
Proof. unfold NotifyWebhook. handler_walk. Qed.
Lemma openReasonModal_guar s trigger v : guar R (openReasonModal s trigger v).
Proof. unfold openReasonModal. handler_walk. Qed.
End transports.
#[export] Hint Resolve NotifyWebhook_guar openReasonModal_guar : guar.

Lemma slack_block_actions_guar (R : DB -> DB -> Prop) `{!Reflexive R, !Transitive R} s c : guar R (slack_block_actions s c).
Proof. unfold slack_block_actions. handler_walk. Qed.

(** A callback signed with the secret, fresh, from a configured approver. *)
Record authentic (s : SlackWorkflow) (headers : list (string * string)) (body : string) (time : Z) (c : slackCallback) (actor : string) : Prop := {
  au_enabled : Enabled s = true;
  au_fresh : exists timestamp, ParseInt (header_get headers "X-Slack-Request-Timestamp") = Some timestamp /\
    -300 <= time / 10 ^ 9 - timestamp <= 300;
  au_signed : header_get headers "X-Slack-Signature" =
    slack_signature (sw_signing_secret s) (header_get headers "X-Slack-Request-Timestamp") body;
  au_payload : exists values m, ParseQuery body = Some values /\ unmarshal_object (query_get values "payload") = Ok m /\ decode_callback m = Ok c;
  au_approver : sw_approvers s !! sc_user_id c = Some actor;
}.

Lemma verifySlackSignature_ok secret headers body time :
  verifySlackSignature secret headers body time = Ok tt ->
  (exists timestamp, ParseInt (header_get headers "X-Slack-Request-Timestamp") = Some timestamp /\ -300 <= time / 10 ^ 9 - timestamp <= 300) /\
  header_get headers "X-Slack-Signature" = slack_signature secret (header_get headers "X-Slack-Request-Timestamp") body.
Proof.
  unfold verifySlackSignature. cbv zeta. destruct (ParseInt _) as [t|]; [|done]. destruct (_ || _) eqn:W; [done|].
  destruct (_ =?s slack_signature _ _ _) eqn:S; [|done]. intros _. apply orb_false_iff in W as [W1 W2]. apply Z.ltb_ge in W1, W2. reflect_tests.
  split; [|done]. exists t. split; [done|lia].
Qed.

(** ** Properties *)

(** C15: only a signed callback of a configured approver decides. Whatever a Slack
    callback carries, either the tables stay as they are, or the body is signed with the
    signing secret over its own timestamp, which is at most five minutes off, the user is
    a configured approver, and the change is that of [Decide] for the approval of the
    submitted form, with the approver's configured identity as its actor. *)
Theorem slack_callback_authentic s headers body e w :
  w_db (Handle s headers body e w).2 = w_db w \/
  exists c actor m v, authentic s headers body (e_now e) c actor /\ sc_type c = "view_submission" /\
    unmarshal_object (sc_private_metadata c) = Ok m /\ decode_action_value m = Ok v /\
    w_db (Handle s headers body e w).2 =
      w_db (Decide (sw_service s) (sv_approval_id v) actor "slack_user" (sv_decision v) (reason s c) "slack" e w).2.
Proof.
  destruct (Handle s headers body e w) as [r w'] eqn:H. simpl. unfold Handle in H. destruct (Enabled s) eqn:HE; [|left; by injection H as _ <-].
  simpl in H. unfold bind at 1, now in H. unfold bind at 1, lift in H.
  destruct (verifySlackSignature _ _ _ _) as [[]|] eqn:HV; [|left; by injection H as _ <-]. apply verifySlackSignature_ok in HV as [Hf Hs].
  destruct (ParseQuery body) as [values|] eqn:HQ; [|left; by injection H as _ <-].
  destruct (unmarshal_object (query_get values "payload")) as [m|] eqn:HU; [|left; by injection H as _ <-]. simpl in H.
  destruct (decode_callback m) as [c|] eqn:HC; [|left; by injection H as _ <-].
  destruct (sw_approvers s !! sc_user_id c) as [actor|] eqn:HA; [|left; by injection H as _ <-].
  destruct (sc_type c =?s "block_actions").
  { left. eapply unchanged, H. apply slack_block_actions_guar; typeclasses eauto. }
  destruct (sc_type c =?s "view_submission") eqn:HT; [|left; by injection H as _ <-]. unfold slack_view_submission in H.
  destruct (unmarshal_object (sc_private_metadata c)) as [mv|] eqn:HM; [|left; by injection H as _ <-]. simpl in H.
  destruct (decode_action_value mv) as [v|] eqn:HD; [|left; by injection H as _ <-]. right. exists c, actor, mv, v. reflect_tests.
  split_and!; try done; [split; try done; by exists values, m|]. unfold bind at 1 in H.
  destruct (Decide _ _ _ _ _ _ _ e w) as [[request|] w1]; by injection H as _ <-.
Qed.

Definition inert (c : ascii) : bool := negb (byte_of c <? 32) && negb (Ascii.eqb c "`") && negb (Ascii.eqb c "<") && negb (Ascii.eqb c ">").

(** Nothing in a request can forge Slack markup. An escaped text holds no control
    character, backquote or angle bracket, so no action, target or parameter of a request
    leaves its code span or writes a link or mention of its own. *)
Theorem slackEscape_inert s : all_chars inert (slackEscape s) = true.
Proof.
  induction s as [|c s IH]; [done|]. simpl. rewrite all_chars_app, IH, andb_true_r. unfold escape_byte.
  destruct (_ || _) eqn:D; [done|]. destruct (Ascii.eqb c "&"); [done|]. destruct (Ascii.eqb c "<") eqn:L; [done|].
  destruct (Ascii.eqb c ">") eqn:G; [done|]. apply orb_false_iff in D as [D1 D2]. simpl. unfold inert. by rewrite D1, D2, L, G.
Qed.

(** ** A signed approval *)

Fixpoint percent (s : string) : string := match s with "" => "" | String c r => "%" +:+ hexbyte c +:+ percent r end.
Definition demo_slack : result SlackWorkflow :=
  NewSlackWorkflow demo_service "shh" "xoxb" "U1=bob, U2 = alice" (mkHttpClient (fun _ => None) (fun _ _ => Fail (errorf "off")) (fun _ => 0) (fun _ => None))
    (fun _ => 0%nat).
Definition demo_submission (user : string) : string :=
  "payload=" +:+ percent (enc (JObj [("type", JStr "view_submission"); ("user", JObj [("id", JStr user)]);
    ("view", JObj [("private_metadata", JStr (action_value "apr_1" "approve"));
       ("state", JObj [("values", JObj [("decision_reason", JObj [("reason", JObj [("value", JStr " looks safe ")])])])])])])).
Definition demo_callback (user secret timestamp : string) : string :=
  match demo_slack with
  | Ok s => match (Handle s [("X-Slack-Request-Timestamp", timestamp); ("x-slack-signature", slack_signature secret timestamp (demo_submission user))]
                     (demo_submission user) quiet_env (demo_world later)).1 with
            | Ok out => header_get out "status" +:+ " by " +:+ header_get out "decided_by"
            | Fail err => err_text err
            end
  | Fail err => err_text err
  end.

Example slack_callbacks :
  [demo_callback "U1" "shh" "1709210000"; demo_callback "U1" "guess" "1709210000"; demo_callback "U1" "shh" "1709209700"] =
  ["approved by bob"; "invalid Slack request signature"; "Slack request timestamp is outside the replay window"].
Proof. vm_compute. reflexivity. Qed.
