(* ===== verification/Requests.v ===== *)
(** * Requests to the API ([internal/common/http.go] and the request types)

    A request as the handlers see it, a reply, and the decoding of JSON bodies. *)
From Stdlib Require Import Ascii String ZArith Lia.
From stdpp Require Import base gmap strings list.
From S2P Require Import Prelude GoStrings GoFloat GoValue Topology Json Marshal Ledger Types Database Http Auth.
Open Scope Z_scope.

Record ApiRequest := mkApiRequest {
  rq_method : string;
  rq_path : string;
  rq_query : list (string * string);
  rq_authorization : list string;
  rq_headers : list (string * string);
  rq_content_length : Z;
  rq_body : string;
}.

(** ** Times in bodies: [time.Time] reads RFC 3339 *)

(** The day count since 1970-01-01 of a civil date. *)
Definition days_from_civil (y m d : Z) : Z :=
  let y := if m <=? 2 then y - 1 else y in
  let era := y / 400 in
  let yoe := y mod 400 in
  let doy := (153 * (if 2 <? m then m - 3 else m + 9) + 2) / 5 + d - 1 in
  let doe := yoe * 365 + yoe / 4 - yoe / 100 + doy in
  era * 146097 + doe - 719468.

Definition leap (y : Z) : bool := (y mod 4 =? 0) && (negb (y mod 100 =? 0) || (y mod 400 =? 0)).
Definition month_length (y m : Z) : Z :=
  if m =? 2 then if leap y then 29 else 28 else if (m =? 4) || (m =? 6) || (m =? 9) || (m =? 11) then 30 else 31.

(** [n] digits at the front, no larger than [max]. *)
Definition fixed (n : nat) (min max : Z) (s : string) : option (Z * string) :=
  let t := take_chars n s in
  if negb (Nat.eqb (String.length t) n) then None
  else v ← digits_value 0 t; if (min <=? v) && (v <=? max) then Some (v, drop_chars n s) else None.
Definition after_char (c : ascii) (s : string) : option string :=
  match s with String x r => if Ascii.eqb x c then Some r else None | "" => None end.

Definition parse_fraction (s : string) : option (Z * string) :=
  match s with
  | String "." r =>
      let '(ds, rest) := span is_digit r in
      if ds =?s "" then None
      else n ← digits_value 0 (take_chars 9 (ds +:+ "00000000")); Some (n, rest)
  | _ => Some (0, s)
  end.

Definition parse_offset (s : string) : option Z :=
  match s with
  | String c r =>
      if Ascii.eqb c "Z" then if r =?s "" then Some 0 else None
      else if Ascii.eqb c "+" || Ascii.eqb c "-" then
        match fixed 2 0 23 r with
        | Some (h, r) =>
            r ← after_char ":" r;
            match fixed 2 0 59 r with
            | Some (m, r) => if r =?s "" then Some ((if Ascii.eqb c "-" then -1 else 1) * (h * 3600 + m * 60)) else None
            | None => None
            end
        | None => None
        end
      else None
  | "" => None
  end.

Definition parse_clock (s : string) : option (Z * string) :=
  match fixed 2 0 23 s with
  | Some (h, s) =>
      s ← after_char ":" s;
      match fixed 2 0 59 s with
      | Some (m, s) => s ← after_char ":" s; match fixed 2 0 59 s with Some (sec, s) => Some (h * 3600 + m * 60 + sec, s) | None => None end
      | None => None
      end
  | None => None
  end.

Definition parse_date (s : string) : option (Z * string) :=
  match fixed 4 0 9999 s with
  | Some (y, s) =>
      s ← after_char "-" s;
      match fixed 2 1 12 s with
      | Some (m, s) =>
          s ← after_char "-" s;
          match fixed 2 1 (month_length y m) s with Some (d, s) => Some (days_from_civil y m d, s) | None => None end
      | None => None
      end
  | None => None
  end.

Definition parse_rfc3339 (s : string) : option Z :=
  match parse_date s with
  | Some (days, s) =>
      s ← after_char "T" s;
      match parse_clock s with
      | Some (secs, s) =>
          match parse_fraction s with
          | Some (nanos, s) => offset ← parse_offset s; Some ((days * 86400 + secs - offset) * 10 ^ 9 + nanos)
          | None => None
          end
      | None => None
      end
  | None => None
  end.

Example times_read :
  parse_rfc3339 <$> ["0001-01-01T00:00:00Z"; "2024-02-29T12:34:56.1203Z"; "2024-02-29T14:34:56.120300001234+02:00"; "2023-02-29T00:00:00Z";
    "2024-01-01T24:00:00Z"; "2024-01-01T00:00:00"] =
  [Some zero_time; Some (1709210096 * 10 ^ 9 + 120300000); Some (1709210096 * 10 ^ 9 + 120300001); None; None; None].
Proof. vm_compute. reflexivity. Qed.

(** ** Bodies *)

Definition too_large (limit : Z) : error := mkError KTooLarge ("request body exceeds " +:+ itoa limit +:+ " bytes").

(** The first JSON value of the body, of which [http.MaxBytesReader] lets [limit] bytes
    through; a value cut off there is too large. *)
Definition read_value (limit : Z) (body : string) : result json :=
  let seen := take_chars (Z.to_nat limit) body in
  match Decode seen with
  | Some j => Ok j
  | None =>
      if limit <? Z.of_nat (String.length body) then Fail (too_large limit)
      else if skip_ws seen =?s "" then Fail (errorf "EOF")
      else Fail (errorf "invalid JSON text")
  end.

Definition members_of (j : json) : result (list (string * json)) :=
  match j with
  | JObj m => Ok m
  | JNull => Ok []
  | _ => Fail (errorf "json: cannot unmarshal into a struct")
  end.

(** [ReadJSON]: a member that names no field is an error. *)
Definition ReadJSON {A} (limit : Z) (fields : list string) (decode : list (string * json) -> result A) (body : string) : result A :=
  let! j := read_value limit body in
  let! m := members_of j in
  match List.find (fun kv => negb (existsb (EqualFold kv.1) fields)) m with
  | Some (name, _) => Fail (errorf ("json: unknown field " +:+ Quote name))
  | None => decode m
  end.

(** [ReadExternalJSON]: unknown members are skipped. *)
Definition ReadExternalJSON {A} (limit : Z) (decode : list (string * json) -> result A) (body : string) : result A :=
  let! j := read_value limit body in
  let! m := members_of j in
  decode m.

Definition text (m : list (string * json)) (name : string) : result string := decode_field decode_string name "" m.
Definition decode_flag (old : bool) (j : json) : result bool :=
  match j with JBool b => Ok b | JNull => Ok old | _ => Fail (errorf "json: cannot unmarshal into a bool") end.
(** Into an [int]: a number without fraction or exponent that fits. *)
Definition decode_int (old : Z) (j : json) : result Z :=
  match j with
  | JNum s => match ParseInt s with Some z => Ok z | None => Fail (errorf ("json: cannot unmarshal number " +:+ s)) end
  | JNull => Ok old
  | _ => Fail (errorf "json: cannot unmarshal into an int")
  end.
Definition decode_time (old : Z) (j : json) : result Z :=
  match j with
  | JStr s => match parse_rfc3339 s with Some t => Ok t | None => Fail (errorf "parsing time") end
  | JNull => Ok old
  | _ => Fail (errorf "Time.UnmarshalJSON: input is not a JSON string")
  end.
Definition label_map (m : list (string * json)) (name : string) : result (gmap string string) :=
  let! labels := decode_field decode_string_map name None m in Ok (default ∅ labels).

Definition decode_alert (j : json) : result AlertmanagerAlert :=
  match j with
  | JNull => Ok (mkAlertmanagerAlert "" ∅ ∅ zero_time zero_time "" "")
  | JObj m =>
      let! status := text m "status" in
      let! labels := label_map m "labels" in
      let! annotations := label_map m "annotations" in
      let! startsAt := decode_field decode_time "startsAt" zero_time m in
      let! endsAt := decode_field decode_time "endsAt" zero_time m in
      let! fingerprint := text m "fingerprint" in
      let! generatorURL := text m "generatorURL" in
      Ok (mkAlertmanagerAlert status labels annotations startsAt endsAt fingerprint generatorURL)
  | _ => Fail (errorf "json: cannot unmarshal into a struct")
  end.

Definition decode_webhook (m : list (string * json)) : result AlertmanagerWebhook :=
  let! version := text m "version" in
  let! groupKey := text m "groupKey" in
  let! truncated := decode_field decode_int "truncatedAlerts" 0 m in
  let! status := text m "status" in
  let! receiver := text m "receiver" in
  let! externalURL := text m "externalURL" in
  let! groupLabels := label_map m "groupLabels" in
  let! commonLabels := label_map m "commonLabels" in
  let! commonAnnotations := label_map m "commonAnnotations" in
  let! alerts := decode_field (decode_list decode_alert) "alerts" [] m in
  Ok (mkAlertmanagerWebhook version groupKey truncated status receiver externalURL groupLabels commonLabels commonAnnotations alerts).

Definition decode_manual_incident (m : list (string * json)) : result ManualIncidentRequest :=
  let! title := text m "title" in
  let! service := text m "service" in
  let! severity := text m "severity" in
  let! summary := text m "summary" in
  Ok (mkManualIncidentRequest title service severity summary).

Definition decode_dependency (m : list (string * json)) : result ServiceDependencyRequest :=
  let! service := text m "service" in
  let! dependsOn := text m "depends_on" in
  let! dependencyType := text m "dependency_type" in
  let! criticality := text m "criticality" in
  Ok (mkServiceDependencyRequest service dependsOn dependencyType criticality).

Record ApprovalDecision := mkApprovalDecision { ad_decision : string; ad_reason : string }.
Definition decode_decision (m : list (string * json)) : result ApprovalDecision :=
  let! decision := text m "decision" in
  let! reason := text m "reason" in
  Ok (mkApprovalDecision decision reason).

Record ManualSignal := mkManualSignal { ms_scenario : string; ms_service : string; ms_severity : string }.
Definition decode_manual_signal (m : list (string * json)) : result ManualSignal :=
  let! scenario := text m "scenario" in
  let! service := text m "service" in
  let! severity := text m "severity" in
  Ok (mkManualSignal scenario service severity).

Definition decode_one_text (name : string) (m : list (string * json)) : result string := text m name.
