(* ===== verification/Times.v ===== *)
(** * Instants on the wire

    What [time.Time] writes, it reads: the calendar of [RFC3339Nano] and of
    [parse_rfc3339] are inverse to each other, and so are their digits. *)
From Stdlib Require Import Ascii String ZArith Lia.
From stdpp Require Import base strings list pretty.
From S2P Require Import Prelude GoStrings GoFloat Regexp Json Marshal Requests.
Open Scope Z_scope.

(** ** The calendar *)

Ltac euclid := Z.to_euclidean_division_equations; lia.

(** The year of an era that a day of it falls in, counted from March: the day is one of
    that year, and only a leap year, which ends in February, has a day 365. *)
Lemma year_of_day doe : 0 <= doe < 146097 ->
  let yoe := (doe - doe / 1460 + doe / 36524 - doe / 146096) / 365 in
  let doy := doe - (365 * yoe + yoe / 4 - yoe / 100) in
  0 <= yoe < 400 /\ 0 <= doy < 366 /\ (doy = 365 -> leap (yoe + 1) = true).
Proof.
  intros H yoe doy. assert (0 <= yoe < 400 /\ 0 <= doy < 366) as [Hy Hd] by (subst yoe doy; euclid).
  split; [done|]. split; [done|]. intros E. unfold leap.
  assert ((yoe + 1) mod 4 = 0 /\ ((yoe + 1) mod 100 <> 0 \/ (yoe + 1) mod 400 = 0)) as [H4 H100].
  { subst yoe doy. euclid. }
  rewrite H4. simpl. destruct ((yoe + 1) mod 100 =? 0) eqn:E1; [|done]. simpl. apply Z.eqb_eq in E1. apply Z.eqb_eq. lia.
Qed.

(** The month and day of a day of such a year. *)
Lemma month_of_day doy : 0 <= doy < 366 ->
  let mp := (5 * doy + 2) / 153 in
  let m := if mp <? 10 then mp + 3 else mp - 9 in
  let d := doy - (153 * mp + 2) / 5 + 1 in
  1 <= m <= 12 /\ 1 <= d <= 31 /\ (if 2 <? m then m - 3 else m + 9) = mp /\ (m = 2 -> d <= 29 /\ (d = 29 -> doy = 365)) /\
  (m = 4 \/ m = 6 \/ m = 9 \/ m = 11 -> d <= 30).
Proof.
  intros H mp. assert (0 <= mp <= 11) as Hm by (subst mp; euclid). cbv zeta.
  assert (1 <= doy - (153 * mp + 2) / 5 + 1 <= 31) as Hd by (subst mp; euclid). split; [case_match; reflect_tests; lia|]. split; [done|].
  split; [repeat case_match; reflect_tests; lia|].
  assert (mp = 11 -> doy - (153 * mp + 2) / 5 + 1 <= 29 /\ (doy - (153 * mp + 2) / 5 + 1 = 29 -> doy = 365)) as H11 by (subst mp; euclid).
  assert (mp = 1 \/ mp = 3 \/ mp = 6 \/ mp = 8 -> doy - (153 * mp + 2) / 5 + 1 <= 30) as H30 by (subst mp; euclid).
  split; intros HM; [apply H11|apply H30]; destruct (Z.ltb_spec mp 10); lia.
Qed.

Lemma leap_era y k : leap (y + k * 400) = leap y.
Proof.
  unfold leap. replace (y + k * 400) with (y + (k * 100) * 4) at 1 by lia. rewrite Z.mod_add by lia.
  replace (y + k * 400) with (y + (k * 4) * 100) at 1 by lia. rewrite !Z.mod_add by lia. reflexivity.
Qed.

(** A day and its civil date. *)
Lemma civil_day days : let '(y, m, d) := civil days in days_from_civil y m d = days /\ 1 <= m <= 12 /\ 1 <= d <= month_length y m.
Proof.
  unfold civil. set (z := days + 719468). set (doe := z mod 146097). set (era := z / 146097).
  assert (0 <= doe < 146097) as HD by (apply Z.mod_pos_bound; lia).
  pose proof (year_of_day doe HD) as HY. cbv zeta in HY. set (yoe := (doe - doe / 1460 + doe / 36524 - doe / 146096) / 365) in *.
  set (doy := doe - (365 * yoe + yoe / 4 - yoe / 100)) in *. destruct HY as (Hy & Hd & HL).
  pose proof (month_of_day doy Hd) as HM. cbv zeta in HM. set (mp := (5 * doy + 2) / 153) in *.
  set (m := if mp <? 10 then mp + 3 else mp - 9) in *. set (d := doy - (153 * mp + 2) / 5 + 1) in *.
  destruct HM as (H1 & H2 & H3 & H4 & H5). split; [|split; [done|]].
  - unfold days_from_civil. rewrite H3.
    assert ((if m <=? 2 then yoe + era * 400 + (if m <=? 2 then 1 else 0) - 1 else yoe + era * 400 + (if m <=? 2 then 1 else 0)) = yoe + era * 400) as ->
      by (destruct (m <=? 2); lia).
    rewrite Z.div_add, Z.mod_add, Z.div_small, Z.mod_small by lia. subst doy d. pose proof (Z.div_mod z 146097). unfold z in *. lia.
  - split; [lia|]. unfold month_length. destruct (Z.eqb_spec m 2) as [E|E].
    + destruct (H4 E) as [H6 H7]. rewrite E. replace (yoe + era * 400 + (if 2 <=? 2 then 1 else 0)) with (yoe + 1 + era * 400) by (simpl; lia).
      rewrite leap_era. destruct (leap (yoe + 1)) eqn:HE; [lia|]. assert (d <> 29) by (intros Hx; pose proof (HL (H7 Hx)); congruence). lia.
    + destruct (_ || _) eqn:E4; [|lia]. apply H5. repeat (apply orb_true_iff in E4 as [E4|E4]); apply Z.eqb_eq in E4; auto 6.
Qed.

(** ** Digits *)

Lemma pretty_length x : forall k s, (x < 10 ^ N.of_nat k)%N -> (String.length (pretty_N_go x s) <= k + String.length s)%nat.
Proof.
  induction (N.lt_wf_0 x) as [x _ IH]; intros k s H. assert (x = 0 \/ 0 < x)%N as [->|Hx] by lia; [rewrite pretty_N_go_0; lia|].
  destruct k as [|k]; [simpl in H; lia|]. rewrite pretty_N_go_step by done. rewrite Nat2N.inj_succ, N.pow_succ_r' in H.
  etrans; [apply (IH (x / 10)%N) with (k := k); [by apply N.div_lt|apply N.Div0.div_lt_upper_bound; lia]|]. simpl. lia.
Qed.

Lemma itoa_nonneg z : 0 <= z -> itoa z = pretty_N (Z.to_N z).
Proof. destruct z as [|p|p]; [done| |lia]. intros _. done. Qed.

Lemma itoa_length z k : 0 <= z < 10 ^ Z.of_nat k -> (0 < k)%nat -> (String.length (itoa z) <= k)%nat.
Proof.
  intros H Hk. rewrite itoa_nonneg by lia. unfold pretty_N. case_decide; [simpl; lia|].
  etrans; [apply (pretty_length _ k)|simpl; lia].  apply N2Z.inj_lt. rewrite Z2N.id, N2Z.inj_pow, nat_N_Z by lia. change (Z.of_N 10) with 10. lia.
Qed.

Notation zeros n := (String.concat "" (repeat "0" n)).
Lemma zeros_S n : zeros (S n) = String "0" (zeros n).
Proof. by destruct n. Qed.
Lemma zeros_length n : String.length (zeros n) = n.
Proof. induction n as [|n IH]; [done|]. rewrite zeros_S. simpl. by rewrite IH. Qed.
Lemma zeros_value n s : digits_value 0 (zeros n +:+ s) = digits_value 0 s.
Proof. induction n as [|n IH]; [done|]. by rewrite zeros_S. Qed.

Lemma pad_length n v : (0 < n)%nat -> 0 <= v < 10 ^ Z.of_nat n -> String.length (pad n v) = n.
Proof. intros Hn Hv. unfold pad, pad_zeros. pose proof (itoa_length v n Hv Hn). rewrite length_app_string, zeros_length. lia. Qed.
Lemma pad_value n v : 0 <= v -> digits_value 0 (pad n v) = Some v.
Proof.
  intros Hv. unfold pad, pad_zeros. rewrite zeros_value, itoa_nonneg by done. destruct (itoa_digits (Z.to_N v)) as (c & r & -> & _ & ->).
  by rewrite Z2N.id.
Qed.
Lemma value_digits s : forall acc v, digits_value acc s = Some v -> all_chars is_digit s = true.
Proof. induction s as [|c s IH]; simpl; intros acc v H; [done|]. destruct (is_digit c); [by eapply IH|done]. Qed.
Lemma take_chars_app a b : take_chars (String.length a) (a +:+ b) = a.
Proof. induction a as [|c a IH]; simpl; [by destruct b|]. by rewrite IH. Qed.

Lemma fixed_pad n v lo hi rest : (0 < n)%nat -> 0 <= v < 10 ^ Z.of_nat n -> lo <= v <= hi -> fixed n lo hi (pad n v +:+ rest) = Some (v, rest).
Proof.
  intros Hn Hv Hb. unfold fixed. pose proof (pad_length n v Hn Hv) as HL. cbv zeta.
  assert (take_chars n (pad n v +:+ rest) = pad n v /\ drop_chars n (pad n v +:+ rest) = rest) as [-> ->].
  { generalize dependent (pad n v). intros s <-. split; [apply take_chars_app|apply drop_chars_app]. }
  rewrite HL, Nat.eqb_refl, pad_value by lia. simpl. by rewrite (proj2 (Z.leb_le lo v)), (proj2 (Z.leb_le v hi)) by lia.
Qed.
Lemma after_char_cons c s : after_char c (String c "" +:+ s) = Some s.
Proof. unfold after_char. simpl. by rewrite Ascii.eqb_refl. Qed.

(** ** Fractions *)

Lemma TrimRight_zeros s : exists k, s = TrimRight s "0" +:+ zeros k.
Proof.
  induction s as [|c s [k IH]]; [by exists O|]. simpl. destruct (TrimRight s "0") as [|x y] eqn:E.
  - destruct (Ascii.eqb_spec c "0") as [->|]; [exists (S k); rewrite zeros_S, string_app_nil in *; congruence|exists k; rewrite string_app_cons; congruence].
  - exists k. rewrite string_app_cons. congruence.
Qed.

Lemma parse_fraction_written nanos : 0 <= nanos < 10 ^ 9 -> parse_fraction (fraction nanos +:+ "Z") = Some (nanos, "Z").
Proof.
  intros Hn. unfold fraction. destruct (Z.eqb_spec nanos 0) as [->|Hz]; [done|]. pose proof (pad_length 9 nanos ltac:(lia) Hn) as HL.
  pose proof (pad_value 9 nanos ltac:(lia)) as HV. destruct (TrimRight_zeros (pad 9 nanos)) as [k HK]. set (ds := TrimRight (pad 9 nanos) "0") in *.
  assert (all_chars is_digit ds = true) as HD by (apply value_digits in HV; rewrite HK, all_chars_app in HV; by apply andb_true_iff in HV as [? _]).
  rewrite HK, length_app_string, zeros_length in HL. rewrite string_app_assoc. change ("." +:+ (ds +:+ "Z")) with (String "." (ds +:+ "Z")). unfold parse_fraction.
  cbv beta iota. rewrite (span_app is_digit ds "Z" HD eq_refl).
  assert (ds <> "") as Hd. { intros E. rewrite E in HK. assert (pad 9 nanos = zeros k +:+ "") as HP by (rewrite HK; by rewrite string_app_nil, string_app_nil_r). 
    rewrite HP, zeros_value in HV. simpl in HV. congruence. }
  rewrite (proj2 (String.eqb_neq _ _) Hd). assert (take_chars 9 (ds +:+ "00000000") = pad 9 nanos) as ->; [|by rewrite HV].
  assert (String.length ds <> 0%nat) by (by destruct ds). assert (k <= 8)%nat as Hk by lia.
  assert ("00000000" = zeros k +:+ zeros (8 - k)) as -> by (do 9 (destruct k as [|k]; [done|]); lia).
  rewrite <- string_app_assoc, <- HK. rewrite <- (take_chars_app (pad 9 nanos) (zeros (8 - k))) at 2. f_equal. by rewrite HK, length_app_string, zeros_length.
Qed.

(** ** Instants *)

(** The instants whose year has four digits, those [time.Time] marshals. *)
Definition marshals (t : Z) : bool := (-62167219200 * 10 ^ 9 <=? t) && (t <? 253402300800 * 10 ^ 9).

Lemma civil_year days : -719528 <= days < 2932897 -> 0 <= (civil days).1.1 <= 9999.
Proof.
  intros H. unfold civil. set (z := days + 719468). set (doe := z mod 146097). set (era := z / 146097).
  assert (0 <= doe < 146097) as HD by (apply Z.mod_pos_bound; lia).
  assert (z = 146097 * era + doe) as HZ by (apply Z.div_mod; lia). assert (z = days + 719468) as HZ' by done.
  assert (-1 <= era <= 24) as HE by lia.
  pose proof (year_of_day doe HD) as HY. cbv zeta in HY. set (yoe := (doe - doe / 1460 + doe / 36524 - doe / 146096) / 365) in *.
  set (doy := doe - (365 * yoe + yoe / 4 - yoe / 100)) in *. destruct HY as (Hy & Hd & _). set (mp := (5 * doy + 2) / 153). cbn [fst].
  assert ((if (if mp <? 10 then mp + 3 else mp - 9) <=? 2 then 1 else 0) = if mp <? 10 then 0 else 1) as ->.
  { assert (0 <= mp <= 11) by (subst mp; euclid). repeat case_match; reflect_tests; lia. }
  assert (yoe = 399 -> doe = 145731 + doy) as H399 by (intros E; subst doy; clearbody yoe; subst yoe; euclid).
  assert (yoe < 399 -> doe <= 145731) as H398 by (intros E; subst doy; clearbody yoe; euclid).
  assert (mp < 10 <-> doy < 306) as HM by (subst mp; split; intros; euclid).
  destruct (Z.ltb_spec mp 10); lia.
Qed.

(** A marshalled instant is read back exactly. *)
Lemma RFC3339Nano_read t : marshals t = true -> parse_rfc3339 (RFC3339Nano t) = Some t.
Proof.
  intros [Ht1%Z.leb_le Ht2%Z.ltb_lt]%andb_true_iff. unfold RFC3339Nano. set (secs := t / 10 ^ 9). set (s := secs mod 86400).
  assert (t = 10 ^ 9 * secs + t mod 10 ^ 9) as HT by (apply Z.div_mod; lia). pose proof (Z.mod_pos_bound t (10 ^ 9) ltac:(lia)) as HN.
  assert (secs = 86400 * (secs / 86400) + s) as HS by (apply Z.div_mod; lia). pose proof (Z.mod_pos_bound secs 86400 ltac:(lia) : 0 <= s < 86400) as Hs.
  pose proof (civil_day (secs / 86400)) as HC. pose proof (civil_year (secs / 86400) ltac:(lia)) as HY.
  destruct (civil (secs / 86400)) as [[y m] d]. destruct HC as (HC & Hm & Hd). simpl in HY.
  assert (month_length y m <= 31) by (unfold month_length; repeat case_match; lia).
  assert (0 <= s / 3600 < 24 /\ 0 <= s / 60 mod 60 < 60 /\ 0 <= s mod 60 < 60 /\ s / 3600 * 3600 + s / 60 mod 60 * 60 + s mod 60 = s) as (Hh & Hi & Hx & HK)
    by (clearbody s; euclid).
  unfold parse_rfc3339, parse_date, parse_clock.
  repeat (first [rewrite fixed_pad by (simpl; lia)|rewrite after_char_cons]; cbn [mbind option_bind]; cbv iota).
  rewrite parse_fraction_written by done. cbn [mbind option_bind parse_offset]. simpl. f_equal. rewrite HK, HC. lia.
Qed.

Lemma ParseUint_itoa z : 0 <= z < 2 ^ 64 -> ParseUint (itoa z) = Some z.
Proof.
  intros Hz. rewrite itoa_nonneg by lia. destruct (itoa_digits (Z.to_N z)) as (c & r & -> & _ & HV). unfold ParseUint.
  change (String c r =?s "") with false. cbv iota. rewrite HV, Z2N.id by lia. simpl. by rewrite (proj2 (Z.ltb_lt _ _)) by lia.
Qed.
