(* ===== verification/DeadLetters.v ===== *)
(** * Dead letters and streams ([internal/queue/deadletters.go], [nats.go])

    The dead-letter stream as the API reads it. JetStream is a server outside the
    sources: which messages a stream holds, and which calls fail, is its answer. *)
From Stdlib Require Import Ascii String ZArith Lia.
From stdpp Require Import base gmap strings list.
From S2P Require Import Prelude GoStrings GoValue Json Marshal Types Database Http Transports Auth Requests.
Open Scope Z_scope.

Definition RemediationStream : string := "ARGUS_REMEDIATION".
Definition DeadLetterStream : string := "ARGUS_DEAD_LETTER".
Definition DeadLetterSubject : string := "argus.dlq.remediation".
Definition RemediationRetention : Z := 7 * 24 * hour.
Definition DuplicateWindow : Z := 10 * minute.
Definition DeadLetterRetention : Z := 30 * 24 * hour.
Definition maxDeliveriesAdvisory : string := "$JS.EVENT.ADVISORY.CONSUMER.MAX_DELIVERIES." +:+ RemediationStream +:+ ".>".

Record StreamMessage := mkStreamMessage {
  sm_sequence : Z;
  sm_subject : string;
  sm_headers : list (string * string);
  sm_data : string;
  sm_time : Z;
}.
Record StreamConfig := mkStreamConfig { st_name : string; st_subjects : list string; st_max_age : Z; st_duplicates : Z }.
Record StreamInfo := mkStreamInfo { si_config : StreamConfig; si_msgs : Z; si_first_seq : Z; si_last_seq : Z; si_consumers : Z }.

(** The calls of the client, each the [n]-th effect of its handler; [None] is not found. *)
Record JetStream := mkJetStream {
  js_info : nat -> string -> result (option StreamInfo);
  js_get : nat -> string -> Z -> result (option StreamMessage);
  js_delete_msg : nat -> string -> Z -> result bool;
  js_delete_stream : nat -> string -> result bool;
  js_add : nat -> StreamConfig -> result unit;
  js_update : nat -> StreamConfig -> result unit;
}.
Definition call {A} (f : nat -> result A) : M A := fun _ w => (f (w_tick w), tick w).

Definition DeadLetterJob : string := "job".
Definition DeadLetterAdvisory : string := "max_deliveries_advisory".

Record DeadLetter := mkDeadLetter {
  dl_sequence : Z;
  dl_kind : string;
  dl_reason : string;
  dl_received_at : Z;
  dl_original_stream : string;
  dl_original_sequence : Z;
  dl_deliveries : Z;
  dl_remediation_id : string;
  dl_data : string;
}.

Definition ErrDeadLetterNotFound (seq : Z) : error := mkError KDeadLetterNotFound ("dead letter not found: sequence " +:+ itoa seq).

(** [json.Unmarshal] into an [Event]: every field must fit. *)
Definition payload_member (old : option (list (string * json))) (j : json) : result (option (list (string * json))) :=
  match j with JObj m => Ok (Some (default [] old ++ m)) | JNull => Ok None | _ => Fail (errorf "json: cannot unmarshal into a map") end.
Definition event_payload (m : list (string * json)) : result (list (string * json)) :=
  let! _ := text m "event_id" in
  let! _ := text m "event_type" in
  let! _ := decode_field decode_time "occurred_at" zero_time m in
  let! _ := text m "producer" in
  let! _ := text m "trace_id" in
  let! _ := text m "idempotency_key" in
  let! payload := decode_field payload_member "payload" None m in
  Ok (default [] payload).

Definition remediationID (data : string) : string :=
  match (let! m := unmarshal_object data in event_payload m) with
  | Ok payload => match last (filter (fun kv => kv.1 = "remediation_id") payload) with Some (_, JStr id) => id | _ => "" end
  | Fail _ => ""
  end.

(** A number of the advisory; what does not fit leaves zero. *)
Definition decode_uint (old : Z) (j : json) : result Z :=
  match j with
  | JNum s => match ParseUint s with Some z => Ok z | None => Fail (errorf "json: cannot unmarshal number") end
  | JNull => Ok old
  | _ => Fail (errorf "json: cannot unmarshal into a uint64")
  end.
Definition lenient {A} (r : result A) (zero : A) : A := match r with Ok a => a | Fail _ => zero end.

Definition valid_json (s : string) : bool := match Unmarshal s with Some _ => true | None => false end.

(** [nats.Header.Get]: the first value of that very name. *)
Definition message_header (headers : list (string * string)) (name : string) : string :=
  default "" (snd <$> List.find (fun kv => kv.1 =?s name) headers).

Definition GetDeadLetter (js : JetStream) (seq : Z) : M DeadLetter :=
  found <- wrap ("read dead letter " +:+ itoa seq) (call (fun n => js_get js n DeadLetterStream seq)) ;;
  match found with
  | None => throw (ErrDeadLetterNotFound seq)
  | Some msg =>
      let data := if valid_json (sm_data msg) then sm_data msg else enc (JStr (sm_data msg)) in
      if HasPrefix (sm_subject msg) "$JS.EVENT.ADVISORY." then
        let m := lenient (unmarshal_object (sm_data msg)) [] in
        let stream := lenient (decode_field decode_string "stream" "" m) "" in
        let streamSeq := lenient (decode_field decode_uint "stream_seq" 0 m) 0 in
        let deliveries := lenient (decode_field decode_uint "deliveries" 0 m) 0 in
        remediation <- (if negb (stream =?s "") && (0 <? streamSeq)
          then original <- attempt (call (fun n => js_get js n stream streamSeq)) ;;
               ret (match original with Ok (Some original) => remediationID (sm_data original) | _ => "" end)
          else ret "") ;;
        ret (mkDeadLetter (sm_sequence msg) DeadLetterAdvisory "max_deliveries" (sm_time msg) stream streamSeq deliveries remediation data)
      else
        let header := message_header (sm_headers msg) in
        ret (mkDeadLetter (sm_sequence msg) DeadLetterJob (header "Argus-Dead-Letter-Reason") (sm_time msg) (header "Argus-Original-Stream")
          (default 0 (ParseUint (header "Argus-Stream-Sequence"))) (default 0 (ParseUint (header "Argus-Deliveries")))
          (remediationID (sm_data msg)) data)
  end.

Definition maxScan : nat := 10000.

(** The loop from sequence [seq] on: [fuel] sequences at most, and [limit] letters. *)
Fixpoint scan_letters (fuel : nat) (js : JetStream) (seq last limit : Z) : M (list DeadLetter) :=
  match fuel with
  | O => ret []
  | S fuel =>
      if negb ((seq <=? last) && (0 <? limit)) then ret []
      else
        letter <- attempt (GetDeadLetter js seq) ;;
        match letter with
        | Ok letter => rest <- scan_letters fuel js ((seq + 1) mod 2 ^ 64) last (limit - 1) ;; ret (letter :: rest)
        | Fail err =>
            if bool_decide (err_kind err = KDeadLetterNotFound) then scan_letters fuel js ((seq + 1) mod 2 ^ 64) last limit else throw err
        end
  end.

Definition stream_info (js : JetStream) (prefix name : string) : M StreamInfo :=
  info <- wrap prefix (call (fun n => js_info js n name)) ;;
  match info with Some info => ret info | None => throw (errorf (prefix +:+ ": nats: stream not found")) end.

Definition ListDeadLetters (js : JetStream) (limit : Z) : M (list DeadLetter) :=
  info <- stream_info js "inspect dead-letter stream" DeadLetterStream ;;
  if si_msgs info =? 0 then ret []
  else scan_letters maxScan js (si_first_seq info) (si_last_seq info) limit.

Definition DeleteDeadLetter (js : JetStream) (seq : Z) : M unit :=
  deleted <- wrap ("delete dead letter " +:+ itoa seq) (call (fun n => js_delete_msg js n DeadLetterStream seq)) ;;
  if (deleted : bool) then ret tt else throw (ErrDeadLetterNotFound seq).

(** ** Streams *)

Definition StreamConfigs : list StreamConfig :=
  [mkStreamConfig RemediationStream ["remediation.*"] RemediationRetention DuplicateWindow;
   mkStreamConfig DeadLetterStream ["argus.dlq.>"; maxDeliveriesAdvisory] DeadLetterRetention DuplicateWindow].

Definition ensure_stream (js : JetStream) (want : StreamConfig) : M unit :=
  info <- wrap ("inspect stream " +:+ st_name want) (call (fun n => js_info js n (st_name want))) ;;
  match info with
  | None => wrap ("create stream " +:+ st_name want) (call (fun n => js_add js n want))
  | Some info =>
      let got := si_config info in
      if (st_max_age got =? st_max_age want) && (st_duplicates got =? st_duplicates want) && bool_decide (st_subjects got = st_subjects want)
      then ret tt
      else wrap ("update stream " +:+ st_name want)
        (call (fun n => js_update js n (mkStreamConfig (st_name got) (st_subjects want) (st_max_age want) (st_duplicates want))))
  end.
Definition EnsureStreams (js : JetStream) : M unit := for_each StreamConfigs (ensure_stream js).

Definition LegacyStreams : list string := ["ARGUS_INCIDENTS"; "ARGUS_RCA"; "ARGUS_AUDIT"].
Record LegacyStreamReport := mkLegacyReport { lr_deleted : list string; lr_kept : gmap string Z }.

Fixpoint retire (js : JetStream) (names : list string) (report : LegacyStreamReport) : M LegacyStreamReport :=
  match names with
  | [] => ret report
  | name :: names =>
      info <- wrap ("inspect legacy stream " +:+ name) (call (fun n => js_info js n name)) ;;
      match info with
      | None => retire js names report
      | Some info =>
          if (0 <? si_msgs info) || (0 <? si_consumers info) then
            retire js names (mkLegacyReport (lr_deleted report) (<[name := si_msgs info]> (lr_kept report)))
          else
            wrap ("delete legacy stream " +:+ name) (call (fun n => js_delete_stream js n name)) ;;;
            retire js names (mkLegacyReport (lr_deleted report ++ [name]) (lr_kept report))
      end
  end.
Definition RetireLegacyStreams (js : JetStream) : M LegacyStreamReport := retire js LegacyStreams (mkLegacyReport [] ∅).
