(* ===== verification/Wire.v ===== *)
(** * Jobs on the wire ([internal/queue/nats.go], [internal/workers/runner.go])

    The bytes of a job: how an event is marshalled for the stream and read by a worker,
    and what a worker that gives a job up republishes for the dead-letter routes to read.
    The other files hand events over as records; here nothing is lost on the way. *)
From Stdlib Require Import Ascii String ZArith Lia.
From stdpp Require Import base gmap strings list.
From S2P Require Import Prelude GoStrings GoFloat GoValue Regexp Json Marshal Types Database Http Transports Auth Requests Times AuditLog Lifecycle Approvals DeadLetters Dispatch Workers.
Open Scope Z_scope.

(** ** Events *)

Definition omitempty (name s : string) : list (string * json) := if s =?s "" then [] else [(name, JStr s)].

(** [json.Marshal(event)]: an error for an instant whose year has not four digits, and
    for a payload that has no JSON. *)
Definition MarshalEvent (event : Event) : option string :=
  if negb (marshals (evt_occurred_at event)) then None
  else
    payload ← map_to_json (Some (evt_payload event));
    Some (enc (JObj ([("event_id", JStr (evt_id event)); ("event_type", JStr (evt_type event));
      ("occurred_at", JStr (RFC3339Nano (evt_occurred_at event))); ("producer", JStr (evt_producer event))]
      ++ omitempty "trace_id" (evt_trace_id event) ++ omitempty "idempotency_key" (evt_idempotency_key event)
      ++ [("payload", canonical payload)]))).

(** [json.Unmarshal(data, &event)]: every field must fit, the last member of a name stays. *)
Definition any_map (m : list (string * json)) : params := list_to_map (rev ((fun kv => (kv.1, json_value (canonical kv.2))) <$> m)).
Definition decode_event (m : list (string * json)) : result Event :=
  let! id := text m "event_id" in
  let! type := text m "event_type" in
  let! occurredAt := decode_field decode_time "occurred_at" zero_time m in
  let! producer := text m "producer" in
  let! traceID := text m "trace_id" in
  let! key := text m "idempotency_key" in
  let! payload := decode_field payload_member "payload" None m in
  Ok (mkEvent id type occurredAt producer traceID key (any_map (default [] payload))).
Definition UnmarshalEvent (data : string) : option Event :=
  match (let! m := unmarshal_object data in decode_event m) with Ok event => Some event | Fail _ => None end.

(** ** Messages *)

Record Publication := mkPublication { pb_subject : string; pb_headers : list (string * string); pb_data : string }.

(** What [Publish] sends. *)
Definition event_message (subject : string) (event : Event) : option Publication :=
  data ← MarshalEvent event;
  Some (mkPublication subject
    (("Content-Type", "application/json") :: (if evt_id event =?s "" then [] else [("Nats-Msg-Id", evt_id event)])) data).

(** A message as a consumer gets it; what JetStream says of it can be missing. *)
Record Metadata := mkMetadata { md_stream : string; md_sequence : Z; md_delivered : Z }.
Record Delivery := mkDelivery { dv_subject : string; dv_data : string; dv_metadata : option Metadata }.
Definition deliveries (d : Delivery) : Z := match dv_metadata d with Some meta => md_delivered meta | None => 1 end.
Definition job_message (d : Delivery) : Msg := mkMsg (UnmarshalEvent (dv_data d)) (deliveries d).

(** What [DeadLetter] publishes, and the worker's handling with that publication, whose
    failure it ignores. *)
Definition dead_letter_message (d : Delivery) (reason : string) : Publication :=
  mkPublication DeadLetterSubject
    ([("Content-Type", "application/json"); ("Argus-Dead-Letter-Reason", reason); ("Argus-Original-Subject", dv_subject d)] ++
     match dv_metadata d with
     | Some meta =>
         [("Argus-Original-Stream", md_stream meta); ("Argus-Stream-Sequence", itoa (md_sequence meta));
          ("Argus-Deliveries", itoa (md_delivered meta)); ("Nats-Msg-Id", "dlq-" +:+ md_stream meta +:+ "-" +:+ itoa (md_sequence meta))]
     | None => []
     end) (dv_data d).

Section worker.
Context (publish : nat -> Publication -> result unit).
Definition republish (d : Delivery) (reason : string) : M unit :=
  wrap "publish dead letter" (call (fun n => publish n (dead_letter_message d reason))).
Definition work (r : Runner) (d : Delivery) : M handled :=
  h <- handleMessage r (job_message d) ;;
  match hd_ack h with Term reason => ignore (republish d reason) | _ => ret tt end ;;;
  ret h.
End worker.

(** A publication as the stream keeps it. *)
Definition kept (seq time : Z) (p : Publication) : StreamMessage := mkStreamMessage seq (pb_subject p) (pb_headers p) (pb_data p) time.

(** ** Reading members *)

Lemma Unmarshal_enc t : wf t = true -> Unmarshal (enc t) = Some t.
Proof.
  intros Hw. unfold Unmarshal. rewrite <- (string_app_nil_r (enc t)) at 2.
  rewrite (enc_round_trips t Hw); [done| |done]. pose proof (jsize_le_enc t Hw). lia.
Qed.

(** The last member of a name is the one of the map. *)
Lemma any_map_last m k : any_map m !! k = (fun kv => json_value (canonical kv.2)) <$> last (filter (fun kv => kv.1 = k) m).
Proof.
  unfold any_map. induction m as [|[k' j] m IH] using rev_ind; [done|]. rewrite fmap_app, rev_app_distr, filter_app. simpl.
  destruct (decide (k' = k)) as [->|Hk].
  - rewrite lookup_insert_eq, (filter_cons_True _ _ []), filter_nil, last_snoc by done. done.
  - rewrite lookup_insert_ne by done. rewrite (filter_cons_False _ _ []), filter_nil, app_nil_r by done. done.
Qed.

(** Both readers of a job take the same remediation from it. *)
Lemma remediationID_read data : remediationID data = match UnmarshalEvent data with Some event => event_job event | None => "" end.
Proof.
  unfold remediationID, UnmarshalEvent. destruct (unmarshal_object data) as [m|]; [simpl|done]. unfold event_payload, decode_event.
  repeat match goal with |- context [let! _ := ?r in _] => destruct r; [simpl|done] end.
  unfold event_job. simpl. rewrite any_map_last. destruct (last _) as [[k [| | |s| |]]|]; done.
Qed.

(** ** Payloads of jobs: texts and flags *)

Definition plain_value (v : value) : bool := match v with VNil | VBool _ | VString _ => true | _ => false end.
Definition plain_json (v : value) : json := match v with VBool b => JBool b | VString s => JStr s | _ => JNull end.

Lemma plain_marshalled (l : list (string * value)) :
  Forall (fun kv => plain_value kv.2 = true) l -> to_json (VMap l) = Some (JObj ((fun kv => (kv.1, plain_json kv.2)) <$> l)).
Proof.
  induction 1 as [|[k v] l Hv _ IH]; [done|]. cbn [to_json] in *. rewrite IH. by destruct v.
Qed.
Lemma plain_read v : plain_value v = true -> canonical (plain_json v) = plain_json v /\ json_value (plain_json v) = v.
Proof. by destruct v. Qed.

Lemma insert_member_perm {A} k (v : A) m : k ∉ m.*1 -> insert_member k v m ≡ₚ (k, v) :: m.
Proof.
  induction m as [|[k' v'] m IH]; simpl; [done|]. intros Hk. apply not_elem_of_cons in Hk as [Hne Hk].
  rewrite (proj2 (String.eqb_neq _ _) Hne). destruct (_ <?s _); [done|]. rewrite (IH Hk). apply perm_swap.
Qed.
Lemma as_map_perm {A} (m : list (string * A)) : NoDup m.*1 -> as_map m ≡ₚ m.
Proof.
  induction m as [|[k v] m IH] using rev_ind; [done|]. rewrite fmap_app. intros (HN & Hk & _)%NoDup_app.
  rewrite as_map_app_sorted. simpl. rewrite insert_member_perm, (IH HN); [by rewrite Permutation_cons_append|].
  intros (kv & -> & Hin)%list_elem_of_fmap. apply as_map_elem in Hin. apply (Hk kv.1); [by apply list_elem_of_fmap_2|left].
Qed.

(** A plain payload comes back as it was. *)
Lemma payload_read (p : params) : map_Forall (fun _ v => plain_value v = true) p ->
  exists m, map_to_json (Some p) = Some (JObj m) /\ wf (canonical (JObj m)) = true /\
    payload_member None (canonical (JObj m)) = Ok (Some (as_map ((fun kv => (kv.1, canonical kv.2)) <$> m))) /\
    any_map (as_map ((fun kv => (kv.1, canonical kv.2)) <$> m)) = p.
Proof.
  intros Hp. assert (Forall (fun kv => plain_value kv.2 = true) (map_to_list p)) as HF
    by (apply Forall_forall; intros [k v] Hkv%elem_of_map_to_list; exact (Hp _ _ Hkv)).
  exists ((fun kv => (kv.1, plain_json kv.2)) <$> map_to_list p). split; [by apply plain_marshalled|]. split; [|split; [done|]].
  - apply canonical_wf. simpl. apply forallb_forall. intros kv ([k v] & <- & _)%in_map_iff. by destruct v.
  - unfold any_map. rewrite <- list_fmap_compose.
    assert (((fun kv => (kv.1, canonical kv.2)) ∘ (fun kv : string * value => (kv.1, plain_json kv.2))) <$> map_to_list p =
      (fun kv => (kv.1, plain_json kv.2)) <$> map_to_list p) as ->.
    { apply list_fmap_ext. intros i kv Hi. simpl. rewrite Forall_lookup in HF. by rewrite (proj1 (plain_read _ (HF _ _ Hi))). }
    set (l := (fun kv => (kv.1, plain_json kv.2)) <$> map_to_list p).
    assert (NoDup l.*1) as HN by (unfold l; rewrite <- list_fmap_compose; apply NoDup_fst_map_to_list).
    rewrite <- (list_to_map_to_list p). symmetry. apply list_to_map_proper; [apply NoDup_fst_map_to_list|].
    rewrite <- Permutation_rev, (as_map_perm l HN). unfold l. rewrite <- list_fmap_compose.
    rewrite <- (list_fmap_id (map_to_list p)) at 1. apply reflexive_eq, list_fmap_ext. intros i [k v] Hi. simpl.
    rewrite Forall_lookup in HF. specialize (HF _ _ Hi). simpl in HF. by destruct (plain_read _ HF) as [-> ->].
Qed.

Lemma field_nil {A} (decode : A -> json -> result A) name zero : decode_field decode name zero [] = Ok zero.
Proof. done. Qed.
Lemma field_other {A} (decode : A -> json -> result A) name zero k j m :
  EqualFold k name = false -> decode_field decode name zero ((k, j) :: m) = decode_field decode name zero m.
Proof. intros H. unfold decode_field. simpl. by rewrite H. Qed.
Lemma field_found {A} (decode : A -> json -> result A) name zero k j m a :
  EqualFold k name = true -> decode zero j = Ok a -> decode_field decode name zero ((k, j) :: m) = decode_field decode name a m.
Proof. intros H Ha. unfold decode_field. simpl. by rewrite H, Ha. Qed.
Ltac read_fields := repeat first [rewrite field_nil|rewrite field_other by reflexivity|erewrite field_found by first [reflexivity|eassumption]].

(** An event with a plain payload comes back as it was. *)
Lemma event_read event : marshals (evt_occurred_at event) = true -> map_Forall (fun _ v => plain_value v = true) (evt_payload event) ->
  exists data, MarshalEvent event = Some data /\ UnmarshalEvent data = Some event.
Proof.
  intros Ht Hp. destruct (payload_read _ Hp) as (m & Hm & Hw & Hr & Ha). unfold MarshalEvent. rewrite Ht, Hm. cbn [negb mbind option_bind].
  eexists. split; [reflexivity|]. unfold UnmarshalEvent, unmarshal_object. clear Hm. generalize dependent (canonical (JObj m)). intros payload Hw Hr.
  rewrite Unmarshal_enc.
  2: { unfold omitempty. cbn [wf]. repeat case_match; cbn; by rewrite Hw. }
  assert (decode_time zero_time (JStr (RFC3339Nano (evt_occurred_at event))) = Ok (evt_occurred_at event)) as Hd
    by (unfold decode_time; by rewrite (RFC3339Nano_read _ Ht)).
  destruct event as [id type occurred producer trace key p]. cbn [evt_id evt_type evt_occurred_at evt_producer evt_trace_id evt_idempotency_key evt_payload] in *.
  generalize dependent (RFC3339Nano occurred). intros instant Hd. cbn [result_bind]. unfold decode_event, text, omitempty.
  destruct (trace =?s "") eqn:E1, (key =?s "") eqn:E2; reflect_tests; subst; cbn [app]; read_fields; done.
Qed.

Lemma Job_event r dispatchID e w event w' : Job r dispatchID e w = (Ok event, w') ->
  event_job event = rem_id r /\ map_Forall (fun _ v => plain_value v = true) (evt_payload event).
Proof.
  unfold Job, bind, now, ret. intros [= <- _]. split; [done|]. simpl.
  repeat (apply map_Forall_insert_2; [done|]). apply map_Forall_empty.
Qed.

(** A dead letter reads as it was written. *)
Lemma letter_read js seq time d meta reason e w :
  dv_metadata d = Some meta -> 0 <= md_sequence meta < 2 ^ 64 -> 0 <= md_delivered meta < 2 ^ 64 -> valid_json (dv_data d) = true ->
  (forall n, js_get js n DeadLetterStream seq = Ok (Some (kept seq time (dead_letter_message d reason)))) ->
  GetDeadLetter js seq e w = (Ok (mkDeadLetter seq DeadLetterJob reason time (md_stream meta) (md_sequence meta) (md_delivered meta)
    (remediationID (dv_data d)) (dv_data d)), tick w).
Proof.
  intros Hm Hs Hn Hv HJ. unfold GetDeadLetter, wrap, call, bind. rewrite HJ. unfold kept, dead_letter_message. rewrite Hm. cbn [pb_subject pb_headers pb_data].
  cbn [sm_data sm_subject sm_headers sm_sequence sm_time]. rewrite Hv. change (HasPrefix DeadLetterSubject "$JS.EVENT.ADVISORY.") with false. cbv iota.
  unfold message_header. cbn -[itoa ParseUint]. rewrite !ParseUint_itoa by done. done.
Qed.

(** ** Properties *)

(** C37: a job arrives whole, also at the end of the line. The job of a remediation, made
    at an instant that can be marshalled, becomes a message that every worker reads as
    that very event, naming that remediation; and when a worker gives it up and the
    dead-letter stream keeps what it republished, the letter shown for it has the reason,
    the stream, the sequence and the deliveries of that message, its text, and the id of
    the remediation that a replay will redispatch. *)
Theorem job_arrives_whole r dispatchID e w event w' :
  Job r dispatchID e w = (Ok event, w') -> marshals (evt_occurred_at event) = true ->
  exists p, event_message RemediationSubject event = Some p /\ event_job event = rem_id r /\
    forall d meta, dv_data d = pb_data p -> dv_metadata d = Some meta -> 0 <= md_sequence meta < 2 ^ 64 -> 0 <= md_delivered meta < 2 ^ 64 ->
      job_message d = mkMsg (Some event) (md_delivered meta) /\
      forall js seq time reason e2 w2,
        (forall n, js_get js n DeadLetterStream seq = Ok (Some (kept seq time (dead_letter_message d reason)))) ->
        GetDeadLetter js seq e2 w2 = (Ok (mkDeadLetter seq DeadLetterJob reason time (md_stream meta) (md_sequence meta) (md_delivered meta)
          (rem_id r) (pb_data p)), tick w2).
Proof.
  intros HJ HT. destruct (Job_event _ _ _ _ _ _ HJ) as [HI HP]. destruct (event_read event HT HP) as (data & HM & HU).
  eexists. split; [unfold event_message; rewrite HM; reflexivity|]. split; [done|]. cbn [pb_data]. intros d meta HD Hm Hs Hn. split.
  - unfold job_message, deliveries. by rewrite HD, HU, Hm.
  - intros js seq time reason e2 w2 HG. rewrite (letter_read js seq time d meta reason e2 w2), remediationID_read, HD, HU, HI; try done.
    rewrite HD. unfold valid_json. unfold UnmarshalEvent, unmarshal_object in HU. by destruct (Unmarshal data).
Qed.

(** Publishing a dead letter touches no table: the worker's step is that of the message. *)
Lemma work_tables publish r d e w : w_db (work publish r d e w).2 = w_db (handleMessage r (job_message d) e w).2.
Proof.
  unfold work, bind. destruct (handleMessage _ _ e w) as [[[[| |reason] err]|] w1]; simpl; try done.
  unfold ignore, attempt, republish, wrap, call, bind. by destruct (publish _ _).
Qed.

Example undecodable_job_is_kept :
  let d := mkDelivery RemediationSubject "{" (Some (mkMetadata RemediationStream 12 3)) in
  let js := mkJetStream (fun _ _ => Ok None) (fun _ _ _ => Ok (Some (kept 5 0 (dead_letter_message d "undecodable_payload"))))
    (fun _ _ _ => Ok true) (fun _ _ => Ok true) (fun _ _ => Ok tt) (fun _ _ => Ok tt) in
  match work (fun _ _ => Ok tt) worker d quiet_env queued_world, GetDeadLetter js 5 quiet_env queued_world with
  | (Ok h, _), (Ok letter, _) =>
      hd_ack h = Term "undecodable_payload" /\ (dl_reason letter, dl_original_sequence letter, dl_deliveries letter, dl_remediation_id letter) = ("undecodable_payload", 12, 3, "")
  | _, _ => False
  end.
Proof. split; vm_compute; reflexivity. Qed.

Definition demo_event : Event :=
  match Job queued_remediation "job_1" quiet_env queued_world with (Ok event, _) => event | (Fail _, _) => dsp_event queued_job end.
Definition demo_delivery (p : Publication) : Delivery := mkDelivery RemediationSubject (pb_data p) (Some (mkMetadata RemediationStream 12 3)).

Lemma job_arrives_whole_witness :
  exists p, event_message RemediationSubject demo_event = Some p /\ event_job demo_event = "rem_1" /\
    job_message (demo_delivery p) = mkMsg (Some demo_event) 3.
Proof.
  destruct (job_arrives_whole queued_remediation "job_1" quiet_env queued_world demo_event queued_world eq_refl eq_refl) as (p & HP & HI & HD).
  exists p. split; [exact HP|]. split; [exact HI|].
  apply (HD (demo_delivery p) (mkMetadata RemediationStream 12 3) eq_refl eq_refl); vm_compute; split; congruence.
Defined.
