(* ===== verification/Api.v ===== *)
(** * The HTTP API ([internal/api/server.go], [deadletters.go])

    The middleware (body limit, authentication, permission), the routing of
    [http.ServeMux] and one definition per handler, over the services of the other
    files. A handler always replies; what failed is in the reply. *)
From Stdlib Require Import Ascii String ZArith Lia.
From stdpp Require Import base gmap strings list relations.
From S2P Require Import Prelude GoStrings GoFloat GoValue Actions Topology Json Marshal Ledger Lifecycle Types Evidence Correlation RCA.
From S2P Require Import Database AuditLog Store Progress Observations Ingestion Http Reports Executors Approvals Dispatch Remediation.
From S2P Require Import Auth Transports Requests DeadLetters.
Open Scope Z_scope.

Record Server := mkServer {
  sv_authenticator : OIDCAuthenticator;
  sv_incidents : ServiceManager;
  sv_analysis : RCAService;
  sv_remediation : Remediation.Service;
  sv_approvals : Approvals.Service;
  sv_slack : SlackWorkflow;
  sv_streams : JetStream;
  sv_runbooks : list (gmap string value);
}.

Record deadLetterView := mkDeadLetterView { dv_letter : DeadLetter; dv_status : string; dv_replayable : bool }.

(** What a reply carries, before it is encoded. *)
Inductive Content :=
  | CError (message : string)
  | CFields (fields : params)
  | CIncident (i : Incident)
  | CIncidents (l : list Incident)
  | CIngestion (r : IngestionResult)
  | CSignals (l : list Signal)
  | CTimeline (l : list TimelineEvent)
  | CTopology (t : IncidentTopology)
  | CReport (r : RCAReport)
  | CGenerated (r : RCAReport)
  | CRemediations (l : list RemediationAction)
  | CProposal (l : list RemediationAction) (report : string) (reused : bool)
  | CApproval (r : Request)
  | CApprovals (l : list Request)
  | CAudit (l : list AuditRow)
  | CVerification (v : Verification)
  | CService (s : Types.Service)
  | CServices (l : list Types.Service)
  | CDependency (x : Dependency)
  | CDependencies (l : list Dependency)
  | CRunbooks (l : list (gmap string value))
  | CLetters (l : list deadLetterView)
  | CPrincipal (p : Principal)
  | CMetrics
  | CRedirect (location : string).

Record Reply := mkReply { rp_status : Z; rp_content : Content }.

Definition reply (status : Z) (c : Content) : M Reply := ret (mkReply status c).
Definition WriteError (status : Z) (message : string) : M Reply := reply status (CError message).
Definition method_not_allowed : M Reply := WriteError 405 "method not allowed".

(** [WriteDecodeError]. *)
Definition WriteDecodeError (err : error) : M Reply :=
  WriteError (if bool_decide (err_kind err = KTooLarge) then 413 else 400) (err_text err).

(** A call whose error becomes a reply. *)
Definition answer {A} (m : M A) (on_error : error -> Z) (k : A -> M Reply) : M Reply :=
  out <- attempt m ;;
  match out with
  | Ok x => k x
  | Fail err => WriteError (on_error err) (err_text err)
  end.
Definition status (code : Z) : error -> Z := fun _ => code.
Definition by_kind (kinds : list sentinel) (code other : Z) : error -> Z :=
  fun err => if bool_decide (err_kind err ∈ kinds) then code else other.

Definition decoded {A} (r : result A) (k : A -> M Reply) : M Reply :=
  match r with Ok x => k x | Fail err => WriteDecodeError err end.

Definition TrimPrefix (s p : string) : string := if HasPrefix s p then drop_chars (String.length p) s else s.
Fixpoint TrimLeft (s : string) (cut : ascii) : string :=
  match s with String c r => if Ascii.eqb c cut then TrimLeft r cut else s | "" => "" end.
Definition Trim (s : string) (cut : ascii) : string := TrimRight (TrimLeft s cut) cut.

Definition fields (l : list (string * string)) : params := list_to_map ((fun kv => (kv.1, VString kv.2)) <$> l).

(** ** Identity *)

Definition actorFromRequest (p : option Principal) : string := match p with Some p => pr_id p | None => "system" end.
Definition roleFromRequest (p : option Principal) : string := match p with Some p => pr_role p | None => RoleOperator end.

Definition isPublicRoute (path : string) : bool :=
  (path =?s "/healthz") || (path =?s "/readyz") || (path =?s "/metrics") || (path =?s "/v1/approval-callbacks/slack").

Definition is_get (method : string) : bool := method =?s "GET".
Definition is_post (method : string) : bool := method =?s "POST".
Definition parts_after (path prefix : string) : list string := Split (TrimPrefix path prefix) "/".

(** The routes below [/v1/incidents/]. *)
Definition incident_permission (method : string) (parts : list string) : string :=
  match parts with
  | [_] => PermissionView
  | [_; action] =>
      if (action =?s "ack") || (action =?s "resolve") then PermissionManageIncident else PermissionView
  | [_; a; b] =>
      if (a =?s "rca") && (b =?s "generate") then PermissionGenerateRCA
      else if (a =?s "remediations") && (b =?s "suggest") then PermissionGenerateRCA
      else if (a =?s "remediations") && (b =?s "propose") then PermissionProposeRemediation
      else PermissionView
  | _ => PermissionView
  end.
Definition remediation_permission (parts : list string) : string :=
  match parts with
  | [_; action] =>
      if (action =?s "approve") || (action =?s "reject") then PermissionApproveRemediation
      else if (action =?s "execute") || (action =?s "cancel") then PermissionExecuteRemediation
      else PermissionView
  | _ => PermissionView
  end.
Definition approval_permission (method : string) (parts : list string) : string :=
  match parts with
  | [_; action] => if (action =?s "decision") && is_post method then PermissionApproveRemediation else PermissionView
  | _ => PermissionView
  end.

(** The cases in the order of the switch; whatever is left needs [view]. *)
Definition requiredPermission (method path : string) : string :=
  if (path =?s "/v1/auth/me") && is_get method then PermissionView
  else if (path =?s "/v1/alerts/alertmanager") || (path =?s "/v1/signals/manual") then PermissionIngestSignal
  else if (path =?s "/v1/incidents") && is_get method then PermissionView
  else if (path =?s "/v1/incidents") && is_post method then PermissionManageIncident
  else if HasPrefix path "/v1/incidents/" then incident_permission method (parts_after path "/v1/incidents/")
  else if HasPrefix path "/v1/remediations/" then remediation_permission (parts_after path "/v1/remediations/")
  else if (path =?s "/v1/approval-requests") && is_get method then PermissionView
  else if HasPrefix path "/v1/approval-requests/" then approval_permission method (parts_after path "/v1/approval-requests/")
  else if (path =?s "/v1/audit") || (path =?s "/v1/audit/verify") then PermissionViewAudit
  else if (path =?s "/v1/dead-letters") || HasPrefix path "/v1/dead-letters/" then PermissionManageDeadLetters
  else if (path =?s "/v1/services") && is_get method then PermissionView
  else if (path =?s "/v1/services") && is_post method then PermissionManageService
  else if (path =?s "/v1/topology") && is_get method then PermissionView
  else if (path =?s "/v1/topology/dependencies") && is_post method then PermissionManageService
  else if (path =?s "/v1/runbooks") && is_get method then PermissionView
  else if path =?s "/v1/runbooks/reindex" then PermissionReindexRunbook
  else PermissionView.

(** ** Handlers *)

Section handlers.
Context (s : Server) (p : option Principal) (r : ApiRequest).
Notation method := (rq_method r).
Notation path := (rq_path r).
Notation actor := (actorFromRequest p).

Definition defaultMaxBodyBytes : Z := 2 ^ 20.
Definition maxAlertmanagerPayloadBytes : Z := 8 * 2 ^ 20.
Definition maxBodyBytes : Z := if path =?s "/v1/alerts/alertmanager" then maxAlertmanagerPayloadBytes else defaultMaxBodyBytes.

Definition body_json {A} (names : list string) (decode : list (string * json) -> result A) : result A :=
  ReadJSON maxBodyBytes names decode (rq_body r).

Definition handleCurrentPrincipal : M Reply :=
  if negb (is_get method) then method_not_allowed
  else match p with Some p => reply 200 (CPrincipal p) | None => WriteError 401 "authenticated principal unavailable" end.

Definition handleHealth : M Reply := reply 200 (CFields (fields [("status", "ok")])).
Definition handleReady : M Reply := answer (query (fun _ => tt)) (status 503) (fun _ => reply 200 (CFields (fields [("status", "ready")]))).

Definition handleAlertmanager : M Reply :=
  if negb (is_post method) then method_not_allowed
  else decoded (ReadExternalJSON maxAlertmanagerPayloadBytes decode_webhook (rq_body r)) (fun payload =>
    answer (IngestAlertmanagerWithResult (sv_incidents s) payload actor) (status 500) (fun result => reply 202 (CIngestion result))).

Definition handleIncidents : M Reply :=
  if is_get method then answer ListIncidents (status 500) (fun items => reply 200 (CIncidents items))
  else if is_post method then
    decoded (body_json ["title"; "service"; "severity"; "summary"] decode_manual_incident) (fun req =>
      answer (CreateManual req actor) (status 500) (fun incident => reply 201 (CIncident incident)))
  else method_not_allowed.

Definition scenarioService (scenario : string) : string := if scenario =?s "nginx_5xx_spike" then "nginx" else "payments-api".
Definition scenarioLabels (scenario : string) : gmap string string :=
  if scenario =?s "redis_memory_pressure" then {["cache_key_pattern" := "demo:pressure:*"]}
  else if scenario =?s "dependency_latency" then {["degradable_feature_flag" := "payments-api/optional-notifications"]}
  else ∅.
Definition scenarioToAlert (scenario : string) : string :=
  if scenario =?s "postgres_connection_exhaustion" then "PaymentsAPIPostgresConnectionExhaustion"
  else if scenario =?s "redis_memory_pressure" then "PaymentsAPIRedisMemoryPressure"
  else if scenario =?s "nginx_5xx_spike" then "Nginx5xxSpike"
  else if scenario =?s "dependency_latency" then "PaymentsAPIDependencyLatency"
  else if scenario =?s "bad_config_rollout" then "PaymentsAPIBadConfigRollout"
  else "DemoIncident".
Definition scenarioToSummary (scenario : string) : string :=
  if scenario =?s "postgres_connection_exhaustion" then "payments-api is showing postgres connection exhaustion signals"
  else if scenario =?s "redis_memory_pressure" then "payments-api cache performance degraded due to redis memory pressure"
  else if scenario =?s "nginx_5xx_spike" then "nginx is returning elevated 5xx responses for the payments path"
  else if scenario =?s "dependency_latency" then "notification-api latency is dominating request time"
  else if scenario =?s "bad_config_rollout" then "recent config rollout likely broke payments-api connectivity"
  else "generic demo incident".

Definition manual_payload (m : ManualSignal) (time : Z) : AlertmanagerWebhook :=
  let service := if ms_service m =?s "" then scenarioService (ms_scenario m) else ms_service m in
  let severity := if ms_severity m =?s "" then "sev2" else ms_severity m in
  let labels := scenarioLabels (ms_scenario m) ∪
    list_to_map [("alertname", scenarioToAlert (ms_scenario m)); ("service", service); ("environment", "local"); ("severity", severity)] in
  mkAlertmanagerWebhook "" "" 0 "firing" "manual" "" ∅ ∅ ∅
    [mkAlertmanagerAlert "firing" labels {["summary" := scenarioToSummary (ms_scenario m)]} time zero_time ("manual-" +:+ ms_scenario m) ""].

Definition handleManualSignal : M Reply :=
  if negb (is_post method) then method_not_allowed
  else decoded (body_json ["scenario"; "service"; "severity"] decode_manual_signal) (fun m =>
    time <- now ;;
    answer (IngestAlertmanagerWithResult (sv_incidents s) (manual_payload m time) actor) (status 500)
      (fun result => reply 202 (CIngestion result))).

(** [ack] and [resolve]: the transition and its audit entry in one transaction. *)
Definition change_state (incidentID state : string) : M (string * bool) :=
  InTx (
    '(previous, applied) <- TransitionIncident incidentID state ;;
    (if (applied : bool) then WriteTx (audit_entry actor "user" ("incident." +:+ state) "incident" incidentID
       (Some {["status" := VString previous]}) (Some {["status" := VString state]}) None) else ret tt) ;;;
    ret (previous, applied)).

Definition handleIncidentStateChange (incidentID state : string) : M Reply :=
  if negb (is_post method) then method_not_allowed
  else answer (change_state incidentID state) (by_kind [KIncidentNotFound] 404 500) (fun out =>
    if (out.2 : bool) then reply 200 (CFields (fields [("status", state)]))
    else WriteError 409 ("incident is " +:+ out.1 +:+ " and cannot move to " +:+ state)).

Definition handlePropose (incidentID : string) : M Reply :=
  answer (GetIncident incidentID) (status 404) (fun incident =>
  answer (ReportForProposal (sv_analysis s) incident) (status 500) (fun '(report, candidates, reused) =>
  answer (Propose (sv_remediation s) incident candidates actor (roleFromRequest p)) (status 500) (fun actions =>
  reply 202 (CProposal actions (rep_id report) reused)))).

Definition incident_not_found : M Reply := WriteError 404 "incident route not found".

Definition handle_incident (incidentID action : string) : M Reply :=
  if action =?s "ack" then handleIncidentStateChange incidentID Inc.StatusTriaged
  else if action =?s "resolve" then handleIncidentStateChange incidentID Inc.StatusResolved
  else if action =?s "timeline" then answer (ListTimeline incidentID) (status 500) (fun items => reply 200 (CTimeline items))
  else if action =?s "signals" then answer (ListSignals incidentID) (status 500) (fun items => reply 200 (CSignals items))
  else if negb (is_get method) then incident_not_found
  else if action =?s "topology" then answer (GetIncidentTopology incidentID) (status 500) (fun item => reply 200 (CTopology item))
  else if action =?s "rca" then answer (GetLatestRCAReport incidentID) (status 404) (fun report => reply 200 (CReport report))
  else if action =?s "remediations" then answer (ListRemediations incidentID) (status 500) (fun items => reply 200 (CRemediations items))
  else incident_not_found.

Definition handleIncidentRoutes : M Reply :=
  match parts_after path "/v1/incidents/" with
  | [] => incident_not_found
  | incidentID :: rest =>
      if incidentID =?s "" then incident_not_found
      else
        match rest with
        | [] => if is_get method then answer (GetIncident incidentID) (status 404) (fun item => reply 200 (CIncident item)) else incident_not_found
        | [action] => handle_incident incidentID action
        | [a; b] =>
            if negb (is_post method) then incident_not_found
            else if (a =?s "rca") && (b =?s "generate") then
              answer (Generate (sv_analysis s) incidentID) (status 500) (fun out => reply 201 (CGenerated out.1))
            else if (a =?s "remediations") && (b =?s "suggest") then
              answer (SuggestRemediations (sv_analysis s) incidentID) (status 502) (fun suggestions => reply 200 (CFields suggestions))
            else if (a =?s "remediations") && (b =?s "propose") then handlePropose incidentID
            else incident_not_found
        | _ => incident_not_found
        end
  end.

Definition reason_body : result string := body_json ["reason"] (decode_one_text "reason").

(** An empty body is no error here. *)
Definition dry_run_body : result bool :=
  match body_json ["dry_run"] (decode_field decode_flag "dry_run" false) with
  | Fail err => if err_text err =?s "EOF" then Ok false else Fail err
  | ok => ok
  end.

Definition handleRemediationRoutes : M Reply :=
  match parts_after path "/v1/remediations/" with
  | [id; action] =>
      if negb (bool_decide (action ∈ ["approve"; "reject"; "execute"; "cancel"])) then WriteError 404 "unknown remediation action"
      else if negb (is_post method) then method_not_allowed
      else if action =?s "approve" then
        decoded reason_body (fun reason =>
          answer (Approve (sv_remediation s) id actor reason) (status 400) (fun _ => reply 200 (CFields (fields [("status", "approved")]))))
      else if action =?s "reject" then
        decoded reason_body (fun reason =>
          answer (Reject (sv_remediation s) id actor reason) (status 400) (fun _ => reply 200 (CFields (fields [("status", "rejected")]))))
      else if action =?s "execute" then
        decoded dry_run_body (fun dryRun =>
          answer (Execute (sv_remediation s) id dryRun actor) (by_kind [KIncidentClosed; KStateChanged] 409 400) (fun reused =>
            if (reused : bool) then reply 200 (CFields (fields [("status", "reused")])) else reply 202 (CFields (fields [("status", "queued")]))))
      else answer (Cancel (sv_remediation s) id actor) (by_kind [KStateChanged] 409 500)
             (fun _ => reply 200 (CFields (fields [("status", "cancelled")])))
  | _ => WriteError 404 "remediation route not found"
  end.

Definition handleApprovalRequests : M Reply :=
  let rest := TrimPrefix path "/v1/approval-requests" in
  if (rest =?s "") || (rest =?s "/") then
    if negb (is_get method) then method_not_allowed
    else answer (List_ (query_get (rq_query r) "status") 100) (status 500) (fun items => reply 200 (CApprovals items))
  else
    let parts := Split (Trim rest "/") "/" in
    match parts, is_get method, is_post method with
    | [id], true, _ => answer (Get id) (status 404) (fun request => reply 200 (CApproval request))
    | [id; action], _, true =>
        if action =?s "decision" then
          decoded (body_json ["decision"; "reason"] decode_decision) (fun d =>
            answer (Decide (sv_approvals s) id actor "user" (ad_decision d) (ad_reason d) "webhook_callback") (status 400)
              (fun request => reply 200 (CApproval request)))
        else WriteError 404 "approval route not found"
    | _, _, _ => WriteError 404 "approval route not found"
    end.

Definition handleSlackApprovalCallback : M Reply :=
  if negb (is_post method) then method_not_allowed
  else if defaultMaxBodyBytes <? Z.of_nat (String.length (rq_body r)) then WriteDecodeError (too_large defaultMaxBodyBytes)
  else answer (Handle (sv_slack s) (rq_headers r) (rq_body r))
    (fun err => if Contains (err_text err) "signature" || Contains (err_text err) "authorized" then 401 else 400)
    (fun result => reply 200 (CFields (fields result))).

Definition handleAudit : M Reply :=
  if negb (is_get method) then method_not_allowed else answer (ListEntries 100) (status 500) (fun items => reply 200 (CAudit items)).
Definition handleAuditVerify : M Reply :=
  if negb (is_get method) then method_not_allowed
  else answer Verify (status 500) (fun report => reply (if ver_valid report then 200 else 409) (CVerification report)).

Definition handleServices : M Reply :=
  if is_get method then answer ListServices (status 500) (fun items => reply 200 (CServices items))
  else if is_post method then
    decoded (body_json ["name"] (decode_one_text "name")) (fun name =>
      answer (EnsureService name) (status 500) (fun item => reply 201 (CService item)))
  else method_not_allowed.

Definition handleTopology : M Reply :=
  if negb (is_get method) then method_not_allowed
  else answer ListServiceDependencies (status 500) (fun items => reply 200 (CDependencies items)).

Definition upsert_audited (req : ServiceDependencyRequest) : M Dependency :=
  InTx (
    item <- UpsertServiceDependency req ;;
    WriteTx (audit_entry actor "user" "service_dependency.upserted" "service_dependency" (dep_id item) None
      (Some (fields [("service", dep_service item); ("depends_on", dep_depends_on item); ("dependency_type", dep_type item);
         ("criticality", dep_criticality item)])) None) ;;;
    ret item).

Definition handleTopologyDependencies : M Reply :=
  if negb (is_post method) then method_not_allowed
  else decoded (body_json ["service"; "depends_on"; "dependency_type"; "criticality"] decode_dependency) (fun req =>
    if (TrimSpace (sdr_service req) =?s "") || (TrimSpace (sdr_depends_on req) =?s "") then WriteError 400 "service and depends_on are required"
    else if negb (bool_decide (sdr_dependency_type req ∈ [""; "synchronous"; "asynchronous"; "datastore"; "edge"]))
    then WriteError 400 "unsupported dependency_type"
    else if negb (bool_decide (sdr_criticality req ∈ [""; "critical"; "degraded"; "optional"])) then WriteError 400 "unsupported criticality"
    else answer (upsert_audited req) (status 400) (fun item => reply 201 (CDependency item))).

Definition ListRunbooks : M (list (gmap string value)) := wrap "list runbooks" (query (fun _ => sv_runbooks s)).
Definition handleRunbooks : M Reply :=
  if negb (is_get method) then method_not_allowed else answer ListRunbooks (status 500) (fun items => reply 200 (CRunbooks items)).
Definition handleRunbookReindex : M Reply :=
  if negb (is_post method) then method_not_allowed
  else answer (ReindexRunbooks (sv_analysis s)) (by_kind [KAIDisabled] 503 502) (fun result => reply 200 (CFields result)).

(** *** Dead letters *)

Definition viewDeadLetter (letter : DeadLetter) : M deadLetterView :=
  if dl_remediation_id letter =?s "" then ret (mkDeadLetterView letter "" false)
  else
    rem <- attempt (GetRemediation (dl_remediation_id letter)) ;;
    ret (match rem with
         | Ok rem => mkDeadLetterView letter (rem_status rem) (Dispatchable (rem_status rem))
         | Fail _ => mkDeadLetterView letter "" false
         end).

Fixpoint viewDeadLetters (letters : list DeadLetter) : M (list deadLetterView) :=
  match letters with
  | [] => ret []
  | letter :: letters => view <- viewDeadLetter letter ;; views <- viewDeadLetters letters ;; ret (view :: views)
  end.

Definition letter_limit (raw : string) : option Z :=
  if raw =?s "" then Some 50
  else match ParseInt raw with Some n => if (n <? 1) || (500 <? n) then None else Some n | None => None end.

Definition handleDeadLetters : M Reply :=
  if negb (is_get method) then method_not_allowed
  else
    match letter_limit (query_get (rq_query r) "limit") with
    | None => WriteError 400 "limit must be between 1 and 500"
    | Some limit =>
        answer (ListDeadLetters (sv_streams s) limit) (status 502) (fun letters =>
          views <- viewDeadLetters letters ;; reply 200 (CLetters views))
    end.

Definition replayDeadLetter (view : deadLetterView) (metadata : params) : M Reply :=
  let letter := dv_letter view in
  let id := dl_remediation_id letter in
  if id =?s "" then
    WriteError 422 "this dead letter names no remediation (malformed job, or an advisory whose job has expired); discard it"
  else if negb (dv_replayable view) then
    reply 409 (CFields (fields
      [("error", "only a queued or running remediation can be replayed; discard the dead letter and propose the remediation again");
       ("remediation_id", id); ("remediation_status", if dv_status view =?s "" then "unknown" else dv_status view)]))
  else
    match rs_dispatcher (sv_remediation s) with
    | None => WriteError 503 "replay needs the local executor's remediation outbox"
    | Some dispatcher =>
        answer (Redispatch dispatcher id DispatchReplay actor "user" metadata) (by_kind [KNotDispatchable] 409 500) (fun dispatchID =>
          deleted <- attempt (DeleteDeadLetter (sv_streams s) (dl_sequence letter)) ;;
          match deleted with
          | Fail err => reply 202 (CFields (fields [("status", "replayed"); ("dispatch_id", dispatchID);
              ("warning", "job re-sent but the dead letter could not be deleted: " +:+ err_text err)]))
          | Ok _ => reply 202 (CFields (fields [("status", "replayed"); ("dispatch_id", dispatchID); ("remediation_id", id)]))
          end)
    end.

(** The audit entry is written before the letter is deleted. *)
Definition discardDeadLetter (view : deadLetterView) (seq : Z) (metadata : params) : M Reply :=
  let letter := dv_letter view in
  let '(resourceType, resourceID) :=
    if dl_remediation_id letter =?s "" then ("dead_letter", itoa (dl_sequence letter)) else ("remediation", dl_remediation_id letter) in
  answer (Write (audit_entry actor "user" "remediation.dead_letter_discarded" resourceType resourceID None None (Some metadata)))
    (status 500) (fun _ =>
  answer (DeleteDeadLetter (sv_streams s) seq) (status 502) (fun _ =>
  reply 200 (CFields (<["sequence" := VInt seq]> (fields [("status", "discarded"); ("remediation_status", dv_status view)]))))).

Definition letter_metadata (letter : DeadLetter) (reason : string) : params :=
  list_to_map [("dead_letter_sequence", VInt (dl_sequence letter)); ("dead_letter_kind", VString (dl_kind letter));
    ("dead_letter_reason", VString (dl_reason letter)); ("deliveries", VInt (dl_deliveries letter)); ("reason", VString reason)].

Definition letter_action (seq : Z) (action : string) : M Reply :=
  decoded reason_body (fun reason =>
    if TrimSpace reason =?s "" then WriteError 400 "reason is required"
    else
      answer (GetDeadLetter (sv_streams s) seq) (by_kind [KDeadLetterNotFound] 404 502) (fun letter =>
        view <- viewDeadLetter letter ;;
        if action =?s "replay" then replayDeadLetter view (letter_metadata letter reason)
        else discardDeadLetter view seq (letter_metadata letter reason))).

Definition handleDeadLetterRoutes : M Reply :=
  match parts_after path "/v1/dead-letters/" with
  | [sequence; action] =>
      if negb ((action =?s "replay") || (action =?s "discard")) then WriteError 404 "not found"
      else if negb (is_post method) then method_not_allowed
      else
        match ParseUint sequence with
        | None | Some 0 => WriteError 400 "dead letter sequence must be a positive integer"
        | Some seq => letter_action seq action
        end
  | _ => WriteError 404 "not found"
  end.

(** ** Routing: [http.ServeMux] *)

(** [path.Clean] of a rooted path: its segments without empty ones, [.] and [..]. *)
Fixpoint clean_segments (kept : list string) (segments : list string) : list string :=
  match segments with
  | [] => reverse kept
  | x :: rest =>
      if (x =?s "") || (x =?s ".") then clean_segments kept rest
      else if x =?s ".." then clean_segments (tail kept) rest
      else clean_segments (x :: kept) rest
  end.
Definition cleanPath (p : string) : string :=
  let p := if HasPrefix p "/" then p else "/" +:+ p in
  let np := "/" +:+ Join (clean_segments [] (Split p "/")) "/" in
  if HasSuffix p "/" && negb (np =?s "/") then np +:+ "/" else np.

(** The handler of a pattern, exact ones first; a pattern with a final slash takes
    the subtree. *)
Definition handler_of (path : string) : option (M Reply) :=
  if path =?s "/healthz" then Some handleHealth
  else if path =?s "/readyz" then Some handleReady
  else if path =?s "/metrics" then Some (reply 200 CMetrics)
  else if path =?s "/v1/alerts/alertmanager" then Some handleAlertmanager
  else if path =?s "/v1/signals/manual" then Some handleManualSignal
  else if path =?s "/v1/auth/me" then Some handleCurrentPrincipal
  else if path =?s "/v1/incidents" then Some handleIncidents
  else if HasPrefix path "/v1/incidents/" then Some handleIncidentRoutes
  else if HasPrefix path "/v1/remediations/" then Some handleRemediationRoutes
  else if (path =?s "/v1/approval-requests") || HasPrefix path "/v1/approval-requests/" then Some handleApprovalRequests
  else if path =?s "/v1/approval-callbacks/slack" then Some handleSlackApprovalCallback
  else if path =?s "/v1/audit" then Some handleAudit
  else if path =?s "/v1/audit/verify" then Some handleAuditVerify
  else if path =?s "/v1/dead-letters" then Some handleDeadLetters
  else if HasPrefix path "/v1/dead-letters/" then Some handleDeadLetterRoutes
  else if path =?s "/v1/services" then Some handleServices
  else if path =?s "/v1/topology" then Some handleTopology
  else if path =?s "/v1/topology/dependencies" then Some handleTopologyDependencies
  else if path =?s "/v1/runbooks" then Some handleRunbooks
  else if path =?s "/v1/runbooks/reindex" then Some handleRunbookReindex
  else None.

Definition mux : M Reply :=
  let target := if method =?s "CONNECT" then path else cleanPath path in
  if target =?s "/v1/remediations" then reply 307 (CRedirect "/v1/remediations/")
  else if negb (target =?s path) then reply 307 (CRedirect target)
  else match handler_of path with Some h => h | None => WriteError 404 "404 page not found" end.

End handlers.

(** ** Middleware *)

Definition authMiddleware (s : Server) (r : ApiRequest) : M Reply :=
  if isPublicRoute (rq_path r) then mux s None r
  else
    time <- now ;;
    match Authenticate (sv_authenticator s) time (BearerToken (rq_authorization r)) with
    | Fail _ => WriteError 401 "missing or invalid bearer token"
    | Ok principal =>
        let permission := requiredPermission (rq_method r) (rq_path r) in
        if negb (permission =?s "") && negb (Can principal permission) then WriteError 403 "role is not allowed to perform this action"
        else mux s (Some principal) r
    end.

Definition limitRequestBodies (s : Server) (r : ApiRequest) : M Reply :=
  let limit := maxBodyBytes r in
  if limit <? rq_content_length r then WriteError 413 ("request body exceeds " +:+ itoa limit +:+ " bytes")
  else authMiddleware s r.

Definition Handler (s : Server) (r : ApiRequest) : M Reply := limitRequestBodies s r.

(** ** Guarantees *)

Section api_guarantees.
Context (R : DB -> DB -> Prop) `{!Reflexive R, !Transitive R}.

Lemma answer_guar {A} (m : M A) code k : guar R m -> (forall x, guar R (k x)) -> guar R (answer m code k).
Proof. intros Hm Hk. unfold answer. apply guar_bind; [done|by apply guar_attempt|intros [x|err]; [apply Hk|by apply guar_ret]]. Qed.
Lemma decoded_guar {A} (x : result A) k : (forall a, guar R (k a)) -> guar R (decoded x k).
Proof. intros Hk. unfold decoded. destruct x; [done|]. unfold WriteDecodeError, WriteError, reply. guar_walk. Qed.
Lemma reply_guar code c : guar R (reply code c).
Proof. apply guar_ret. typeclasses eauto. Qed.
Lemma call_guar {A} (f : nat -> result A) : guar R (call f).
Proof. by intros e w. Qed.
Lemma GetDeadLetter_guar js seq : guar R (GetDeadLetter js seq).
Proof. unfold GetDeadLetter. guar_walk; apply call_guar. Qed.
Lemma scan_letters_guar js fuel : forall seq last limit, guar R (scan_letters fuel js seq last limit).
Proof.
  induction fuel as [|fuel IH]; intros seq last limit; simpl; guar_walk. apply GetDeadLetter_guar.
Qed.
Lemma ListDeadLetters_guar js limit : guar R (ListDeadLetters js limit).
Proof. unfold ListDeadLetters, stream_info. guar_walk; [apply call_guar|apply scan_letters_guar]. Qed.
Lemma DeleteDeadLetter_guar js seq : guar R (DeleteDeadLetter js seq).
Proof. unfold DeleteDeadLetter. guar_walk; apply call_guar. Qed.
Lemma viewDeadLetters_guar letters : guar R (viewDeadLetters letters).
Proof. induction letters as [|x l IH]; simpl; unfold viewDeadLetter; guar_walk. Qed.
Lemma ListIncidents_guar : guar R ListIncidents.
Proof. unfold ListIncidents, queryIncidents. guar_walk. Qed.
Lemma ListTimeline_guar id : guar R (ListTimeline id).
Proof. unfold ListTimeline. guar_walk. Qed.
Lemma ListRemediations_guar id : guar R (ListRemediations id).
Proof. unfold ListRemediations. guar_walk. Qed.
Lemma List_guar raw limit : guar R (List_ raw limit).
Proof. unfold List_. guar_walk. Qed.
Lemma ListEntries_guar limit : guar R (ListEntries limit).
Proof. unfold ListEntries. guar_walk. Qed.
Lemma ListServices_guar : guar R ListServices.
Proof. unfold ListServices. guar_walk. Qed.
Lemma ReindexRunbooks_guar x : guar R (ReindexRunbooks x).
Proof. unfold ReindexRunbooks. guar_walk. Qed.
Lemma Verify_guar : guar R Verify.
Proof. unfold Verify. apply guar_bind; [done|apply okay_tx_choice|intros [v|v]]; handler_walk. Qed.
End api_guarantees.
#[export] Hint Resolve answer_guar decoded_guar reply_guar GetDeadLetter_guar ListDeadLetters_guar DeleteDeadLetter_guar
  viewDeadLetters_guar ReindexRunbooks_guar Verify_guar SuggestRemediations_guar
  ListIncidents_guar ListTimeline_guar ListRemediations_guar List_guar ListEntries_guar ListServices_guar : guar.

(** Walk through a handler that only reads. *)
Ltac reads_walk :=
  repeat (first
    [ progress cbv zeta | progress unfold method_not_allowed, WriteError, incident_not_found
    | match goal with
      | |- guar _ (answer _ _ _) => apply answer_guar; [..|intros ?]
      | |- guar _ (decoded _ _) => apply decoded_guar; [..|intros ?]
      | |- guar _ (reply _ _) => apply reply_guar
      end
    | guar_step; intros ]; try typeclasses eauto); auto with guar nocore; try done.

(** *** Clean paths *)

(** The bytes of a path with these segments. *)
Definition path_length (l : list string) : nat := sum_list_with (fun x => S (String.length x)) l.

Lemma clean_segments_length l : forall kept, (path_length (clean_segments kept l) <= path_length kept + path_length l)%nat.
Proof.
  unfold path_length. induction l as [|x l IH]; intros kept; simpl; [rewrite sum_list_with_reverse; lia|].
  destruct ((x =?s "") || (x =?s ".")); [specialize (IH kept); lia|]. destruct (x =?s "..").
  - specialize (IH (tail kept)). destruct kept; simpl in *; lia.
  - specialize (IH (x :: kept)). simpl in IH. lia.
Qed.

Lemma Join_length l : l <> [] -> S (String.length (Join l "/")) = path_length l.
Proof.
  unfold path_length. induction l as [|x [|y l] IH]; intros Hl; [done|simpl; lia|].
  rewrite Join_cons by done. rewrite !length_app_string. specialize (IH ltac:(done)).
  change (String.length "/") with 1%nat. cbn [sum_list_with] in *. lia.
Qed.

Lemma Split_length t : path_length (Split t "/") = S (String.length t).
Proof. rewrite <- Join_length by apply split_fuel_not_nil. by rewrite Join_Split. Qed.

(** A path with an empty segment in the middle is not clean. *)
Lemma cleanPath_shorter rest :
  HasSuffix ("/v1/approval-requests//" +:+ rest) "/" = false ->
  cleanPath ("/v1/approval-requests//" +:+ rest) <> "/v1/approval-requests//" +:+ rest.
Proof.
  intros Hs E. apply (f_equal String.length) in E. revert E. unfold cleanPath. cbv zeta.
  change (HasPrefix ("/v1/approval-requests//" +:+ rest) "/") with (String.prefix "" (String "v" ("1/approval-requests//" +:+ rest))).
  cbn [String.prefix]. rewrite Hs. simpl andb. cbv iota.
  assert (Split ("/v1/approval-requests//" +:+ rest) "/" = "" :: "v1" :: "approval-requests" :: "" :: Split rest "/") as ->.
  { etrans; [exact (Split_char_app "/" "" ("v1/approval-requests//" +:+ rest) eq_refl)|f_equal].
    etrans; [exact (Split_char_app "/" "v1" ("approval-requests//" +:+ rest) eq_refl)|f_equal].
    etrans; [exact (Split_char_app "/" "approval-requests" ("/" +:+ rest) eq_refl)|f_equal]. exact (Split_char_app "/" "" rest eq_refl). }
  change (clean_segments [] _) with (clean_segments ["approval-requests"; "v1"] (Split rest "/")).
  pose proof (clean_segments_length (Split rest "/") ["approval-requests"; "v1"]) as HL. rewrite Split_length in HL.
  set (kept := clean_segments _ _) in *. rewrite !length_app_string. change (String.length "/v1/approval-requests//") with 23%nat.
  change (path_length ["approval-requests"; "v1"]) with 21%nat in HL. change (String.length "/") with 1%nat.
  destruct (decide (kept = [])) as [->|Hk]; [simpl; lia|]. apply Join_length in Hk. lia.
Qed.

Lemma TrimRight_kept t : HasSuffix t "/" = false -> TrimRight t "/" = t.
Proof.
  unfold HasSuffix. simpl String.length. induction t as [|c t IH]; [done|]. destruct t as [|d t].
  - simpl. destruct (Ascii.eqb c "/") eqn:E; [|done]. by apply Ascii.eqb_eq in E as ->.
  - intros H. assert (TrimRight (String d t) "/" = String d t) as HT.
    { apply IH. simpl in *. rewrite Nat.sub_0_r in *. exact H. }
    change (TrimRight (String c (String d t)) "/") with
      (match TrimRight (String d t) "/" with "" => if Ascii.eqb c "/" then "" else String c "" | r' => String c r' end).
    by rewrite HT.
Qed.

Lemma HasSuffix_app a c b : HasSuffix (a +:+ String c b) "/" = HasSuffix (String c b) "/".
Proof.
  unfold HasSuffix. rewrite length_app_string. simpl String.length.
  assert (forall n, drop_chars (String.length a + n) (a +:+ String c b) = drop_chars n (String c b)) as HD
    by (intros n; induction a; simpl_app; [done|by simpl]).
  replace (String.length a + S (String.length b) - 1)%nat with (String.length a + (S (String.length b) - 1))%nat by lia. rewrite HD.
  f_equal. rewrite Nat.add_succ_r. done.
Qed.

Section reads.
Context (s : Server) (p : option Principal) (r : ApiRequest).
Notation method := (rq_method r).
Notation path := (rq_path r).
Notation views := (requiredPermission method path = PermissionView).

(** The permission below a prefix is the one its own switch gives. *)
Lemma requiredPermission_prefix prefix rest sub :
  (prefix, sub) ∈ [("/v1/incidents/", incident_permission method); ("/v1/remediations/", remediation_permission);
                   ("/v1/approval-requests/", approval_permission method)] ->
  requiredPermission method (prefix +:+ rest) = sub (Split rest "/").
Proof. intros H. repeat (apply elem_of_cons in H as [[= -> ->]|H]; [by destruct rest|]). by apply elem_of_nil in H. Qed.

Lemma parts_after_prefix prefix rest : parts_after (prefix +:+ rest) prefix = Split rest "/".
Proof. unfold parts_after, TrimPrefix. assert (HasPrefix (prefix +:+ rest) prefix = true) as -> by (apply HasPrefix_spec; eauto). by rewrite drop_chars_app. Qed.

Lemma incident_reads rest :
  path = "/v1/incidents/" +:+ rest -> views -> guar eq (handleIncidentRoutes s p r).
Proof.
  intros Hp. rewrite Hp, (requiredPermission_prefix "/v1/incidents/" rest _ (list_elem_of_here _ _)).
  unfold handleIncidentRoutes. rewrite Hp, parts_after_prefix. unfold incident_permission.
  destruct (Split rest "/") as [|id [|a [|b [|]]]]; intros Hv; unfold handle_incident; reads_walk.
Qed.

Lemma remediation_reads rest :
  path = "/v1/remediations/" +:+ rest -> views -> guar eq (handleRemediationRoutes s p r).
Proof.
  intros Hp. rewrite Hp, (requiredPermission_prefix "/v1/remediations/" rest remediation_permission); [|by right; left].
  unfold handleRemediationRoutes. rewrite Hp, parts_after_prefix. unfold remediation_permission.
  destruct (Split rest "/") as [|id [|a [|]]]; intros Hv; try solve [reads_walk].
  destruct (bool_decide (a ∈ _)) eqn:Ha; [|apply reply_guar; typeclasses eauto]. apply bool_decide_eq_true in Ha. exfalso.
  repeat (apply elem_of_cons in Ha as [->|Ha]; [discriminate Hv|]). by apply elem_of_nil in Ha.
Qed.

(** Without a final slash, the handler and the permission see the same segments. *)
Lemma decision_segments rest :
  cleanPath ("/v1/approval-requests/" +:+ rest) = "/v1/approval-requests/" +:+ rest ->
  HasSuffix ("/v1/approval-requests/" +:+ rest) "/" = false -> Trim ("/" +:+ rest) "/" = rest.
Proof.
  intros Hc Hs. unfold Trim. change (TrimLeft ("/" +:+ rest) "/") with (TrimLeft rest "/").
  assert (TrimLeft rest "/" = rest) as ->.
  { destruct rest as [|c rest]; [done|]. simpl. destruct (Ascii.eqb c "/") eqn:E; [|done]. apply Ascii.eqb_eq in E as ->.
    exfalso. by apply (cleanPath_shorter rest). }
  destruct rest as [|c rest]; [done|]. apply TrimRight_kept. by rewrite (HasSuffix_app "/v1/approval-requests/") in Hs.
Qed.

Lemma approval_reads rest :
  path = "/v1/approval-requests/" +:+ rest -> views -> (is_post method = true -> cleanPath path = path /\ HasSuffix path "/" = false) ->
  guar eq (handleApprovalRequests s p r).
Proof.
  intros Hp Hv Hc. unfold handleApprovalRequests. cbv zeta. rewrite Hp in *.
  rewrite (requiredPermission_prefix "/v1/approval-requests/" rest (approval_permission method)) in Hv by (by right; right; left).
  change (TrimPrefix ("/v1/approval-requests/" +:+ rest) "/v1/approval-requests") with ("/" +:+ rest).
  destruct (is_post method) eqn:Hm; [|reads_walk].
  destruct (Hc eq_refl) as [Hc' Hs]. rewrite (decision_segments rest Hc' Hs). unfold approval_permission in Hv. rewrite Hm in Hv.
  destruct (_ || _); [reads_walk|]. destruct (Split rest "/") as [|id [|a [|]]]; try solve [reads_walk].
Qed.

Lemma exact_reads h :
  path <> "/v1/approval-callbacks/slack" -> views -> handler_of s p r path = Some h ->
  HasPrefix path "/v1/incidents/" = false -> HasPrefix path "/v1/remediations/" = false -> HasPrefix path "/v1/approval-requests/" = false ->
  guar eq h.
Proof.
  intros Hslack Hv Hh HI HR HA. unfold handler_of in Hh. rewrite HI, HR, HA, ?orb_false_r in Hh. clear HI HR HA.
  repeat match type of Hh with
  | (if (?x =?s ?y) then _ else _) = _ => destruct (x =?s y) eqn:E; [apply eqb_string_true in E|clear E]
  | (if ?b then _ else _) = _ => destruct b eqn:E; [apply HasPrefix_spec in E as [rest E]|clear E]
  end; try discriminate Hh; injection Hh as <-; rewrite E in Hv; try discriminate Hv; try (destruct rest; discriminate Hv);
    unfold handleHealth, handleReady, handleCurrentPrincipal, handleIncidents, handleApprovalRequests, handleServices, handleTopology,
      handleTopologyDependencies, handleRunbooks, ListRunbooks; rewrite ?E; try contradiction; cbv zeta;
    change (TrimPrefix "/v1/approval-requests" "/v1/approval-requests") with ""; change ("" =?s "") with true; cbn [orb]; cbv iota;
    cbn in Hv; destruct (is_get method), (is_post method); try discriminate Hv; cbn [negb]; cbv iota; reads_walk.
Qed.

(** A request that only needs [view] changes no table, the callback of Slack and a
    decision whose path ends in a slash apart. *)
Lemma mux_reads :
  path <> "/v1/approval-callbacks/slack" -> views ->
  HasPrefix path "/v1/approval-requests/" && HasSuffix path "/" && is_post method = false -> guar eq (mux s p r).
Proof.
  intros Hslack Hv Hs. unfold mux. cbv zeta. set (target := if _ =?s "CONNECT" then _ else _).
  destruct (target =?s "/v1/remediations"); [reads_walk|]. destruct (target =?s path) eqn:Ht; [simpl negb; cbv iota|apply reply_guar; typeclasses eauto].
  destruct (handler_of s p r path) as [h|] eqn:Hh; [|reads_walk].
  destruct (HasPrefix path "/v1/incidents/") eqn:HI; [|destruct (HasPrefix path "/v1/remediations/") eqn:HR;
    [|destruct (HasPrefix path "/v1/approval-requests/") eqn:HA; [|by eapply exact_reads]]].
  - apply HasPrefix_spec in HI as [rest HI]. rewrite HI in Hh. assert (h = handleIncidentRoutes s p r) as -> by (destruct rest; by injection Hh).
    by eapply incident_reads.
  - apply HasPrefix_spec in HR as [rest HR]. rewrite HR in Hh. assert (h = handleRemediationRoutes s p r) as -> by (destruct rest; by injection Hh).
    by eapply remediation_reads.
  - apply HasPrefix_spec in HA as [rest HA]. rewrite HA in Hh. assert (h = handleApprovalRequests s p r) as -> by (destruct rest; by injection Hh).
    eapply approval_reads; [done..|].
    intros Hm. rewrite Hm, andb_true_r in Hs. split; [|exact Hs]. apply eqb_string_true in Ht. subst target.
    unfold is_post in Hm. apply eqb_string_true in Hm. by rewrite Hm in Ht.
Qed.
End reads.

(** *** Every request is lawful *)

(** How [New] puts a server together: one approval workflow, one executor outside the
    tables, a grouping window that is not negative. *)
Record server_wired (s : Server) : Prop := {
  sw_self : forall x, rs_approvals (sv_remediation s) = Some x -> as_allow_self x = as_allow_self (sv_approvals s);
  sw_callbacks : as_allow_self (sw_service (sv_slack s)) = as_allow_self (sv_approvals s);
  sw_executor : ExternalExecutor (rs_exec (sv_remediation s));
  sw_window : 0 <= gr_alert_stale_after (sm_grouping (sv_incidents s));
}.

Section lawful_requests.
Context (s : Server) (W : server_wired s).
Notation lawful_here := (lawful (as_allow_self (sv_approvals s))).

Lemma Decide_lawful_by x id actor type decision reason source :
  as_allow_self x = as_allow_self (sv_approvals s) -> guar lawful_here (Decide x id actor type decision reason source).
Proof. intros <-. apply Decide_lawful. Qed.

Lemma decide_by_remediation_lawful id actor decision reason :
  guar lawful_here (x <- workflow (sv_remediation s) ;; DecideByRemediation x id actor "user" decision reason ;;; ret tt).
Proof.
  unfold workflow. destruct (rs_approvals (sv_remediation s)) as [x|] eqn:E; [|by intros e w].
  intros e w. unfold bind at 1. simpl. rewrite <- (sw_self s W x E). revert e w.
  apply guar_bind; [typeclasses eauto|apply DecideByRemediation_lawful|intros; handler_walk].
Qed.

Lemma Handle_lawful headers body : guar lawful_here (Handle (sv_slack s) headers body).
Proof.
  unfold Handle, slack_view_submission.
  repeat first [ apply Decide_lawful_by, (sw_callbacks s W) | apply slack_block_actions_guar; typeclasses eauto | guar_step; intros ];
    try typeclasses eauto; auto with guar.
Qed.

Lemma steady_here {A} (m : M A) : guar steady m -> guar lawful_here m.
Proof. apply guar_steady_lawful. Qed.

Ltac lawful_walk := reads_walk; try solve
  [ apply decide_by_remediation_lawful | apply Propose_lawful | apply Cancel_lawful | apply Decide_lawful | apply Handle_lawful
  | apply steady_here; first
    [ apply Redispatch_steady | apply Write_steady | apply Execute_steady, (sw_executor s W) | apply Ingest_steady, (sw_window s W)
    | apply CreateManual_steady | apply EnsureService_steady | apply ReportForProposal_steady | apply Generate_steady
    | unfold change_state, upsert_audited; handler_walk ] ].

Lemma handler_lawful p r path h : handler_of s p r path = Some h -> guar lawful_here h.
Proof.
  unfold handler_of. intros H.
  repeat match type of H with (if ?b then _ else _) = _ => destruct b; [injection H as <-|] end; try discriminate H;
  unfold handleHealth, handleReady, handleAlertmanager, handleManualSignal, handleCurrentPrincipal, handleIncidents, handleIncidentRoutes,
    handle_incident, handleIncidentStateChange, handlePropose, handleRemediationRoutes, handleApprovalRequests, handleSlackApprovalCallback,
    handleAudit, handleAuditVerify, handleDeadLetters, handleDeadLetterRoutes, letter_action, viewDeadLetter, replayDeadLetter, discardDeadLetter,
    handleServices, handleTopology, handleTopologyDependencies, handleRunbooks, ListRunbooks, handleRunbookReindex; lawful_walk.
Qed.

Lemma mux_lawful p r : guar lawful_here (mux s p r).
Proof.
  unfold mux. cbv zeta. repeat case_match; first [apply reply_guar; typeclasses eauto|by eapply handler_lawful].
Qed.

(** Whatever a client sends, the tables only move as the rules of the lifecycle, of
    approvals and of the ledger allow. *)
Lemma Handler_lawful r : guar lawful_here (Handler s r).
Proof.
  unfold Handler, limitRequestBodies, authMiddleware. cbv zeta.
  repeat (guar_step; intros; try typeclasses eauto); try (apply reply_guar; typeclasses eauto); apply mux_lawful.
Qed.
End lawful_requests.

Lemma requiredPermission_set method path : requiredPermission method path <> "".
Proof. unfold requiredPermission, incident_permission, remediation_permission, approval_permission. repeat case_match; discriminate. Qed.

(** ** Properties *)


(** *** Dead letters *)

Lemma answer_run {A} (m : M A) code k e w rp w' :
  answer m code k e w = (Ok rp, w') ->
  (exists x w1, m e w = (Ok x, w1) /\ k x e w1 = (Ok rp, w')) \/
  (exists err, m e w = (Fail err, w') /\ rp = mkReply (code err) (CError (err_text err))).
Proof.
  unfold answer, bind, attempt. destruct (m e w) as [[x|err] w1]; intros H; [left; by exists x, w1|right].
  injection H as <- <-. by exists err.
Qed.

(** What handling a dead letter may answer, and what it did then. *)
Definition letter_outcome (actor : string) (d d' : DB) (rp : Reply) : Prop :=
  if rp_status rp =? 200 then
    exists entry, logged entry d d' /\ ent_action entry = "remediation.dead_letter_discarded" /\ ent_actor_id entry = actor
  else if rp_status rp =? 202 then
    exists id rem k x, db_remediations d !! id = Some rem /\ Dispatchable (rem_status rem) = true /\ db_dispatches d !! k = None /\
      db_dispatches d' !! k = Some x /\ dsp_remediation_id x = rem_id rem /\ dsp_reason x = DispatchReplay
  else appended d d'.

Lemma refused_outcome actor d rp : rp_status rp <> 200 -> rp_status rp <> 202 -> letter_outcome actor d d rp.
Proof. intros H1%Z.eqb_neq H2%Z.eqb_neq. unfold letter_outcome. rewrite H1, H2. reflexivity. Qed.

Section letters.
Context (s : Server) (p : option Principal).

Lemma Redispatch_run cfg id reason actor type metadata e w did w' :
  Redispatch cfg id reason actor type metadata e w = (Ok did, w') ->
  exists rem x, db_remediations (w_db w) !! id = Some rem /\ Dispatchable (rem_status rem) = true /\ db_dispatches (w_db w) !! did = None /\
    db_dispatches (w_db w') !! did = Some x /\ dsp_remediation_id x = rem_id rem /\ dsp_reason x = reason.
Proof.
  unfold Redispatch. intros H. apply bind_ok in H as (k & w1 & H1 & H). apply in_tx_ok in H1 as (w0 & w2 & D0 & _ & H1 & D1 & _).
  apply redispatchTx_ok in H1 as (rem & entry & Hr & Hd & Hn & _ & (row & chain & HL & _) & _). rewrite D0 in *.
  apply bind_ok in H as (u & w3 & H3 & H). apply ret_ok in H as [<- ->].
  assert (steady (w_db w1) (w_db w3)) as G.
  { pose proof (guar_ignore _ _ (PublishOne_steady cfg did) e w1) as G. by rewrite H3 in G. }
  destruct (pg_dispatches _ _ (st_progress _ _ G) did (new_dispatch rem did reason (e_now e))) as (x & Hx & HJ).
  { rewrite D1, HL. simpl. apply lookup_insert_eq. }
  exists rem, x. unfold same_job, job_of in HJ. injection HJ as ????. by split_and!.
Qed.

Lemma replay_outcome view metadata e w rp w' :
  replayDeadLetter s p view metadata e w = (Ok rp, w') -> letter_outcome (actorFromRequest p) (w_db w) (w_db w') rp.
Proof.
  unfold replayDeadLetter. cbv zeta. intros H.
  destruct (_ =?s ""); [injection H as <- <-; by apply refused_outcome|].
  destruct (dv_replayable view); [|injection H as <- <-; by apply refused_outcome]. simpl in H.
  destruct (rs_dispatcher _) as [cfg|]; [|injection H as <- <-; by apply refused_outcome].
  apply answer_run in H as [(did & w1 & H1 & H)|(err & H & ->)].
  - apply Redispatch_run in H1 as (rem & x & Hr & Hd & Hn & Hx & Hi & Hs).
    unfold bind at 1 in H. destruct (attempt _ e w1) as [[out|err] w2] eqn:HD; [|discriminate H].
    assert (w_db w2 = w_db w1) as D2.
    { eapply unchanged, HD. apply guar_attempt. apply DeleteDeadLetter_guar; typeclasses eauto. }
    assert (rp_status rp = 202 /\ w' = w2) as [HR ->] by (destruct out; by injection H as <- <-).
    unfold letter_outcome. rewrite HR, D2. exists (dl_remediation_id (dv_letter view)), rem, did, x. by split_and!.
  - assert (w_db w' = w_db w) as ->.
    { unfold Redispatch in H. unfold bind at 1 in H.
      destruct (InTx _ e w) as [[k|err'] w1] eqn:E; [|injection H as _ <-; by apply in_tx_fail in E].
      exfalso. unfold bind, ignore, ret in H. by destruct (PublishOne cfg k e w1). }
    apply refused_outcome; simpl; unfold by_kind; by case_bool_decide.
Qed.

Lemma discard_outcome view seq metadata e w rp w' :
  discardDeadLetter s p view seq metadata e w = (Ok rp, w') -> letter_outcome (actorFromRequest p) (w_db w) (w_db w') rp.
Proof.
  unfold discardDeadLetter. cbv zeta. set (named := if _ =?s "" then _ else _). destruct named as [resourceType resourceID]. intros H.
  apply answer_run in H as [(u & w1 & H1 & H)|(err & H & ->)]; [|rewrite (Write_fails _ _ _ _ _ H); by apply refused_outcome].
  assert (appended (w_db w) (w_db w1)) as HA.
  { pose proof (Write_appended (audit_entry (actorFromRequest p) "user" "remediation.dead_letter_discarded" resourceType resourceID None None
      (Some metadata)) e w) as G. by rewrite H1 in G. }
  apply Write_run in H1 as (id & created & w0 & w2 & D0 & [HL _]%WriteTx_logged & D1). rewrite D0, <- D1 in HL.
  apply answer_run in H as [([] & w3 & H3 & H)|(err & H & ->)].
  - injection H as <- <-. eapply unchanged in H3; [|apply DeleteDeadLetter_guar; typeclasses eauto].
    unfold letter_outcome. simpl. rewrite H3. eexists. split; [exact HL|done].
  - eapply unchanged in H; [|apply DeleteDeadLetter_guar; typeclasses eauto]. unfold letter_outcome. simpl. by rewrite H.
Qed.

Lemma letter_action_outcome r seq action e w rp w' :
  letter_action s p r seq action e w = (Ok rp, w') -> letter_outcome (actorFromRequest p) (w_db w) (w_db w') rp.
Proof.
  unfold letter_action, decoded. intros H. destruct (reason_body r) as [reason|err].
  2: { unfold WriteDecodeError in H. injection H as <- <-. apply refused_outcome; simpl; by case_bool_decide. }
  destruct (_ =?s ""); [injection H as <- <-; by apply refused_outcome|].
  apply answer_run in H as [(letter & w1 & H1 & H)|(err & H & ->)].
  - eapply unchanged in H1; [|apply GetDeadLetter_guar; typeclasses eauto]. rewrite <- H1.
    apply bind_ok in H as (view & w2 & H2 & H). assert (w_db w2 = w_db w1) as D2.
    { eapply unchanged, H2. unfold viewDeadLetter. guar_walk. }
    rewrite <- D2. destruct (action =?s "replay"); [by eapply replay_outcome|by eapply discard_outcome].
  - eapply unchanged in H; [|apply GetDeadLetter_guar; typeclasses eauto]. rewrite H.
    apply refused_outcome; simpl; unfold by_kind; by case_bool_decide.
Qed.
End letters.

(** No dead letter leaves unrecorded. Handling one answers 200 only with an entry in
    the ledger that it was discarded, by the caller, and nothing else changed; it answers
    202 only when the remediation is queued or running and a new job in the outbox sends
    it again; any other answer left everything but the ledger alone. *)
Theorem letters_leave_recorded s p r e w rp w' :
  handleDeadLetterRoutes s p r e w = (Ok rp, w') -> letter_outcome (actorFromRequest p) (w_db w) (w_db w') rp.
Proof.
  unfold handleDeadLetterRoutes. intros H.
  destruct (parts_after _ _) as [|sequence [|action [|]]]; try (injection H as <- <-; by apply refused_outcome).
  destruct (_ || _); [|injection H as <- <-; by apply refused_outcome].
  destruct (is_post _); [|injection H as <- <-; by apply refused_outcome]. simpl in H.
  destruct (ParseUint sequence) as [[|seq|seq]|]; try (injection H as <- <-; by apply refused_outcome); by eapply letter_action_outcome.
Qed.

(** ** Runs *)

Definition demo_authenticator (role : string) : OIDCAuthenticator :=
  match NewOIDCAuthenticator demo_oidc (demo_oidc_config ("sre=" +:+ role)) with
  | Ok a => a
  | Fail err => mkAuthenticator (fun _ => Fail err) [] ∅ "" ""
  end.
Definition no_streams : JetStream :=
  mkJetStream (fun _ _ => Ok None) (fun _ _ seq => Ok (if seq =? 7 then Some (mkStreamMessage 7 DeadLetterSubject [] "junk" 0) else None))
    (fun _ _ _ => Ok true) (fun _ _ => Ok true) (fun _ _ => Ok tt) (fun _ _ => Ok tt).
Definition demo_server (role : string) : Server :=
  mkServer (demo_authenticator role) (NewServiceManager (30 * minute)) reports_service local_service demo_service
    (match demo_slack with Ok x => x | Fail _ => mkSlack demo_service "" "" ∅ (rca_client reports_service) (fun _ => 0%nat) end) no_streams [].
Definition demo_call (method path : string) (body : json) : ApiRequest :=
  mkApiRequest method path [] ["Bearer good"] [] 0 (enc body).
Definition decision_body : json := JObj [("decision", JStr "approve"); ("reason", JStr "looks right")].
Definition demo_decision (role path : string) : result Reply * world :=
  Handler (demo_server role) (demo_call "POST" path decision_body) quiet_env (demo_world later).
Definition answered (out : result Reply * world) : Z * option string :=
  (match out.1 with Ok rp => rp_status rp | Fail _ => 0 end, rem_status <$> (db_remediations (w_db out.2) !! "rem_1")).


Example operator_approves : answered (demo_decision RoleOperator "/v1/approval-requests/apr_1/decision") = (200, Some Rem.StateApproved).
Proof. vm_compute. reflexivity. Qed.

Definition status_of (out : result Reply * world) : Z := (answered out).1.
Example routes :
  (fun x => status_of (Handler (demo_server RoleAdmin) (demo_call x.1.1 x.1.2 x.2) quiet_env (demo_world later))) <$>
    [("GET", "/healthz", JNull); ("GET", "/v1/incidents/inc_1", JNull); ("GET", "/v1//incidents", JNull); ("GET", "/v1/remediations", JNull);
     ("GET", "/v2", JNull); ("DELETE", "/v1/incidents", JNull); ("POST", "/v1/incidents/inc_1/ack", JNull); ("POST", "/v1/incidents/nope/ack", JNull);
     ("POST", "/v1/services", JObj [("name", JStr "payments-api")]); ("POST", "/v1/services", JObj [("label", JStr "cart")]);
     ("POST", "/v1/dead-letters/7/discard", JObj [("reason", JStr "stale")]); ("POST", "/v1/dead-letters/7/replay", JObj [("reason", JStr "again")]);
     ("POST", "/v1/dead-letters/8/discard", JObj [("reason", JStr "stale")]); ("POST", "/v1/dead-letters/0/discard", JObj [("reason", JStr "stale")])] =
  [200; 200; 307; 307; 404; 405; 409; 404; 201; 400; 200; 422; 404; 400].
Proof. vm_compute. reflexivity. Qed.


Lemma letters_leave_recorded_witness :
  exists rp w', handleDeadLetterRoutes (demo_server RoleAdmin) None
      (demo_call "POST" "/v1/dead-letters/7/discard" (JObj [("reason", JStr "stale")])) quiet_env (demo_world later) = (Ok rp, w') /\
    rp_status rp = 200 /\ letter_outcome "system" (w_db (demo_world later)) (w_db w') rp.
Proof.
  destruct (handleDeadLetterRoutes (demo_server RoleAdmin) None
      (demo_call "POST" "/v1/dead-letters/7/discard" (JObj [("reason", JStr "stale")])) quiet_env (demo_world later)) as [[rp|] w'] eqn:E.
  - exists rp, w'. split; [reflexivity|]. split; [|exact (letters_leave_recorded _ _ _ _ _ _ _ E)].
    apply (f_equal status_of) in E. vm_compute in E. exact (eq_sym E).
  - apply (f_equal status_of) in E. vm_compute in E. discriminate E.
Defined.
