(* ===== verification/Backends.v ===== *)
(** * Evidence backends ([internal/evidence/http.go])

    Prometheus and Loki as the collector queries them: the request for an instant query
    and the reading of the answer, down to [strconv.ParseFloat]. The servers are outside
    the sources: what a request is answered is a parameter. *)
From Stdlib Require Import Ascii String ZArith Lia SpecFloat.
From stdpp Require Import base gmap strings list.
From S2P Require Import Prelude GoStrings GoFloat GoValue Json Marshal Types Evidence Database Http Transports.
Open Scope Z_scope.

(** ** [strconv.ParseFloat(s, 64)] *)

Definition is_sign (c : ascii) : bool := Ascii.eqb c "-" || Ascii.eqb c "+".
Definition split_sign (s : string) : bool * string :=
  match s with String c r => if is_sign c then (Ascii.eqb c "-", r) else (false, s) | "" => (false, "") end.

(** [special]: infinities with a sign or none, [nan] without. *)
Definition special (s : string) : option float64 :=
  let '(neg, r) := split_sign s in
  if EqualFold r "inf" || EqualFold r "infinity" then Some (S754_infinity neg)
  else if EqualFold s "nan" then Some S754_nan
  else None.

Definition hex_digit (c : ascii) : bool := is_digit c || in_range 97 102 (lower c).
Definition digit_value (c : ascii) : Z := if is_digit c then byte_of c - 48 else byte_of (lower c) - 87.

(** The mantissa: digits, at most one point, underscores skipped. Its value, the number
    of digits after the point, whether there was a digit, and the rest. *)
Fixpoint read_mantissa (hex : bool) (v frac : Z) (dot digits : bool) (s : string) : Z * Z * bool * string :=
  match s with
  | "" => (v, frac, digits, "")
  | String c r =>
      if Ascii.eqb c "_" then read_mantissa hex v frac dot digits r
      else if Ascii.eqb c "." then if dot then (v, frac, digits, s) else read_mantissa hex v frac true digits r
      else if is_digit c || (hex && hex_digit c)
      then read_mantissa hex (v * (if hex then 16 else 10) + digit_value c) (if dot then frac + 1 else frac) dot true r
      else (v, frac, digits, s)
  end.

(** The digits of an exponent; they stop counting beyond 10000. *)
Fixpoint read_exponent (e : Z) (s : string) : Z * string :=
  match s with
  | String c r =>
      if Ascii.eqb c "_" then read_exponent e r
      else if is_digit c then read_exponent (if e <? 10000 then e * 10 + digit_value c else e) r
      else (e, s)
  | "" => (e, "")
  end.

(** [underscoreOK]: an underscore only between digits, or after the base prefix. *)
Fixpoint underscores_ok (hex : bool) (saw : ascii) (s : string) : bool :=
  match s with
  | "" => negb (Ascii.eqb saw "_")
  | String c r =>
      if is_digit c || (hex && hex_digit c) then underscores_ok hex "0" r
      else if Ascii.eqb c "_" then Ascii.eqb saw "0" && underscores_ok hex "_" r
      else negb (Ascii.eqb saw "_") && underscores_ok hex "!" r
  end.
Definition based (s : string) (letters : list ascii) : bool :=
  match s with String "0" (String c _) => bool_decide (lower c ∈ letters) | _ => false end.
Definition underscoreOK (s : string) : bool :=
  let '(_, s) := split_sign s in
  if based s ["b"; "o"; "x"]%char then underscores_ok (based s ["x"]%char) "0" (drop_chars 2 s) else underscores_ok false "^" s.

Definition exponent_part (hex : bool) (s : string) : option (Z * string) :=
  match s with
  | String c r =>
      if Ascii.eqb (lower c) (if hex then "p" else "e") then
        let '(neg, r) := split_sign r in
        match r with
        | String d _ => if is_digit d then let '(e, rest) := read_exponent 0 r in Some ((if neg then - e else e), rest) else None
        | "" => None
        end
      else if hex then None else Some (0, s)
  | "" => if hex then None else Some (0, s)
  end.

(** The number a mantissa and an exponent stand for, correctly rounded. *)
Definition assemble (hex : bool) (v frac e : Z) : float64 :=
  match v with
  | Zpos m => if hex then binary_normalize prec emax v (e - 4 * frac) false else parse_decimal m (e - frac)
  | _ => S754_zero false
  end.
Definition with_sign (neg : bool) (x : float64) : float64 := if neg then SFopp x else x.

Definition num_error {A} (s why : string) : result A := Fail (errorf ("strconv.ParseFloat: parsing " +:+ Quote s +:+ ": " +:+ why)).

Definition ParseFloat (s : string) : result float64 :=
  match special s with
  | Some x => Ok x
  | None =>
      let '(neg, r) := split_sign s in
      let hex := based r ["x"]%char && Nat.ltb 2 (String.length r) in
      let '(v, frac, digits, rest) := read_mantissa hex 0 0 false false (if hex then drop_chars 2 r else r) in
      if negb digits then num_error s "invalid syntax"
      else
        match exponent_part hex rest with
        | Some (e, rest) =>
            if negb (rest =?s "") || (Contains s "_" && negb (underscoreOK s)) then num_error s "invalid syntax"
            else
              let x := assemble hex v frac e in
              if IsInf x then num_error s "value out of range" else Ok (with_sign neg x)
        | None => num_error s "invalid syntax"
        end
  end.

Example floats_read :
  (fun s => match ParseFloat s with Ok v => Some v | Fail _ => None end) <$> ["1.5"; "-2"; ".25"; "1e3"; "0x1p-2"; "+Inf"; "infinity"; "NaN"; "-nan"; "1e400"; "1e-400"; "1_0"; "_1"; "1_"; ""; "."; "1.2.3"; "0x10"] =
  [Some (lit 3 2); Some (of_int (-2)); Some (lit 1 4); Some (of_int 1000); Some (lit 1 4); Some (S754_infinity false); Some (S754_infinity false);
   Some S754_nan; None; None; Some fzero; Some (of_int 10); None; None; None; None; None; None].
Proof. vm_compute. reflexivity. Qed.

(** ** The client *)

Definition maxResponseBytes : Z := 4 * 2 ^ 20.

(** The exchange of one request; [None] for the body is a failed read. *)
Record QueryClient := mkQueryClient {
  qc_url_error : string -> option string;
  qc_do : HttpRequest -> result (Z * option string);
}.

Record HTTPQuerier := mkHTTPQuerier { hq_backend : string; hq_endpoint : string; hq_token : string; hq_client : QueryClient }.

(** [url.QueryEscape]. *)
Definition unreserved (c : ascii) : bool :=
  is_digit c || is_lower c || is_upper c || Ascii.eqb c "-" || Ascii.eqb c "_" || Ascii.eqb c "." || Ascii.eqb c "~".
Definition upper_hex (n : Z) : ascii := chr (Z.to_N (if n <? 10 then 48 + n else 55 + n)).
Fixpoint QueryEscape (s : string) : string :=
  match s with
  | "" => ""
  | String c r =>
      (if unreserved c then String c ""
       else if Ascii.eqb c " " then "+"
       else String "%" (String (upper_hex (byte_of c / 16)) (String (upper_hex (byte_of c mod 16)) ""))) +:+ QueryEscape r
  end.

(** [time.UnixMilli] rounds down. *)
Definition query_time (backend : string) (at_ : Z) : string :=
  if backend =?s Loki then itoa at_ else fmt_fixed 3 (fdiv (of_int (at_ / 10 ^ 6)) (of_int 1000)).

(** [params.Encode] writes the two keys in order. *)
Definition query_url (q : HTTPQuerier) (query : string) (at_ : Z) : string :=
  hq_endpoint q +:+ "?query=" +:+ QueryEscape query +:+ "&time=" +:+ QueryEscape (query_time (hq_backend q) at_).

(** ** The answer *)

Record apiEnvelope := mkEnvelope { ae_status : string; ae_error : string; ae_result_type : string; ae_result : option json }.

Definition decode_raw (_ : option json) (j : json) : result (option json) := Ok (Some j).
Definition decode_data (old : string * option json) (j : json) : result (string * option json) :=
  match j with
  | JNull => Ok old
  | JObj m =>
      let! ty := decode_field decode_string "resultType" old.1 m in
      let! raw := decode_field decode_raw "result" old.2 m in
      Ok (ty, raw)
  | _ => Fail (errorf "json: cannot unmarshal into a struct")
  end.
Definition decode_envelope (body : string) : result apiEnvelope :=
  let! m := unmarshal_object body in
  let! status := decode_field decode_string "status" "" m in
  let! _ := decode_field decode_string "errorType" "" m in
  let! error := decode_field decode_string "error" "" m in
  let! data := decode_field decode_data "data" ("", None) m in
  Ok (mkEnvelope status error data.1 data.2).

(** The second element of a pair; what is missing there is no JSON at all. *)
Definition second_of (old : option json) (j : json) : result (option json) :=
  match j with
  | JNull => Ok old
  | JArr l => Ok (l !! 1%nat)
  | _ => Fail (errorf "json: cannot unmarshal into an array")
  end.

Definition sampleValue (raw : option json) : result float64 :=
  match raw with
  | Some (JStr text) => ParseFloat text
  | Some JNull => ParseFloat ""
  | Some _ => Fail (errorf "json: cannot unmarshal into a string")
  | None => Fail (errorf "unexpected end of JSON input")
  end.

Definition decode_series (j : json) : result (option json) :=
  match j with
  | JNull => Ok None
  | JObj m => decode_field second_of "value" None m
  | _ => Fail (errorf "json: cannot unmarshal into a struct")
  end.

(** The largest sample that is a number. *)
Fixpoint best_sample (best : option float64) (samples : list (option json)) : result (option float64) :=
  match samples with
  | [] => Ok best
  | raw :: samples =>
      let! v := sampleValue raw in
      best_sample (if IsNaN v then best
                   else match best with Some b => if fgt v b then Some v else best | None => Some v end) samples
  end.

Definition sample_of (v : option float64) : answer := match v with Some v => Sample v true | None => Sample fzero false end.
Definition failed (text : string) : answer := QueryError (errorf text).
Definition answer_of (prefix : string) (r : result (option float64)) : answer :=
  match r with Ok v => sample_of v | Fail err => QueryError (wrapf prefix err) end.

Definition vector_answer (backend : string) (raw : option json) : answer :=
  match raw with
  | None => failed (backend +:+ " returned an invalid vector: unexpected end of JSON input")
  | Some j =>
      match decode_list decode_series [] j with
      | Fail err => QueryError (wrapf (backend +:+ " returned an invalid vector") err)
      | Ok series => answer_of (backend +:+ " returned an invalid sample") (best_sample None series)
      end
  end.
Definition scalar_answer (backend : string) (raw : option json) : answer :=
  answer_of (backend +:+ " returned an invalid scalar")
    (match raw with
     | None => Fail (errorf "unexpected end of JSON input")
     | Some j => let! raw := second_of None j in let! v := sampleValue raw in Ok (if IsNaN v then None else Some v)
     end).

Definition parseInstant (backend : string) (statusCode : Z) (body : string) : answer :=
  let envelope := decode_envelope body in
  if negb (statusCode =? 200) then
    match envelope with
    | Ok e => if ae_error e =?s "" then failed (backend +:+ " returned HTTP " +:+ itoa statusCode)
              else failed (backend +:+ " returned HTTP " +:+ itoa statusCode +:+ ": " +:+ ae_error e)
    | Fail _ => failed (backend +:+ " returned HTTP " +:+ itoa statusCode)
    end
  else
    match envelope with
    | Fail err => QueryError (wrapf (backend +:+ " returned invalid JSON") err)
    | Ok e =>
        if negb (ae_status e =?s "success") then failed (backend +:+ " query status " +:+ Quote (ae_status e) +:+ ": " +:+ ae_error e)
        else if ae_result_type e =?s "vector" then vector_answer backend (ae_result e)
        else if ae_result_type e =?s "scalar" then scalar_answer backend (ae_result e)
        else failed (backend +:+ " returned result type " +:+ Quote (ae_result_type e) +:+ "; probes must aggregate to a vector or scalar")
    end.

Definition Instant (q : HTTPQuerier) : Querier := fun query at_ =>
  let url := query_url q query at_ in
  match qc_url_error (hq_client q) url with
  | Some msg => failed msg
  | None =>
      let headers := ("Accept", "application/json") :: (if hq_token q =?s "" then [] else [("Authorization", "Bearer " +:+ hq_token q)]) in
      match qc_do (hq_client q) (mkHttpRequest "GET" url headers None) with
      | Fail err => QueryError (wrapf (hq_backend q +:+ " query failed") err)
      | Ok (_, None) => failed (hq_backend q +:+ " response read failed")
      | Ok (code, Some body) =>
          if maxResponseBytes <? Z.of_nat (String.length body)
          then failed (hq_backend q +:+ " response exceeded " +:+ itoa maxResponseBytes +:+ " bytes")
          else parseInstant (hq_backend q) code body
      end
  end.

Definition newHTTPQuerier (backend baseURL path token : string) (client : QueryClient) : option Querier :=
  let baseURL := TrimRight (TrimSpace baseURL) "/" in
  if baseURL =?s "" then None else Some (Instant (mkHTTPQuerier backend (baseURL +:+ path) token client)).
Definition NewPrometheus (baseURL token : string) (client : QueryClient) : option Querier :=
  newHTTPQuerier Prometheus baseURL "/api/v1/query" token client.
Definition NewLoki (baseURL token : string) (client : QueryClient) : option Querier :=
  newHTTPQuerier Loki baseURL "/loki/api/v1/query" token client.

(** ** The order of floats *)

(** A key whose lexicographic order is the order of the numbers. *)
Definition order_key (x : float64) : Z * Z * Z :=
  match x with
  | S754_zero _ => (0, 0, 0)
  | S754_infinity s => (if s then -2 else 2, 0, 0)
  | S754_nan => (3, 0, 0)
  | S754_finite s m e => if s then (-1, - e, Z.neg m) else (1, e, Z.pos m)
  end.
Definition key_lt (a b : Z * Z * Z) : Prop :=
  a.1.1 < b.1.1 \/ (a.1.1 = b.1.1 /\ (a.1.2 < b.1.2 \/ (a.1.2 = b.1.2 /\ a.2 < b.2))).

Lemma flt_key x y : flt x y = true <-> IsNaN x = false /\ IsNaN y = false /\ key_lt (order_key x) (order_key y).
Proof.
  unfold flt, SFltb, key_lt. destruct x as [sx|sx| |sx m e], y as [sy|sy| |sy m' e']; simpl;
    repeat match goal with b : bool |- _ => destruct b end; simpl; try (intuition (done || lia)).
  all: change (Pos.compare_cont Eq) with Pos.compare.
  all: destruct (Z.compare_spec e e'); simpl; try (intuition (done || lia)).
  all: destruct (Pos.compare_spec m m'); simpl; intuition (done || lia).
Qed.

Lemma flt_trans x y z : flt x y = true -> flt y z = true -> flt x z = true.
Proof. rewrite !flt_key. unfold key_lt. intros (? & ? & ?) (? & ? & ?). split_and!; [done|done|lia]. Qed.

Lemma flt_irrefl x : flt x x = false.
Proof. apply not_true_is_false. rewrite flt_key. unfold key_lt. intros (_ & _ & ?). lia. Qed.

(** [v] is the largest of the values that are numbers. *)
Definition largest (values : list float64) (v : option float64) : Prop :=
  match v with
  | Some v => v ∈ values /\ IsNaN v = false /\ forall x, x ∈ values -> flt v x = false
  | None => forall x, x ∈ values -> IsNaN x = true
  end.

Lemma flt_nan_r x : flt x S754_nan = false.
Proof. by destruct x as [[]|[]| |[]]. Qed.

Lemma best_sample_spec raws : forall values seen best out,
  largest seen best -> Forall2 (fun raw v => sampleValue raw = Ok v) raws values -> best_sample best raws = Ok out -> largest (seen ++ values) out.
Proof.
  induction raws as [|raw raws IH]; intros values seen best out HL HV H; inversion HV as [|? v ? values' Hv HV' E1 E2]; subst; simpl in H.
  { injection H as <-. by rewrite app_nil_r. }
  rewrite Hv in H. simpl in H. rewrite cons_middle, app_assoc. eapply IH; [|exact HV'|exact H]. clear H IH HV HV'.
  destruct (IsNaN v) eqn:N.
  - destruct v; try done. destruct best as [b|]; simpl in *.
    + destruct HL as (H1 & H2 & H3). split_and!; [apply elem_of_app; by left|done|].
      intros x [Hx| ->%list_elem_of_singleton]%elem_of_app; [auto|apply flt_nan_r].
    + by intros x [Hx| ->%list_elem_of_singleton]%elem_of_app; [auto|].
  - destruct best as [b|]; simpl in *.
    + destruct HL as (H1 & H2 & H3). destruct (fgt v b) eqn:G; simpl.
      * split_and!; [apply elem_of_app; right; by apply list_elem_of_singleton|done|].
        intros x [Hx| ->%list_elem_of_singleton]%elem_of_app; [|apply flt_irrefl].
        apply not_true_is_false. intros Hvx. specialize (H3 x Hx). by rewrite (flt_trans b v x G Hvx) in H3.
      * split_and!; [apply elem_of_app; by left|done|]. intros x [Hx| ->%list_elem_of_singleton]%elem_of_app; [auto|exact G].
    + split_and!; [apply elem_of_app; right; by apply list_elem_of_singleton|done|].
      intros x [Hx| ->%list_elem_of_singleton]%elem_of_app; [|apply flt_irrefl].
      apply HL in Hx. destruct x; try done. apply flt_nan_r.
Qed.

Lemma best_sample_values raws : forall best out, best_sample best raws = Ok out ->
  exists values, Forall2 (fun raw v => sampleValue raw = Ok v) raws values.
Proof.
  induction raws as [|raw raws IH]; intros best out H; [by exists []|]. simpl in H. apply result_bind_ok in H as (v & Hv & H).
  apply IH in H as [values HV]. exists (v :: values). by constructor.
Qed.

(** ** Properties *)

(** What a successful answer was read from: a reply with status 200 that says
    [success], carrying samples of which the value is the largest number, or the one
    scalar. *)
Inductive read_from (body : string) : option float64 -> Prop :=
  | from_vector e j series values v :
      decode_envelope body = Ok e -> ae_status e = "success" -> ae_result_type e = "vector" -> ae_result e = Some j ->
      decode_list decode_series [] j = Ok series -> Forall2 (fun raw x => sampleValue raw = Ok x) series values -> largest values v ->
      read_from body v
  | from_scalar e j raw x :
      decode_envelope body = Ok e -> ae_status e = "success" -> ae_result_type e = "scalar" -> ae_result e = Some j ->
      second_of None j = Ok raw -> sampleValue raw = Ok x -> read_from body (if IsNaN x then None else Some x).

(** A sample is what the backend answered. When a query through the HTTP client
    gives a value, or no value, the backend answered that very query at that time with
    status 200, success and at most four MiB, and the value is the largest number among
    all the samples of its vector, or its scalar; no value means that none of them is a
    number. Anything else is an error. *)
Theorem Instant_reads_answer q query at_ v ok :
  Instant q query at_ = Sample v ok ->
  exists headers body, qc_do (hq_client q) (mkHttpRequest "GET" (query_url q query at_) headers None) = Ok (200, Some body) /\
    Z.of_nat (String.length body) <= maxResponseBytes /\ read_from body (if ok then Some v else None).
Proof.
  unfold Instant. cbv zeta. destruct (qc_url_error _ _); [done|].
  set (headers := ("Accept", "application/json") :: _). destruct (qc_do _ _) as [[code [body|]]|] eqn:HD; try done.
  destruct (maxResponseBytes <? _) eqn:HL; [done|]. apply Z.ltb_ge in HL. unfold parseInstant.
  destruct (code =? 200) eqn:HC; simpl; [|by repeat case_match]. apply Z.eqb_eq in HC as ->.
  destruct (decode_envelope body) as [e|] eqn:HE; [|done]. destruct (ae_status e =?s "success") eqn:HS; simpl; [|done].
  intros H. exists headers, body. split; [done|]. split; [done|]. reflect_tests.
  destruct (ae_result_type e =?s "vector") eqn:HV; reflect_tests.
  - unfold vector_answer in H. destruct (ae_result e) as [j|] eqn:HJ; [|done].
    destruct (decode_list decode_series [] j) as [series|] eqn:HR; [|done]. unfold answer_of in H.
    destruct (best_sample None series) as [best|] eqn:HB; [|done].
    destruct (best_sample_values _ _ _ HB) as [values HF].
    assert (largest values best) as HM by (apply (best_sample_spec series values [] None); [by intros x ?%elem_of_nil|done|done]).
    assert (best = if ok then Some v else None) as <- by (destruct best; by injection H as <- <-).
    by econstructor.
  - destruct (ae_result_type e =?s "scalar") eqn:HT; reflect_tests; [|done]. unfold scalar_answer, answer_of in H.
    destruct (ae_result e) as [j|] eqn:HJ; [|done]. destruct (second_of None j) as [raw|] eqn:HR; [|done]. simpl in H.
    destruct (sampleValue raw) as [x|] eqn:HX; [|done]. simpl in H.
    assert ((if IsNaN x then None else Some x) = if ok then Some v else None) as <- by (destruct (IsNaN x); by injection H as <- <-).
    by econstructor.
Qed.

(** ** A run *)

Definition demo_body : string :=
  enc (JObj [("status", JStr "success"); ("data", JObj [("resultType", JStr "vector"); ("result", JArr
    [JObj [("value", JArr [JNum "1"; JStr "0.25"])]; JObj [("value", JArr [JNum "1"; JStr "NaN"])]; JObj [("value", JArr [JNum "1"; JStr "1e1"])]])])]).
Definition demo_query_client : QueryClient :=
  mkQueryClient (fun _ => None) (fun r => if HasSuffix (hq_url r) "?query=up%7Bservice%3D%22a+b%22%7D&time=1709210096.120" then Ok (200, Some demo_body) else Fail (errorf "refused")).
Definition demo_querier : HTTPQuerier := mkHTTPQuerier Prometheus "http://prom/api/v1/query" "" demo_query_client.
Definition demo_time : Z := 1709210096 * 10 ^ 9 + 120300000.
Definition demo_promql : string := "up{service=" +:+ dq +:+ "a b" +:+ dq +:+ "}".

Lemma demo_instant : Instant demo_querier demo_promql demo_time = Sample (of_int 10) true.
Proof. vm_compute. reflexivity. Qed.

Lemma Instant_reads_answer_witness :
  exists headers body, qc_do demo_query_client (mkHttpRequest "GET" (query_url demo_querier demo_promql demo_time) headers None) = Ok (200, Some body) /\
    read_from body (Some (of_int 10)).
Proof.
  destruct (Instant_reads_answer demo_querier demo_promql demo_time (of_int 10) true demo_instant) as (headers & body & H & _ & R).
  exists headers, body. split; [exact H|exact R].
Defined.
