(* ===== verification/Migrations.v ===== *)
(** * Schema migrations ([migrations/migrations.go], [internal/db/db.go])

    The migration files as [Load] reads them, and the runner that brings a database to
    them or checks it. The files are embedded and the database runs their text: which
    statements it rejects is its answer. *)
From Stdlib Require Import Ascii String ZArith Lia.
From stdpp Require Import base gmap strings list sorting.
From S2P Require Import Prelude GoStrings GoFloat GoValue Marshal Sha256 Ledger.
Open Scope Z_scope.

(** ** Files *)

Record Migration := mkMigration { mg_version : Z; mg_name : string; mg_sql : string; mg_checksum : string; mg_breaking : bool }.

(** An entry of the directory; reading a file may fail. *)
Record FileEntry := mkFileEntry { fe_name : string; fe_dir : bool; fe_body : result string }.

(** [declares]: the comment block before the first statement has a line that starts with
    the directive. *)
Fixpoint declares_in (lines : list string) (directive : string) : bool :=
  match lines with
  | [] => false
  | line :: lines =>
      let line := TrimSpace line in
      if line =?s "" then declares_in lines directive
      else if negb (HasPrefix line "--") then false
      else
        let text := TrimSpace (drop_chars 2 line) in
        if (text =?s directive) || HasPrefix text (directive +:+ " ") then true else declares_in lines directive
  end.
Definition newline : string := String (ascii_of_nat 10) "".
Definition declares (body directive : string) : bool := declares_in (Split body newline) directive.
Definition declaresBreaking (body : string) : bool := declares body "argus:breaking".

(** [fileName]: four digits, an underscore, a name and [.sql]. *)
Definition name_char (c : ascii) : bool := is_lower c || is_digit c || Ascii.eqb c "_".
Definition match_fileName (s : string) : option (string * string) :=
  let digits := take_chars 4 s in
  let rest := drop_chars 4 s in
  if negb (Nat.eqb (String.length digits) 4 && all_chars is_digit digits && HasPrefix rest "_" && HasSuffix (drop_chars 1 rest) ".sql") then None
  else
    let name := TrimSuffix (drop_chars 1 rest) ".sql" in
    if negb (name =?s "") && all_chars name_char name then Some (digits, name) else None.

(** [%04d] of a version; the files give no negative one. *)
Definition four_digits (n : Z) : string := pad_zeros 4 (itoa n).
Definition label (version : Z) (name : string) : string := four_digits version +:+ "_" +:+ name.

Fixpoint read_entries (entries : list FileEntry) : result (list Migration) :=
  match entries with
  | [] => Ok []
  | entry :: entries =>
      if fe_dir entry then read_entries entries
      else
        match match_fileName (fe_name entry) with
        | None => Fail (errorf ("migration file " +:+ Quote (fe_name entry) +:+ " does not match NNNN_name.sql"))
        | Some (digits, name) =>
            match fe_body entry with
            | Fail err => Fail (wrapf ("read migration " +:+ fe_name entry) err)
            | Ok body =>
                let! rest := read_entries entries in
                Ok (mkMigration (default 0 (ParseInt digits)) name body (sha256_hex body) (declaresBreaking body) :: rest)
            end
        end
  end.

Fixpoint check_contiguous (i : Z) (out : list Migration) : result unit :=
  match out with
  | [] => Ok tt
  | m :: out =>
      if negb (mg_version m =? i) then
        Fail (errorf ("migration versions must be contiguous from 0001: found " +:+ label (mg_version m) (mg_name m) +:+ " at position " +:+ itoa i))
      else check_contiguous (i + 1) out
  end.

(** [Load] of a directory, or of the error of listing it. *)
Definition Load (dir : result (list FileEntry)) : result (list Migration) :=
  match dir with
  | Fail err => Fail (wrapf "list migrations" err)
  | Ok entries =>
      let! out := read_entries entries in
      let out := sort_stable (fun a b => mg_version a <? mg_version b) out in
      let! _ := check_contiguous 1 out in
      if bool_decide (out = []) then Fail (errorf "no migrations embedded") else Ok out
  end.

(** ** The database *)

Record appliedMigration := mkApplied { am_name : string; am_checksum : string; am_breaking : bool; am_version : Z }.

(** [schema_migrations], absent before the first run; the texts the database ran, in
    their order; and the audit ledger with its head. *)
Record Schema := mkSchema {
  sc_rows : option (gmap Z appliedMigration);
  sc_executed : list string;
  sc_audit : list LegacyRow;
  sc_head : option (Z * string);
}.
Definition rows_in (d : Schema) : gmap Z appliedMigration := default ∅ (sc_rows d).

(** What the database does: statement number [n] may fail, and it may refuse a text on
    the schema the earlier texts made. *)
Record Backend := mkBackend { bk_fault : nat -> option string; bk_refuses : list string -> string -> option string }.

Definition SM (A : Type) : Type := Backend -> nat * Schema -> result A * (nat * Schema).
Definition sret {A} (a : A) : SM A := fun _ w => (Ok a, w).
Definition sthrow {A} (err : error) : SM A := fun _ w => (Fail err, w).
Definition sbind {A B} (m : SM A) (k : A -> SM B) : SM B := fun b w =>
  match m b w with (Ok a, w') => k a b w' | (Fail err, w') => (Fail err, w') end.
Notation "x <-! m ;; k" := (sbind m (fun x => k)) (at level 100, m at next level, right associativity).
Notation "m ;;! k" := (sbind m (fun _ => k)) (at level 100, right associativity).

(** One statement, numbered, with its effect on the schema. *)
Definition statement {A} (prefix : string) (f : Backend -> Schema -> result (A * Schema)) : SM A := fun b '(n, d) =>
  match bk_fault b n with
  | Some msg => (Fail (wrapf prefix (errorf msg)), (n + 1, d)%nat)
  | None => match f b d with
            | Ok (a, d') => (Ok a, (n + 1, d')%nat)
            | Fail err => (Fail (wrapf prefix err), (n + 1, d)%nat)
            end
  end.
Definition run_statement (prefix : string) (f : Schema -> Schema) : SM unit := statement prefix (fun _ d => Ok (tt, f d)).

(** A transaction of one connection: begin, body, commit. *)
Definition transaction (begin_text commit_text : string) (body : SM unit) : SM unit := fun b '(n, d) =>
  match bk_fault b n with
  | Some msg => (Fail (wrapf begin_text (errorf msg)), (n + 1, d)%nat)
  | None =>
      match body b (n + 1, d)%nat with
      | (Fail err, (n', _)) => (Fail err, (n', d))
      | (Ok _, (n', d')) =>
          match bk_fault b n' with
          | Some msg => (Fail (wrapf commit_text (errorf msg)), (n' + 1, d)%nat)
          | None => (Ok tt, (n' + 1, d')%nat)
          end
      end
  end.

(** ** The runner *)

Definition ModeApply : string := "apply".
Definition ModeVerify : string := "verify".
Definition ParseMode (value : string) : result string :=
  if (value =?s "") || (value =?s ModeApply) then Ok ModeApply
  else if value =?s ModeVerify then Ok ModeVerify
  else Fail (errorf ("ARGUS_MIGRATIONS must be " +:+ Quote ModeApply +:+ " or " +:+ Quote ModeVerify +:+ ", got " +:+ Quote value)).

Record Report := mkReport { rp_applied : list Migration; rp_newer : list Z }.

Definition record_of (m : Migration) : appliedMigration := mkApplied (mg_name m) (mg_checksum m) (mg_breaking m) (mg_version m).

Definition set_rows (f : gmap Z appliedMigration -> gmap Z appliedMigration) (d : Schema) : Schema :=
  mkSchema (Some (f (rows_in d))) (sc_executed d) (sc_audit d) (sc_head d).

(** CREATE TABLE IF NOT EXISTS and ADD COLUMN IF NOT EXISTS. *)
Definition prepare_table : SM unit :=
  run_statement "prepare schema_migrations" (set_rows id) ;;!
  run_statement "prepare schema_migrations" (set_rows id).

Definition appliedMigrations : SM (gmap Z appliedMigration) :=
  exists_ <-! statement "inspect schema_migrations" (fun _ d => Ok (bool_decide (is_Some (sc_rows d)), d)) ;;
  if (exists_ : bool) then statement "read schema_migrations" (fun _ d => Ok (rows_in d, d)) else sret ∅.

Definition exec_sql (m : Migration) : SM unit :=
  statement ("apply migration " +:+ label (mg_version m) (mg_name m)) (fun b d =>
    match bk_refuses b (sc_executed d) (mg_sql m) with
    | Some msg => Fail (errorf msg)
    | None => Ok (tt, mkSchema (sc_rows d) (sc_executed d ++ [mg_sql m]) (sc_audit d) (sc_head d))
    end).
Definition record_migration (m : Migration) : SM unit :=
  statement ("record migration " +:+ label (mg_version m) (mg_name m)) (fun _ d =>
    if bool_decide (is_Some (rows_in d !! mg_version m)) then Fail (errorf "duplicate key value violates unique constraint")
    else Ok (tt, set_rows <[mg_version m := record_of m]> d)).
Definition applyOne (m : Migration) : SM unit :=
  transaction ("begin migration " +:+ label (mg_version m) (mg_name m)) ("commit migration " +:+ label (mg_version m) (mg_name m))
    (exec_sql m ;;! record_migration m).

Fixpoint apply_all (pending : list Migration) : SM unit :=
  match pending with [] => sret tt | m :: pending => applyOne m ;;! apply_all pending end.

(** [known]: the last migration of a version. *)
Definition known (set : list Migration) : gmap Z Migration := foldl (fun k m => <[mg_version m := m]> k) ∅ set.

Definition ErrMigrationModified (m : Migration) (row : appliedMigration) : error :=
  mkError KMigrationModified ("applied migration was modified: " +:+ label (mg_version m) (mg_name m) +:+ " checksum " +:+ mg_checksum m +:+
    ", database recorded " +:+ am_checksum row).
Definition ErrSchemaNewer (breaking : list string) (knows : Z) : error :=
  mkError KSchemaNewer ("database schema has a breaking migration newer than this build: [" +:+ Join breaking " " +:+
    "] applied, this build knows up to " +:+ four_digits knows +:+ "; deploy a build that includes them").
Definition ErrSchemaBehind (pending : list Migration) (first : Migration) : error :=
  mkError KSchemaBehind ("database schema is behind this build: " +:+ itoa (Z.of_nat (length pending)) +:+ " migration(s) pending, first " +:+
    label (mg_version first) (mg_name first) +:+ "; run `argus-api migrate`").

(** The loop over the applied versions in order: what is newer, and which of that is
    breaking. *)
Fixpoint inspect (set : gmap Z Migration) (applied : list (Z * appliedMigration)) : result (list Z * list string) :=
  match applied with
  | [] => Ok ([], [])
  | (version, row) :: applied =>
      match set !! version with
      | None =>
          let! rest := inspect set applied in
          let '(newer, breaking) := rest in
          Ok (version :: newer, if am_breaking row then label version (am_name row) :: breaking else breaking)
      | Some m => if am_checksum row =?s mg_checksum m then inspect set applied else Fail (ErrMigrationModified m row)
      end
  end.
Definition by_version (applied : gmap Z appliedMigration) : list (Z * appliedMigration) :=
  sort_stable (fun a b => a.1 <? b.1) (map_to_list applied).

Definition pending_of (set : list Migration) (applied : gmap Z appliedMigration) : list Migration :=
  filter (fun m => applied !! mg_version m = None) set.

Definition relink (row : AuditRow) : LegacyRow :=
  mkLegacy row (Some (row_position row)) (Some (row_previous row)) (Some (row_hash row)) (Some (row_version row)).

(** [audit.MigrateLedger] is one transaction. *)
Definition migrate_ledger : SM unit :=
  statement "migrate tamper-evident audit ledger" (fun _ d =>
    match MigrateLedger (sc_audit d) (sc_head d) with
    | Ok (rows, p, h) => Ok (tt, mkSchema (sc_rows d) (sc_executed d) (relink <$> rows) (Some (p, h)))
    | Fail err => Fail err
    end).

Definition lift_result {A} (r : result A) : SM A := fun _ w => (r, w).

Definition Run (mode : string) (set : list Migration) : SM Report :=
  run_statement "reserve migration connection" id ;;!
  run_statement "acquire migration lock" id ;;!
  (if mode =?s ModeApply then prepare_table else sret tt) ;;!
  applied <-! appliedMigrations ;;
  found <-! lift_result (inspect (known set) (by_version applied)) ;;
  let '(newer, breaking) := found in
  if negb (bool_decide (breaking = [])) then sthrow (ErrSchemaNewer breaking (Z.of_nat (length set)))
  else
    let pending := pending_of set applied in
    if mode =?s ModeVerify then
      match pending with
      | first :: _ => sthrow (ErrSchemaBehind pending first)
      | [] => sret (mkReport [] newer)
      end
    else
      apply_all pending ;;!
      migrate_ledger ;;!
      sret (mkReport pending newer).

Definition Apply (set : list Migration) : SM (list Migration) := report <-! Run ModeApply set ;; sret (rp_applied report).

(** ** What a run leaves behind *)

Lemma statement_run {A} prefix (f : Backend -> Schema -> result (A * Schema)) b n d r n' d' :
  statement prefix f b (n, d) = (r, (n', d')) ->
  match r with Ok a => f b d = Ok (a, d') | Fail _ => d' = d end.
Proof.
  unfold statement. destruct (bk_fault b n); [by intros [= <- _ <-]|].
  destruct (f b d) as [[a d2]|]; by intros [= <- _ <-].
Qed.

Lemma sbind_run {A B} (m : SM A) (k : A -> SM B) b w r w' :
  sbind m k b w = (r, w') ->
  (exists a w1, m b w = (Ok a, w1) /\ k a b w1 = (r, w')) \/ (exists err, m b w = (Fail err, w') /\ r = Fail err).
Proof.
  unfold sbind. destruct (m b w) as [[a|err] w1] eqn:E; intros H; [left; by exists a, w1|right]. injection H as <- <-. by exists err.
Qed.

(** The schema after the first [k] of the pending migrations. *)
Definition recorded (ms : list Migration) : gmap Z appliedMigration := list_to_map ((fun m => (mg_version m, record_of m)) <$> ms).
Definition advanced (d : Schema) (ms : list Migration) : Schema :=
  mkSchema (if bool_decide (ms = []) then sc_rows d else Some (recorded ms ∪ rows_in d)) (sc_executed d ++ (mg_sql <$> ms)) (sc_audit d) (sc_head d).

Lemma advanced_nil d : advanced d [] = d.
Proof. destruct d. unfold advanced. simpl. by rewrite app_nil_r. Qed.

Lemma rows_advanced d ms : rows_in (advanced d ms) = recorded ms ∪ rows_in d.
Proof. unfold advanced, rows_in. simpl. case_bool_decide as E; [|done]. subst. unfold recorded. simpl. by rewrite (left_id_L ∅ (∪)). Qed.

Lemma applyOne_run m b n d r n' d' :
  rows_in d !! mg_version m = None -> applyOne m b (n, d) = (r, (n', d')) ->
  match r with Ok _ => d' = advanced d [m] | Fail _ => d' = d end.
Proof.
  intros Hn. unfold applyOne, transaction. destruct (bk_fault b n); [by intros [= <- _ <-]|].
  destruct (sbind _ _ b (n + 1, d)%nat) as [r1 [n1 d1]] eqn:E. destruct r1 as [u|err]; [|by intros [= <- _ <-]].
  destruct (bk_fault b n1); [by intros [= <- _ <-]|]. intros [= <- _ <-].
  apply sbind_run in E as [([] & [n2 d2] & E1 & E2)|(err & _ & [=])].
  apply statement_run in E1, E2. simpl in E1, E2. destruct (bk_refuses b _ _); [done|]. injection E1 as <-.
  unfold rows_in in E2, Hn. simpl in E2. rewrite Hn in E2. simpl in E2. injection E2 as <-.
  unfold advanced, set_rows, recorded, rows_in. simpl. f_equal. f_equal. by rewrite <- insert_union_l, (left_id_L ∅ (∪)).
Qed.

Lemma advanced_app d l1 l2 :
  (forall m, m ∈ l1 -> mg_version m ∉ mg_version <$> l2) -> advanced (advanced d l1) l2 = advanced d (l1 ++ l2).
Proof.
  intros HN. destruct l2 as [|m2 l2]; [by rewrite advanced_nil, app_nil_r|].
  unfold advanced at 1 3. rewrite rows_advanced, !bool_decide_eq_false_2 by (by try destruct l1). f_equal.
  - f_equal. unfold recorded at 3. rewrite fmap_app, list_to_map_app. fold (recorded l1). fold (recorded (m2 :: l2)).
    rewrite !(assoc_L (∪)). f_equal. apply map_union_comm. apply map_disjoint_spec.
    intros k x y Hx%elem_of_list_to_map_2 Hy%elem_of_list_to_map_2.
    apply list_elem_of_fmap in Hx as (a & [= -> ->] & Ha). apply list_elem_of_fmap in Hy as (m1 & [= E ->] & Hm1).
    apply (HN m1 Hm1). rewrite <- E. apply list_elem_of_fmap. by exists a.
  - simpl. by rewrite fmap_app, <- app_assoc.
Qed.

(** The migrations run one by one, each with its row. *)
Lemma apply_all_run ms b : forall n d r n' d',
  NoDup (mg_version <$> ms) -> (forall m, m ∈ ms -> rows_in d !! mg_version m = None) -> apply_all ms b (n, d) = (r, (n', d')) ->
  exists k, (k <= length ms)%nat /\ d' = advanced d (take k ms) /\ (is_ok r = true -> k = length ms).
Proof.
  induction ms as [|m ms IH]; intros n d r n' d' HN Hd H; simpl in H.
  - injection H as <- _ <-. exists 0%nat. simpl. by rewrite advanced_nil.
  - apply NoDup_cons in HN as [Hm HN]. apply sbind_run in H as [([] & [n1 d1] & H1 & H)|(err & H1 & ->)].
    + apply applyOne_run in H1; [|apply Hd; left]. subst d1. apply IH in H as (k & Hk & -> & Hok); [|done|].
      * exists (S k). simpl. split; [lia|]. split; [|intros Hr; f_equal; auto].
        rewrite advanced_app; [done|]. intros x Hx. apply list_elem_of_singleton in Hx as ->. intros Hin. apply Hm.
        apply list_elem_of_fmap in Hin as (y & E & Hy). apply list_elem_of_fmap. exists y. split; [done|].
        apply elem_of_take in Hy as (i & Hy & _). by eapply list_elem_of_lookup_2.
      * intros x Hx. rewrite rows_advanced. apply lookup_union_None. split; [|apply Hd; by right].
        unfold recorded. simpl. rewrite lookup_insert_ne; [apply lookup_empty|]. intros E. apply Hm. rewrite E.
        apply list_elem_of_fmap. by exists x.
    + apply applyOne_run in H1; [|apply Hd; left]. subst d'. exists 0%nat. simpl. rewrite advanced_nil. split; [lia|done].
Qed.

(** What [inspect] lets through: known rows are unmodified, the others are listed. *)
Lemma inspect_ok set l : forall newer breaking, inspect set l = Ok (newer, breaking) ->
  forall version row, (version, row) ∈ l ->
    match set !! version with
    | Some m => am_checksum row = mg_checksum m
    | None => version ∈ newer /\ (breaking = [] -> am_breaking row = false)
    end.
Proof.
  induction l as [|[v x] l IH]; intros newer breaking H version row Hin; [by apply elem_of_nil in Hin|]. simpl in H.
  destruct (set !! v) as [m|] eqn:E.
  - destruct (am_checksum x =?s mg_checksum m) eqn:C; [|done]. apply elem_of_cons in Hin as [[= -> ->]|Hin]; [|by eapply IH].
    rewrite E. by reflect_tests.
  - apply result_bind_ok in H as ([newer' breaking'] & H & [= <- <-]).
    apply elem_of_cons in Hin as [[= -> ->]|Hin].
    + rewrite E. split; [left|]. by destruct (am_breaking x).
    + specialize (IH _ _ H _ _ Hin). destruct (set !! version); [done|]. destruct IH as [IH1 IH2]. split; [by right|].
      intros Hb. apply IH2. by destruct (am_breaking x).
Qed.

Lemma known_spec set : NoDup (mg_version <$> set) -> forall m, m ∈ set -> known set !! mg_version m = Some m.
Proof.
  unfold known. intros HN m Hm.
  assert (forall l (k : gmap Z Migration), NoDup (mg_version <$> l) ->
    (forall x, x ∈ l -> foldl (fun k m => <[mg_version m := m]> k) k l !! mg_version x = Some x) /\
    (forall v, v ∉ mg_version <$> l -> foldl (fun k m => <[mg_version m := m]> k) k l !! v = k !! v)) as G; [|by apply G].
  clear. induction l as [|y l IH]; intros k HN; [split; [by intros x ?%elem_of_nil|done]|].
  rewrite fmap_cons in HN. apply NoDup_cons in HN as [Hy HN]. destruct (IH (<[mg_version y := y]> k) HN) as [G1 G2]. cbn [foldl]. split.
  - intros x [->|Hx]%elem_of_cons; [|by apply G1]. rewrite G2 by done. apply lookup_insert_eq.
  - intros v Hv. rewrite fmap_cons in Hv. apply not_elem_of_cons in Hv as [Hv1 Hv2]. rewrite G2 by done. by rewrite lookup_insert_ne.
Qed.

Lemma pending_spec set rows m : m ∈ pending_of set rows <-> m ∈ set /\ rows !! mg_version m = None.
Proof. unfold pending_of. rewrite list_elem_of_filter. tauto. Qed.

Lemma pending_NoDup set rows : NoDup (mg_version <$> set) -> NoDup (mg_version <$> pending_of set rows).
Proof.
  unfold pending_of. induction set as [|m set IH]; [done|]. rewrite fmap_cons, NoDup_cons, filter_cons. intros [Hm HN].
  case_decide; [|by apply IH]. rewrite fmap_cons, NoDup_cons. split; [|by apply IH].
  intros (x & E & [_ Hx]%list_elem_of_filter)%list_elem_of_fmap. apply Hm. rewrite E. apply list_elem_of_fmap. by exists x.
Qed.

Lemma elem_of_by_version applied version row : (version, row) ∈ by_version applied <-> applied !! version = Some row.
Proof. unfold by_version. rewrite elem_of_sort_stable. apply elem_of_map_to_list. Qed.

Lemma prepare_run b n d r n' d' :
  prepare_table b (n, d) = (r, (n', d')) -> rows_in d' = rows_in d /\ sc_executed d' = sc_executed d /\ sc_audit d' = sc_audit d /\ sc_head d' = sc_head d.
Proof.
  intros H. assert (forall n d (r : result unit) n' d', run_statement "prepare schema_migrations" (set_rows id) b (n, d) = (r, (n', d')) ->
    d' = d \/ d' = set_rows id d) as G by (intros ????? G%statement_run; destruct r0; [right; congruence|by left]).
  unfold prepare_table in H. apply sbind_run in H as [(u & [n1 d1] & H1 & H)|(err & H & ->)].
  - apply G in H1, H. by destruct H1 as [->| ->], H as [->| ->].
  - apply G in H. by destruct H as [->| ->].
Qed.

Lemma appliedMigrations_run b n d r n' d' :
  appliedMigrations b (n, d) = (r, (n', d')) -> d' = d /\ match r with Ok rows => rows = rows_in d | Fail _ => True end.
Proof.
  unfold appliedMigrations. intros H. apply sbind_run in H as [(x & [n1 d1] & H1 & H)|(err & H & ->)].
  - apply statement_run in H1. injection H1 as <- <-. case_bool_decide as E.
    + apply statement_run in H. destruct r; [by injection H as <- <-|done].
    + injection H as <- _ <-. split; [done|]. unfold rows_in. destruct (sc_rows d); [|done]. by destruct E.
  - by apply statement_run in H as ->.
Qed.

(** The rows are what this build needs: its migrations as they are, and nothing
    breaking besides. *)
Record current (set : list Migration) (rows : gmap Z appliedMigration) : Prop := {
  cu_known : forall m, m ∈ set -> exists row, rows !! mg_version m = Some row /\ am_checksum row = mg_checksum m;
  cu_newer : forall v row, rows !! v = Some row -> v ∉ mg_version <$> set -> am_breaking row = false;
}.

Lemma inspected_current set rows newer :
  NoDup (mg_version <$> set) -> inspect (known set) (by_version rows) = Ok (newer, []) ->
  (forall m row, m ∈ set -> rows !! mg_version m = Some row -> am_checksum row = mg_checksum m) /\
  (forall v row, rows !! v = Some row -> v ∉ mg_version <$> set -> am_breaking row = false).
Proof.
  intros HN HI. pose proof (inspect_ok _ _ _ _ HI) as H. split.
  - intros m row Hm Hr. specialize (H (mg_version m) row). rewrite elem_of_by_version, (known_spec set HN m Hm) in H. by apply H.
  - intros v row Hr Hv. specialize (H v row). rewrite elem_of_by_version in H. destruct (known set !! v) as [m|] eqn:E; [|by apply H].
    exfalso. apply Hv. clear -E. revert E. unfold known.
    assert (forall l (k : gmap Z Migration), foldl (fun k m => <[mg_version m := m]> k) k l !! v = Some m -> k !! v = Some m \/ v ∈ mg_version <$> l) as G.
    { induction l as [|y l IH]; intros k Hk; [by left|]. cbn [foldl] in Hk. apply IH in Hk as [Hk|Hk].
      - rewrite fmap_cons. destruct (decide (mg_version y = v)) as [<-|]; [right; left|]. rewrite lookup_insert_ne in Hk by done. by left.
      - rewrite fmap_cons. right. by right. }
    intros [Hk|Hk]%G; [by rewrite lookup_empty in Hk|done].
Qed.

Lemma recorded_lookup ms m : NoDup (mg_version <$> ms) -> m ∈ ms -> recorded ms !! mg_version m = Some (record_of m).
Proof.
  intros HN Hm. apply elem_of_list_to_map_1; [by rewrite <- list_fmap_compose|]. apply list_elem_of_fmap. by exists m.
Qed.
Lemma recorded_None ms v : v ∉ mg_version <$> ms -> recorded ms !! v = None.
Proof. intros Hv. apply not_elem_of_list_to_map_1. by rewrite <- list_fmap_compose. Qed.

Lemma applied_current set rows newer :
  NoDup (mg_version <$> set) -> inspect (known set) (by_version rows) = Ok (newer, []) -> current set (recorded (pending_of set rows) ∪ rows).
Proof.
  intros HN HI. destruct (inspected_current _ _ _ HN HI) as [C1 C2]. split.
  - intros m Hm. destruct (rows !! mg_version m) as [row|] eqn:E.
    + exists row. split; [|by apply C1]. rewrite lookup_union_r; [done|]. apply recorded_None.
      intros (x & Ex & [_ Hx]%pending_spec)%list_elem_of_fmap. congruence.
    + exists (record_of m). split; [|done]. apply lookup_union_Some_l. apply recorded_lookup; [by apply pending_NoDup|by apply pending_spec].
  - intros v row Hr Hv. apply (C2 v); [|done]. rewrite lookup_union_r in Hr; [done|]. apply recorded_None.
    intros (x & -> & [Hx _]%pending_spec)%list_elem_of_fmap. apply Hv, list_elem_of_fmap. by exists x.
Qed.

Lemma current_pending set rows : current set rows -> pending_of set rows = [].
Proof.
  intros [HK _]. apply elem_of_nil_inv. intros m [Hm Hn]%pending_spec. destruct (HK m Hm) as (row & Hr & _). congruence.
Qed.

(** Both modes up to the point where they part: the table may have been created. *)
Lemma Run_checked mode set b n d r n' d' :
  Run mode set b (n, d) = (r, (n', d')) ->
  exists d1, rows_in d1 = rows_in d /\ sc_executed d1 = sc_executed d /\ sc_audit d1 = sc_audit d /\ sc_head d1 = sc_head d /\
    (mode <> ModeApply -> d1 = d) /\
    (is_ok r = false /\ d' = d1 \/
     exists newer n1, inspect (known set) (by_version (rows_in d)) = Ok (newer, []) /\
       (if mode =?s ModeVerify then
          match pending_of set (rows_in d) with
          | first :: _ => sthrow (ErrSchemaBehind (pending_of set (rows_in d)) first)
          | [] => sret (mkReport [] newer)
          end
        else apply_all (pending_of set (rows_in d)) ;;! migrate_ledger ;;! sret (mkReport (pending_of set (rows_in d)) newer)) b (n1, d1) =
       (r, (n', d'))).
Proof.
  unfold Run. intros H. apply sbind_run in H as [(u & [n1 d1] & H1 & H)|(err & H & ->)].
  2: { apply statement_run in H as ->. exists d. repeat (split; [done|]). by left. }
  apply statement_run in H1. destruct u. injection H1 as <-. apply sbind_run in H as [(u & [n2 d2] & H2 & H)|(err & H & ->)].
  2: { apply statement_run in H as ->. exists d. repeat (split; [done|]). by left. }
  apply statement_run in H2. destruct u. injection H2 as <-. unfold id in H.
  apply sbind_run in H as [(u & [n3 d3] & H3 & H)|(err & H & ->)].
  2: { destruct (mode =?s ModeApply) eqn:E; [|done]. apply prepare_run in H as (? & ? & ? & ?). exists d'.
       repeat (split; [done|]). split; [|by left]. intros Hm. by apply eqb_string_true in E. }
  assert (rows_in d3 = rows_in d /\ sc_executed d3 = sc_executed d /\ sc_audit d3 = sc_audit d /\ sc_head d3 = sc_head d /\
          (mode <> ModeApply -> d3 = d)) as (R3 & E3 & A3 & HD3 & N3).
  { destruct (mode =?s ModeApply) eqn:E; [apply prepare_run in H3 as (? & ? & ? & ?)|injection H3 as _ _ <-; by split_and!].
    split_and!; try done. intros Hm. by apply eqb_string_true in E. }
  exists d3. repeat (split; [done|]).
  apply sbind_run in H as [(applied & [n4 d4] & H4 & H)|(err & H & ->)]; [|left; by apply appliedMigrations_run in H as [-> _]].
  apply appliedMigrations_run in H4 as [-> ->]. rewrite R3 in H.
  apply sbind_run in H as [([newer breaking] & [n5 d5] & H5 & H)|(err & H & ->)]; [|left; by injection H as _ _ <-].
  injection H5 as H5 _ <-. case_bool_decide as Hb; simpl in H; [subst|left; by injection H as <- _ <-]. right. by exists newer, n5.
Qed.

(** ** Properties *)

Lemma apply_run set b n d r n' d' :
  NoDup (mg_version <$> set) -> Run ModeApply set b (n, d) = (r, (n', d')) ->
  let pending := pending_of set (rows_in d) in
  exists k, sc_executed d' = sc_executed d ++ (mg_sql <$> take k pending) /\ rows_in d' = recorded (take k pending) ∪ rows_in d /\
    match r with
    | Fail _ => sc_audit d' = sc_audit d /\ sc_head d' = sc_head d
    | Ok report =>
        rp_applied report = pending /\ take k pending = pending /\ current set (rows_in d') /\ pending_of set (rows_in d') = [] /\
        exists rows p h, MigrateLedger (sc_audit d) (sc_head d) = Ok (rows, p, h) /\ sc_audit d' = relink <$> rows /\ sc_head d' = Some (p, h)
    end.
Proof.
  intros HN H pending. apply Run_checked in H as (d1 & R1 & E1 & A1 & HD1 & _ & [[Hr ->]|(newer & n1 & HI & H)]).
  { exists 0%nat. simpl. rewrite app_nil_r, R1, E1. unfold recorded. simpl. rewrite (left_id_L ∅ (∪)). by destruct r. }
  simpl in H. fold pending in H. assert (forall m, m ∈ pending -> rows_in d1 !! mg_version m = None) as HP
    by (intros m [_ ?]%pending_spec; by rewrite R1).
  apply sbind_run in H as [([] & [n2 d2] & H2 & H)|(err & H & ->)].
  2: { apply apply_all_run in H as (k & _ & -> & _); [|by apply pending_NoDup|done]. exists k.
       rewrite rows_advanced, R1. simpl. rewrite E1. by split_and!. }
  apply apply_all_run in H2 as (k & Hk & -> & Hk'); [|by apply pending_NoDup|done]. specialize (Hk' eq_refl). subst k.
  exists (length pending). rewrite firstn_all in *. apply sbind_run in H as [([] & [n3 d3] & H3 & H)|(err & H & ->)].
  2: { apply statement_run in H as ->. rewrite rows_advanced, R1. simpl. rewrite E1. by split_and!. }
  apply statement_run in H3. simpl in H3. rewrite A1, HD1 in H3. destruct (MigrateLedger _ _) as [[[rows p] h]|] eqn:HM; [|done].
  injection H3 as <-. injection H as <- _ <-. simpl. change (rows_in (mkSchema _ _ _ _)) with (rows_in (advanced d1 pending)).
  rewrite rows_advanced, R1, E1. split; [done|]. split; [done|].
  assert (current set (recorded pending ∪ rows_in d)) as HC by (by eapply applied_current).
  split_and!; [done|done|done|by apply current_pending|]. by exists rows, p, h.
Qed.

(** C18: a migration run moves whole migrations, in order. Whatever fails, an applying
    run leaves the texts of the first so many of the pending migrations executed, in
    the order of their versions, with exactly their rows recorded beside the old ones,
    and on failure the ledger as it was. When it succeeds, all that were pending ran,
    every migration of this build is recorded with its checksum, no unknown one is
    breaking, the ledger is the migrated one, and a further run would find nothing to do. *)
Theorem Run_moves_whole_migrations set b n d r n' d' :
  NoDup (mg_version <$> set) -> Run ModeApply set b (n, d) = (r, (n', d')) ->
  let pending := pending_of set (rows_in d) in
  exists k, sc_executed d' = sc_executed d ++ (mg_sql <$> take k pending) /\ rows_in d' = recorded (take k pending) ∪ rows_in d /\
    match r with
    | Fail _ => sc_audit d' = sc_audit d /\ sc_head d' = sc_head d
    | Ok report =>
        rp_applied report = pending /\ take k pending = pending /\ current set (rows_in d') /\ pending_of set (rows_in d') = [] /\
        exists rows p h, MigrateLedger (sc_audit d) (sc_head d) = Ok (rows, p, h) /\ sc_audit d' = relink <$> rows /\ sc_head d' = Some (p, h)
    end.
Proof. apply apply_run. Qed.

Lemma verify_run set b n d r n' d' :
  NoDup (mg_version <$> set) -> Run ModeVerify set b (n, d) = (r, (n', d')) ->
  d' = d /\ (is_ok r = true -> current set (rows_in d) /\ pending_of set (rows_in d) = []).
Proof.
  intros HN H. apply Run_checked in H as (d1 & R1 & _ & _ & _ & D1 & H). rewrite D1 in H by done.
  destruct H as [[Hr ->]|(newer & n1 & HI & H)]; [split; [done|congruence]|]. simpl in H.
  destruct (pending_of set (rows_in d)) as [|m l] eqn:HP; injection H as <- _ <-; [|done].
  split; [done|]. intros _. split; [|done]. rewrite <- (left_id_L ∅ (∪) (rows_in d)). change ∅ with (recorded []). rewrite <- HP.
  by eapply applied_current.
Qed.

(** Verifying changes nothing and lets only a matching schema pass. In verify mode a
    run leaves the database as it is, whatever fails; when it succeeds, every migration
    of this build is recorded with its checksum, no unknown one is breaking, and nothing
    is pending. *)
Theorem Verify_mode_only_checks set b n d r n' d' :
  NoDup (mg_version <$> set) -> Run ModeVerify set b (n, d) = (r, (n', d')) ->
  d' = d /\ (is_ok r = true -> current set (rows_in d) /\ pending_of set (rows_in d) = []).
Proof. apply verify_run. Qed.

Lemma take_drop_chars n : forall s, take_chars n s +:+ drop_chars n s = s.
Proof. induction n as [|n IH]; intros [|c s]; simpl; try done. by rewrite string_app_cons, IH. Qed.

Lemma HasSuffix_take s suf : HasSuffix s suf = true -> s = TrimSuffix s suf +:+ suf.
Proof.
  intros H. unfold TrimSuffix. rewrite H. unfold HasSuffix in H. reflect_tests. rewrite <- (take_drop_chars (String.length s - String.length suf) s) at 1.
  by f_equal.
Qed.

Lemma match_fileName_spec s digits name :
  match_fileName s = Some (digits, name) ->
  s = digits +:+ "_" +:+ name +:+ ".sql" /\ String.length digits = 4%nat /\ all_chars is_digit digits = true /\ name <> "".
Proof.
  unfold match_fileName. cbv zeta. destruct (Nat.eqb _ 4 && _ && _ && _) eqn:E; [cbn [negb]; cbv iota|done].
  destruct (negb _ && _) eqn:E2; [|done]. intros H. apply (inj Some) in H. apply pair_eq in H as [<- <-]. apply andb_true_iff in E as [E Hs]. apply andb_true_iff in E as [E Hp].
  apply andb_true_iff in E as [El Hd]. apply andb_true_iff in E2 as [En _]. apply Nat.eqb_eq in El. reflect_tests. split_and!; try done.
  apply HasSuffix_take in Hs. rewrite <- (take_drop_chars 4 s) at 1. f_equal. apply HasPrefix_spec in Hp as [r Hp]. rewrite Hp in *.
  change (drop_chars 1 ("_" +:+ r)) with r in *. by rewrite <- Hs.
Qed.

(** A file and the migration it becomes. *)
Record file_of (entry : FileEntry) (m : Migration) : Prop := {
  fo_file : fe_dir entry = false;
  fo_name : exists digits, fe_name entry = digits +:+ "_" +:+ mg_name m +:+ ".sql" /\ String.length digits = 4%nat /\
    all_chars is_digit digits = true /\ mg_version m = default 0 (ParseInt digits);
  fo_body : fe_body entry = Ok (mg_sql m);
  fo_checksum : mg_checksum m = sha256_hex (mg_sql m);
  fo_breaking : mg_breaking m = declaresBreaking (mg_sql m);
}.

Lemma read_entries_spec entries : forall out, read_entries entries = Ok out ->
  Forall2 file_of (filter (fun x => fe_dir x = false) entries) out.
Proof.
  induction entries as [|x entries IH]; intros out H; simpl in H; [by injection H as <-; constructor|]. rewrite filter_cons.
  destruct (fe_dir x) eqn:Hx; [by apply IH|]. rewrite decide_True by done.
  destruct (match_fileName (fe_name x)) as [[digits name]|] eqn:Hm; [|done]. destruct (fe_body x) as [body|] eqn:Hb; [|done].
  apply result_bind_ok in H as (rest & H & [= <-]). constructor; [|by apply IH].
  apply match_fileName_spec in Hm as (H1 & H2 & H3 & _). split; try done. by exists digits.
Qed.

Lemma check_contiguous_spec out : forall i, check_contiguous i out = Ok tt -> mg_version <$> out = seqZ i (Z.of_nat (length out)).
Proof.
  induction out as [|m out IH]; intros i H; [done|]. simpl in H. destruct (mg_version m =? i) eqn:E; [|done]. apply Z.eqb_eq in E.
  rewrite fmap_cons, (IH (i + 1) H), E. simpl length. rewrite (seqZ_cons i) by lia. f_equal. f_equal; lia.
Qed.

Lemma Load_spec entries out :
  Load (Ok entries) = Ok out ->
  out <> [] /\ mg_version <$> out = seqZ 1 (Z.of_nat (length out)) /\ NoDup (mg_version <$> out) /\
  exists files, files ≡ₚ filter (fun x => fe_dir x = false) entries /\ Forall2 file_of files out.
Proof.
  unfold Load. intros H. apply result_bind_ok in H as (ms & HR & H). apply result_bind_ok in H as ([] & HC & H).
  case_bool_decide as HE; [done|]. injection H as <-. split; [done|]. apply check_contiguous_spec in HC. rewrite HC.
  split; [done|]. split; [apply NoDup_seqZ|]. apply read_entries_spec in HR.
  destruct (Permutation_Forall2 (symmetry (sort_stable_perm (fun a b => mg_version a <? mg_version b) ms)) (proj2 (Forall2_flip _ _ _) HR))
    as (files & Hf & HF). exists files. split; [by symmetry|]. by apply Forall2_flip.
Qed.

(** The build's migrations are its files, numbered without a gap. When [Load]
    accepts a directory, there is one migration per file of it, made of the name, the
    text and the SHA-256 of that file, and their versions are 1, 2, 3 and so on: none is
    missing, doubled or out of order. *)
Theorem Load_numbers_files entries out :
  Load (Ok entries) = Ok out ->
  out <> [] /\ mg_version <$> out = seqZ 1 (Z.of_nat (length out)) /\ NoDup (mg_version <$> out) /\
  exists files, files ≡ₚ filter (fun x => fe_dir x = false) entries /\ Forall2 file_of files out.
Proof. apply Load_spec. Qed.

(** ** Runs *)

Definition demo_files : list FileEntry :=
  [mkFileEntry "docs" true (Fail (errorf "is a directory")); mkFileEntry "0001_baseline.sql" false (Ok "CREATE TABLE a ();");
   mkFileEntry "0002_extra.sql" false (Ok "-- argus:breaking drops a");
   mkFileEntry "0003_more.sql" false (Ok "CREATE TABLE b ();")].
Definition demo_set : list Migration := match Load (Ok demo_files) with Ok out => out | Fail _ => [] end.

Lemma demo_loaded : Load (Ok demo_files) = Ok demo_set.
Proof. vm_compute. reflexivity. Qed.

Lemma Load_numbers_files_witness : mg_version <$> demo_set = [1; 2; 3] /\ NoDup (mg_version <$> demo_set).
Proof.
  destruct (Load_numbers_files demo_files demo_set demo_loaded) as (_ & HV & HN & _). split; [|exact HN]. rewrite HV. vm_compute. reflexivity.
Defined.

Definition fresh_schema : Schema := mkSchema None [] [] None.
(** The database refuses the third file. *)
Definition picky : Backend := mkBackend (fun _ => None) (fun ran text => if text =?s "CREATE TABLE b ();" then Some "permission denied" else None).
Definition willing : Backend := mkBackend (fun _ => None) (fun _ _ => None).

Lemma demo_set_distinct : NoDup (mg_version <$> demo_set).
Proof. apply (bool_decide_unpack _). vm_compute. exact Logic.I. Qed.

Lemma Run_moves_whole_migrations_witness :
  let d' := (Run ModeApply demo_set picky (0%nat, fresh_schema)).2.2 in
  is_ok (Run ModeApply demo_set picky (0%nat, fresh_schema)).1 = false /\
  exists k, sc_executed d' = mg_sql <$> take k demo_set /\ rows_in d' = recorded (take k demo_set) ∪ ∅.
Proof.
  split; [vm_compute; reflexivity|]. destruct (Run ModeApply demo_set picky (0%nat, fresh_schema)) as [r [n' d']] eqn:E.
  destruct (Run_moves_whole_migrations demo_set picky 0 fresh_schema r n' d' demo_set_distinct E) as (k & H1 & H2 & _).
  exists k. split; [exact H1|exact H2].
Defined.

Definition migrated : Schema := (Run ModeApply demo_set willing (0%nat, fresh_schema)).2.2.
Example older_build_refuses :
  ((fun r => match r with Ok report => (KPlain, rp_newer report) | Fail err => (err_kind err, []) end) <$>
   [(Run ModeApply (take 1 demo_set) willing (0%nat, migrated)).1; (Run ModeVerify demo_set willing (0%nat, fresh_schema)).1;
    (Run ModeVerify demo_set willing (0%nat, migrated)).1;
    (Run ModeVerify (drop 1 demo_set) willing (0%nat, migrated)).1]) =
  [(KSchemaNewer, []); (KSchemaBehind, []); (KPlain, []); (KPlain, [1])].
Proof. vm_compute. reflexivity. Qed.

Lemma Verify_mode_only_checks_witness : current demo_set (rows_in migrated).
Proof.
  destruct (Run ModeVerify demo_set willing (0%nat, migrated)) as [r [n' d']] eqn:E.
  apply (Verify_mode_only_checks demo_set willing 0 migrated r n' d' demo_set_distinct E).
  apply (f_equal (fun x => is_ok x.1)) in E. vm_compute in E. exact (eq_sym E).
Defined.
