(* ===== verification/Lint.v ===== *)
(** * The migration check ([migrations/lint.go])

    Which statements of a migration an older build may not survive. The regular
    expressions of the rules are matched by a small matcher with the word boundary of
    RE2; case folding is that of ASCII. *)
From Stdlib Require Import Ascii String ZArith Lia.
From stdpp Require Import base strings list.
From S2P Require Import Prelude GoStrings GoFloat Regexp Marshal Migrations.
Open Scope Z_scope.

(** ** Patterns *)

(** Literal characters, [\b], [\S+] and alternatives, in front of the rest. *)
Inductive pat := PEnd | PChar (c : ascii) (p : pat) | PEdge (p : pat) | PWord (p : pat) | PAlt (a b : pat).

Fixpoint lit (s : string) (p : pat) : pat := match s with "" => p | String c r => PChar c (lit r p) end.
Definition opt (s : string) (p : pat) : pat := PAlt (lit s p) p.
Fixpoint any_of (words : list string) (p : pat) : pat :=
  match words with [] => PEnd | [w] => lit w p | w :: words => PAlt (lit w p) (any_of words p) end.

Definition is_word (c : ascii) : bool := is_digit c || is_lower c || is_upper c || Ascii.eqb c "_".
Definition re_space (c : ascii) : bool := bool_decide (N_of_ascii c ∈ [9; 10; 12; 13; 32]%N).
Definition word_at (c : option ascii) : bool := match c with Some c => is_word c | None => false end.
Definition head_char (s : string) : option ascii := match s with "" => None | String c _ => Some c end.
Definition edge (prev : option ascii) (s : string) : bool := xorb (word_at prev) (word_at (head_char s)).

(** [p] matches at the front of [s], after the character [prev]. *)
Fixpoint match_here (prev : option ascii) (p : pat) (s : string) {struct p} : bool :=
  match p with
  | PEnd => true
  | PChar c p => match s with String x r => Ascii.eqb x c && match_here (Some x) p r | "" => false end
  | PEdge p => edge prev s && match_here prev p s
  | PWord p =>
      (fix eat (s : string) : bool :=
         match s with
         | "" => false
         | String x r => negb (re_space x) && (match_here (Some x) p r || eat r)
         end) s
  | PAlt a b => match_here prev a s || match_here prev b s
  end.
Fixpoint search_from (prev : option ascii) (p : pat) (s : string) : bool :=
  match_here prev p s || match s with "" => false | String c r => search_from (Some c) p r end.
Definition search (p : pat) (s : string) : bool := search_from None p s.
Definition starts (p : pat) (s : string) : bool := match_here None p s.

(** ** Statements *)

(** [comment.ReplaceAllString(sql, "")]: from two dashes to the end of the line. *)
Fixpoint uncomment (skipping : bool) (s : string) : string :=
  match s with
  | "" => ""
  | String c r =>
      if Ascii.eqb c (ascii_of_nat 10) then String c (uncomment false r)
      else if skipping then uncomment true r
      else if Ascii.eqb c "-" && match r with String d _ => Ascii.eqb d "-" | "" => false end then uncomment true r
      else String c (uncomment false r)
  end.

(** [space.ReplaceAllString(s, " ")]. *)
Fixpoint collapse (inside : bool) (s : string) : string :=
  match s with
  | "" => ""
  | String c r => if re_space c then if inside then collapse true r else String " " (collapse true r) else String c (collapse false r)
  end.
Definition normal (s : string) : string := TrimSpace (collapse false (ToLower s)).
Definition appendStatement (stmt : string) (rest : list string) : list string := if normal stmt =?s "" then rest else normal stmt :: rest.

(** The loop: [b] holds the statement so far, last byte first. *)
Fixpoint rev_text (s acc : string) : string := match s with "" => acc | String c r => rev_text r (String c acc) end.
Fixpoint split_statements (fuel : nat) (inDollar : bool) (b : string) (sql : string) : list string :=
  match fuel with
  | O => []
  | S fuel =>
      match sql with
      | "" => appendStatement (rev_text b "") []
      | String c r =>
          if HasPrefix sql "$$" then split_statements fuel (negb inDollar) (String "$" (String "$" b)) (drop_chars 1 r)
          else if Ascii.eqb c ";" && negb inDollar then appendStatement (rev_text b "") (split_statements fuel false "" r)
          else split_statements fuel inDollar (String c b) r
      end
  end.
Definition statements (sql : string) : list string :=
  let sql := uncomment false sql in split_statements (S (String.length sql)) false "" sql.

(** ** Rules *)

Record lintRule := mkRule { lr_why : string; lr_match : string -> bool }.

Definition starts_with_any (s : string) (l : list string) : bool := existsb (HasPrefix s) l.
Definition drops_column (s : string) : bool :=
  HasPrefix s "alter table " &&
  existsb (fun part =>
    match Cut part " drop " with
    | None => false
    | Some (_, rest) =>
        let rest := if HasPrefix rest "column " then drop_chars 7 rest else rest in
        negb (starts_with_any rest ["constraint "; "default"; "not null"; "identity"; "expression"])
    end) (Split s ",").
Definition adds_column : pat := PEdge (lit "add " (opt "column " (opt "if not exists " (PWord (lit " " PEnd))))).
Definition adds_required_column (s : string) : bool :=
  existsb (fun part => search adds_column part && Contains part "not null" && negb (Contains part " default ")) (Split s ",").

Definition drop_rule : lintRule :=
  mkRule "drops an object older builds may use"
    (starts (lit "drop " (any_of ["table"; "view"; "materialized view"; "schema"; "type"; "sequence"; "function"] (PEdge PEnd)))).
Definition lintRules : list lintRule :=
  [drop_rule;
   mkRule "drops a column" drops_column;
   mkRule "renames an object" (search (PEdge (lit "rename" (PEdge PEnd))));
   mkRule "changes a column type" (search (PEdge (lit "alter column " (PWord (lit " " (opt "set data " (lit "type" (PEdge PEnd))))))));
   mkRule "makes a column NOT NULL" (search (PEdge (lit "set not null" (PEdge PEnd))));
   mkRule "adds a NOT NULL column without a default" adds_required_column;
   mkRule "adds a constraint older writers may violate"
     (search (PEdge (lit "add " (PAlt (lit "constraint " (PWord (lit " " (any_of ["check"; "unique"; "foreign key"; "primary key"] (PEdge PEnd)))))
                                      (any_of ["check"; "unique"; "foreign key"; "primary key"] (PEdge PEnd))))));
   mkRule "deletes data" (starts (any_of ["truncate"; "delete from"] (PEdge PEnd)))].

Definition abbreviate (s : string) : string := if (80 <? String.length s)%nat then take_chars 77 s +:+ "..." else s.

Definition exempt (m : Migration) : bool := (mg_version m =? 1) || mg_breaking m || declares (mg_sql m) "argus:compatible".
Definition problem (m : Migration) (rule : lintRule) (stmt : string) : string :=
  label (mg_version m) (mg_name m) +:+ ": " +:+ lr_why rule +:+ " in " +:+ Quote (abbreviate stmt) +:+
  "; make it compatible, or mark the file -- argus:breaking (or -- argus:compatible <reason> after review)".
Definition Lint (m : Migration) : list string :=
  if exempt m then []
  else stmt ← statements (mg_sql m); rule ← filter (fun rule => lr_match rule stmt = true) lintRules; [problem m rule stmt].

Example lint_cases :
  (fun sql => lr_why <$> (stmt ← statements sql; filter (fun rule => lr_match rule stmt = true) lintRules)) <$>
    ["DROP  TABLE x;"; "drop tables;"; "alter table a drop column b, drop constraint c"; "ALTER TABLE a ALTER COLUMN b SET NOT NULL";
     "alter table a alter column b drop not null"; "alter table a add column b int not null"; "alter table a add b int not null default 0";
     "create function f() as $$ drop table x; $$"; "-- drop table x"; "alter table a add constraint k check (x > 0)"; "create table truncated ()"] =
  [["drops an object older builds may use"]; []; ["drops a column"]; ["makes a column NOT NULL"]; []; ["adds a NOT NULL column without a default"];
   []; []; []; ["adds a constraint older writers may violate"]; []].
Proof. vm_compute. reflexivity. Qed.

(** ** What the check sees *)

(** A statement without comments, quoted bodies or a semicolon in it. *)
Definition simple_char (c : ascii) : bool := negb (Ascii.eqb c ";") && negb (Ascii.eqb c "$") && negb (Ascii.eqb c "-").
Definition simple_statement (s : string) : bool := all_chars simple_char s.

Lemma simple_cons c s : simple_statement (String c s) = true ->
  Ascii.eqb c ";" = false /\ Ascii.eqb c "$" = false /\ Ascii.eqb c "-" = false /\ simple_statement s = true.
Proof.
  unfold simple_statement, simple_char. simpl. intros H. apply andb_true_iff in H as [H Hs]. apply andb_true_iff in H as [H H3].
  apply andb_true_iff in H as [H1 H2]. by rewrite !negb_true_iff in *.
Qed.

Lemma uncomment_simple a b : simple_statement a = true -> uncomment false (a +:+ String ";" b) = a +:+ String ";" (uncomment false b).
Proof.
  induction a as [|c a IH]; intros H; [done|]. apply simple_cons in H as (_ & _ & H3 & H).
  change (String c a +:+ String ";" b) with (String c (a +:+ String ";" b)). cbn [uncomment]. rewrite H3, (IH H). cbn [andb]. destruct (Ascii.eqb c (ascii_of_nat 10)); reflexivity.
Qed.

Lemma uncomment_length s : forall b, (String.length (uncomment b s) <= String.length s)%nat.
Proof.
  induction s as [|c s IH]; intros b; [done|]. cbn [uncomment]. pose proof (IH true). pose proof (IH false).
  destruct (Ascii.eqb c _); [simpl; lia|]. destruct b; [simpl; lia|]. destruct (_ && _); simpl; lia.
Qed.

Lemma drop_chars_length n : forall s, (String.length (drop_chars n s) <= String.length s)%nat.
Proof. induction n as [|n IH]; intros [|c s]; simpl; try lia. specialize (IH s). lia. Qed.

(** Fuel beyond the length of the text is enough. *)
Lemma split_fuel_ok n : forall m d b s, (String.length s < n)%nat -> (String.length s < m)%nat -> split_statements n d b s = split_statements m d b s.
Proof.
  induction n as [|n IH]; intros [|m] d b s Hn Hm; try lia. destruct s as [|c r]; [done|]. cbn [split_statements]. cbn [String.length] in *.
  pose proof (drop_chars_length 1 r). destruct (HasPrefix _ _); [apply IH; lia|]. destruct (_ && _); [f_equal|]; apply IH; lia.
Qed.

Lemma split_simple a r : forall n b, simple_statement a = true -> (String.length (a +:+ String ";" r) < n)%nat ->
  split_statements n false b (a +:+ String ";" r) = appendStatement (rev_text b a) (split_statements (S (String.length r)) false "" r).
Proof.
  induction a as [|c a IH]; intros n b H Hn; destruct n as [|n]; try lia.
  - change (split_statements (S n) false b ("" +:+ String ";" r)) with (appendStatement (rev_text b "") (split_statements n false "" r)).
    f_equal. change (String.length ("" +:+ String ";" r)) with (S (String.length r)) in Hn. apply split_fuel_ok; lia.
  - apply simple_cons in H as (H1 & H2 & _ & H). change (String c a +:+ String ";" r) with (String c (a +:+ String ";" r)) in *.
    cbn [split_statements]. assert (HasPrefix (String c (a +:+ String ";" r)) "$$" = false) as ->.
    { unfold HasPrefix. cbn [String.prefix]. destruct (ascii_dec "$" c) as [<-|]; [discriminate H2|done]. }
    rewrite H1. cbn [andb]. rewrite IH by (done || simpl in Hn; lia). done.
Qed.

Lemma statements_simple a b : simple_statement a = true -> statements (a +:+ String ";" b) = appendStatement a (statements b).
Proof. intros H. unfold statements. cbv zeta. rewrite uncomment_simple by done. by rewrite split_simple by (done || lia). Qed.

(** A file of simple statements, and whatever follows them. *)
Definition file_text (stmts : list string) (rest : string) : string := foldr (fun s t => s +:+ String ";" t) rest stmts.

Lemma statements_file stmts rest stmt :
  forallb simple_statement stmts = true -> stmt ∈ stmts -> normal stmt <> "" -> normal stmt ∈ statements (file_text stmts rest).
Proof.
  induction stmts as [|s l IH]; intros H Hin Hn; [by apply elem_of_nil in Hin|]. simpl in H. apply andb_true_iff in H as [Hs H].
  cbn [file_text foldr]. rewrite statements_simple by done. unfold appendStatement. apply elem_of_cons in Hin as [->|Hin].
  - rewrite (proj2 (String.eqb_neq _ _) Hn). left.
  - destruct (_ =?s _); [|right]; by apply IH.
Qed.

(** A dropped table does not slip through. When a migration that declares nothing has,
    among statements without comments or quoted bodies, one that drops a table, the
    check reports it, in whatever case and layout it is written and whatever surrounds it. *)
Theorem Lint_reports_drops m stmts rest stmt table :
  exempt m = false -> mg_sql m = file_text stmts rest -> forallb simple_statement stmts = true -> stmt ∈ stmts ->
  normal stmt = "drop table " +:+ table -> problem m drop_rule (normal stmt) ∈ Lint m.
Proof.
  intros HE HM HS Hin HN. unfold Lint. rewrite HE. apply list_elem_of_bind. exists (normal stmt). split.
  - apply list_elem_of_bind. exists drop_rule. split; [left|]. apply list_elem_of_filter. split; [|left]. rewrite HN. by destruct table.
  - rewrite HM. apply statements_file; [done|done|]. rewrite HN. by destruct table.
Qed.

Lemma Lint_reports_drops_witness :
  let m := mkMigration 2 "drops" (file_text ["ALTER TABLE a ADD b int"; " Drop   TABLE  c"] " -- done") "" false in
  problem m drop_rule "drop table c" ∈ Lint m.
Proof.
  intros m. apply (Lint_reports_drops m ["ALTER TABLE a ADD b int"; " Drop   TABLE  c"] " -- done" " Drop   TABLE  c" "c"); try (vm_compute; reflexivity).
  right. left.
Defined.
