(* ===== verification/Metrics.v ===== *)
(** * Metrics ([internal/telemetry/metrics.go] and the places that count)

    The collectors the process registers and the samples its parts give them. The
    Prometheus client panics on a collector it cannot register, on a sample whose labels
    do not match its collector, and on a counter asked to decrease; none of this happens.
    What the client does with samples is not modelled; label values are taken to be valid
    UTF-8, as what is decoded from JSON is. *)
From Stdlib Require Import Ascii String ZArith Lia SpecFloat.
From stdpp Require Import base gmap strings list.
From S2P Require Import Prelude GoStrings GoFloat Topology Ledger Types Database Ingestion Dispatch Helios Auth.
Open Scope Z_scope.

(** ** Collectors *)

Inductive metric := Counter | Gauge | Histogram.
Record Collector := mkCollector {
  co_field : string;
  co_name : string;
  co_kind : metric;
  co_labels : list string;
  co_buckets : list float64;
}.

Section collectors.
(** [prometheus.DefBuckets]. *)
Context (DefBuckets : list float64).

Definition pipeline_collectors : list Collector :=
  [mkCollector "IncidentsTotal" "argus_incidents_total" Counter ["result"; "severity"] [];
   mkCollector "IncidentsOpen" "argus_incidents_open" Gauge [] [];
   mkCollector "RCAJobsTotal" "argus_rca_jobs_total" Counter ["result"] [];
   mkCollector "RCADuration" "argus_rca_job_duration_seconds" Histogram ["backend"] DefBuckets;
   mkCollector "RemediationsTotal" "argus_remediations_total" Counter ["action_type"; "status"] [];
   mkCollector "RemediationDuration" "argus_remediation_duration_seconds" Histogram ["action_type"] DefBuckets;
   mkCollector "RemediationFailuresTotal" "argus_remediation_failures_total" Counter ["action_type"] [];
   mkCollector "PolicyDenialsTotal" "argus_policy_denials_total" Counter ["action_type"; "reason"] [];
   mkCollector "LLMRequestsTotal" "argus_llm_requests_total" Counter ["backend"; "result"] [];
   mkCollector "LLMRequestDuration" "argus_llm_request_duration_seconds" Histogram ["backend"] DefBuckets;
   mkCollector "AuditWriteFailuresTotal" "argus_audit_write_failures_total" Counter ["action"] []].
Definition outbox_collectors : list Collector :=
  [mkCollector "RemediationDispatchesTotal" "argus_remediation_dispatches_total" Counter ["result"] [];
   mkCollector "RemediationRedispatchesTotal" "argus_remediation_redispatches_total" Counter ["result"] [];
   mkCollector "RemediationWaitingForWorker" "argus_remediation_waiting_for_worker" Gauge [] [];
   mkCollector "HeliosReconciliationsTotal" "argus_helios_reconciliations_total" Counter ["result"] [];
   mkCollector "RemediationOutboxOldestPendingSeconds" "argus_remediation_outbox_oldest_pending_seconds" Gauge [] [];
   mkCollector "RemediationDeadLettersTotal" "argus_remediation_dead_letters_total" Counter ["reason"] [];
   mkCollector "WorkerHeartbeatAgeSeconds" "argus_worker_heartbeat_age_seconds" Gauge ["worker_id"] [];
   mkCollector "RCAConfidence" "argus_rca_confidence_score" Histogram ["hypothesis"] [lit 1 4; lit 1 2; lit 7 10; lit 4 5; lit 9 10; lit 19 20; lit 1 1];
   mkCollector "ApprovalRequestsTotal" "argus_approval_requests_total" Counter ["status"; "source"] [];
   mkCollector "ApprovalsPending" "argus_approvals_pending" Gauge [] [];
   mkCollector "ApprovalDecisionDuration" "argus_approval_decision_duration_seconds" Histogram [] [lit 30 1; lit 60 1; lit 120 1; lit 300 1; lit 600 1; lit 900 1; lit 1800 1; lit 3600 1]].
Definition access_collectors : list Collector :=
  [mkCollector "ApprovalEscalationsTotal" "argus_approval_escalations_total" Counter ["transport"] [];
   mkCollector "ApprovalNotificationFailuresTotal" "argus_approval_notification_failures_total" Counter ["transport"] [];
   mkCollector "AuthenticationFailuresTotal" "argus_authentication_failures_total" Counter ["reason"] [];
   mkCollector "AuthorizationDenialsTotal" "argus_authorization_denials_total" Counter ["role"; "permission"] [];
   mkCollector "AuditVerificationsTotal" "argus_audit_verifications_total" Counter ["result"] [];
   mkCollector "AuditChainIntegrity" "argus_audit_chain_integrity" Gauge [] [];
   mkCollector "AuditChainHeadPosition" "argus_audit_chain_head_position" Gauge [] [];
   mkCollector "TopologyAlertsTotal" "argus_topology_alerts_total" Counter ["disposition"] [];
   mkCollector "TopologyIncidentGroupsTotal" "argus_topology_incident_groups_total" Counter ["root_source"] [];
   mkCollector "TopologySuppressionRatio" "argus_topology_suppression_ratio" Histogram [] [lit 0 1; lit 1 4; lit 1 2; lit 3 4; lit 9 10; lit 19 20; lit 1 1];
   mkCollector "TopologyAffectedServices" "argus_topology_affected_services" Histogram [] [lit 1 1; lit 2 1; lit 3 1; lit 5 1; lit 8 1; lit 13 1; lit 20 1; lit 50 1]].
Definition collectors : list Collector := pipeline_collectors ++ outbox_collectors ++ access_collectors.
End collectors.

(** The order in which they are registered. *)
Definition registration : list string :=
  ["IncidentsTotal"; "IncidentsOpen"; "RCAJobsTotal"; "RCADuration"; "RemediationsTotal";
   "RemediationDuration"; "RemediationFailuresTotal"; "PolicyDenialsTotal"; "LLMRequestsTotal"; "LLMRequestDuration";
   "WorkerHeartbeatAgeSeconds"; "RemediationDeadLettersTotal"; "RemediationDispatchesTotal"; "RemediationRedispatchesTotal"; "RemediationOutboxOldestPendingSeconds";
   "RemediationWaitingForWorker"; "HeliosReconciliationsTotal"; "AuditWriteFailuresTotal"; "RCAConfidence"; "ApprovalRequestsTotal";
   "ApprovalsPending"; "ApprovalDecisionDuration"; "ApprovalEscalationsTotal"; "ApprovalNotificationFailuresTotal"; "AuthenticationFailuresTotal";
   "AuthorizationDenialsTotal"; "AuditVerificationsTotal"; "AuditChainIntegrity"; "AuditChainHeadPosition"; "TopologyAlertsTotal";
   "TopologyIncidentGroupsTotal"; "TopologySuppressionRatio"; "TopologyAffectedServices"].

(** What the client demands of them: names of letters, digits and underscores, each
    used once; labels alike, none the histogram's own; bounds that increase. *)
Definition name_head (c : ascii) : bool := is_lower c || is_upper c || Ascii.eqb c "_" || Ascii.eqb c ":".
Definition metric_name (s : string) : bool :=
  match s with "" => false | String c r => name_head c && all_chars (fun c => name_head c || is_digit c) r end.
Definition label_name (s : string) : bool :=
  match s with
  | "" => false
  | String c r => (is_lower c || is_upper c || Ascii.eqb c "_") && all_chars (fun c => is_lower c || is_upper c || is_digit c || Ascii.eqb c "_") r
  end && negb (HasPrefix s "__").
Fixpoint increasing (l : list float64) : bool :=
  match l with x :: ((y :: _) as r) => flt x y && increasing r | _ => true end.
Record registrable (cs : list Collector) : Prop := {
  rg_names : NoDup (co_name <$> cs);
  rg_named : Forall (fun c => metric_name (co_name c) = true) cs;
  rg_labels : Forall (fun c => NoDup (co_labels c) /\ Forall (fun l => label_name l = true /\ (co_kind c = Histogram -> l <> "le")) (co_labels c)) cs;
  rg_buckets : Forall (fun c => increasing (co_buckets c) = true /\ (co_kind c = Histogram <-> co_buckets c <> [])) cs;
}.

(** ** Samples *)

Inductive operation := Inc | Dec | Add (x : float64) | Set_ (x : float64) | Observe (x : float64).
Record Sample := mkSample { sm_field : string; sm_labels : list string; sm_op : operation }.

(** A sample its collector takes. *)
Definition takes (c : Collector) (s : Sample) : bool :=
  Nat.eqb (length (sm_labels s)) (length (co_labels c)) &&
  match co_kind c, sm_op s with
  | Counter, Inc => true
  | Counter, Add x => negb (flt x fzero)
  | Gauge, (Inc | Dec | Add _ | Set_ _) => true
  | Histogram, Observe _ => true
  | _, _ => false
  end.
Definition fits (cs : list Collector) (s : Sample) : bool :=
  match List.find (fun c => co_field c =?s sm_field s) cs with Some c => takes c s | None => false end.

Notation count n := (of_int (Z.of_nat n)).
Notation inc f labels := (mkSample f labels Inc).

(** *** API ([internal/api/server.go]) *)

Definition observeTopologyIngestion (stats : IngestionStats) : list Sample :=
  if is_alert_count stats =? 0 then []
  else
    let rootAlerts := is_alert_count stats - is_suppressed_alert_count stats in
    [mkSample "TopologyAlertsTotal" ["root"] (Add (of_int rootAlerts));
     mkSample "TopologyAlertsTotal" ["suppressed"] (Add (of_int (is_suppressed_alert_count stats)));
     mkSample "TopologyIncidentGroupsTotal" ["observed"] (Add (of_int (is_observed_roots stats)));
     mkSample "TopologyIncidentGroupsTotal" ["inferred"] (Add (of_int (is_inferred_roots stats)));
     mkSample "TopologySuppressionRatio" [] (Observe (fdiv (of_int (is_suppressed_alert_count stats)) (of_int (is_alert_count stats))))] ++
    (if 0 <? is_incident_groups stats
     then [mkSample "TopologyAffectedServices" [] (Observe (fdiv (of_int (is_affected_service_count stats)) (of_int (is_incident_groups stats))))]
     else []).
Definition ingestion_samples (r : IngestionResult) : list Sample :=
  ((fun i => inc "IncidentsTotal" ["created"; inc_severity i]) <$> ir_incidents r) ++
  observeTopologyIngestion (ir_stats r) ++ [mkSample "IncidentsOpen" [] (Set_ (count (length (ir_incidents r))))].
Definition manual_samples (i : Incident) : list Sample := [inc "IncidentsTotal" ["created"; inc_severity i]].
Definition authentication_samples (reason : string) : list Sample := [inc "AuthenticationFailuresTotal" [reason]].
Definition authorization_samples (role permission : string) : list Sample := [inc "AuthorizationDenialsTotal" [role; permission]].
Definition verification_samples (r : result Verification) : list Sample :=
  match r with
  | Fail _ => [mkSample "AuditChainIntegrity" [] (Set_ (of_int 0)); inc "AuditVerificationsTotal" ["error"]]
  | Ok report =>
      [mkSample "AuditChainIntegrity" [] (Set_ (of_int (if ver_valid report then 1 else 0)));
       mkSample "AuditChainHeadPosition" [] (Set_ (of_int (ver_head_position report)));
       inc "AuditVerificationsTotal" [if ver_valid report then "valid" else "invalid"]]
  end.
Definition AuditFailureReporter (action : string) : list Sample := [inc "AuditWriteFailuresTotal" [action]].

(** *** Approvals ([internal/approvals/service.go]) *)

(** [Duration.Seconds]. *)
Definition Seconds (d : Z) : float64 := fadd (of_int (Z.quot d second)) (fdiv (of_int (Z.rem d second)) (of_int second)).
Definition requested_samples (notifier : string) : list Sample :=
  [inc "ApprovalRequestsTotal" ["pending"; notifier]; inc "ApprovalsPending" []].
Definition unnotified_samples (notifier : string) : list Sample := [inc "ApprovalNotificationFailuresTotal" [notifier]].
Definition cancelled_samples : list Sample := [mkSample "ApprovalsPending" [] Dec; inc "ApprovalRequestsTotal" ["cancelled"; "api"]].
Definition decided_samples (request : Request) (source : string) (started : Z) : list Sample :=
  [mkSample "ApprovalsPending" [] Dec; inc "ApprovalRequestsTotal" [req_status request; source];
   mkSample "ApprovalDecisionDuration" [] (Observe (Seconds (started - req_requested_at request)))].
Definition expired_samples : list Sample := [mkSample "ApprovalsPending" [] Dec; inc "ApprovalRequestsTotal" ["expired"; "controller"]].
Definition escalated_samples (notifier : string) : list Sample := [inc "ApprovalEscalationsTotal" [notifier]].
Definition start_samples (pending : Z) : list Sample := [mkSample "ApprovalsPending" [] (Set_ (of_int pending))].

(** *** Remediation ([internal/remediation]) *)

Definition denial_samples (action reason : string) : list Sample := [inc "PolicyDenialsTotal" [action; reason]].
Definition proposal_samples (a : RemediationAction) : list Sample := [inc "RemediationsTotal" [rem_action_type a; rem_status a]].
Definition duration_samples (action : string) (seconds : float64) : list Sample := [mkSample "RemediationDuration" [action] (Observe seconds)].
Definition failure_samples (action : string) : list Sample := [inc "RemediationFailuresTotal" [action]].
Definition dispatch_samples (result : string) : list Sample := [inc "RemediationDispatchesTotal" [result]].
Definition outbox_samples (oldest : float64) : list Sample := [mkSample "RemediationOutboxOldestPendingSeconds" [] (Set_ oldest)].
Definition reconcile_samples (r : ReconcileResult) : list Sample :=
  [mkSample "RemediationRedispatchesTotal" ["redispatched"] (Add (count (length (Redispatched r))));
   mkSample "RemediationRedispatchesTotal" ["exhausted"] (Add (count (length (Exhausted r))));
   mkSample "RemediationWaitingForWorker" [] (Set_ (count (length (WaitingForWorker r))))].
Definition helios_samples (r : HeliosReconcileResult) : list Sample :=
  (fun x => mkSample "HeliosReconciliationsTotal" [x.1] (Add (count (length x.2)))) <$>
    [("succeeded", hr_succeeded r); ("failed", hr_failed r); ("timed_out", hr_timed_out r);
     ("adopted", hr_adopted r); ("resubmitted", hr_resubmitted r); ("error", hr_errors r)].

(** *** Workers ([internal/workers/runner.go]) and analysis ([internal/rca/service.go]) *)

Definition dead_letter_samples (reason : string) : list Sample := [inc "RemediationDeadLettersTotal" [reason]].
Definition heartbeat_samples (worker : string) : list Sample := [mkSample "WorkerHeartbeatAgeSeconds" [worker] (Set_ (of_int 0))].
Definition analysis_failed_samples : list Sample := [inc "RCAJobsTotal" ["failed"]].
Definition analysis_samples (hypothesis : string) (seconds confidence : float64) : list Sample :=
  [inc "RCAJobsTotal" ["succeeded"]; mkSample "RCADuration" ["deterministic"] (Observe seconds); mkSample "RCAConfidence" [hypothesis] (Observe confidence)].
Definition advice_failed_samples : list Sample := [inc "LLMRequestsTotal" ["unknown"; "failed"]].
Definition advice_samples (backend : string) (seconds : float64) : list Sample :=
  [inc "LLMRequestsTotal" [backend; "succeeded"]; mkSample "LLMRequestDuration" [backend] (Observe seconds)].

(** The lists of samples the program gives, each at one place of it, with whatever
    values it has there. *)
Inductive emitted : list Sample -> Prop :=
  | em_ingestion m payload actor e w r w' :
      IngestAlertmanagerWithResult m payload actor e w = (Ok r, w') -> emitted (ingestion_samples r)
  | em_manual i : emitted (manual_samples i)
  | em_authentication reason : emitted (authentication_samples reason)
  | em_authorization role permission : emitted (authorization_samples role permission)
  | em_verification r : emitted (verification_samples r)
  | em_audit action : emitted (AuditFailureReporter action)
  | em_requested notifier : emitted (requested_samples notifier)
  | em_unnotified notifier : emitted (unnotified_samples notifier)
  | em_cancelled : emitted cancelled_samples
  | em_decided request source started : emitted (decided_samples request source started)
  | em_expired : emitted expired_samples
  | em_escalated notifier : emitted (escalated_samples notifier)
  | em_start pending : emitted (start_samples pending)
  | em_denial action reason : emitted (denial_samples action reason)
  | em_proposal a : emitted (proposal_samples a)
  | em_duration action seconds : emitted (duration_samples action seconds)
  | em_failure action : emitted (failure_samples action)
  | em_dispatch result : emitted (dispatch_samples result)
  | em_outbox oldest : emitted (outbox_samples oldest)
  | em_reconcile r : emitted (reconcile_samples r)
  | em_helios r : emitted (helios_samples r)
  | em_dead_letter reason : emitted (dead_letter_samples reason)
  | em_heartbeat worker : emitted (heartbeat_samples worker)
  | em_analysis_failed : emitted analysis_failed_samples
  | em_analysis hypothesis seconds confidence : emitted (analysis_samples hypothesis seconds confidence)
  | em_advice_failed : emitted advice_failed_samples
  | em_advice backend seconds : emitted (advice_samples backend seconds).

(** ** The counts of a delivery *)

(** At most [n] more alerts suppressed, one root per group, nothing taken back. *)
Record counted (n : nat) (a b : IngestionStats) : Prop := {
  ct_alerts : is_alert_count b = is_alert_count a;
  ct_suppressed : is_suppressed_alert_count a <= is_suppressed_alert_count b <= is_suppressed_alert_count a + Z.of_nat n;
  ct_observed : is_observed_roots a <= is_observed_roots b;
  ct_inferred : is_inferred_roots a <= is_inferred_roots b;
  ct_groups : is_incident_groups b - is_incident_groups a = is_observed_roots b - is_observed_roots a + (is_inferred_roots b - is_inferred_roots a);
  ct_affected : is_affected_service_count a <= is_affected_service_count b;
}.

Lemma counted_refl a : counted 0 a a.
Proof. split; lia. Qed.
Lemma counted_trans n k a b c : counted n a b -> counted k b c -> counted (n + k) a c.
Proof. intros [] []. split; lia. Qed.
Lemma counted_more n k a b : (n <= k)%nat -> counted n a b -> counted k a b.
Proof. intros ? []. split; lia. Qed.

Lemma resolve_all_counted m alerts actor : forall stats e w stats' w',
  resolve_all m alerts actor stats e w = (Ok stats', w') -> counted 0 stats stats'.
Proof.
  induction alerts as [|a l IH]; intros stats e w stats' w' H; simpl in H; [apply ret_ok in H as [-> _]; apply counted_refl|].
  apply bind_ok in H as (s1 & w1 & H1 & H2). apply IH in H2. apply (counted_trans 0 0 stats s1 stats'); [|done]. clear IH H2.
  unfold resolveAlert in H1. apply bind_ok in H1 as (found & w2 & _ & H1). destruct found as [i|]; [|apply ret_ok in H1 as [-> _]; split; simpl; lia].
  repeat (apply bind_ok in H1 as (? & ? & _ & H1) || case_match); apply ret_ok in H1 as [-> _]; split; simpl; lia.
Qed.

Lemma attach_all_counted graph incident inferred alerts actor : forall stats e w stats' w',
  attach_all graph incident inferred alerts actor stats e w = (Ok stats', w') -> counted (length alerts) stats stats'.
Proof.
  induction alerts as [|a l IH]; intros stats e w stats' w' H; simpl in H; [apply ret_ok in H as [-> _]; apply counted_refl|].
  apply bind_ok in H as (u & w1 & _ & H). destruct (negb _).
  - apply bind_ok in H as (u2 & w2 & _ & H). apply IH in H. apply (counted_trans 1 (length l) stats (count_suppressed stats)); [|done].
    split; simpl; lia.
  - apply IH in H. by apply (counted_more (length l)); [simpl; lia|].
Qed.

Lemma ingest_group_counted m graph actor g alerts root open stats e w i stats' w' :
  ingest_group m graph actor g alerts root open stats e w = (Ok (i, stats'), w') -> counted (length alerts) stats stats'.
Proof.
  unfold ingest_group. intros H. apply bind_ok in H as ([[incident created] promoted] & w1 & _ & H).
  apply bind_ok in H as (inferred & w2 & _ & H). cbv zeta in H. apply bind_ok in H as (u & w3 & _ & H). apply bind_ok in H as (u' & w4 & _ & H).
  apply bind_ok in H as (s & w5 & H & [[= -> ->] _]%ret_ok). apply attach_all_counted in H.
  apply (counted_trans 0 (length alerts) stats (count_group stats (length (group_members g)) inferred)); [|done].
  split; simpl; try lia; destruct inferred; lia.
Qed.

Lemma ingest_groups_counted m graph actor alerts : forall groups open stats e w out w',
  ingest_groups m graph actor alerts groups open stats e w = (Ok out, w') ->
  counted (sum_list_with (fun g => length (alertsForGroup alerts g)) groups) stats out.2.
Proof.
  induction groups as [|g l IH]; intros open stats e w out w' H; simpl in H; [apply ret_ok in H as [-> _]; apply counted_refl|].
  simpl. destruct (rootAlertForGroup _ _) as [root|].
  - apply bind_ok in H as ([i s1] & w1 & H1 & H). apply bind_ok in H as (rest & w2 & H2 & [-> _]%ret_ok). simpl in *.
    eapply counted_trans; [by eapply ingest_group_counted|by eapply IH].
  - apply IH in H. eapply counted_more; [|exact H]. lia.
Qed.

(** ** No alert is in two groups *)

Definition in_group (a : normalizedAlert) (g : Group) : Prop := na_environment a = group_environment g /\ na_service a ∈ group_members g.
#[export] Instance in_group_dec a g : base.Decision (in_group a g).
Proof. unfold in_group. apply _. Defined.

Lemma sum_groups_cons a l gs :
  sum_list_with (fun g => length (alertsForGroup (a :: l) g)) gs =
  (length (filter (in_group a) gs) + sum_list_with (fun g => length (alertsForGroup l g)) gs)%nat.
Proof.
  induction gs as [|g gs IH]; [done|]. cbn [sum_list_with]. rewrite IH, (filter_cons (in_group a)). unfold alertsForGroup at 1. rewrite filter_cons.
  fold (alertsForGroup l g). destruct (decide (in_group a g)) as [H|H].
  - rewrite decide_True by exact H. simpl. lia.
  - rewrite decide_False by exact H. lia.
Qed.
Lemma sum_groups (alerts : list normalizedAlert) (gs : list Group) :
  (forall a, a ∈ alerts -> (length (filter (in_group a) gs) <= 1)%nat) ->
  (sum_list_with (fun g => length (alertsForGroup alerts g)) gs <= length alerts)%nat.
Proof.
  induction alerts as [|a l IH]; intros H; [clear H; induction gs; simpl in *; lia|]. rewrite sum_groups_cons.
  pose proof (H a ltac:(left)). specialize (IH (fun x Hx => H x ltac:(by right))). simpl. lia.
Qed.

Lemma one_member s (gs : list Group) : NoDup (mjoin (group_members <$> gs)) -> (length (filter (fun g => s ∈ group_members g) gs) <= 1)%nat.
Proof.
  induction gs as [|g gs IH]; [simpl; lia|]. simpl. intros (_ & HD & HN)%NoDup_app. rewrite filter_cons. case_decide as Hs; [|by apply IH].
  destruct (filter (fun g => s ∈ group_members g) gs) as [|x r] eqn:E; [simpl; lia|exfalso].
  assert (x ∈ filter (fun g => s ∈ group_members g) gs) as [Hm Hx]%list_elem_of_filter by (rewrite E; left).
  apply (HD s Hs), list_elem_of_join. exists (group_members x). split; [done|]. by apply list_elem_of_fmap_2.
Qed.

Lemma one_group graph alerts a : (length (filter (in_group a) (topologyGroupsByEnvironment graph alerts)) <= 1)%nat.
Proof.
  unfold topologyGroupsByEnvironment. generalize (NoDup_sortedKeys (list_to_set (na_environment <$> alerts))).
  generalize (sortedKeys (list_to_set (na_environment <$> alerts))). intros envs HN.
  set (f := fun env => (fun g => mkGroup (group_root g) env (group_inferred g) (group_members g) (group_paths g)) <$>
    Groups graph (na_service <$> filter (fun a => na_environment a = env) alerts)).
  change (length (filter (in_group a) (envs ≫= f)) <= 1)%nat.
  assert (forall env, (length (filter (in_group a) (f env)) <= 1)%nat) as H1.
  { intros env. destruct (Groups_spec graph (na_service <$> filter (fun a => na_environment a = env) alerts)) as (HP & _ & _). unfold f.
    etrans; [|apply (one_member (na_service a) (Groups graph (na_service <$> filter (fun a => na_environment a = env) alerts)))].
    - generalize (Groups graph (na_service <$> filter (fun a => na_environment a = env) alerts)). intros l. induction l as [|g l IH]; [done|].
      rewrite fmap_cons, !filter_cons. unfold in_group at 1. simpl. repeat case_decide; simpl in *; try lia; tauto.
    - rewrite HP. apply NoDup_sortedKeys. }
  assert (forall env, env <> na_environment a -> filter (in_group a) (f env) = []) as H0.
  { intros env Hne. unfold f. induction (Groups graph _) as [|g l IH]; [done|]. rewrite fmap_cons, filter_cons_False; [done|].
    intros [He _]. by apply Hne. }
  induction envs as [|env envs IH]; [simpl; lia|]. apply NoDup_cons in HN as [Hn HN]. rewrite bind_cons, filter_app, length_app.
  destruct (decide (env = na_environment a)) as [->|Hne]; [|rewrite (H0 _ Hne); by apply IH].
  assert (filter (in_group a) (envs ≫= f) = []) as ->; [|specialize (H1 (na_environment a)); simpl; lia].
  clear IH HN H1. induction envs as [|env envs IH]; [done|]. apply not_elem_of_cons in Hn as [He Hn]. rewrite bind_cons, filter_app, H0 by done. by apply IH.
Qed.

Lemma ingest_counts m payload actor e w r w' : IngestAlertmanagerWithResult m payload actor e w = (Ok r, w') ->
  0 <= is_suppressed_alert_count (ir_stats r) <= is_alert_count (ir_stats r) /\ 0 <= is_observed_roots (ir_stats r) /\ 0 <= is_inferred_roots (ir_stats r) /\
  is_incident_groups (ir_stats r) = is_observed_roots (ir_stats r) + is_inferred_roots (ir_stats r) /\ 0 <= is_affected_service_count (ir_stats r).
Proof.
  intros H. apply in_tx_ok in H as (w0 & w1 & _ & _ & H & _). apply bind_ok in H as (u & w2 & _ & H). unfold ingest in H.
  apply bind_ok in H as ([alerts resolved] & w3 & _ & H). cbn [fst snd] in H. apply bind_ok in H as (stats & w4 & HR & H).
  apply resolve_all_counted in HR. destruct (Nat.eqb _ _).
  - apply ret_ok in H as [-> _]. destruct HR; simpl in *. lia.
  - apply bind_ok in H as (dependencies & w5 & _ & H). cbv zeta in H. apply bind_ok in H as (open & w6 & _ & H).
    apply bind_ok in H as (out & w7 & HG & [-> _]%ret_ok). apply ingest_groups_counted in HG.
    pose proof (sum_groups alerts _ (fun a _ => one_group (New dependencies) alerts a)) as HS.
    destruct (counted_trans _ _ _ _ _ HR HG); simpl in *. lia.
Qed.

(** ** Counters do not decrease *)

Lemma round_not_negative m e l : flt (binary_round_aux prec emax false m e l) fzero = false.
Proof. unfold binary_round_aux. repeat case_match; done. Qed.
Lemma of_int_not_negative n : 0 <= n -> flt (of_int n) fzero = false.
Proof.
  intros Hn. unfold of_int, binary_normalize, binary_round. destruct n as [|p|p]; [done| |lia]. destruct (shl_align _ _ _). apply round_not_negative.
Qed.

(** What a delivery gives fits as well. *)
Section fit.
Context (DefBuckets : list float64).
Notation cs := (collectors DefBuckets).

Lemma counter_takes f labels x : fits cs (mkSample f labels Inc) = true -> flt x fzero = false -> fits cs (mkSample f labels (Add x)) = true.
Proof.
  unfold fits. destruct (List.find _ _) as [c|]; [|done]. unfold takes. simpl. destruct (co_kind c); rewrite ?andb_false_r; try done.
  intros H ->. by rewrite andb_true_r in *.
Qed.
Ltac each_sample H := cbn in H; repeat (apply elem_of_cons in H as [->|H];
  [first [reflexivity|apply counter_takes; [reflexivity|apply of_int_not_negative; lia]]|]); by apply elem_of_nil in H.
Lemma emitted_fits samples s : emitted samples -> s ∈ samples -> fits cs s = true.
Proof.
  intros H Hs. destruct H as [m payload actor e w r w' H| | | |[report|]| | | | | | | | | | | | | | | | | | | | | |]; try each_sample Hs.
  apply ingest_counts in H as (H1 & H2 & H3 & _). unfold ingestion_samples, observeTopologyIngestion in Hs.
  apply elem_of_app in Hs as [(i & -> & _)%list_elem_of_fmap|[Hs|Hs]%elem_of_app]; [reflexivity| |each_sample Hs].
  destruct (_ =? 0); [by apply elem_of_nil in Hs|]. cbv zeta in Hs. apply elem_of_app in Hs as [Hs|Hs]; [each_sample Hs|].
  destruct (0 <? _); each_sample Hs.
Qed.
End fit.

Lemma collectors_registrable DefBuckets : increasing DefBuckets = true -> DefBuckets <> [] -> registrable (collectors DefBuckets).
Proof.
  intros HI HD. split.
  - apply (proj1 (bool_decide_eq_true (NoDup _))). vm_compute. reflexivity.
  - repeat constructor.
  - repeat (apply Forall_cons_2; [split; [apply (proj1 (bool_decide_eq_true (NoDup _))); vm_compute; reflexivity|repeat constructor; done]|]). apply Forall_nil_2.
  - repeat (apply Forall_cons_2; [split; [first [exact HI|vm_compute; reflexivity]|by split]|]). apply Forall_nil_2.
Qed.

(** ** Properties *)

(** C30: no metric panics. With histogram bounds of the client that increase, the
    collectors can all be registered, each once; and every sample the program gives, at
    each of the places that count, with whatever labels and values it has there, goes
    to a registered collector of the right kind with as many labels as it declares, and
    adds to a counter nothing negative: a delivery never suppresses more alerts than it
    has, whatever its alerts and the topology. *)
Theorem metrics_never_panic DefBuckets : increasing DefBuckets = true -> DefBuckets <> [] ->
  registrable (collectors DefBuckets) /\ (co_field <$> collectors DefBuckets) ≡ₚ registration /\
  forall samples s, emitted samples -> s ∈ samples -> fits (collectors DefBuckets) s = true.
Proof.
  intros HI HD. split; [by apply collectors_registrable|]. split; [|by apply emitted_fits].
  apply NoDup_Permutation; [apply (proj1 (bool_decide_eq_true (NoDup _))); vm_compute; reflexivity..|].
  intros x. split; intros Hx; cbn in Hx; repeat (apply elem_of_cons in Hx as [->|Hx]; [apply (proj1 (bool_decide_eq_true (_ ∈ _))); vm_compute; reflexivity|]);
    by apply elem_of_nil in Hx.
Qed.

Lemma metrics_never_panic_witness :
  registrable (collectors [lit 5 1000; lit 1 100; lit 25 1000; lit 5 100; lit 1 10; lit 1 4; lit 1 2; lit 1 1; lit 5 2; lit 5 1; lit 10 1]).
Proof. apply metrics_never_panic; [vm_compute; reflexivity|discriminate]. Defined.

(** The gauge of open incidents is what the last delivery touched. *)
Example open_gauge_forgets :
  last (ingestion_samples (mkIngestionResult [] (mkIngestionStats 0 0 0 0 0 0 0 0 0))) = Some (mkSample "IncidentsOpen" [] (Set_ (of_int 0))).
Proof. reflexivity. Qed.
