(* ===== verification/Gauge.v ===== *)
(** * The gauge of pending approvals ([internal/approvals/service.go])

    The approval service once more, now with the samples it gives to its metrics: the
    same calls in the same order. [ApprovalsPending] is set to a count when the service
    starts and moved by one from then on; here it is compared with that count. *)
From Stdlib Require Import Ascii String ZArith Lia.
From stdpp Require Import base gmap strings list.
From S2P Require Import Prelude GoStrings GoValue Lifecycle Ledger Types Database AuditLog Store Progress Approvals Metrics.
Open Scope Z_scope.

(** ** Calls that give samples *)

Definition Metered (A : Type) : Type := env -> world * list Sample -> result A * (world * list Sample).

Definition quiet {A} (m : M A) : Metered A := fun e s => let '(r, w) := m e s.1 in (r, (w, s.2)).
Definition emit (samples : list Sample) : Metered unit := fun _ s => (Ok tt, (s.1, s.2 ++ samples)).
Definition mret {A} (a : A) : Metered A := fun _ s => (Ok a, s).
Definition mbind {A B} (m : Metered A) (k : A -> Metered B) : Metered B := fun e s =>
  match m e s with (Ok a, s') => k a e s' | (Fail err, s') => (Fail err, s') end.

Notation "x <~ m ;; k" := (mbind m (fun x => k)) (at level 100, m at next level, right associativity) : go_scope.
Notation "m ;~ k" := (mbind m (fun _ => k)) (at level 100, right associativity) : go_scope.

Fixpoint metered_each {A} (l : list A) (f : A -> Metered unit) : Metered unit :=
  match l with [] => mret tt | x :: l => f x ;~ metered_each l f end.

Module Counted.

Definition RequestApproval (s : Service) (incident : Incident) (remediation : RemediationAction) : Metered Request :=
  time <~ quiet now ;;
  id <~ quiet (NewID "apr") ;;
  let request := mkRequest id (rem_id remediation) (inc_id incident) (rem_action_type remediation) (rem_target remediation)
    (rem_parameters remediation) (rem_risk remediation) StatusPending (rem_proposed_by remediation) time
    (time + as_escalate_after s) (time + as_timeout s) None None "" "" "" "pending" 0 "" time time in
  stored <~ quiet (Create request) ;;
  if negb (req_id stored =?s id) then mret stored
  else
    emit (requested_samples (as_notifier s)) ;~
    sent <~ quiet (attempt Notify) ;;
    match sent with
    | Fail err =>
        emit (unnotified_samples (as_notifier s)) ;~
        quiet (ignore (MarkNotification (req_id stored) "failed" (err_text err))) ;~
        mret stored
    | Ok _ =>
        let status := if as_notifier s =?s "disabled" then "disabled" else "delivered" in
        quiet (ignore (MarkNotification (req_id stored) status "")) ;~
        mret (req_with stored (req_status stored) (req_escalated_at stored) (req_decided_at stored) (req_decided_by stored)
                (req_decision_reason stored) (req_decision_source stored) status (req_notification_attempts stored + 1)
                (req_last_notification_error stored) (req_updated_at stored))
    end.

Definition CancelByRemediation (remediationID actor reason : string) : Metered Request :=
  request <~ quiet (Approvals.CancelByRemediation remediationID actor reason) ;;
  emit cancelled_samples ;~
  mret request.

Definition Decide (s : Service) (id actor actorType decision reason source : string) : Metered Request :=
  let decision := ToLower (TrimSpace decision) in
  let reason := TrimSpace reason in
  quiet (lift (validateDecision decision reason actor)) ;~
  started <~ quiet now ;;
  pending <~ quiet (Get id) ;;
  quiet (lift (validateSeparation (req_requested_by pending) actor (as_allow_self s))) ;~
  request <~ quiet (DecideStore id actor actorType decision reason source started) ;;
  emit (decided_samples request source started) ;~
  mret request.

Definition escalate_one (s : Service) (time : Z) (r : Request) : Metered unit :=
  sent <~ quiet (attempt Notify) ;;
  match sent with
  | Fail err =>
      emit (unnotified_samples (as_notifier s)) ;~
      quiet (ignore (MarkNotification (req_id r) "escalation_failed" (err_text err)))
  | Ok _ =>
      marked <~ quiet (attempt (MarkEscalated r time)) ;;
      match marked with Ok true => emit (escalated_samples (as_notifier s)) | _ => mret tt end
  end.

Definition processDue (s : Service) : Metered unit :=
  time <~ quiet now ;;
  expired <~ quiet (attempt (ExpireDue time 100)) ;;
  match expired with
  | Fail _ => mret tt
  | Ok expired => metered_each expired (fun _ => emit expired_samples)
  end ;~
  due <~ quiet (attempt (DueEscalations time 100)) ;;
  match due with
  | Fail _ => mret tt
  | Ok due => metered_each due (escalate_one s time)
  end.

(** [Start], before its loop. *)
Definition Start : Metered unit :=
  count <~ quiet (attempt CountPending) ;;
  match count with Fail _ => mret tt | Ok count => emit (start_samples count) end.

End Counted.

(** ** The samples change nothing *)

Definition erases {A} (m' : Metered A) (m : M A) : Prop := forall e s, ((m' e s).1, (m' e s).2.1) = m e s.1.

Lemma erases_quiet {A} (m : M A) : erases (quiet m) m.
Proof. intros e [w l]. unfold quiet. simpl. by destruct (m e w). Qed.
Lemma erases_mret {A} (a : A) : erases (mret a) (ret a).
Proof. done. Qed.
Lemma erases_bind {A B} (m' : Metered A) (m : M A) (k' : A -> Metered B) (k : A -> M B) :
  erases m' m -> (forall a, erases (k' a) (k a)) -> erases (mbind m' k') (bind m k).
Proof.
  intros Hm Hk e s. unfold mbind, bind. rewrite <- (Hm e s). destruct (m' e s) as [[a|err] s']; [|done]. exact (Hk a e s').
Qed.
Lemma erases_emit {A} samples (k : Metered A) (m : M A) : erases k m -> erases (emit samples ;~ k) m.
Proof. intros Hk e s. exact (Hk e _). Qed.
Lemma erases_last samples : erases (emit samples) (ret tt).
Proof. done. Qed.
Lemma erases_attempt {A B} (m : M A) (k' : result A -> Metered B) (k : result A -> M B) :
  (forall r, erases (k' r) (k r)) -> erases (r <~ quiet (attempt m) ;; k' r) (r <- attempt m ;; k r).
Proof. intros Hk. by apply erases_bind; [apply erases_quiet|]. Qed.

Lemma RequestApproval_erases s i r : erases (Counted.RequestApproval s i r) (RequestApproval s i r).
Proof.
  unfold Counted.RequestApproval, RequestApproval. repeat (apply erases_bind; [apply erases_quiet|intros ?]). case_match; [apply erases_mret|].
  apply erases_emit, erases_attempt. intros [?|?]; [|apply erases_emit]; (apply erases_bind; [apply erases_quiet|intros ?]); apply erases_mret.
Qed.
Lemma after_quiet {A} (m : M A) samples : erases (x <~ quiet m ;; emit samples ;~ mret x) m.
Proof. intros e [w l]. unfold mbind, quiet. simpl. by destruct (m e w) as [[]]. Qed.
Lemma CancelByRemediation_erases id actor reason : erases (Counted.CancelByRemediation id actor reason) (CancelByRemediation id actor reason).
Proof. apply after_quiet. Qed.
Lemma Decide_erases s id actor type decision reason source :
  erases (Counted.Decide s id actor type decision reason source) (Decide s id actor type decision reason source).
Proof.
  unfold Counted.Decide, Decide. repeat (apply erases_bind; [apply erases_quiet|intros ?]). intros e [w l]. unfold mbind, quiet. simpl.
  by destruct (DecideStore _ _ _ _ _ _ _ e w) as [[]].
Qed.
Lemma erases_dropped {A B} (m : M A) (f : result A -> Metered unit) (k : Metered B) (k0 : M B) :
  (forall r, erases (f r) (ret tt)) -> erases k k0 -> erases (r <~ quiet (attempt m) ;; f r ;~ k) (ignore m ;;; k0).
Proof.
  intros Hf Hk e [w l]. unfold mbind, quiet, attempt, ignore, bind. simpl. destruct (m e w) as [r w1]. pose proof (Hf r e (w1, l)) as H.
  destruct (f r e (w1, l)) as [[u|err] s']; [|discriminate H]. injection H as _ <-. exact (Hk e s').
Qed.
Lemma erases_ignored {A} (m : M A) (f : result A -> Metered unit) :
  (forall r, erases (f r) (ret tt)) -> erases (r <~ quiet (attempt m) ;; f r) (ignore m).
Proof.
  intros Hf e [w l]. unfold mbind, quiet, attempt, ignore. simpl. destruct (m e w) as [r w1]. exact (Hf r e (w1, l)).
Qed.
Lemma emits_erase {A} (l : list A) samples : erases (metered_each l (fun _ => emit samples)) (ret tt).
Proof. induction l as [|x l IH]; simpl; [apply erases_mret|]. by apply erases_emit. Qed.
Lemma escalate_one_erases s time r : erases (Counted.escalate_one s time r) (escalate_one time r).
Proof.
  unfold Counted.escalate_one, escalate_one. apply erases_attempt. intros [?|err].
  - apply erases_ignored. intros [[]|]; [apply erases_last|apply erases_mret..].
  - apply erases_emit, erases_quiet.
Qed.
Lemma processDue_erases s : erases (Counted.processDue s) processDue.
Proof.
  unfold Counted.processDue, processDue. apply erases_bind; [apply erases_quiet|intros time]. apply erases_dropped.
  - intros [expired|]; [apply emits_erase|apply erases_mret].
  - apply erases_attempt. intros [due|]; [|apply erases_mret]. induction due as [|r due IH]; simpl; [apply erases_mret|].
    apply erases_bind; [apply escalate_one_erases|]. by intros _.
Qed.

(** ** The gauge and the count *)

Definition moves (s : Sample) : Z :=
  if sm_field s =?s "ApprovalsPending" then match sm_op s with Inc => 1 | Dec => -1 | _ => 0 end else 0.
Definition gauge (l : list Sample) : Z := foldr (fun s n => moves s + n) 0 l.
Definition pending (d : DB) : Z := Z.of_nat (length (filter (fun r => is_pending r = true) (requests d))).

Lemma gauge_app l l' : gauge (l ++ l') = gauge l + gauge l'.
Proof. induction l as [|s l IH]; simpl; [done|]. rewrite IH. lia. Qed.

Lemma pending_row d k r : pending (set_approvals (<[k := r]>) d) =
  pending (set_approvals (delete k) d) + (if is_pending r then 1 else 0).
Proof.
  unfold pending, requests. simpl. rewrite <- insert_delete_eq.
  rewrite (filter_Permutation _ _ _ (fmap_Permutation snd _ _ (map_to_list_insert (delete k (db_approvals d)) k r (lookup_delete_eq _ _)))).
  rewrite fmap_cons, filter_cons. destruct (decide (is_pending (k, r).2 = true)) as [H|H%not_true_is_false]; cbn [snd] in H; rewrite H; cbn [length]; lia.
Qed.
Lemma pending_old d k r : db_approvals d !! k = Some r -> pending d = pending (set_approvals (delete k) d) + (if is_pending r then 1 else 0).
Proof.
  intros Hr. rewrite <- pending_row. unfold pending, requests. simpl. by rewrite insert_id.
Qed.
Lemma pending_update d k old r : db_approvals d !! k = Some old ->
  pending (set_approvals (<[k := r]>) d) = pending d - (if is_pending old then 1 else 0) + (if is_pending r then 1 else 0).
Proof. intros Ho. rewrite pending_row, (pending_old d k old Ho). lia. Qed.
Lemma pending_new d k r : db_approvals d !! k = None -> pending (set_approvals (<[k := r]>) d) = pending d + (if is_pending r then 1 else 0).
Proof. intros Hn. rewrite pending_row. f_equal. unfold pending, requests. simpl. by rewrite delete_id. Qed.
Lemma pending_approvals d d' : db_approvals d' = db_approvals d -> pending d' = pending d.
Proof. unfold pending, requests. by intros ->. Qed.

Definition same_pending (d d' : DB) : Prop := pending d' = pending d.
#[export] Instance same_pending_refl : Reflexive same_pending.
Proof. done. Qed.
#[export] Instance same_pending_trans : Transitive same_pending.
Proof. unfold same_pending. intros ? ? ? H1 H2. congruence. Qed.

Lemma update_request_same id cond f : (forall r, is_pending (f r) = is_pending r) -> guar same_pending (update_request id cond f).
Proof.
  intros Hf. apply guar_stmt; [apply _|]. intros d b d'. destruct (db_approvals d !! id) as [r|] eqn:Hr; [destruct (cond r)|]; intros [= _ <-]; try done.
  unfold same_pending. rewrite (pending_update _ _ _ _ Hr), Hf. lia.
Qed.
Lemma MarkNotification_same id status message : guar same_pending (MarkNotification id status message).
Proof.
  unfold MarkNotification. apply guar_bind; [apply _|apply guar_db_now, _|intros time]. apply guar_bind; [apply _| |intros; apply guar_ret, _].
  apply guar_wrap, update_request_same. done.
Qed.

(** Rows stay under their keys. *)
Definition keeps (d d' : DB) : Prop := keyed d -> keyed d'.
#[export] Instance keeps_refl : Reflexive keeps.
Proof. by intros ? ?. Qed.
#[export] Instance keeps_trans : Transitive keeps.
Proof. unfold keeps. intros ? ? ? ? ? ?. auto. Qed.

Lemma guar_steady_keeps {A} (m : M A) : guar steady m -> guar keeps m.
Proof. apply guar_mono. intros d d' H HK. by eapply steady_keyed. Qed.
Lemma okay_steady_keeps {A} (m : M A) : okay steady m -> okay keeps m.
Proof. intros Hm e w a w' H HK. by eapply steady_keyed; [eapply Hm|]. Qed.
Lemma update_request_keeps id cond f : (forall r, req_id (f r) = req_id r) -> guar keeps (update_request id cond f).
Proof.
  intros Hf. apply guar_update_if; [apply _|]. intros d q Hq _ [HR HQ HJ]. split; simpl; [done| |done].
  intros k x [[<- <-]|[_ Hx]]%lookup_insert_Some; [rewrite Hf|]; by apply HQ.
Qed.
Lemma update_remediation_keeps id cond f : (forall r, rem_id (f r) = rem_id r) -> guar keeps (update_remediation id cond f).
Proof.
  intros Hf. apply guar_update_if; [apply _|]. intros d q Hq _ [HR HQ HJ]. split; simpl; [|done|done].
  intros k x [[<- <-]|[_ Hx]]%lookup_insert_Some; [rewrite Hf|]; by apply HR.
Qed.
Lemma insert_request_keeps r : guar keeps (insert_request r).
Proof.
  apply guar_stmt; [apply _|]. intros d u d'. destruct (_ || _); [done|]. intros [= _ <-] [HR HQ HJ]. split; simpl; [done| |done].
  by intros k x [[<- <-]|[_ Hx]]%lookup_insert_Some; [|apply HQ].
Qed.
#[local] Hint Resolve guar_steady_keeps okay_steady_keeps insert_request_keeps : guar.
#[local] Hint Extern 1 (guar keeps (update_request _ _ _)) => by apply update_request_keeps : guar.
#[local] Hint Extern 1 (guar keeps (update_remediation _ _ _)) => by apply update_remediation_keeps : guar.

Lemma RequestApproval_keeps s i a : guar keeps (RequestApproval s i a).
Proof. unfold RequestApproval, Create, create_body. handler_walk. Qed.
Lemma Decide_keeps s id actor type decision reason source : guar keeps (Decide s id actor type decision reason source).
Proof. unfold Decide, DecideStore, decide_body. handler_walk. Qed.
Lemma CancelByRemediation_keeps id actor reason : guar keeps (CancelByRemediation id actor reason).
Proof. unfold CancelByRemediation, CancelStore, cancel_body. handler_walk. Qed.

(** How far the gauge has moved ahead of the rows. *)
Definition drift (s : world * list Sample) : Z := gauge s.2 - pending (w_db s.1).
Definition level {A} (m : Metered A) : Prop := forall e s, drift (m e s).2 = drift s.

Lemma level_quiet {A} (m : M A) : guar same_pending m -> level (quiet m).
Proof.
  intros Hm e [w l]. specialize (Hm e w). unfold quiet, drift. simpl. destruct (m e w) as [r w']. simpl in *. by rewrite Hm.
Qed.
Lemma level_bind {A B} (m : Metered A) (k : A -> Metered B) : level m -> (forall a, level (k a)) -> level (mbind m k).
Proof.
  intros Hm Hk e s. unfold mbind. specialize (Hm e s). destruct (m e s) as [[a|err] s']; simpl in *; [|done]. by rewrite Hk.
Qed.
Lemma level_mret {A} (a : A) : level (mret a).
Proof. done. Qed.
Lemma level_emit samples : gauge samples = 0 -> level (emit samples).
Proof. intros H e s. unfold drift. simpl. rewrite gauge_app. lia. Qed.
Lemma level_each {A} (l : list A) f : (forall a, level (f a)) -> level (metered_each l f).
Proof. intros Hf. induction l as [|x l IH]; simpl; [done|]. by apply level_bind. Qed.
Lemma same_pending_eq {A} (m : M A) : guar eq m -> guar same_pending m.
Proof. apply guar_mono. by intros d d' ->. Qed.

Lemma logged_same entry d d' : logged entry d d' -> same_pending d d'.
Proof. intros (row & chain & -> & _). done. Qed.
Lemma MarkEscalated_same r time : guar same_pending (MarkEscalated r time).
Proof.
  unfold MarkEscalated. apply guar_bind; [apply _| |intros; apply guar_ret, _]. apply okay_tx_choice; [apply _|].
  apply okay_bind; [apply _|apply okay_guar, guar_wrap, update_request_same; done|intros []; simpl].
  - apply okay_bind; [apply _| |intros; apply okay_guar, guar_ret, _]. intros e w a w' [H _]%writeAuditTx_logged. by eapply logged_same.
  - apply okay_guar, guar_ret, _.
Qed.
Lemma escalate_one_level s time r : level (Counted.escalate_one s time r).
Proof.
  apply level_bind; [apply level_quiet, guar_attempt, Notify_guar, _|intros [u|err]].
  - apply level_bind; [apply level_quiet, guar_attempt, MarkEscalated_same|]. intros [[]|]; [by apply level_emit|done..].
  - apply level_bind; [by apply level_emit|intros _]. apply level_quiet, guar_ignore, MarkNotification_same.
Qed.

(** *** A request *)

Lemma Create_pending r e w : keyed (w_db w) -> db_approvals (w_db w) !! req_id r = None -> req_status r = StatusPending ->
  match Create r e w with
  | (Ok stored, w') => if req_id stored =?s req_id r then pending (w_db w') = pending (w_db w) + 1 else w_db w' = w_db w
  | (Fail _, w') => w_db w' = w_db w
  end.
Proof.
  intros HK HN HP.
  assert (forall d q, d = w_db w -> by_remediation (req_remediation_id r) d = Some q -> req_id q =?s req_id r = false) as HX.
  { intros d q -> Hq. apply (by_remediation_keyed _ _ _ HK) in Hq as [_ Hq]. apply eqb_string_false. intros E. by rewrite E, HN in Hq. }
  unfold Create, bind. destruct (tx_choice _ _ _ e w) as [[outcome|err] w1] eqn:E; [|by apply tx_choice_fail in E].
  apply tx_choice_ok in E as (w0 & w2 & D0 & _ & H & D). unfold create_body in H.
  apply bind_ok in H as (found & w3 & H3%attempt_ok & H).
  pose proof (unchanged _ _ _ _ _ (getByRemediation_guar eq (req_remediation_id r)) H3) as D3. rewrite D0 in D3.
  destruct found as [found|err].
  - apply ret_ok in H as [-> ->]. apply scanRequest_ok in H3 as [Hf _]. simpl. by rewrite (HX _ _ D0 Hf), D, D3.
  - destruct (negb _); [done|]. apply bind_ok in H as (added & w4 & H4%attempt_ok & H). destruct added as [u|err'].
    + apply bind_ok in H as (u' & w5 & [H5 _]%writeAuditTx_logged & H). apply ret_ok in H as [-> ->]. simpl. rewrite (proj2 (eqb_string_true _ _) eq_refl), D.
      apply logged_same in H5. rewrite H5. apply stmt_ok in H4 as [H4 _]. destruct (_ || _); [done|]. injection H4 as _ <-.
      rewrite D3, pending_new by done. f_equal. unfold is_pending. simpl. by rewrite HP.
    + apply ret_ok in H as [-> ->]. unfold attempt. destruct (GetByRemediation _ e w1) as [q w6] eqn:G.
      pose proof (unchanged _ _ _ _ _ (GetByRemediation_guar eq (req_remediation_id r)) G) as D6. rewrite D in D6.
      destruct q as [q|err2]; simpl; [|done]. apply scanRequest_ok in G as [Hq _]. by rewrite (HX _ _ D Hq).
Qed.

Lemma RequestApproval_level s i a e st :
  keyed (w_db st.1) -> db_approvals (w_db st.1) !! ("apr_" +:+ e_id e (w_tick st.1)) = None ->
  drift (Counted.RequestApproval s i a e st).2 = drift st.
Proof.
  destruct st as [w l]. simpl. intros HK HN. unfold Counted.RequestApproval. unfold mbind at 1 2. unfold quiet at 1 2, now, NewID. simpl.
  change ("apr" +:+ "_" +:+ e_id e (w_tick w)) with ("apr_" +:+ e_id e (w_tick w)). set (id := "apr_" +:+ e_id e (w_tick w)) in *.
  set (request := mkRequest _ _ _ _ _ _ _ _ _ _ _ _ _ _ _ _ _ _ _ _ _ _). pose proof (Create_pending request e (tick w) HK HN eq_refl) as C.
  unfold mbind at 1, quiet at 1. simpl. destruct (Create request e (tick w)) as [[stored|err] w1]; simpl in C; [|unfold drift; simpl; by rewrite C].
  change (req_id request) with id in C. destruct (req_id stored =?s id) eqn:E; simpl; [|unfold drift; simpl; by rewrite C].
  unfold mbind at 1, emit at 1. cbn [fst snd]. trans (drift (w1, l ++ requested_samples (as_notifier s))).
  - match goal with |- drift (?m e _).2 = _ => enough (level m) as Hm by exact (Hm e _) end.
    apply level_bind; [apply level_quiet, guar_attempt, Notify_guar, _|intros [u|err]].
    + apply level_bind; [apply level_quiet, guar_ignore, MarkNotification_same|done].
    + apply level_bind; [by apply level_emit|intros _]. apply level_bind; [apply level_quiet, guar_ignore, MarkNotification_same|done].
  - unfold drift. cbn [fst snd]. rewrite gauge_app, C. change (gauge (requested_samples (as_notifier s))) with 1. simpl. lia.
Qed.

(** *** A cancellation *)

Lemma CancelByRemediation_level id actor reason e st : keyed (w_db st.1) ->
  drift (Counted.CancelByRemediation id actor reason e st).2 = drift st.
Proof.
  destruct st as [w l]. simpl. intros HK. unfold Counted.CancelByRemediation, mbind, quiet, CancelByRemediation. cbn [fst snd].
  destruct (TrimSpace actor =?s ""); [done|]. unfold bind, now, CancelStore. destruct (in_tx _ _ _ e w) as [[r|err] w1] eqn:H.
  - apply in_tx_ok in H as (w0 & w2 & D0 & _ & H & D & _). apply cancel_body_ok in H as (q & rem & d1 & e1 & e2 & Hq & _ & Hp & -> & _ & _ & L1 & L2); [|by rewrite D0].
    apply logged_same in L1, L2. rewrite <- D in L2. unfold same_pending in *. rewrite D0 in *.
    assert (pending (w_db w1) = pending (w_db w) - 1) as P.
    { rewrite L2, L1. rewrite (pending_approvals (set_approvals _ _)) by done. rewrite (pending_update _ _ _ _ Hq). unfold is_pending. rewrite Hp. simpl. lia. }
    unfold drift. simpl. rewrite P, gauge_app. change (gauge cancelled_samples) with (-1). lia.
  - apply in_tx_fail in H. unfold drift. simpl. by rewrite H.
Qed.

(** *** A decision *)

Lemma Decide_counted s id actor type decision reason source e w l :
  Counted.Decide s id actor type decision reason source e (w, l) =
    let '(r, w') := Decide s id actor type decision reason source e w in
    (r, (w', l ++ match r with Ok out => decided_samples out source (e_now e) | Fail _ => [] end)).
Proof.
  unfold Counted.Decide, Decide, mbind, bind, quiet, lift, now. cbn [fst snd].
  destruct (validateDecision _ _ _) as [u|err]; [|by rewrite app_nil_r]. destruct (Get id e w) as [[q|err] w1]; [|by rewrite app_nil_r].
  destruct (validateSeparation _ _ _) as [u'|err]; [|by rewrite app_nil_r]. cbn [fst snd].
  destruct (DecideStore _ _ _ _ _ _ _ e w1) as [[out|err] w2]; [done|by rewrite app_nil_r].
Qed.

Lemma expiry_rows_pending q time d : db_approvals d !! req_id q = Some q -> req_status q = StatusPending ->
  pending (expiry_rows q time d) = pending d - 1.
Proof.
  intros Hq Hp. rewrite (pending_approvals (set_approvals (<[req_id q := expired q time]>) d)).
  - rewrite (pending_update _ _ _ _ Hq). unfold is_pending. rewrite Hp. simpl. lia.
  - unfold expiry_rows. simpl. by repeat case_match.
Qed.

Lemma Decide_level s id actor type decision reason source e st : keyed (w_db st.1) ->
  match Counted.Decide s id actor type decision reason source e st with
  | (Ok _, st') => drift st' = drift st
  | (Fail err, st') => drift st' = drift st \/ err = ErrExpired /\ drift st' = drift st + 1
  end.
Proof.
  destruct st as [w l]. intros HK. cbn [fst snd] in HK. rewrite Decide_counted.
  pose proof (Decide_cases s id actor type decision reason source e w HK) as C. cbv zeta in C.
  destruct (Decide s id actor type decision reason source e w) as [[out|err] w']; unfold drift; cbn [fst snd].
  - destruct C as (q & Hq & Hp & _ & _ & _ & _ & -> & rem & d1 & _ & _ & L1 & L2). apply logged_same in L1, L2. unfold same_pending in *.
    rewrite L2, L1, gauge_app, (pending_approvals (set_approvals (<[id := _]>) (w_db w))) by done.
    rewrite (pending_update _ _ _ _ Hq). unfold is_pending. rewrite Hp.
    simpl. unfold decided_status. destruct (approves _); simpl; unfold moves; simpl; lia.
  - rewrite app_nil_r. destruct C as [->|(-> & q & Hq & Hp & _ & e1 & e2 & d1 & _ & _ & L1 & L2)]; [by left|right]. split; [done|].
    apply logged_same in L1, L2. unfold same_pending in *. rewrite L2, L1. rewrite <- (keyed_requests _ HK _ _ Hq) in Hq.
    rewrite expiry_rows_pending by done. lia.
Qed.

(** *** A sweep *)

Lemma expire_pending r time e w :
  match expire r time e w with
  | (Ok b, w') => pending (w_db w') = pending (w_db w) - (if b then 1 else 0)
  | (Fail _, w') => w_db w' = w_db w
  end.
Proof.
  unfold expire. unfold bind at 1. destruct (tx_choice _ _ _ e w) as [[outcome|err] w1] eqn:E; [|by apply tx_choice_fail in E].
  apply tx_choice_ok in E as (w0 & w2 & D0 & _ & H & D). apply bind_ok in H as (affected & w3 & H3%wrap_ok & H).
  apply update_if_ok in H3 as [_ H3]. rewrite D0 in H3. destruct affected; simpl in H.
  - destruct H3 as (q & Hq & Hp & D3). apply bind_ok in H as (u & w4 & H4 & H). apply ret_ok in H as [-> ->]. simpl. rewrite D.
    unfold expireRemediationAndAudit in H4. apply bind_ok in H4 as (b2 & w5 & H5%wrap_ok & H4). apply update_if_ok in H5 as [_ H5].
    apply bind_ok in H4 as (? & w6 & [L1%logged_same _]%writeAuditTx_logged & [L2%logged_same _]%writeAuditTx_logged).
    unfold same_pending in *. rewrite L2, L1, (pending_approvals (w_db w3)).
    + rewrite D3, (pending_update _ _ _ _ Hq), Hp. simpl. lia.
    + by destruct b2; [destruct H5 as (rem & _ & _ & ->)|destruct H5 as [-> _]].
  - apply ret_ok in H as [-> ->]. simpl. rewrite D. lia.
Qed.

Lemma expire_all_pending due time e w :
  match expire_all due time e w with
  | (Ok out, w') => pending (w_db w') = pending (w_db w) - Z.of_nat (length out)
  | (Fail _, w') => pending (w_db w') <= pending (w_db w)
  end.
Proof.
  revert w. induction due as [|r due IH]; intros w; simpl; [lia|]. unfold bind. pose proof (expire_pending r time e w) as H.
  destruct (expire r time e w) as [[b|err] w1]; [|rewrite H; lia]. specialize (IH w1).
  destruct (expire_all due time e w1) as [[out|err] w2]; simpl; destruct b; cbn [length]; lia.
Qed.

Lemma ExpireDue_pending time limit e w :
  match ExpireDue time limit e w with
  | (Ok out, w') => pending (w_db w') = pending (w_db w) - Z.of_nat (length out)
  | (Fail _, w') => pending (w_db w') <= pending (w_db w)
  end.
Proof.
  unfold ExpireDue, bind. destruct (wrap _ _ e w) as [[due|err] w1] eqn:E.
  - apply wrap_ok, query_ok in E as (_ & D & _). rewrite <- D. apply expire_all_pending.
  - match type of E with ?m e w = _ => assert (guar eq m) as Hm by (apply guar_wrap, guar_query; apply _) end.
    apply (unchanged _ _ _ _ _ Hm) in E. rewrite E. lia.
Qed.

Lemma emits_each {A} (l : list A) samples e w old :
  exists out, metered_each l (fun _ => emit samples) e (w, old) = (Ok tt, (w, out)) /\ gauge out = gauge old + Z.of_nat (length l) * gauge samples.
Proof.
  revert old. induction l as [|x l IH]; intros old; cbn [metered_each length]; [exists old; split; [done|lia]|].
  destruct (IH (old ++ samples)) as (out & H & G). exists out. split; [exact H|]. rewrite G, gauge_app. lia.
Qed.

(** A sweep whose [ExpireDue] succeeds. *)
Definition swept (e : env) (w : world) : bool := is_ok (ExpireDue (e_now e) 100 e w).1.

Lemma processDue_level s e st :
  drift st <= drift (Counted.processDue s e st).2 /\ (swept e st.1 = true -> drift (Counted.processDue s e st).2 = drift st).
Proof.
  remember (drift (Counted.processDue s e st).2) as x eqn:Hx. revert Hx.
  destruct st as [w l]. unfold Counted.processDue, swept. unfold mbind at 1, quiet at 1, now at 1. unfold mbind at 1, quiet at 1, attempt at 1. cbn [fst snd].
  pose proof (ExpireDue_pending (e_now e) 100 e w) as H. destruct (ExpireDue (e_now e) 100 e w) as [r w1]. cbn [fst snd].
  set (rest := mbind (quiet (attempt (DueEscalations (e_now e) 100))) _).
  assert (level rest) as Hr.
  { apply level_bind; [apply level_quiet, guar_attempt, DueEscalations_guar, _|intros [due|err]; [|done]]. apply level_each. intros. apply escalate_one_level. }
  destruct r as [out|err]; unfold mbind at 1.
  - destruct (emits_each out expired_samples e w1 l) as (l' & -> & G). intros ->. rewrite (Hr e (w1, l')). unfold drift. cbn [fst snd]. rewrite H, G.
    change (gauge expired_samples) with (-1). split; [|intros _]; lia.
  - unfold mret. intros ->. rewrite (Hr e (w1, l)). unfold drift. cbn [fst snd]. split; [lia|done].
Qed.

(** ** Histories

    The calls of the service in any order ([DecideByRemediation] is a read and then
    [Decide]), with whatever other components do to the other tables in between. [true]: no decision came late and every sweep finished. *)

Definition late (r : result Request) : bool := match r with Fail err => bool_decide (err = ErrExpired) | Ok _ => false end.

Inductive served : bool -> world * list Sample -> world * list Sample -> Prop :=
  | sv_request s i a e st : db_approvals (w_db st.1) !! ("apr_" +:+ e_id e (w_tick st.1)) = None ->
      served true st (Counted.RequestApproval s i a e st).2
  | sv_decide s id actor type decision reason source e st :
      served (negb (late (Counted.Decide s id actor type decision reason source e st).1)) st
        (Counted.Decide s id actor type decision reason source e st).2
  | sv_cancel id actor reason e st : served true st (Counted.CancelByRemediation id actor reason e st).2
  | sv_sweep s e st : served (swept e st.1) st (Counted.processDue s e st).2
  | sv_other w w' l : db_approvals (w_db w') = db_approvals (w_db w) -> keeps (w_db w) (w_db w') -> served true (w, l) (w', l).

Inductive history : bool -> world * list Sample -> world * list Sample -> Prop :=
  | hs_start st : history true st st
  | hs_call b c st st1 st2 : served b st st1 -> history c st1 st2 -> history (b && c) st st2.

Lemma erased {A} (m' : Metered A) (m : M A) e st : erases m' m -> guar keeps m -> keeps (w_db st.1) (w_db (m' e st).2.1).
Proof. intros He Hm. specialize (He e st). specialize (Hm e st.1). by rewrite <- He in Hm. Qed.
Lemma served_keeps b st st' : served b st st' -> keeps (w_db st.1) (w_db st'.1).
Proof.
  destruct 1; [..|done].
  - eapply erased; [apply RequestApproval_erases|apply RequestApproval_keeps].
  - eapply erased; [apply Decide_erases|apply Decide_keeps].
  - eapply erased; [apply CancelByRemediation_erases|apply CancelByRemediation_keeps].
  - eapply erased; [apply processDue_erases|apply guar_steady_keeps, processDue_steady].
Qed.
Lemma served_drift b st st' : served b st st' -> keyed (w_db st.1) -> drift st <= drift st' /\ (b = true -> drift st' = drift st).
Proof.
  destruct 1; intros HK.
  - rewrite RequestApproval_level by done. split; [lia|done].
  - pose proof (Decide_level s id actor type decision reason source e st HK) as H.
    destruct (Counted.Decide s id actor type decision reason source e st) as [[out|err] st']; cbn [fst snd late].
    + split; [lia|done].
    + destruct H as [H|[-> H]]; split; try done; lia.
  - rewrite CancelByRemediation_level by done. split; [lia|done].
  - apply processDue_level.
  - unfold drift. cbn [fst snd]. rewrite (pending_approvals (w_db w) (w_db w')) by done. split; [lia|done].
Qed.

(** C28: [ApprovalsPending] against the table it counts, over any history of the
    approval service's calls. As long as no decision arrives after its deadline and
    every sweep finishes, the gauge moves exactly as the number of pending rows does:
    each request is added once, each decision, cancellation and expiry taken off
    once, whatever fails in between. In every history it is at least the number of
    rows, given that it was at the start: the dashboard never hides a pending
    approval. *)
Theorem pending_gauge_follows clean st st' :
  keyed (w_db st.1) -> history clean st st' ->
  gauge st.2 - pending (w_db st.1) <= gauge st'.2 - pending (w_db st'.1) /\
  (clean = true -> gauge st'.2 - gauge st.2 = pending (w_db st'.1) - pending (w_db st.1)).
Proof.
  intros HK H. change (drift st <= drift st' /\ (clean = true -> gauge st'.2 - gauge st.2 = pending (w_db st'.1) - pending (w_db st.1))).
  assert (drift st <= drift st' /\ (clean = true -> drift st' = drift st)) as [H1 H2].
  { induction H as [st|b c st st1 st2 Hs _ IH]; [split; [lia|done]|]. destruct (IH (served_keeps _ _ _ Hs HK)) as [I1 I2].
    destruct (served_drift _ _ _ Hs HK) as [S1 S2]. split; [lia|]. intros [-> ->]%andb_true_iff. by rewrite I2, S2. }
  split; [done|]. intros C. specialize (H2 C). unfold drift in H2. lia.
Qed.

(** The count of [Start] is the number of pending rows. *)
Lemma Start_sets e st st' : Counted.Start e st = (Ok tt, st') ->
  w_db st'.1 = w_db st.1 /\ (st'.2 = st.2 \/ st'.2 = st.2 ++ start_samples (pending (w_db st.1))).
Proof.
  destruct st as [w l]. unfold Counted.Start, mbind, quiet, attempt. cbn [fst snd]. destruct (CountPending e w) as [r w1] eqn:E.
  destruct r as [n|err]; intros [= <-].
  - apply wrap_ok, query_ok in E as (-> & D & _). cbn [fst snd]. split; [done|by right].
  - split; [|by left]. assert (guar eq CountPending) as Hm by (apply guar_wrap, guar_query; apply _). by apply (unchanged _ _ _ _ _ Hm) in E.
Qed.

(** ** A late decision

    The request expires, the approver is told so, and the gauge still counts it; the
    sweep that follows finds nothing due, so nothing takes it off. *)
Definition after_late : result Request * (world * list Sample) :=
  Counted.Decide demo_service "apr_1" "bob" "user" "approve" "looks right" "api" quiet_env (demo_world 0, []).
Example late_decision_leaves_gauge :
  pending (demo_db 0) = 1 /\
  match after_late with
  | (r, (w, l)) => (late r, pending (w_db w), gauge l, swept quiet_env w) = (true, 0, 0, true)
  end.
Proof. split; vm_compute; reflexivity. Qed.

(** A first request, then a sweep that finds nothing due. *)
Definition no_request_db : DB := set_approvals (fun _ => ∅) (demo_db 0).
Lemma no_request_keyed : keyed no_request_db.
Proof. destruct (demo_keyed 0) as [HR _ HJ]. split; [exact HR| |exact HJ]. intros k q Hq. simpl in Hq. by rewrite lookup_empty in Hq. Qed.
Lemma pending_gauge_follows_witness :
  let st := (mkWorld no_request_db 0 [], []) in
  let st1 := (Counted.RequestApproval demo_service demo_incident demo_remediation quiet_env st).2 in
  let st2 := (Counted.processDue demo_service quiet_env st1).2 in
  swept quiet_env st1.1 = true /\ gauge st2.2 = 1 /\ pending (w_db st2.1) = 1.
Proof.
  intros st st1 st2. assert (swept quiet_env st1.1 = true) as S by (vm_compute; reflexivity). assert (gauge st2.2 = 1) as G by (vm_compute; reflexivity).
  split; [exact S|]. split; [exact G|]. destruct (pending_gauge_follows true st st2) as [_ H].
  - exact no_request_keyed.
  - apply (hs_call true true st st1 st2).
    + apply sv_request. apply lookup_empty.
    + apply (hs_call true true st1 st2 st2); [|apply hs_start]. rewrite <- S. exact (sv_sweep demo_service quiet_env st1).
  - specialize (H eq_refl). rewrite G in H. change (1 - 0 = pending (w_db st2.1) - 0) in H. lia.
Defined.
