(* ===== verification/System.v ===== *)
(** * The whole control plane

    The operations of the components as the steps of one system over the shared
    tables, in any order and with any outcome of the environment, and what every
    reachable state satisfies. *)
From Stdlib Require Import Ascii String ZArith Lia.
From stdpp Require Import base gmap strings list relations.
From S2P Require Import Prelude GoStrings GoValue Actions Policy Marshal Ledger Lifecycle Types Database AuditLog Store Progress Approvals Dispatch.
From S2P Require Import Observations Ingestion Http Reports Executors Remediation Helios Workers Auth Transports Requests DeadLetters Api.
Open Scope Z_scope.

(** The components of one deployment, over one database. *)
Record Deployment := mkDeployment {
  dp_server : Server;
  dp_dispatcher : DispatcherConfig;
  dp_runner : Runner;
  dp_helios : HeliosReconcileConfig;
}.
Definition dp_remediation (p : Deployment) : Remediation.Service := sv_remediation (dp_server p).
Definition dp_approvals (p : Deployment) : Approvals.Service := sv_approvals (dp_server p).
Definition dp_incidents (p : Deployment) : ServiceManager := sv_incidents (dp_server p).
Definition dp_analysis (p : Deployment) : RCAService := sv_analysis (dp_server p).

Section system.
Context (p : Deployment).
Notation s := (dp_remediation p).
Notation a := (dp_approvals p).
Notation cfg := (dp_dispatcher p).
Notation r := (dp_runner p).

(** One request to the API, one call of its services, one round of a background loop
    or one message of a worker. *)
Inductive system_step : DB -> DB -> Prop :=
  | step_request req e w : system_step (w_db w) (w_db (Handler (dp_server p) req e w).2)
  | step_propose incident candidates actor role e w :
      system_step (w_db w) (w_db (Propose s incident candidates actor role e w).2)
  | step_approve id actor reason e w : system_step (w_db w) (w_db (Approve s id actor reason e w).2)
  | step_reject id actor reason e w : system_step (w_db w) (w_db (Reject s id actor reason e w).2)
  | step_cancel id actor e w : system_step (w_db w) (w_db (Cancel s id actor e w).2)
  | step_execute id dry actor e w : system_step (w_db w) (w_db (Execute s id dry actor e w).2)
  | step_decide id actor type decision reason source e w :
      system_step (w_db w) (w_db (Decide a id actor type decision reason source e w).2)
  | step_sweep e w : system_step (w_db w) (w_db (processDue e w).2)
  | step_publish e w : system_step (w_db w) (w_db (PublishPending cfg e w).2)
  | step_redispatch id reason actor type metadata e w :
      system_step (w_db w) (w_db (Redispatch cfg id reason actor type metadata e w).2)
  | step_reconcile e w : system_step (w_db w) (w_db (Reconcile cfg e w).2)
  | step_message msg e w : system_step (w_db w) (w_db (handleMessage r msg e w).2)
  | step_late_job name h req e w :
      run_handlers r !! name = Some h -> system_step (w_db w) (w_db (h_execute h req e w).2)
  | step_heartbeat worker e w : system_step (w_db w) (w_db (heartbeat r worker e w).2)
  | step_incident id status e w : system_step (w_db w) (w_db (TransitionIncident id status e w).2)
  | step_audit entry e w : system_step (w_db w) (w_db (Write entry e w).2)
  | step_ingest payload source e w :
      system_step (w_db w) (w_db (IngestAlertmanagerWithResult (dp_incidents p) payload source e w).2)
  | step_manual req actor e w : system_step (w_db w) (w_db (CreateManual req actor e w).2)
  | step_dependency req e w : system_step (w_db w) (w_db (UpsertServiceDependency req e w).2)
  | step_report incident e w : system_step (w_db w) (w_db (ReportForProposal (dp_analysis p) incident e w).2)
  | step_analyse id e w : system_step (w_db w) (w_db (Generate (dp_analysis p) id e w).2)
  | step_summarize incident report top e w : system_step (w_db w) (w_db (summarize (dp_analysis p) incident report top e w).2)
  | step_helios e w : system_step (w_db w) (w_db (ReconcileHelios s (dp_helios p) e w).2).

Notation allow_self := (as_allow_self a).

(** The server is put together as [New] does, and the handlers keep their contract. *)
Record wired : Prop := {
  wired_server : server_wired (dp_server p);
  wired_handlers : forall name h, run_handlers r !! name = Some h -> HandlerContract h;
}.

Context (Hwired : wired).

Lemma system_step_lawful d d' : system_step d d' -> lawful allow_self d d'.
Proof.
  destruct Hwired as [HW HH]. pose proof (sw_executor _ HW) as HX. pose proof (sw_window _ HW) as HS. intros []; try (apply (guar_steady_lawful allow_self); first
    [ apply processDue_steady | apply PublishPending_steady | apply Redispatch_steady | apply Reconcile_steady
    | by apply handleMessage_steady | apply heartbeat_steady | apply TransitionIncident_steady | apply Write_steady
    | by apply Execute_steady | by apply Ingest_steady | apply CreateManual_steady | apply UpsertServiceDependency_steady
    | apply ReportForProposal_steady | apply Generate_steady | apply summarize_steady ]).
  - by apply Handler_lawful.
  - apply Propose_lawful.
  - by apply (decide_by_remediation_lawful (dp_server p)).
  - by apply (decide_by_remediation_lawful (dp_server p)).
  - apply Cancel_lawful.
  - apply Decide_lawful.
  - apply (guar_steady_lawful allow_self). apply (@hc_execute h). by eapply HH.
  - intros HA'. eapply steady_lawful, HA'. apply ReconcileHelios_steady. apply HA'.
Qed.

Lemma reachable_lawful d d' : rtc system_step d d' -> lawful allow_self d d'.
Proof. induction 1 as [d|d d1 d2 H1 _ IH]; [reflexivity|]. etrans; [by apply system_step_lawful|exact IH]. Qed.

End system.

(** No remediation was proposed yet. *)
Record fresh (d : DB) : Prop := {
  fresh_remediations : db_remediations d = ∅;
  fresh_approvals : db_approvals d = ∅;
  fresh_dispatches : db_dispatches d = ∅;
}.

Lemma fresh_authority allow d : fresh d -> authority allow d.
Proof.
  intros [HR HQ HD]. split; [split; [..|intros k x]|..]; try intros k x; rewrite ?HR, ?HQ, ?HD, lookup_empty; discriminate.
Qed.

(** ** Properties *)

(** C1: nothing runs without authority. In every state reachable from one without
    proposals, by any sequence of calls and failures, a remediation that is
    approved, queued, running, succeeded or failed only collects diagnostics, or
    an approval request for exactly its action, target and parameters was granted
    to it by a named person, recorded as its approver, who is not its proposer
    unless self approval is configured. *)
Theorem no_unauthorised_execution p d0 d id rem :
  wired p -> fresh d0 -> rtc (system_step p) d0 d ->
  db_remediations d !! id = Some rem ->
  rem_status rem ∈ [Rem.StateApproved; Rem.StateQueued; Rem.StateRunning; Rem.StateSucceeded; Rem.StateFailed] ->
  rem_action_type rem = CollectDiagnostics \/
  exists k q, db_approvals d !! k = Some q /\ req_remediation_id q = id /\ req_status q = StatusApproved /\
    req_action_type q = rem_action_type rem /\ req_target q = rem_target rem /\ req_parameters q = rem_parameters rem /\
    rem_approved_by rem = req_decided_by q /\ TrimSpace (rem_approved_by rem) <> "" /\ rem_approved_by rem <> "system" /\
    (as_allow_self (dp_approvals p) = false -> EqualFold (TrimSpace (rem_proposed_by rem)) (TrimSpace (rem_approved_by rem)) = false).
Proof.
  intros HW HF HR Hr Hs. destruct (reachable_lawful _ HW _ _ HR (fresh_authority _ _ HF)) as [_ [HK HM HQ HA HG]].
  destruct (HG _ _ Hr (proj2 (has_status_elem _ _) Hs)) as [|(k & q & Hq & Hi & Hst & Hby)]; [by left|right].
  destruct (HQ _ _ Hq) as (rem' & Hr' & [S1 S2 S3 S4]). rewrite Hi in Hr'. assert (rem' = rem) as -> by congruence.
  destruct (HA _ _ Hq Hst) as [B1 B2 B3]. exists k, q. rewrite Hby, <- S1. by split_and!.
Qed.

(** C8: history is never rewritten. Between any two reachable states, rows are
    kept: a remediation keeps its action, target, parameters, risk, proposer and
    policy decision and moves along the lifecycle; a decided approval keeps its
    decision; an incident moves along its lifecycle; receipts and services stay; the
    findings of a report stay; and the audit ledger, the signals and the timeline of
    the earlier state are prefixes of the later one's. *)
Theorem history_preserved p d0 d d' :
  wired p -> fresh d0 -> rtc (system_step p) d0 d -> rtc (system_step p) d d' ->
  (forall id x, db_remediations d !! id = Some x -> exists x', db_remediations d' !! id = Some x' /\ same_action x x' /\
     rtc life_step (rem_status x) (rem_status x')) /\
  (forall id q, db_approvals d !! id = Some q -> req_status q <> StatusPending ->
     exists q', db_approvals d' !! id = Some q' /\ decision_of q' = decision_of q) /\
  (forall id i, db_incidents d !! id = Some i -> exists i', db_incidents d' !! id = Some i' /\ rtc Inc.step (inc_status i) (inc_status i')) /\
  db_receipts d ⊆ db_receipts d' /\ db_audit d `prefix_of` db_audit d' /\ ob_services (db_observed d) ⊆ ob_services (db_observed d') /\
  ob_signals (db_observed d) `prefix_of` ob_signals (db_observed d') /\ ob_timeline (db_observed d) `prefix_of` ob_timeline (db_observed d') /\
  (forall id x, ob_reports (db_observed d) !! id = Some x -> exists x', ob_reports (db_observed d') !! id = Some x' /\ same_report x x').
Proof.
  intros HW HF H0 H. destruct (reachable_lawful _ HW _ _ H0 (fresh_authority _ _ HF)) as [_ HA].
  destruct (reachable_lawful _ HW _ _ H HA) as [[HR HI HQ HD HC HL _ HO _] _].
  split_and!; [exact HR| |intros id i (i' & ? & ?)%HI; exists i'; split; [done|by apply im_status]|exact HC|exact HL|apply HO..].
  intros id q Hq Hn. destruct (HQ _ _ Hq) as (q' & Hq' & _ & Hd). exists q'. auto.
Qed.

(** C7: the ledger never forks, skips or loses its end. Started on a ledger that holds the
    entries [written], every reachable state's ledger holds those and more: its rows are
    numbered from one without a gap, each carries the hash of the row before it, and was
    sealed from the entry it records, and the persisted head is the last row's; whatever
    failed, and between whichever writers. If the columns kept every entry as it was
    written, the verification of that state, when its reads succeed, finds it valid. *)
Theorem ledger_sealed_everywhere p d0 d written :
  wired p -> fresh d0 -> ledger_from written d0 -> rtc (system_step p) d0 d ->
  exists more position hash, db_chain d = Some (position, hash) /\ position = Z.of_nat (length (db_audit d)) /\
    sealed (written ++ more) 0 GenesisHash (db_audit d) position hash /\
    hash = match last (db_audit d) with Some row => row_hash row | None => GenesisHash end /\
    (forall i row, db_audit d !! i = Some row -> row_position row = Z.of_nat i + 1 /\
       row_previous row = match i with O => GenesisHash | S j => match db_audit d !! j with Some before => row_hash before | None => "" end end) /\
    (Forall kept_as_written (written ++ more) -> forall e w report w', w_db w = d -> Verify e w = (Ok report, w') ->
       ver_valid report = true /\ ver_entries report = position).
Proof.
  intros HW HF HL H. destruct (reachable_lawful _ HW _ _ H (fresh_authority _ _ HF)) as [HP _].
  destruct (pg_ledger _ _ HP _ HL) as (more & position & hash & HC & HS). exists more, position, hash.
  pose proof (sealed_length _ _ _ _ _ _ HS) as Hn. split; [done|]. split; [lia|]. split; [done|]. split; [by apply sealed_last in HS|].
  split; [intros i row Hi; pose proof (sealed_rows _ _ _ _ _ _ HS _ _ Hi) as [? ?]; split; [lia|done]|].
  intros HK e w report w' <- HV. apply Verify_run in HV as [? ->]; [split; [done|lia]|]. exists position, hash.
  split; [done|]. eapply sealed_linked; [done|apply genesis_valid|exact HS].
Qed.

(** C19: references and names stay sound. From tables whose references are sound, every
    reachable state has each incident filed under its id with a known service, each alert
    under its key on a known incident, services with their own ids and distinct names,
    and no alert of a cleared incident that fired after it was cleared. *)
Theorem references_stay_sound p d0 d :
  wired p -> fresh d0 -> context_ok d0 -> rtc (system_step p) d0 d ->
  (forall id i, db_incidents d !! id = Some i -> inc_id i = id /\ is_Some (ob_services (db_observed d) !! inc_service_id i)) /\
  (forall id key x, ob_alerts (db_observed d) !! (id, key) = Some x -> ia_dedupe_key x = key /\ is_Some (db_incidents d !! id)) /\
  (forall id1 id2 svc1 svc2, ob_services (db_observed d) !! id1 = Some svc1 -> ob_services (db_observed d) !! id2 = Some svc2 ->
     svc_name svc1 = svc_name svc2 -> id1 = id2) /\
  (forall id i t key x, db_incidents d !! id = Some i -> inc_alerts_cleared_at i = Some t ->
     ob_alerts (db_observed d) !! (id, key) = Some x -> ia_status x = "firing" -> ia_last_seen_at x < t).
Proof.
  intros HW HF HC H. destruct (reachable_lawful _ HW _ _ H (fresh_authority _ _ HF)) as [HP _].
  apply (pg_context _ _ HP) in HC as [CI CA CS CN CQ]. by split_and!.
Qed.

(** States from which the table offers no step. *)
Definition settled : list string :=
  [Rem.StatePolicyBlocked; Rem.StateRejected; Rem.StateSucceeded; Rem.StateTimedOut; Rem.StateCancelled].

Lemma settled_stuck x y : x ∈ settled -> rtc life_step x y -> y = x.
Proof.
  intros Hx. induction 1 as [x|x y z Hxy _ IH]; [done|]. assert (y = x) as ->; [|by apply IH].
  assert (forallb (fun x => bool_decide (Rem.allowed x = []) && negb (x =?s Rem.StateQueued)) settled = true) as C by (vm_compute; reflexivity).
  apply (forallb_elem _ _ _ C), andb_true_iff in Hx as [Hx Hq]. reflect_tests. destruct Hxy as [Ht%rem_CanTransition_spec|[? _]]; [|done].
  destruct Ht as [->|Ht]; [done|]. rewrite Hx in Ht. by apply elem_of_nil in Ht.
Qed.

(** C21: a settled remediation stays settled. Once a remediation is blocked by
    policy, rejected, cancelled, timed out or succeeded, its status is the same in
    every later state: no late worker, retry or operator call revives it. *)
Theorem settled_forever p d0 d d' id rem :
  wired p -> fresh d0 -> rtc (system_step p) d0 d -> rtc (system_step p) d d' ->
  db_remediations d !! id = Some rem -> rem_status rem ∈ settled ->
  exists rem', db_remediations d' !! id = Some rem' /\ rem_status rem' = rem_status rem.
Proof.
  intros HW HF H0 H Hr Hs. destruct (reachable_lawful _ HW _ _ H0 (fresh_authority _ _ HF)) as [_ HA].
  destruct (reachable_lawful _ HW _ _ H HA) as [HP _]. destruct (pg_remediations _ _ HP _ _ Hr) as (rem' & Hr' & _ & Hl).
  exists rem'. split; [done|]. by apply settled_stuck.
Qed.

(** ** Witnesses *)

Definition demo_deployment : Deployment :=
  mkDeployment (demo_server RoleOperator) DefaultDispatcherConfig worker DefaultHeliosReconcileConfig.

Lemma demo_wired : wired demo_deployment.
Proof.
  split; [split|intros name h; apply NewRunner_contract, DefaultHandlers_contract, _].
  - intros x [= <-]. reflexivity.
  - vm_compute. reflexivity.
  - apply _.
  - vm_compute. discriminate.
Qed.

Definition start_db : DB := mkDB {["inc_1" := demo_incident]} ∅ ∅ ∅ ∅ ∅ ∅ [] (Some (0, GenesisHash)) demo_observed.
Definition start : world := mkWorld start_db 0 [].
Lemma start_fresh : fresh (w_db start).
Proof. by split. Qed.

Definition demo_step : DB -> DB -> Prop := system_step demo_deployment.

Definition proposed_world : world := (Propose local_service demo_incident [restart_candidate] "alice" "operator" quiet_env start).2.
Definition demo_id : string := default "" (head (map_to_list (db_remediations (w_db proposed_world))).*1).
Definition approved_after : world := (Approve local_service demo_id "bob" "looks right" quiet_env proposed_world).2.
(** The proposer withdraws the action before it is decided. *)
Definition cancelled_world : world := (Cancel local_service demo_id "alice" quiet_env proposed_world).2.
Definition late_world : world := (Execute local_service demo_id false "carol" quiet_env cancelled_world).2.

Lemma demo_propose : demo_step (w_db start) (w_db proposed_world).
Proof.
  exact (step_propose demo_deployment demo_incident [restart_candidate] "alice" "operator" quiet_env start).
Qed.
Lemma demo_approve : demo_step (w_db proposed_world) (w_db approved_after).
Proof.
  exact (step_approve demo_deployment demo_id "bob" "looks right" quiet_env proposed_world).
Qed.
Lemma demo_cancel : demo_step (w_db proposed_world) (w_db cancelled_world).
Proof. exact (step_cancel demo_deployment demo_id "alice" quiet_env proposed_world). Qed.
Lemma demo_execute : demo_step (w_db cancelled_world) (w_db late_world).
Proof. exact (step_execute demo_deployment demo_id false "carol" quiet_env cancelled_world). Qed.

Lemma demo_approved :
  match db_remediations (w_db approved_after) !! demo_id with
  | Some rem => rem_status rem = Rem.StateApproved /\ rem_action_type rem = RestartService
  | None => False
  end.
Proof. vm_compute. split; reflexivity. Qed.

Lemma no_unauthorised_execution_witness :
  exists rem k q, db_remediations (w_db approved_after) !! demo_id = Some rem /\ rem_status rem = Rem.StateApproved /\
    db_approvals (w_db approved_after) !! k = Some q /\ rem_approved_by rem = req_decided_by q /\
    EqualFold (TrimSpace (rem_proposed_by rem)) (TrimSpace (rem_approved_by rem)) = false.
Proof.
  pose proof demo_approved as O. destruct (db_remediations (w_db approved_after) !! demo_id) as [rem|] eqn:E; [|contradiction O].
  destruct O as [Os Oa].
  destruct (no_unauthorised_execution _ _ _ _ _ demo_wired start_fresh
      (rtc_l _ _ _ _ demo_propose (rtc_once _ _ demo_approve)) E) as [H|(k & q & Hq & _ & _ & _ & _ & _ & Hb & _ & _ & Hx)].
  - rewrite Os. apply list_elem_of_here.
  - rewrite Oa in H. discriminate H.
  - exists rem, k, q. split; [reflexivity|]. split; [exact Os|]. split; [exact Hq|]. split; [exact Hb|]. apply Hx. reflexivity.
Defined.

Lemma history_preserved_witness : db_audit (w_db proposed_world) `prefix_of` db_audit (w_db approved_after).
Proof.
  exact (proj1 (proj2 (proj2 (proj2 (proj2 (history_preserved _ _ _ _ demo_wired start_fresh
    (rtc_once _ _ demo_propose) (rtc_once _ _ demo_approve))))))).
Defined.

Lemma start_ledger : ledger_from [] (w_db start).
Proof. exists 0, GenesisHash. split; [reflexivity|constructor]. Qed.

Lemma ledger_sealed_everywhere_witness :
  exists more position hash, db_chain (w_db approved_after) = Some (position, hash) /\
    sealed ([] ++ more) 0 GenesisHash (db_audit (w_db approved_after)) position hash.
Proof.
  destruct (ledger_sealed_everywhere _ _ _ _ demo_wired start_fresh start_ledger (rtc_l _ _ _ _ demo_propose (rtc_once _ _ demo_approve)))
    as (more & position & hash & HC & _ & HS & _). exists more, position, hash. split; [exact HC|exact HS].
Defined.

Lemma demo_cancelled :
  match db_remediations (w_db cancelled_world) !! demo_id with Some rem => rem_status rem = Rem.StateCancelled | None => False end.
Proof. vm_compute. reflexivity. Qed.

Lemma settled_forever_witness :
  exists rem', db_remediations (w_db late_world) !! demo_id = Some rem' /\ rem_status rem' = Rem.StateCancelled.
Proof.
  pose proof demo_cancelled as O. destruct (db_remediations (w_db cancelled_world) !! demo_id) as [rem|] eqn:E; [|contradiction O].
  destruct (settled_forever _ _ _ _ demo_id rem demo_wired start_fresh (rtc_l _ _ _ _ demo_propose (rtc_once _ _ demo_cancel))
    (rtc_once _ _ demo_execute) E) as (rem' & Hr & Hs).
  - rewrite O. apply (bool_decide_eq_true_1 _). vm_compute. reflexivity.
  - exists rem'. split; [exact Hr|]. rewrite Hs. exact O.
Defined.

Definition alerted_world : world :=
  (IngestAlertmanagerWithResult (dp_incidents demo_deployment) (demo_payload "firing") "alertmanager" quiet_env start).2.

Lemma start_context : context_ok (w_db start).
Proof.
  split; simpl.
  - intros id i [<- <-]%lookup_singleton_Some. split; [done|]. rewrite lookup_singleton_eq. by eexists.
  - intros id key x. by rewrite lookup_empty.
  - by intros id svc [<- <-]%lookup_singleton_Some.
  - by intros id1 id2 svc1 svc2 [<- <-]%lookup_singleton_Some [<- <-]%lookup_singleton_Some.
  - by intros id i t key x [<- <-]%lookup_singleton_Some.
Qed.

Lemma demo_ingest : demo_step (w_db start) (w_db alerted_world).
Proof. exact (step_ingest demo_deployment (demo_payload "firing") "alertmanager" quiet_env start). Qed.

Example alerts_stored : size (ob_alerts (db_observed (w_db alerted_world))) = 2%nat.
Proof. vm_compute. reflexivity. Qed.

Definition stored_alert : string * string * IncidentAlert :=
  default ("", "", mkIncidentAlert "" "" "" "" 0 0 None) (head (map_to_list (ob_alerts (db_observed (w_db alerted_world))))).

Lemma stored_alert_found :
  ob_alerts (db_observed (w_db alerted_world)) !! stored_alert.1 = Some stored_alert.2.
Proof. vm_compute. reflexivity. Qed.

Lemma references_stay_sound_witness :
  ia_dedupe_key stored_alert.2 = stored_alert.1.2 /\ is_Some (db_incidents (w_db alerted_world) !! stored_alert.1.1).
Proof.
  generalize stored_alert_found. generalize stored_alert. intros [[id key] x].
  exact (proj1 (proj2 (references_stay_sound _ _ _ demo_wired start_fresh start_context (rtc_once _ _ demo_ingest))) id key x).
Defined.
