(* ===== verification/Pool.v ===== *)
(** * The intake loop of a worker ([internal/workers/runner.go], [Start])

    A worker prepares the durable consumer, then pulls jobs into a fixed number of slots
    until it is told to stop, and waits for what it started. The loop, its goroutines and
    the shutdown are the steps of one machine; a job's whole handling is one step. *)
From Stdlib Require Import Ascii String ZArith Lia.
From stdpp Require Import base gmap strings list relations.
From S2P Require Import Prelude GoStrings Types Database AuditLog Approvals Dispatch Workers DeadLetters Api System.
Open Scope Z_scope.

(** ** The consumer *)

Definition WorkerConsumer : string := "argus-remediation-workers".
Definition legacyConsumers : list string := ["argus-worker"; "argus-workers"].

Record ConsumerConfig := mkConsumerConfig {
  cc_durable : string;
  cc_filter_subject : string;
  cc_ack_policy : string;
  cc_ack_wait : Z;
  cc_max_deliver : Z;
  cc_max_ack_pending : Z;
  cc_deliver_policy : string;
}.
Definition consumer_config (r : Runner) : ConsumerConfig :=
  mkConsumerConfig WorkerConsumer RemediationSubject "explicit" (consumer_ack_wait (run_cfg r)) (MaxDeliver (run_cfg r)) 256 "all".

(** The calls on consumers; [false] is JetStream's answer that there is no such consumer
    or, for [cn_add], that the name is taken. *)
Record Consumers := mkConsumers {
  cn_delete : nat -> string -> string -> result bool;
  cn_info : nat -> string -> string -> result bool;
  cn_add : nat -> string -> ConsumerConfig -> result bool;
  cn_update : nat -> string -> ConsumerConfig -> result unit;
  cn_subscribe : nat -> string -> string -> result unit;
}.

Definition remove_legacy (cn : Consumers) (name : string) : M unit :=
  wrap ("remove legacy consumer " +:+ name) (call (fun n => cn_delete cn n RemediationStream name)) ;;; ret tt.

Definition ensureConsumer (cn : Consumers) (r : Runner) : M unit :=
  for_each legacyConsumers (remove_legacy cn) ;;;
  let want := consumer_config r in
  found <- wrap "inspect worker consumer" (call (fun n => cn_info cn n RemediationStream WorkerConsumer)) ;;
  if (found : bool) then wrap "update worker consumer" (call (fun n => cn_update cn n RemediationStream want))
  else wrap "create worker consumer" (call (fun n => cn_add cn n RemediationStream want)) ;;; ret tt.

(** [Start] up to its loop. *)
Definition prepare_intake (js : JetStream) (cn : Consumers) (r : Runner) : M unit :=
  EnsureStreams js ;;;
  ensureConsumer cn r ;;;
  wrap "subscribe remediation.execute" (call (fun n => cn_subscribe cn n RemediationSubject WorkerConsumer)).

(** ** The loop *)

(** Where the loop is: at its head; waiting for a slot; inside [Fetch]; pausing after an
    error; handing the messages it got to goroutines; waiting for the jobs to end; back
    from [Start], with all jobs done or because the wait was over. *)
Inductive phase :=
  | Polling
  | Full
  | Fetching (free : nat)
  | Pausing
  | Starting (rest : list Msg)
  | Draining
  | Returned (drained : bool).

(** [po_running] hold a slot; [po_leaving] gave it back and have yet to be counted out of
    [inflight]. [po_fetched] and [po_finished] are the history. *)
Record Pool := mkPool {
  po_phase : phase;
  po_stopped : bool;
  po_running : list Msg;
  po_leaving : nat;
  po_fetched : list Msg;
  po_finished : list Msg;
}.
Definition idle_pool : Pool := mkPool Polling false [] 0 [] [].
Definition at_phase (ph : phase) (s : Pool) : Pool :=
  mkPool ph (po_stopped s) (po_running s) (po_leaving s) (po_fetched s) (po_finished s).

Section pool.
Context (r : Runner).

Definition slots : nat := Z.to_nat (Concurrency (run_cfg r)).

(** [Fetch] of a batch gives at most that many messages. *)
Inductive pool_step : Pool * world -> Pool * world -> Prop :=
  | pool_stop s w : po_stopped s = false ->
      pool_step (s, w) (mkPool (po_phase s) true (po_running s) (po_leaving s) (po_fetched s) (po_finished s), w)
  | pool_leave s w : po_phase s = Polling -> po_stopped s = true -> pool_step (s, w) (at_phase Draining s, w)
  | pool_full s w : po_phase s = Polling -> po_stopped s = false -> (slots - length (po_running s) = 0)%nat ->
      pool_step (s, w) (at_phase Full s, w)
  | pool_fetch s w : po_phase s = Polling -> po_stopped s = false -> (slots - length (po_running s) <> 0)%nat ->
      pool_step (s, w) (at_phase (Fetching (slots - length (po_running s))) s, w)
  | pool_freed s w : po_phase s = Full -> (length (po_running s) < slots)%nat \/ po_stopped s = true ->
      pool_step (s, w) (at_phase Polling s, w)
  | pool_timeout s w free : po_phase s = Fetching free -> pool_step (s, w) (at_phase Polling s, w)
  | pool_error s w free : po_phase s = Fetching free ->
      pool_step (s, w) (at_phase (if po_stopped s then Draining else Pausing) s, w)
  | pool_batch s w free msgs : po_phase s = Fetching free -> (length msgs <= free)%nat ->
      pool_step (s, w) (mkPool (Starting msgs) (po_stopped s) (po_running s) (po_leaving s) (po_fetched s ++ msgs) (po_finished s), w)
  | pool_resume s w : po_phase s = Pausing -> pool_step (s, w) (at_phase Polling s, w)
  | pool_start s w msg rest : po_phase s = Starting (msg :: rest) -> (length (po_running s) < slots)%nat ->
      pool_step (s, w) (mkPool (Starting rest) (po_stopped s) (msg :: po_running s) (po_leaving s) (po_fetched s) (po_finished s), w)
  | pool_started s w : po_phase s = Starting [] -> pool_step (s, w) (at_phase Polling s, w)
  | pool_finish s w l1 msg l2 e : po_running s = l1 ++ msg :: l2 ->
      pool_step (s, w) (mkPool (po_phase s) (po_stopped s) (l1 ++ l2) (S (po_leaving s)) (po_fetched s) (msg :: po_finished s),
                        (handleMessage r msg e w).2)
  | pool_done s w n : po_leaving s = S n ->
      pool_step (s, w) (mkPool (po_phase s) (po_stopped s) (po_running s) n (po_fetched s) (po_finished s), w)
  | pool_drained s w : po_phase s = Draining -> po_running s = [] -> po_leaving s = 0%nat ->
      pool_step (s, w) (at_phase (Returned true) s, w)
  | pool_gave_up s w : po_phase s = Draining -> pool_step (s, w) (at_phase (Returned false) s, w).

(** ** Invariant *)

Definition waiting (ph : phase) : list Msg := match ph with Starting rest => rest | _ => [] end.
(** The slots the phase has in hand. *)
Definition reserved (ph : phase) : nat := match ph with Starting rest => length rest | Fetching free => free | _ => 0 end.
Definition after_stop (ph : phase) : bool := match ph with Draining | Returned _ => true | _ => false end.

Record pool_ok (s : Pool) : Prop := {
  ok_slots : (length (po_running s) + reserved (po_phase s) <= slots)%nat;
  ok_once : po_fetched s ≡ₚ waiting (po_phase s) ++ po_running s ++ po_finished s;
  ok_fetching : forall free, po_phase s = Fetching free -> free <> 0%nat;
  ok_stopped : after_stop (po_phase s) = true -> po_stopped s = true;
  ok_drained : po_phase s = Returned true -> po_running s = [] /\ po_leaving s = 0%nat;
}.

Lemma idle_ok : pool_ok idle_pool.
Proof. split; simpl; try done. lia. Qed.

(** The goals of a step: the phase it starts from is known. *)
Ltac in_phase :=
  unfold at_phase in *; simpl in *;
  repeat match goal with H : po_phase _ = _ |- _ => rewrite H in * | H : po_running _ = _ ++ _ |- _ => rewrite H in * end; simpl in *.

Lemma pool_step_ok x y : pool_step x y -> pool_ok x.1 -> pool_ok y.1.
Proof.
  destruct 1; intros [O1 O2 O3 O4 O5]; in_phase; try (destruct (po_stopped s) eqn:?); split; simpl; try done; try lia; eauto; try (intros ? [= <-]; lia).
  - by rewrite O2, (Permutation_app_comm _ msgs).
  - by rewrite O2, (Permutation_app_comm _ msgs).
  - by rewrite O2, Permutation_middle.
  - by rewrite O2, Permutation_middle.
  - rewrite length_app in *. simpl in O1. lia.
  - rewrite O2. f_equiv. by rewrite <- !Permutation_middle.
  - intros [HR _]%O5. by destruct l1.
  - rewrite length_app in *. simpl in O1. lia.
  - rewrite O2. f_equiv. by rewrite <- !Permutation_middle.
  - intros [HR _]%O5. by destruct l1.
  - intros [_ H1]%O5. congruence.
  - intros [_ H1]%O5. congruence.
Qed.

Lemma pool_reachable_ok x y : rtc pool_step x y -> pool_ok x.1 -> pool_ok y.1.
Proof. induction 1; eauto using pool_step_ok. Qed.

(** ** Stopping *)

(** How many steps can follow once the worker was told to stop. *)
Definition phase_weight (ph : phase) : nat :=
  match ph with
  | Returned _ => 0
  | Draining => 1
  | Polling => 2
  | Full | Pausing => 3
  | Starting rest => 3 + 3 * length rest
  | Fetching free => 4 + 3 * free
  end.
Definition steps_left (s : Pool) : nat := phase_weight (po_phase s) + 2 * length (po_running s) + po_leaving s.

Lemma stopped_step x y : pool_step x y -> po_stopped x.1 = true -> po_stopped y.1 = true /\ (steps_left y.1 < steps_left x.1)%nat.
Proof.
  unfold steps_left. destruct 1; in_phase; intros HS; rewrite ?HS in *; try done; simpl; rewrite ?length_app; simpl; split; try done; lia.
Qed.

(** What it may still fetch. *)
Definition asked (ph : phase) : nat := match ph with Fetching free => free | _ => 0 end.
Lemma stopped_fetch x y : pool_step x y -> po_stopped x.1 = true ->
  (length (po_fetched y.1) + asked (po_phase y.1) <= length (po_fetched x.1) + asked (po_phase x.1))%nat.
Proof. destruct 1; in_phase; intros HS; rewrite ?HS in *; try done; simpl; rewrite ?length_app; try lia. Qed.

Lemma stopped_steps n x y : nsteps pool_step n x y -> po_stopped x.1 = true ->
  (n + steps_left y.1 <= steps_left x.1)%nat /\ (length (po_fetched y.1) <= length (po_fetched x.1) + asked (po_phase x.1))%nat.
Proof.
  induction 1 as [x|n x y z Hxy _ IH]; intros HS; [lia|]. destruct (stopped_step _ _ Hxy HS) as [HS' HL].
  pose proof (stopped_fetch _ _ Hxy HS). destruct (IH HS'). lia.
Qed.

(** While the loop has not returned, or a job runs, something can happen. *)
Lemma pool_progress s w : pool_ok s -> (forall y, ~ pool_step (s, w) y) -> (exists b, po_phase s = Returned b) /\ po_running s = [] /\ po_leaving s = 0%nat.
Proof.
  intros [O1 _ _ _ _] HN.
  assert (po_running s = []) as HR.
  { destruct (po_running s) as [|msg l] eqn:E; [done|]. destruct (HN _ (pool_finish s w [] msg l quiet_env E)). }
  assert (po_leaving s = 0%nat) as HL by (destruct (po_leaving s) eqn:E; [done|destruct (HN _ (pool_done s w _ E))]).
  split_and!; [|done..]. destruct (po_phase s) as [| |free| |[|msg rest]| |b] eqn:E; [..|by exists b]; exfalso.
  - destruct (po_stopped s) eqn:ES; [by eapply HN, pool_leave|].
    destruct (decide (slots - length (po_running s) = 0)%nat); [by eapply HN, pool_full|by eapply HN, pool_fetch].
  - destruct (po_stopped s) eqn:ES; [eapply HN, pool_freed; auto|by eapply HN, pool_stop].
  - by eapply HN, pool_timeout.
  - by eapply HN, pool_resume.
  - by eapply HN, pool_started.
  - rewrite HR in O1. simpl in O1. eapply HN, pool_start; [done|]. rewrite HR. simpl. lia.
  - by eapply HN, pool_gave_up.
Qed.
End pool.

(** ** Properties *)

(** C22: a worker never takes more than it can run, and runs each job it took once. In every
    state of the intake loop, at most [Concurrency] jobs hold a slot, also counting those
    it is asking for or about to start, so handing over a job never blocks; the messages
    it fetched are, as often as it fetched them, those not yet started, those running and
    those finished; and it returns saying that all is done only when nothing is in flight. *)
Theorem worker_pool_bounded r w s w' :
  rtc (pool_step r) (idle_pool, w) (s, w') ->
  (length (po_running s) <= slots r)%nat /\
  (forall msg rest, po_phase s = Starting (msg :: rest) -> (length (po_running s) < slots r)%nat) /\
  po_fetched s ≡ₚ waiting (po_phase s) ++ po_running s ++ po_finished s /\
  (po_phase s = Returned true -> po_fetched s ≡ₚ po_finished s).
Proof.
  intros H. apply pool_reachable_ok in H; [|apply idle_ok]. destruct H as [O1 O2 _ _ O5]. simpl in *. split_and!; [lia| |done|].
  - intros msg rest E. rewrite E in O1. simpl in O1. lia.
  - intros E. destruct (O5 E) as [HR _]. by rewrite O2, E, HR.
Qed.

(** C23: a worker that is told to stop comes to rest. From any state of its loop in which it
    was told to stop, only so many steps can follow, whatever JetStream answers and
    however the jobs interleave; it takes at most the one batch it was asking for; and
    the only states in which nothing more can happen are those in which it returned and
    no job is left. *)
Theorem stopping_worker_rests r w s w' n s' w'' :
  rtc (pool_step r) (idle_pool, w) (s, w') -> po_stopped s = true -> nsteps (pool_step r) n (s, w') (s', w'') ->
  (n <= steps_left s)%nat /\ (steps_left s <= 4 + 3 * slots r + po_leaving s)%nat /\
  (length (po_fetched s') <= length (po_fetched s) + asked (po_phase s))%nat /\
  ((forall y, ~ pool_step r (s', w'') y) -> (exists b, po_phase s' = Returned b) /\ po_running s' = [] /\ po_leaving s' = 0%nat).
Proof.
  intros H HS HN. apply pool_reachable_ok in H as HO; [|apply idle_ok]. split_and!.
  - apply stopped_steps in HN as [HN _]; [|done]. simpl in HN. lia.
  - destruct HO as [O1 _ _ _ _]. unfold steps_left, reserved in *. simpl in *. destruct (po_phase s); simpl; lia.
  - by apply stopped_steps in HN as [_ HN].
  - apply pool_progress. apply (pool_reachable_ok r (s, w') (s', w'')); [|done]. apply rtc_nsteps. by exists n.
Qed.

(** The worker's loop stays within the system. Whatever its loop does to the tables is
    a sequence of the system's steps, so that what holds in every reachable state of the
    system holds at every moment of every worker. *)
Theorem pool_refines_system p x y :
  rtc (pool_step (dp_runner p)) x y -> rtc (system_step p) (w_db x.2) (w_db y.2).
Proof.
  induction 1 as [x|x y z Hxy _ IH]; [reflexivity|]. etrans; [|exact IH].
  destruct Hxy; simpl; try reflexivity. apply rtc_once. exact (step_message p msg e w).
Qed.

(** ** A run: one job is pulled, the worker is stopped, and waits for it *)

Definition started_pool : Pool := mkPool (Starting []) false [demo_message] 0 [demo_message] [].
Definition stopped_pool : Pool := mkPool (Starting []) true [demo_message] 0 [demo_message] [].
Definition rested_pool : Pool := mkPool (Returned true) true [] 0 [demo_message] [demo_message].
Definition worked : world := (handleMessage worker demo_message quiet_env queued_world).2.

Lemma demo_start : rtc (pool_step worker) (idle_pool, queued_world) (started_pool, queued_world).
Proof.
  eapply rtc_l; [apply pool_fetch; [done|done|vm_compute; discriminate]|].
  eapply rtc_l; [apply (pool_batch _ _ _ 4 [demo_message]); [done|simpl; lia]|].
  apply rtc_once. exact (pool_start worker (mkPool (Starting [demo_message]) false [] 0 [demo_message] []) queued_world demo_message [] eq_refl
    (Nat.lt_0_succ 3)).
Qed.
Lemma demo_stop : pool_step worker (started_pool, queued_world) (stopped_pool, queued_world).
Proof. by apply pool_stop. Qed.
Lemma demo_rest : nsteps (pool_step worker) 5 (stopped_pool, queued_world) (rested_pool, worked).
Proof.
  eapply nsteps_l; [by apply pool_started|]. eapply nsteps_l; [by apply (pool_finish _ _ _ [] demo_message [] quiet_env)|].
  eapply nsteps_l; [by apply (pool_done _ _ _ 0)|]. eapply nsteps_l; [by apply pool_leave|]. apply nsteps_once. by apply pool_drained.
Qed.
Lemma demo_stopped : rtc (pool_step worker) (idle_pool, queued_world) (stopped_pool, queued_world).
Proof. exact (rtc_r _ _ _ demo_start demo_stop). Qed.

Lemma worker_pool_bounded_witness : (length (po_running started_pool) <= slots worker)%nat /\ po_running started_pool = [demo_message].
Proof. split; [exact (proj1 (worker_pool_bounded worker queued_world started_pool queued_world demo_start))|reflexivity]. Defined.

Lemma stopping_worker_rests_witness : (5 <= steps_left stopped_pool)%nat /\ po_finished rested_pool = [demo_message].
Proof.
  split; [|reflexivity]. exact (proj1 (stopping_worker_rests worker queued_world stopped_pool queued_world 5 rested_pool worked demo_stopped eq_refl demo_rest)).
Defined.

Lemma demo_work : rtc (pool_step worker) (idle_pool, queued_world) (rested_pool, worked).
Proof. etrans; [exact demo_stopped|]. apply rtc_nsteps. exists 5%nat. exact demo_rest. Qed.
Lemma pool_refines_system_witness : rtc (system_step demo_deployment) (w_db (idle_pool, queued_world).2) (w_db (rested_pool, worked).2).
Proof. exact (pool_refines_system demo_deployment (idle_pool, queued_world) (rested_pool, worked) demo_work). Defined.
