(* ===== verification/Startup.v ===== *)
(** * Starting the processes

    [api.New] and [NewHTTPServer] of [internal/api/server.go], [db.Open] and [db.Prepare],
    [queue.Connect], and the two commands [cmd/argus-api/main.go] and
    [cmd/argus-worker/main.go]: how the settings become the components whose operations
    [System] runs, and what a process checked before it serves. Sockets, the drivers, the
    identity provider and the embedded files are what the host answers. *)
From Stdlib Require Import Ascii String ZArith Lia.
From stdpp Require Import base gmap strings list relations.
From S2P Require Import Prelude GoStrings GoValue Actions Policy Marshal Sha256 Ledger Types Evidence Correlation Database AuditLog Progress Approvals Dispatch.
From S2P Require Import Observations Ingestion Http Reports Executors Remediation Helios Workers Auth Transports Requests DeadLetters Api Backends Migrations Config System Pool.
Open Scope Z_scope.

(** ** The host *)

(** What the operating system, the drivers and the services answer. [ho_sql_open] and
    [ho_dial] only look at an address; the clients of [net/http] stand for one address
    each. *)
Record Host := mkHost {
  ho_sql_open : string -> result unit;
  ho_ping : string -> result unit;
  ho_backend : Backend;
  ho_files : result (list FileEntry);
  ho_dial : string -> result unit;
  ho_jetstream : string -> result JetStream;
  ho_consumers : Consumers;
  ho_oidc : OIDCLibrary;
  ho_net : NetLibrary;
  ho_webhook_client : HttpClient;
  ho_slack_client : HttpClient;
  ho_slack_pick : list string -> nat;
  ho_advisor_client : HttpClient;
  ho_probe_client : QueryClient;
  ho_helios_client : HttpClient;
  ho_runbooks : list (gmap string value);
  ho_env : env;
}.

(** The schema the migrations move and the tables the services use. *)
Record Machine := mkMachine { mc_schema : nat * Schema; mc_world : world }.

Definition P (A : Type) : Type := Machine -> result A * Machine.
Definition pret {A} (a : A) : P A := fun m => (Ok a, m).
Definition pthrow {A} (err : error) : P A := fun m => (Fail err, m).
Definition pbind {A B} (x : P A) (k : A -> P B) : P B := fun m =>
  match x m with (Ok a, m') => k a m' | (Fail err, m') => (Fail err, m') end.
Notation "x <-- m ;; k" := (pbind m (fun x => k)) (at level 100, m at next level, right associativity).
Notation "m ;;- k" := (pbind m (fun _ => k)) (at level 100, right associativity).
Definition plift {A} (r : result A) : P A := fun m => (r, m).

Section startup.
Context (h : Host).

Definition on_schema {A} (x : SM A) : P A := fun m =>
  let '(r, sc) := x (ho_backend h) (mc_schema m) in (r, mkMachine sc (mc_world m)).
Definition on_world {A} (x : M A) : P A := fun m =>
  let '(r, w) := x (ho_env h) (mc_world m) in (r, mkMachine (mc_schema m) w).

(** ** The database and the stream *)

Definition Open (dsn : string) : P unit :=
  plift (match ho_sql_open h dsn with
         | Fail err => Fail (wrapf "open database" err)
         | Ok _ => match ho_ping h dsn with Fail err => Fail (wrapf "ping database" err) | Ok _ => Ok tt end
         end).

(** [Run] with no set: the embedded migrations. *)
Definition Prepare (mode : string) : P unit :=
  set <-- plift (Migrations.Load (ho_files h)) ;;
  on_schema (Run mode set) ;;-
  pret tt.

Definition Connect (url : string) : P JetStream :=
  plift (match ho_dial h url with
         | Fail err => Fail (wrapf "connect nats" err)
         | Ok _ => match ho_jetstream h url with Fail err => Fail (wrapf "create jetstream context" err) | Ok js => Ok js end
         end).

(** ** The API *)

(** The server and the background loops its construction starts. *)
Record ApiProcess := mkApiProcess {
  ap_server : Server;
  ap_dispatcher : option DispatcherConfig;
  ap_helios : option HeliosReconcileConfig;
}.

Definition oidc_config (cfg : Config) : OIDCConfig :=
  mkOIDCConfig (c_OIDCIssuerURL cfg) (c_OIDCAudience cfg) (c_OIDCJWKSURL cfg) (c_OIDCRoleClaim cfg) (c_OIDCRoleMappings cfg)
    (c_OIDCEmailClaim cfg) (c_OIDCDisplayNameClaim cfg) (c_OIDCSigningAlgs cfg) ((c_Env cfg =?s "local") || (c_Env cfg =?s "test")).

Definition evidence_collector (cfg : Config) : Collector :=
  NewCollector (c_RCAProbeTimeout cfg)
    {[Prometheus := NewPrometheus (c_PrometheusURL cfg) (c_PrometheusBearerToken cfg) (ho_probe_client h);
      Loki := NewLoki (c_LokiURL cfg) (c_LokiBearerToken cfg) (ho_probe_client h)]}.

(** [rca.NewService]. *)
Definition NewRCAService (cfg : Config) (correlator : Correlator) : RCAService :=
  mkRCAService (TrimRight (c_AIServiceURL cfg) "/") (c_AIServiceToken cfg) (ho_advisor_client h) correlator (Some (evidence_collector cfg)).

Definition executor_for (cfg : Config) : Executor :=
  if c_RemediationExecutor cfg =?s "helios"
  then Helios (NewHeliosExecutor (c_HeliosBaseURL cfg) (c_HeliosAdminToken cfg) (c_HeliosPollTimeout cfg) (ho_helios_client h))
  else LocalExecutor.

Definition UseDispatcher (s : Remediation.Service) (d : DispatcherConfig) : Remediation.Service :=
  mkRemediationService (rs_policy s) (rs_exec s) (rs_approvals s) (Some d).

(** [verifyAuditChain], whose findings go to the log and the metrics. *)
Definition verifyAuditChain : M unit := ignore AuditLog.Verify.

(** [New] once the schema is ready. *)
Definition wire (cfg : Config) : P ApiProcess :=
  js <-- Connect (c_NATSURL cfg) ;;
  on_world (EnsureStreams js) ;;-
  on_world (ignore (RetireLegacyStreams js)) ;;-
  authenticator <-- plift (NewOIDCAuthenticator (ho_oidc h) (oidc_config cfg)) ;;
  notifier <-- plift (NewWebhookNotifier (ho_net h) (ho_webhook_client h) (c_ApprovalWebhookURL cfg) (c_ApprovalWebhookSecret cfg)
    (c_ApprovalCallbackBaseURL cfg) (c_ApprovalWebhookMode cfg)) ;;
  let approvals := Approvals.NewService (notifier_name notifier) (c_ApprovalTimeout cfg) (c_ApprovalEscalateAfter cfg)
    (c_ApprovalSweepInterval cfg) (c_ApprovalAllowSelf cfg) in
  slack <-- plift (NewSlackWorkflow approvals (c_ApprovalSlackSigningSecret cfg) (c_ApprovalSlackBotToken cfg) (c_ApprovalSlackApprovers cfg)
    (ho_slack_client h) (ho_slack_pick h)) ;;
  if negb (c_ApprovalWebhookURL cfg =?s "") && (c_ApprovalWebhookMode cfg =?s "slack") && negb (Enabled slack)
  then pthrow (errorf "Slack approval delivery requires signing secret, bot token, and approver identity mappings")
  else
    let manager := SetAlertStaleAfter (NewServiceManager (c_IncidentGrouping cfg)) (c_AlertStaleAfter cfg) in
    correlator <-- plift Correlation.New ;;
    let analysis := NewRCAService cfg correlator in
    let remediation := Remediation.NewService (NewEngineForEnvironments (c_RemediationEnvironments cfg)) true (Some (executor_for cfg)) (Some approvals) in
    let dispatcher := match rs_dispatcher remediation with
                      | Some _ => Some (NewDispatcher (dispatcher_config cfg))
                      | None => None
                      end in
    let remediation := match dispatcher with Some d => UseDispatcher remediation d | None => remediation end in
    let helios := if c_RemediationExecutor cfg =?s "helios" then Some (withDefaults (helios_config cfg)) else None in
    on_world verifyAuditChain ;;-
    pret (mkApiProcess (mkServer authenticator manager analysis remediation approvals slack js (ho_runbooks h)) dispatcher helios).

Definition New (cfg : Config) : P ApiProcess :=
  plift (Validate cfg) ;;-
  Open (c_PostgresDSN cfg) ;;-
  mode <-- plift (ParseMode (c_MigrationMode cfg)) ;;
  Prepare mode ;;-
  wire cfg.

Record HTTPTimeouts := mkTimeouts { ht_ReadHeader : Z; ht_Read : Z; ht_Write : Z; ht_Idle : Z }.
Record HTTPServer := mkHTTPServer { hs_addr : string; hs_timeouts : HTTPTimeouts; hs_max_header_bytes : Z }.
Definition NewHTTPServer (addr : string) (timeouts : HTTPTimeouts) : HTTPServer := mkHTTPServer addr timeouts (Z.shiftl 32 10).

(** ** The commands *)

Definition migrate (cfg : Config) : P unit :=
  let dsn := if c_MigrationPostgresDSN cfg =?s "" then c_PostgresDSN cfg else c_MigrationPostgresDSN cfg in
  Open dsn ;;-
  Prepare ModeApply.

Inductive ApiOutcome := Migrated | Serving (process : ApiProcess) (http : HTTPServer).

(** [argus-api] with the arguments after its name; an error ends the process. *)
Definition argus_api (args : list string) (Getenv : string -> string) : P ApiOutcome :=
  let cfg := Config.Load Getenv in
  match args with
  | command :: _ =>
      if negb (command =?s "migrate") then pthrow (errorf ("unknown command " +:+ Quote command +:+ " (the only command is " +:+ Quote "migrate" +:+ ")"))
      else migrate cfg ;;- pret Migrated
  | [] =>
      process <-- New cfg ;;
      pret (Serving process (NewHTTPServer (c_HTTPAddr cfg)
        (mkTimeouts (c_HTTPReadHeaderTimeout cfg) (c_HTTPReadTimeout cfg) (c_HTTPWriteTimeout cfg) (c_HTTPIdleTimeout cfg))))
  end.

(** [argus-worker] up to the loop of [Start]. *)
Definition argus_worker (Getenv : string -> string) : P Runner :=
  let cfg := Config.Load Getenv in
  Open (c_PostgresDSN cfg) ;;-
  mode <-- plift (ParseMode (c_MigrationMode cfg)) ;;
  Prepare mode ;;-
  js <-- Connect (c_NATSURL cfg) ;;
  let runner := mkRunner (run_handlers (NewRunner (DefaultHandlers (Some PostgresControlStateStore)))) (Configure (runner_config cfg)) in
  on_world (prepare_intake js (ho_consumers h) runner) ;;-
  pret runner.
End startup.

(** What the two processes make together. A component the settings leave out does not
    run; its defaults stand in for it. *)
Definition deployed (process : ApiProcess) (runner : Runner) : Deployment :=
  mkDeployment (ap_server process) (default DefaultDispatcherConfig (ap_dispatcher process)) runner
    (default DefaultHeliosReconcileConfig (ap_helios process)).

(** ** What starting does to the machine *)

Definition same_tables (m m' : Machine) : Prop := w_db (mc_world m') = w_db (mc_world m).
Definition same_schema (m m' : Machine) : Prop := (mc_schema m').2 = (mc_schema m).2.
#[export] Instance same_tables_preorder : PreOrder same_tables.
Proof. split; [done|]. intros x y z. unfold same_tables. congruence. Qed.
#[export] Instance same_schema_preorder : PreOrder same_schema.
Proof. split; [done|]. intros x y z. unfold same_schema. congruence. Qed.

Definition keeps {A} (Q : Machine -> Machine -> Prop) (x : P A) : Prop := forall m, Q m (x m).2.

Section keeps.
Context (Q : Machine -> Machine -> Prop) `{!PreOrder Q}.
Lemma keeps_plift {A} (r : result A) : keeps Q (plift r).
Proof. intros m. reflexivity. Qed.
Lemma keeps_pret {A} (a : A) : keeps Q (pret a).
Proof. intros m. reflexivity. Qed.
Lemma keeps_pthrow {A} err : keeps Q (pthrow (A := A) err).
Proof. intros m. reflexivity. Qed.
Lemma keeps_pbind {A B} (x : P A) (k : A -> P B) : keeps Q x -> (forall a, keeps Q (k a)) -> keeps Q (pbind x k).
Proof.
  intros Hx Hk m. unfold pbind. specialize (Hx m). destruct (x m) as [[a|err] m1]; simpl in *; [|done]. etrans; [exact Hx|apply Hk].
Qed.
Lemma keeps_known {A B} (a : A) (k : A -> P B) : keeps Q (k a) -> keeps Q (pbind (plift (Ok a)) k).
Proof. done. Qed.
End keeps.

Lemma on_schema_tables h {A} (x : SM A) : keeps same_tables (on_schema h x).
Proof. intros m. unfold on_schema. by destruct (x _ _). Qed.
Lemma on_world_schema h {A} (x : M A) : keeps same_schema (on_world h x).
Proof. intros m. unfold on_world. by destruct (x _ _). Qed.
Lemma on_world_tables h {A} (x : M A) : guar eq x -> keeps same_tables (on_world h x).
Proof. intros Hx m. unfold on_world. specialize (Hx (ho_env h) (mc_world m)). destruct (x _ _). by symmetry. Qed.

Ltac keeps_walk := repeat match goal with
  | |- keeps _ (pbind (plift (Ok _)) _) => apply keeps_known; cbv beta
  | |- keeps _ (plift _) => apply keeps_plift; typeclasses eauto
  | |- keeps _ (pret _) => apply keeps_pret; typeclasses eauto
  | |- keeps _ (pthrow _) => apply keeps_pthrow; typeclasses eauto
  | |- keeps same_tables (on_schema _ _) => apply on_schema_tables
  | |- keeps same_schema (on_world _ _) => apply on_world_schema
  | |- keeps same_tables (on_world _ _) => apply on_world_tables
  | |- keeps _ (pbind _ _) => apply keeps_pbind; [typeclasses eauto| |intros ?; cbv beta zeta]
  | |- keeps _ (if ?b then _ else _) => destruct b
  end.

Lemma ensure_stream_eq js want : guar eq (ensure_stream js want).
Proof. unfold ensure_stream. guar_walk; apply call_guar, _. Qed.
Lemma EnsureStreams_eq js : guar eq (EnsureStreams js).
Proof. unfold EnsureStreams. guar_walk. apply ensure_stream_eq. Qed.
Lemma retire_eq js names : forall report, guar eq (retire js names report).
Proof. induction names as [|name names IH]; intros report; simpl; guar_walk; apply call_guar, _. Qed.
Lemma prepare_intake_eq js cn r : guar eq (prepare_intake js cn r).
Proof. unfold prepare_intake, ensureConsumer, remove_legacy. guar_walk; try apply EnsureStreams_eq; apply call_guar, _. Qed.

Section runs.
Context (h : Host).

Lemma pbind_ok {A B} (x : P A) (k : A -> P B) m b m' :
  pbind x k m = (Ok b, m') -> exists a m1, x m = (Ok a, m1) /\ k a m1 = (Ok b, m').
Proof. unfold pbind. destruct (x m) as [[a|err] m1]; [by exists a, m1|done]. Qed.

Lemma ParseMode_ok value mode : ParseMode value = Ok mode -> mode = ModeApply \/ mode = ModeVerify /\ value = ModeVerify.
Proof. unfold ParseMode. repeat case_match; intros [= <-]; reflect_tests; auto. Qed.

(** The schema is the one this build needs. *)
Definition schema_current (m : Machine) : Prop :=
  exists set, Migrations.Load (ho_files h) = Ok set /\ current set (rows_in (mc_schema m).2) /\ pending_of set (rows_in (mc_schema m).2) = [].

Lemma Load_distinct set : Migrations.Load (ho_files h) = Ok set -> NoDup (mg_version <$> set).
Proof. destruct (ho_files h) as [entries|]; [|done]. by intros (_ & _ & ? & _)%Load_spec. Qed.

Lemma Prepare_ok mode m m' : mode = ModeApply \/ mode = ModeVerify -> Prepare h mode m = (Ok tt, m') -> schema_current m'.
Proof.
  intros Hm H. apply pbind_ok in H as (set & m1 & [= HL <-] & H). apply pbind_ok in H as (report & m2 & H & [= <-]).
  unfold on_schema in H. destruct (mc_schema m) as [n d] eqn:E. destruct (Run mode set _ _) as [r [n' d']] eqn:HR. injection H as -> <-.
  exists set. split; [done|]. simpl. pose proof (Load_distinct _ HL) as HN. destruct Hm as [->| ->].
  - apply apply_run in HR as (k & _ & _ & _ & _ & ? & ? & _); done.
  - apply verify_run in HR as [-> HC]; [|done]. by apply HC.
Qed.

Lemma Prepare_verify m : same_schema m (Prepare h ModeVerify m).2.
Proof.
  unfold Prepare, pbind, plift. destruct (Migrations.Load (ho_files h)) as [set|] eqn:HL; [|reflexivity]. unfold on_schema.
  destruct m as [[n d] w]. destruct (Run ModeVerify set _ _) as [r [n' d']] eqn:HR. simpl in *.
  apply verify_run in HR as [-> _]; [|by apply Load_distinct]. by destruct r.
Qed.

Lemma Open_keeps Q `{!PreOrder Q} dsn : keeps Q (Open h dsn).
Proof. apply keeps_plift, _. Qed.
Lemma Connect_keeps Q `{!PreOrder Q} url : keeps Q (Connect h url).
Proof. apply keeps_plift, _. Qed.
Lemma Prepare_tables mode : keeps same_tables (Prepare h mode).
Proof. unfold Prepare. keeps_walk. Qed.

Lemma wire_schema cfg : keeps same_schema (wire h cfg).
Proof. unfold wire, Connect. keeps_walk. Qed.
Lemma wire_tables cfg : keeps same_tables (wire h cfg).
Proof.
  unfold wire, Connect. keeps_walk; [apply EnsureStreams_eq|apply guar_ignore, retire_eq|apply guar_ignore, Verify_guar; typeclasses eauto].
Qed.

(** A step that keeps the schema keeps it current. *)
Lemma current_after {A} (x : P A) m m' a : keeps same_schema x -> x m = (a, m') -> schema_current m -> schema_current m'.
Proof. intros Hx E. specialize (Hx m). rewrite E in Hx. unfold schema_current, same_schema in *. simpl in Hx. by rewrite Hx. Qed.

Lemma New_ok cfg m process m' :
  New h cfg m = (Ok process, m') -> Validate cfg = Ok tt /\ schema_current m' /\ exists m1, wire h cfg m1 = (Ok process, m').
Proof.
  unfold New. intros H. apply pbind_ok in H as ([] & m1 & [= HV <-] & H). apply pbind_ok in H as ([] & m2 & H2 & H).
  apply pbind_ok in H as (mode & m3 & [= HM <-] & H). apply pbind_ok in H as ([] & m4 & H4 & H). split; [done|]. split; [|by exists m4].
  eapply current_after; [apply wire_schema|exact H|]. apply Prepare_ok in H4; [done|]. apply ParseMode_ok in HM as [?|[? _]]; auto.
Qed.

(** The server that comes out of the wiring. *)
Lemma wire_ok cfg m process m' :
  wire h cfg m = (Ok process, m') ->
  let server := ap_server process in
  rs_approvals (sv_remediation server) = Some (sv_approvals server) /\ sw_service (sv_slack server) = sv_approvals server /\
  as_allow_self (sv_approvals server) = c_ApprovalAllowSelf cfg /\ rs_exec (sv_remediation server) = executor_for h cfg /\
  rs_policy (sv_remediation server) = NewEngineForEnvironments (c_RemediationEnvironments cfg) /\
  rs_dispatcher (sv_remediation server) = ap_dispatcher process /\
  ap_dispatcher process = (if c_RemediationExecutor cfg =?s "helios" then None else Some (NewDispatcher (dispatcher_config cfg))) /\
  sv_incidents server = SetAlertStaleAfter (NewServiceManager (c_IncidentGrouping cfg)) (c_AlertStaleAfter cfg) /\
  NewOIDCAuthenticator (ho_oidc h) (oidc_config cfg) = Ok (sv_authenticator server) /\
  (c_ApprovalWebhookURL cfg <> "" -> c_ApprovalWebhookMode cfg = "slack" -> Enabled (sv_slack server) = true).
Proof.
  unfold wire. intros H. apply pbind_ok in H as (js & m1 & _ & H). apply pbind_ok in H as (u1 & m2 & _ & H).
  apply pbind_ok in H as (u2 & m3 & _ & H). apply pbind_ok in H as (auth & m4 & [= HA <-] & H).
  apply pbind_ok in H as (notifier & m5 & _ & H). cbv zeta in H. apply pbind_ok in H as (slack & m6 & [= HS <-] & H).
  destruct (negb _ && _ && _) eqn:EE; [done|]. apply pbind_ok in H as (cor & m7 & _ & H). apply pbind_ok in H as (u3 & m8 & _ & [= <- <-]).
  simpl. unfold NewSlackWorkflow in HS. apply result_bind_ok in HS as (approvers & _ & [= <-]). unfold executor_for.
  destruct (c_RemediationExecutor cfg =?s "helios") eqn:EH; simpl; (split_and!; try done); intros Hu Hs; reflect_tests;
    rewrite Hs in EE; simpl in EE; rewrite andb_true_r in EE; apply andb_false_iff in EE as [EE|EE]; reflect_tests; done.
Qed.
Lemma New_tables cfg : keeps same_tables (New h cfg).
Proof. unfold New, Open. keeps_walk; [apply Prepare_tables|apply wire_tables]. Qed.
Lemma argus_worker_tables vars : keeps same_tables (argus_worker h vars).
Proof. unfold argus_worker, Open, Connect. keeps_walk; [apply Prepare_tables|apply prepare_intake_eq]. Qed.

Lemma argus_worker_ok vars m runner m' :
  argus_worker h vars m = (Ok runner, m') ->
  schema_current m' /\ run_handlers runner = run_handlers (NewRunner (DefaultHandlers (Some PostgresControlStateStore))) /\
  run_cfg runner = Configure (runner_config (Config.Load vars)).
Proof.
  unfold argus_worker. cbv zeta. intros H. apply pbind_ok in H as ([] & m1 & _ & H). apply pbind_ok in H as (mode & m2 & [= HM <-] & H).
  apply pbind_ok in H as ([] & m3 & HP & H). apply Prepare_ok in HP; [|apply ParseMode_ok in HM as [?|[? _]]; auto].
  assert (schema_current m') as HS.
  { eapply current_after; [|exact H|exact HP]. unfold Connect. keeps_walk. }
  apply pbind_ok in H as (js & m4 & _ & H). apply pbind_ok in H as ([] & m5 & _ & H). injection H as <- <-. done.
Qed.

Lemma api_verify_schema vars m :
  ParseMode (c_MigrationMode (Config.Load vars)) = Ok ModeVerify -> same_schema m (argus_api h [] vars m).2.
Proof.
  intros HP. revert m. change (keeps same_schema (argus_api h [] vars)). unfold argus_api, New. rewrite HP.
  keeps_walk; [apply Open_keeps, _|intros m; apply Prepare_verify|apply wire_schema].
Qed.
Lemma worker_verify_schema vars m :
  ParseMode (c_MigrationMode (Config.Load vars)) = Ok ModeVerify -> same_schema m (argus_worker h vars m).2.
Proof.
  intros HP. revert m. change (keeps same_schema (argus_worker h vars)). unfold argus_worker, Connect. rewrite HP.
  keeps_walk; [apply Open_keeps, _|intros m; apply Prepare_verify].
Qed.

Lemma stale_window window staleAfter : 0 <= gr_alert_stale_after (sm_grouping (SetAlertStaleAfter (NewServiceManager window) staleAfter)).
Proof. unfold SetAlertStaleAfter. destruct (0 <? staleAfter) eqn:E; simpl; [apply Z.ltb_lt in E; lia|]. vm_compute. discriminate. Qed.
End runs.

(** ** Properties *)


(** Checking the schema is all a verifying process does to it. With
    ARGUS_MIGRATIONS set to verify, in any case of its letters, starting the API or a worker, whether
    it succeeds or fails and at whatever point, leaves the schema, the migration table
    and the services' tables as they are; so does an unknown command in every mode. *)
Theorem verifying_start_changes_nothing h vars m :
  ToLower (vars "ARGUS_MIGRATIONS") = "verify" ->
  (same_schema m (argus_api h [] vars m).2 /\ same_tables m (argus_api h [] vars m).2) /\
  (same_schema m (argus_worker h vars m).2 /\ same_tables m (argus_worker h vars m).2) /\
  (forall command args, command <> "migrate" -> (argus_api h (command :: args) vars m).2 = m).
Proof.
  intros HM. assert (ParseMode (c_MigrationMode (Config.Load vars)) = Ok ModeVerify) as HP.
  { simpl. unfold getenv. destruct (vars "ARGUS_MIGRATIONS" =?s "") eqn:E; [reflect_tests; rewrite E in HM; done|]. by rewrite HM. }
  split_and!.
  - apply api_verify_schema, HP.
  - unfold argus_api. apply keeps_pbind; [typeclasses eauto|apply New_tables|]. intros. apply keeps_pret, _.
  - apply worker_verify_schema, HP.
  - apply argus_worker_tables.
  - intros command args Hc. unfold argus_api. by rewrite (proj2 (String.eqb_neq _ _) Hc).
Qed.

(** ** A run *)

Definition quiet_client : HttpClient := mkHttpClient (fun _ => None) (fun _ _ => Fail (errorf "off")) (fun _ => 0) (fun _ => None).
Definition demo_consumers : Consumers :=
  mkConsumers (fun _ _ _ => Ok false) (fun _ _ _ => Ok false) (fun _ _ _ => Ok true) (fun _ _ _ => Ok tt) (fun _ _ _ => Ok tt).
Definition demo_host : Host :=
  mkHost (fun _ => Ok tt) (fun _ => Ok tt) willing (Ok demo_files) (fun _ => Ok tt) (fun _ => Ok no_streams) demo_consumers demo_oidc
    (mkNetLibrary (fun _ => Some (mkAddress "http" "localhost:8080" "localhost")) (fun _ => false)) quiet_client quiet_client (fun _ => 0%nat) quiet_client demo_query_client quiet_client [] quiet_env.
Definition demo_settings (extra : list (string * string)) : string -> string :=
  demo_vars ([("ARGUS_OIDC_ISSUER_URL", "https://sso.example"); ("ARGUS_OIDC_JWKS_URL", "https://sso.example/keys")] ++ extra).
Definition new_machine : Machine := mkMachine (0%nat, fresh_schema) (mkWorld empty_db 0 []).
Definition failure_of {A} (out : result A * Machine) : option string := match out.1 with Ok _ => None | Fail err => Some (err_text err) end.

(** A first start migrates; verifying before that, a bad mode, a Slack delivery without
    its secrets and an unknown command are refused. *)
Example starts :
  (fun x => failure_of (argus_api demo_host x.1 (demo_settings x.2) new_machine)) <$>
    [([], []); (["migrate"], []); ([], [("ARGUS_MIGRATIONS", "verify")]); ([], [("ARGUS_AI_SERVICE_URL", "http://ai/")]);
     ([], [("ARGUS_OIDC_AUDIENCE", " ")]);
     ([], [("ARGUS_APPROVAL_WEBHOOK_URL", "http://localhost/hook"); ("ARGUS_APPROVAL_WEBHOOK_MODE", "Slack")])] =
  [None; None; Some "database schema is behind this build: 3 migration(s) pending, first 0001_baseline; run `argus-api migrate`";
   Some "ARGUS_AI_SERVICE_TOKEN must be set when ARGUS_AI_SERVICE_URL is configured"; Some "ARGUS_OIDC_AUDIENCE is required";
   Some "Slack approval delivery requires signing secret, bot token, and approver identity mappings"].
Proof. vm_compute. reflexivity. Qed.

Definition api_started : result ApiOutcome * Machine := argus_api demo_host [] (demo_settings []) new_machine.
Definition worker_started : result Runner * Machine := argus_worker demo_host (demo_settings [("ARGUS_MIGRATIONS", "VERIFY")]) api_started.2.


Lemma verifying_start_changes_nothing_witness :
  same_schema new_machine (argus_worker demo_host (demo_settings [("ARGUS_MIGRATIONS", "Verify")]) new_machine).2.
Proof.
  apply (verifying_start_changes_nothing demo_host (demo_settings [("ARGUS_MIGRATIONS", "Verify")]) new_machine). vm_compute. reflexivity.
Defined.
