(* ===== verification/Process.v ===== *)
(** * The API process and its end

    The background loops [api.New] starts ([dispatch.go]'s [Run], [RunHeliosReconciler],
    the sweep of [approvals/service.go]'s [Start], [auditVerificationLoop]), the summaries
    [rca/service.go] runs, and [Server.Close]. A loop waits for its ticker or for the end
    of its context; when both are there Go picks either one, so a loop may still make a
    round after it was told to stop. *)
From Stdlib Require Import Ascii String ZArith Lia.
From stdpp Require Import base gmap strings list relations.
From S2P Require Import Prelude GoStrings GoValue Types Database AuditLog Store Progress Observations Ingestion Http Reports Approvals Dispatch Executors Remediation Helios Workers.
From S2P Require Import Auth Transports Requests DeadLetters Api System Startup.
Open Scope Z_scope.

(** ** Calls that reach nothing

    The environment of a context that has ended, or of a closed pool of connections:
    every statement and every publication fails. *)

Definition ended (e : env) : Prop := forall n, is_Some (e_fault e n) /\ is_Some (e_publish e n).

Definition untouched (w w' : world) : Prop := w_db w' = w_db w /\ w_sent w' = w_sent w.
#[export] Instance untouched_refl : Reflexive untouched.
Proof. done. Qed.
#[export] Instance untouched_trans : Transitive untouched.
Proof. intros x y z [H1 H2] [H3 H4]. split; congruence. Qed.

Definition silent {A} (m : M A) : Prop := forall e w, ended e -> untouched w (m e w).2.
(** It fails at its first call. *)
Definition barred {A} (m : M A) : Prop := forall e w, ended e -> exists err w', m e w = (Fail err, w') /\ untouched w w'.

Lemma barred_silent {A} (m : M A) : barred m -> silent m.
Proof. intros Hm e w He. destruct (Hm e w He) as (err & w' & -> & H). exact H. Qed.
Lemma barred_stmt {A} (f : DB -> result (A * DB)) : barred (stmt f).
Proof. intros e w He. unfold stmt. destruct (He (w_tick w)) as [[msg ->] _]. by eexists _, _. Qed.
Lemma barred_wrap {A} text (m : M A) : barred m -> barred (wrap text m).
Proof. intros Hm e w He. unfold wrap. destruct (Hm e w He) as (err & w' & -> & H). by eexists _, _. Qed.
Lemma barred_in_tx {A} b c (body : M A) : barred (in_tx b c body).
Proof. intros e w He. unfold in_tx, wrap, exec, stmt. destruct (He (w_tick w)) as [[msg ->] _]. by eexists _, _. Qed.
Lemma barred_tx_choice {A B} b c (body : M (A + B)) : barred (tx_choice b c body).
Proof. intros e w He. unfold tx_choice. destruct (He (w_tick w)) as [[msg ->] _]. by eexists _, _. Qed.
Lemma barred_bind {A B} (m : M A) (k : A -> M B) : barred m -> barred (bind m k).
Proof. intros Hm e w He. unfold bind. destruct (Hm e w He) as (err & w' & -> & H). by exists err, w'. Qed.
Lemma silent_ret {A} (a : A) : silent (ret a).
Proof. intros e w _. reflexivity. Qed.
Lemma silent_bind {A B} (m : M A) (k : A -> M B) : silent m -> (forall a, silent (k a)) -> silent (bind m k).
Proof.
  intros Hm Hk e w He. unfold bind. specialize (Hm e w He). destruct (m e w) as [[a|err] w']; simpl in *; [|exact Hm].
  etrans; [exact Hm|by apply Hk].
Qed.
Lemma silent_ignore {A} (m : M A) : silent m -> silent (ignore m).
Proof. intros Hm e w He. unfold ignore. specialize (Hm e w He). by destruct (m e w). Qed.
Lemma silent_attempt {A} (m : M A) : silent m -> silent (attempt m).
Proof. intros Hm e w He. unfold attempt. specialize (Hm e w He). by destruct (m e w). Qed.
(** What follows a failed call. *)
Lemma silent_after {A B} (m : M A) (k : result A -> M B) : barred m -> (forall err, silent (k (Fail err))) -> silent (bind (attempt m) k).
Proof.
  intros Hm Hk e w He. unfold bind, attempt. destruct (Hm e w He) as (err & w' & -> & H). etrans; [exact H|by apply Hk].
Qed.

Lemma processDue_silent : silent processDue.
Proof.
  unfold processDue. apply silent_bind; [intros e w _; reflexivity|intros time]. apply silent_bind; [|intros _].
  - apply silent_ignore, barred_silent, barred_bind, barred_wrap, barred_stmt.
  - apply silent_after; [apply barred_wrap, barred_stmt|intros; apply silent_ret].
Qed.
Lemma PublishPending_silent cfg : silent (PublishPending cfg).
Proof. apply barred_silent, barred_in_tx. Qed.
Lemma Reconcile_silent cfg : silent (Reconcile cfg).
Proof. apply barred_silent, barred_bind, barred_in_tx. Qed.
Lemma ReconcileHelios_silent s cfg : silent (ReconcileHelios s cfg).
Proof. unfold ReconcileHelios. destruct (ex_helios (rs_exec s)); [apply barred_silent, barred_in_tx|apply silent_ret]. Qed.
Lemma verifyAuditChain_silent : silent verifyAuditChain.
Proof. apply silent_ignore, barred_silent, barred_bind, barred_tx_choice. Qed.
Lemma callAdvisor_silent s incident evidence hypothesis confidence top : silent (callAdvisor s incident evidence hypothesis confidence top).
Proof.
  unfold callAdvisor. destruct (_ =?s _); [intros e w _; reflexivity|].
  apply silent_bind; [unfold NewRequest; case_match; intros e w _; reflexivity|intros req].
  apply silent_bind; [by intros e w _|intros resp]. destruct (_ <=? _); intros e w _; reflexivity.
Qed.
Lemma summarize_silent s incident report top : silent (summarize s incident report top).
Proof.
  unfold summarize. apply silent_bind; [apply silent_attempt, callAdvisor_silent|intros advice]. unfold recordAdvice. apply silent_ignore.
  destruct advice; apply barred_silent, barred_bind, barred_wrap, barred_stmt.
Qed.

(** ** The process *)

Inductive loop := Sweep | Outbox | HeliosPasses | AuditChecks.
#[export] Instance loop_eq_dec : EqDecision loop.
Proof. solve_decision. Defined.

(** The steps of [Close], in order. *)
Inductive closing := AwaitSummaries | CancelApprovals | CancelDispatch | CancelAudit | CloseQueue | CloseDatabase.
#[export] Instance closing_eq_dec : EqDecision closing.
Proof. solve_decision. Defined.
Definition Close : list closing := [AwaitSummaries; CancelApprovals; CancelDispatch; CancelAudit; CloseQueue; CloseDatabase].

(** The function whose call ends the loop's context. *)
Definition cancel_of (l : loop) : closing :=
  match l with Sweep => CancelApprovals | Outbox | HeliosPasses => CancelDispatch | AuditChecks => CancelAudit end.

Record Summary := mkSummary { su_incident : Incident; su_report : RCAReport; su_topology : IncidentTopology }.

(** The loops that run, the summaries in flight, and what [Close] has left to do. *)
Record Process := mkProcess { ps_loops : list loop; ps_summaries : list Summary; ps_closing : bool; ps_left : list closing }.

(** The goroutines of [New]. *)
Definition loops_of (a : ApiProcess) : list loop :=
  [Sweep] ++ (if ap_dispatcher a then [Outbox] else []) ++ (if ap_helios a then [HeliosPasses] else []) ++ [AuditChecks].
Definition launched (a : ApiProcess) : Process := mkProcess (loops_of a) [] false Close.

Definition database_open (s : Process) : bool := bool_decide (CloseDatabase ∈ ps_left s).
Definition context_open (s : Process) (l : loop) : bool := bool_decide (cancel_of l ∈ ps_left s) && database_open s.

Section process.
Context (p : Deployment).

(** One round of each loop: a tick of one of its tickers. *)
Definition sweep_round (e : env) (w w' : world) : Prop := w' = (processDue e w).2.
Definition dispatcher_round (e : env) (w w' : world) : Prop :=
  w' = (PublishPending (dp_dispatcher p) e w).2 \/ w' = (Reconcile (dp_dispatcher p) e w).2.
Definition helios_round (e : env) (w w' : world) : Prop := w' = (ReconcileHelios (dp_remediation p) (dp_helios p) e w).2.
Definition audit_round (e : env) (w w' : world) : Prop := w' = (verifyAuditChain e w).2.
Definition round (l : loop) : env -> world -> world -> Prop :=
  match l with Sweep => sweep_round | Outbox => dispatcher_round | HeliosPasses => helios_round | AuditChecks => audit_round end.

(** The wait for the summaries ends with the last of them or after its time. *)
Definition passes (s : Process) (c : closing) (timeout : bool) : bool :=
  match c with AwaitSummaries => bool_decide (length (ps_summaries s) = 0%nat) || timeout | _ => true end.

(** Requests come until the database is closed; [Close] gives the summaries ten seconds
    and does not look at what they did. *)
Inductive process_step : Process * world -> Process * world -> Prop :=
  | ps_round s l e w w' : l ∈ ps_loops s -> (context_open s l = false -> ended e) -> round l e w w' -> process_step (s, w) (s, w')
  | ps_leave s l1 l l2 w : ps_loops s = l1 ++ l :: l2 -> context_open s l = false ->
      process_step (s, w) (mkProcess (l1 ++ l2) (ps_summaries s) (ps_closing s) (ps_left s), w)
  | ps_request s req e w later : database_open s = true ->
      process_step (s, w) (mkProcess (ps_loops s) (ps_summaries s ++ later) (ps_closing s) (ps_left s), (Handler (dp_server p) req e w).2)
  | ps_summary s l1 x l2 e w : ps_summaries s = l1 ++ x :: l2 -> (database_open s = false -> ended e) ->
      process_step (s, w) (mkProcess (ps_loops s) (l1 ++ l2) (ps_closing s) (ps_left s),
        (summarize (dp_analysis p) (su_incident x) (su_report x) (su_topology x) e w).2)
  | ps_begin s w : process_step (s, w) (mkProcess (ps_loops s) (ps_summaries s) true (ps_left s), w)
  | ps_close s c left timeout w : ps_closing s = true -> ps_left s = c :: left -> passes s c timeout = true ->
      process_step (s, w) (mkProcess (ps_loops s) (ps_summaries s) true left, w).

Lemma round_silent l e w w' : round l e w w' -> ended e -> untouched w w'.
Proof.
  intros Hr He. destruct l; simpl in Hr.
  - rewrite Hr. by apply processDue_silent.
  - destruct Hr as [-> | ->]; [by apply PublishPending_silent|by apply Reconcile_silent].
  - rewrite Hr. by apply ReconcileHelios_silent.
  - rewrite Hr. by apply verifyAuditChain_silent.
Qed.
Lemma verifyAuditChain_reads : guar eq verifyAuditChain.
Proof. unfold verifyAuditChain, AuditLog.Verify. handler_walk. Qed.
Lemma round_system l e w w' : round l e w w' -> rtc (system_step p) (w_db w) (w_db w').
Proof.
  intros Hr. destruct l; simpl in Hr.
  - rewrite Hr. apply rtc_once. exact (step_sweep p e w).
  - destruct Hr as [-> | ->]; apply rtc_once; [exact (step_publish p e w)|exact (step_reconcile p e w)].
  - rewrite Hr. apply rtc_once. exact (step_helios p e w).
  - rewrite Hr. pose proof (verifyAuditChain_reads e w) as H. by rewrite <- H.
Qed.
Lemma process_step_system x y : process_step x y -> rtc (system_step p) (w_db x.2) (w_db y.2).
Proof.
  destruct 1; simpl; try reflexivity.
  - by eapply round_system.
  - apply rtc_once. apply step_request.
  - apply rtc_once. apply step_summarize.
Qed.

(** What [Close] has done stays done, and no loop starts again. *)
Definition closes (s s' : Process) : Prop := ps_left s' `suffix_of` ps_left s /\ ps_loops s' ⊆ ps_loops s /\ (ps_closing s = true -> ps_closing s' = true).
Lemma process_step_closes x y : process_step x y -> closes x.1 y.1.
Proof.
  destruct 1; simpl; split_and!; try done; simpl.
  - rewrite H. set_solver.
  - rewrite H0. by exists [c].
Qed.
Lemma closes_reachable x y : rtc process_step x y -> closes x.1 y.1.
Proof.
  induction 1 as [x|x y z Hxy _ (S1 & L1 & C1)]; [by split_and!|]. destruct (process_step_closes _ _ Hxy) as (S2 & L2 & C2).
  split_and!; [by etrans|by etrans|auto].
Qed.

Lemma closed_step x y : process_step x y -> ps_left x.1 = [] -> untouched x.2 y.2.
Proof.
  assert (forall s, ps_left s = [] -> database_open s = false) as HD by (intros s E; unfold database_open; by rewrite E).
  destruct 1 as [s l e w w' Hl He Hr|s l1 l l2 w Hs Hc|s req e w later Hd|s l1 x l2 e w Hs He|s w|s c left timeout w Hc Hl Hp]; simpl; intros E; try done.
  - eapply round_silent; [exact Hr|]. apply He. unfold context_open. by rewrite (HD _ E), andb_false_r.
  - by rewrite (HD _ E) in Hd.
  - apply summarize_silent, He, HD, E.
Qed.

Lemma context_closed s s' l : ps_left s' `suffix_of` ps_left s -> context_open s l = false -> context_open s' l = false.
Proof.
  intros HS. unfold context_open, database_open. rewrite !andb_false_iff, !bool_decide_eq_false.
  assert (forall c, c ∉ ps_left s -> c ∉ ps_left s') as H by (intros c Hc Hin; apply Hc; destruct HS as [k ->]; apply elem_of_app; by right).
  intros [Hc|Hc]; [left|right]; by apply H.
Qed.

(** [Close] runs to its end, and then the loops leave. *)
Lemma close_runs left : forall s w, ps_closing s = true -> ps_left s = left ->
  nsteps process_step (length left) (s, w) (mkProcess (ps_loops s) (ps_summaries s) true [], w).
Proof.
  induction left as [|c left IH]; intros s w Hc Hl.
  - destruct s as [loops summaries closing left]; simpl in *; subst. constructor.
  - econstructor; [apply (ps_close s c left true); [done..|by destruct c; simpl; rewrite ?orb_true_r]|]. exact (IH (mkProcess (ps_loops s) (ps_summaries s) true left) w eq_refl eq_refl).
Qed.
Lemma loops_leave loops summaries w : nsteps process_step (length loops) (mkProcess loops summaries true [], w) (mkProcess [] summaries true [], w).
Proof.
  induction loops as [|l loops IH]; [constructor|]. econstructor; [|exact IH].
  apply (ps_leave (mkProcess (l :: loops) summaries true []) [] l loops); [done|]. unfold context_open, database_open. by rewrite andb_false_r.
Qed.
End process.


(** A process that has just been told to close. *)
Definition demo_process : Process := mkProcess [Sweep; Outbox; AuditChecks] [] true Close.
