(* ===== verification/Cli.v ===== *)
(** * The command line ([cmd/argus-cli/main.go])

    Each command as the request it sends, and what the API makes of that request: the
    command line and the server agree on what a command does and who may do it. Parsing
    the arguments is the work of the cobra library; a command is taken as parsed. *)
From Stdlib Require Import Ascii String ZArith Lia.
From stdpp Require Import base gmap strings list.
From S2P Require Import Prelude GoStrings GoFloat GoValue Json Marshal Types Database AuditLog Store Approvals Observations Ingestion Http Reports.
From S2P Require Import Lifecycle Executors Remediation Auth Transports Requests DeadLetters Ledger Api Backends.
Open Scope Z_scope.

(** ** Commands *)

Inductive Command :=
  | AuditList
  | AuditVerify
  | DeadLetterList (limit : Z)
  | DeadLetterAction (name sequence reason : string)
  | IncidentList
  | IncidentGet (id : string)
  | IncidentRCA (id : string)
  | RemediationList (id : string)
  | RemediationDecision (decision id reason : string)
  | RemediationExecute (id : string) (dryRun : bool)
  | ScenarioRun (name : string)
  | RunbookIndex.

(** What is sent: method, address below the base URL, query and body. *)
Record CliRequest := mkCliRequest { cr_method : string; cr_path : string; cr_query : list (string * string); cr_body : option json }.

Definition reason_required (reason : string) (r : CliRequest) : result CliRequest :=
  if TrimSpace reason =?s "" then Fail (errorf "--reason is required") else Ok r.

Definition get (path : string) : CliRequest := mkCliRequest "GET" path [] None.
Definition post (path : string) (body : list (string * json)) : CliRequest := mkCliRequest "POST" path [] (Some (JObj body)).

(** The [RunE] of each command. *)
Definition auditCmd (verify : bool) : CliRequest := get (if verify then "/v1/audit/verify" else "/v1/audit").
Definition deadLetterList (limit : Z) : CliRequest := mkCliRequest "GET" "/v1/dead-letters" [("limit", itoa limit)] None.
Definition deadLetterAction (name sequence reason : string) : result CliRequest :=
  reason_required reason (post ("/v1/dead-letters/" +:+ sequence +:+ "/" +:+ name) [("reason", JStr reason)]).
Definition incidentCmd (id : option string) (rca : bool) : CliRequest :=
  match id with
  | None => get "/v1/incidents"
  | Some id => if rca then get ("/v1/incidents/" +:+ id +:+ "/rca") else get ("/v1/incidents/" +:+ id)
  end.
Definition remediationList (id : string) : CliRequest := get ("/v1/incidents/" +:+ id +:+ "/remediations").
Definition decisionCommand (decision id reason : string) : result CliRequest :=
  let route := if decision =?s "deny" then "reject" else decision in
  reason_required reason (post ("/v1/remediations/" +:+ id +:+ "/" +:+ route) [("reason", JStr reason)]).
Definition executeCommand (id : string) (dryRun : bool) : CliRequest :=
  post ("/v1/remediations/" +:+ id +:+ "/execute") [("dry_run", JBool dryRun)].
Definition scenarioCmd (name : string) : CliRequest := post "/v1/signals/manual" [("scenario", JStr name)].
Definition runbookCmd : CliRequest := post "/v1/runbooks/reindex" [].

(** The tree of commands. *)
Definition command_request (c : Command) : result CliRequest :=
  match c with
  | AuditList => Ok (auditCmd false)
  | AuditVerify => Ok (auditCmd true)
  | DeadLetterList limit => Ok (deadLetterList limit)
  | DeadLetterAction name sequence reason => deadLetterAction name sequence reason
  | IncidentList => Ok (incidentCmd None false)
  | IncidentGet id => Ok (incidentCmd (Some id) false)
  | IncidentRCA id => Ok (incidentCmd (Some id) true)
  | RemediationList id => Ok (remediationList id)
  | RemediationDecision decision id reason => decisionCommand decision id reason
  | RemediationExecute id dryRun => Ok (executeCommand id dryRun)
  | ScenarioRun name => Ok (scenarioCmd name)
  | RunbookIndex => Ok runbookCmd
  end.

(** The commands the program registers: their names are part of the tree. *)
Definition registered_command (c : Command) : bool :=
  match c with
  | DeadLetterAction name _ _ => (name =?s "replay") || (name =?s "discard")
  | RemediationDecision decision _ _ => (decision =?s "approve") || (decision =?s "deny")
  | _ => true
  end.

(** ** Sending *)

Definition body_text (body : option json) : string := match body with Some j => enc j | None => "" end.
Definition query_text (query : list (string * string)) : string :=
  match query with [] => "" | _ => "?" +:+ Join ((fun kv => kv.1 +:+ "=" +:+ kv.2) <$> query) "&" end.

(** What is printed, and the error the command ends with. *)
Record CliOutcome := mkCliOutcome { co_printed : option string; co_error : option error }.

Definition printRequest (client : HttpClient) (baseURL : string) (r : CliRequest) (token : string) : M CliOutcome :=
  if TrimSpace token =?s "" then ret (mkCliOutcome None (Some (errorf "OIDC access token is required; set ARGUS_API_TOKEN or use --token")))
  else
    req <- attempt (NewRequest client (cr_method r) (baseURL +:+ cr_path r +:+ query_text (cr_query r))
      [("Content-Type", "application/json"); ("Authorization", "Bearer " +:+ token)] (Text ∘ enc <$> cr_body r)) ;;
    match req with
    | Fail err => ret (mkCliOutcome None (Some err))
    | Ok req =>
        resp <- attempt (Do client req) ;;
        ret (match resp with
             | Fail err => mkCliOutcome None (Some err)
             | Ok resp => mkCliOutcome (Some (TrimSpace (hs_body resp)))
                 (if 400 <=? hs_code resp then Some (errorf ("request failed: " +:+ hs_status resp)) else None)
             end)
    end.

Definition argus (client : HttpClient) (baseURL token : string) (c : Command) : M CliOutcome :=
  match command_request c with
  | Fail err => ret (mkCliOutcome None (Some err))
  | Ok r => printRequest client baseURL r token
  end.

(** The request as the server of the base URL reads it. *)
Definition received (token : string) (r : CliRequest) : ApiRequest :=
  mkApiRequest (cr_method r) (cr_path r) (cr_query r) ["Bearer " +:+ token] [("Content-Type", "application/json")]
    (Z.of_nat (String.length (body_text (cr_body r)))) (body_text (cr_body r)).

(** ** What a command is meant to do *)

Definition needs (c : Command) : string :=
  match c with
  | AuditList | AuditVerify => PermissionViewAudit
  | DeadLetterList _ | DeadLetterAction _ _ _ => PermissionManageDeadLetters
  | IncidentList | IncidentGet _ | IncidentRCA _ | RemediationList _ => PermissionView
  | RemediationDecision _ _ _ => PermissionApproveRemediation
  | RemediationExecute _ _ => PermissionExecuteRemediation
  | ScenarioRun _ => PermissionIngestSignal
  | RunbookIndex => PermissionReindexRunbook
  end.

Section meaning.
Context (s : Server) (p : Principal).
Notation who := (pr_id p).
Definition status_reply {A} (code : Z) (text : string) : A -> M Reply := fun _ => reply code (CFields (fields [("status", text)])).

Definition letter_meaning (name reason : string) (seq : Z) : M Reply :=
  answer (GetDeadLetter (sv_streams s) seq) (by_kind [KDeadLetterNotFound] 404 502) (fun letter =>
    view <- viewDeadLetter letter ;;
    if name =?s "replay" then replayDeadLetter s (Some p) view (letter_metadata letter reason)
    else discardDeadLetter s (Some p) view seq (letter_metadata letter reason)).

Definition meaning (c : Command) : M Reply :=
  match c with
  | AuditList => answer (ListEntries 100) (status 500) (fun items => reply 200 (CAudit items))
  | AuditVerify => answer Verify (status 500) (fun report => reply (if ver_valid report then 200 else 409) (CVerification report))
  | DeadLetterList limit =>
      if (limit <? 1) || (500 <? limit) then WriteError 400 "limit must be between 1 and 500"
      else answer (ListDeadLetters (sv_streams s) limit) (status 502) (fun letters => views <- viewDeadLetters letters ;; reply 200 (CLetters views))
  | DeadLetterAction name sequence reason =>
      match ParseUint sequence with
      | None | Some 0 => WriteError 400 "dead letter sequence must be a positive integer"
      | Some seq => letter_meaning name reason seq
      end
  | IncidentList => answer ListIncidents (status 500) (fun items => reply 200 (CIncidents items))
  | IncidentGet id => answer (GetIncident id) (status 404) (fun item => reply 200 (CIncident item))
  | IncidentRCA id => answer (GetLatestRCAReport id) (status 404) (fun report => reply 200 (CReport report))
  | RemediationList id => answer (ListRemediations id) (status 500) (fun items => reply 200 (CRemediations items))
  | RemediationDecision decision id reason =>
      if decision =?s "approve" then answer (Approve (sv_remediation s) id who reason) (status 400) (status_reply 200 "approved")
      else answer (Reject (sv_remediation s) id who reason) (status 400) (status_reply 200 "rejected")
  | RemediationExecute id dryRun =>
      answer (Execute (sv_remediation s) id dryRun who) (by_kind [KIncidentClosed; KStateChanged] 409 400)
        (fun reused => if (reused : bool) then status_reply 200 "reused" tt else status_reply 202 "queued" tt)
  | ScenarioRun name =>
      time <- now ;;
      answer (IngestAlertmanagerWithResult (sv_incidents s) (manual_payload (mkManualSignal name "" "") time) who) (status 500)
        (fun result => reply 202 (CIngestion result))
  | RunbookIndex => answer (ReindexRunbooks (sv_analysis s)) (by_kind [KAIDisabled] 503 502) (fun result => reply 200 (CFields result))
  end.
End meaning.

(** An identifier that net/url leaves alone and that is one segment of a path. *)
Definition plain (id : string) : bool := all_chars unreserved id && negb (id =?s "") && negb (id =?s ".") && negb (id =?s "..").
Definition plain_command (c : Command) : bool :=
  match c with
  | DeadLetterAction _ id _ | IncidentGet id | IncidentRCA id | RemediationList id | RemediationDecision _ id _ | RemediationExecute id _ => plain id
  | DeadLetterList limit => (- 2 ^ 63 <=? limit) && (limit <? 2 ^ 63)
  | _ => true
  end.

(** ** Paths *)

Definition segment (x : string) : bool := negb (has_char "/" x) && negb (x =?s "") && negb (x =?s ".") && negb (x =?s "..").

Lemma plain_segment id : plain id = true -> segment id = true.
Proof.
  unfold plain, segment. intros H. apply andb_true_iff in H as [H H4]. apply andb_true_iff in H as [H H3]. apply andb_true_iff in H as [H1 H2].
  rewrite H2, H3, H4, !andb_true_r. apply negb_true_iff. clear -H1. induction id as [|c id IH]; [done|]. simpl in *.
  apply andb_true_iff in H1 as [Hc H1]. rewrite (IH H1), orb_false_r. destruct (Ascii.eqb c "/") eqn:E; [by apply Ascii.eqb_eq in E as ->|done].
Qed.

Lemma segment_inv x : segment x = true -> has_char "/" x = false /\ x <> "" /\ x <> "." /\ x <> "..".
Proof.
  unfold segment. intros H. apply andb_true_iff in H as [H H4]. apply andb_true_iff in H as [H H3]. apply andb_true_iff in H as [H1 H2].
  by reflect_tests.
Qed.

Lemma Split_segments l : l <> [] -> forallb segment l = true -> Split (Join l "/") "/" = l.
Proof.
  induction l as [|x l IH]; [done|]. intros _ H. simpl in H. apply andb_true_iff in H as [Hx H]. apply segment_inv in Hx as (Hx & _).
  destruct l as [|y l]; [by apply Split_char_None|]. rewrite Join_cons by done.
  change ("/" +:+ Join (y :: l) "/") with (String "/" (Join (y :: l) "/")). rewrite (Split_char_app "/" x _ Hx). f_equal. by apply IH.
Qed.

Lemma clean_kept l : forall kept, forallb segment l = true -> clean_segments kept l = reverse kept ++ l.
Proof.
  induction l as [|x l IH]; intros kept H; [simpl; by rewrite app_nil_r|]. simpl in H. apply andb_true_iff in H as [Hx H].
  apply segment_inv in Hx as (_ & H1 & H2 & H3). cbn [clean_segments].
  rewrite (proj2 (String.eqb_neq _ _) H1), (proj2 (String.eqb_neq _ _) H2), (proj2 (String.eqb_neq _ _) H3). simpl orb. cbv iota.
  rewrite IH by done. by rewrite reverse_cons, <- app_assoc.
Qed.

Lemma slash_free_end x : has_char "/" x = false -> HasSuffix x "/" = false.
Proof.
  unfold HasSuffix. simpl String.length. induction x as [|c x IH]; [done|]. simpl. intros H. apply orb_false_iff in H as [Hc H].
  destruct x as [|d x]; simpl.
  - by destruct (Ascii.eqb_spec c "/") as [->|].
  - specialize (IH H). simpl in IH. by rewrite Nat.sub_0_r in *.
Qed.

Lemma path_end l : forall a, l <> [] -> forallb segment l = true -> HasSuffix (a +:+ Join l "/") "/" = false.
Proof.
  induction l as [|x l IH]; [done|]. intros a _ H. simpl in H. apply andb_true_iff in H as [Hx H]. destruct l as [|y l].
  - apply segment_inv in Hx as (H1 & H2 & _). simpl. destruct x as [|c x]; [done|]. rewrite HasSuffix_app. by apply slash_free_end.
  - rewrite Join_cons by done. rewrite <- !string_app_assoc. by apply IH.
Qed.

(** A path of proper segments is clean. *)
Lemma cleanPath_segments l : l <> [] -> forallb segment l = true -> cleanPath ("/" +:+ Join l "/") = "/" +:+ Join l "/".
Proof.
  intros Hl H. unfold cleanPath. assert (HasPrefix ("/" +:+ Join l "/") "/" = true) as -> by (apply HasPrefix_spec; eauto). cbv zeta iota.
  rewrite (path_end l "/" Hl H). simpl andb. cbv iota. f_equal.
  etrans; [|exact (f_equal (fun x => Join x "/") (clean_kept l [] H))]. f_equal.
  etrans; [exact (f_equal (clean_segments []) (Split_char_app "/" "" (Join l "/") eq_refl))|].
  change (clean_segments [] ("" :: Split (Join l "/") "/")) with (clean_segments [] (Split (Join l "/") "/")). by rewrite Split_segments.
Qed.

(** ** Bodies *)

Lemma take_chars_all n : forall s, (String.length s <= n)%nat -> take_chars n s = s.
Proof. induction n as [|n IH]; intros [|c s] H; simpl in *; try done; try lia. rewrite IH by lia. done. Qed.

Lemma read_value_enc j : wf j = true -> Z.of_nat (String.length (enc j)) <= 2 ^ 20 -> read_value defaultMaxBodyBytes (enc j) = Ok j.
Proof. intros Hj HL. unfold read_value, defaultMaxBodyBytes. rewrite take_chars_all by lia. by rewrite Decode_enc. Qed.

(** ** Routes *)

Section routes.
Context (s : Server) (token : string) (p : Principal) (e : env) (w : world).
Context (Hauth : Authenticate (sv_authenticator s) (e_now e) ("Bearer " +:+ token) = Ok p).

Definition forbidden : M Reply := WriteError 403 "role is not allowed to perform this action".

(** The way of a request to its handler. *)
Lemma routed r permission h :
  isPublicRoute (cr_path r) || (cr_path r =?s "/v1/alerts/alertmanager") || (cr_path r =?s "/v1/remediations") || (cr_method r =?s "CONNECT") = false ->
  requiredPermission (cr_method r) (cr_path r) = permission -> permission <> "" -> cleanPath (cr_path r) = cr_path r ->
  handler_of s (Some p) (received token r) (cr_path r) = Some h -> Z.of_nat (String.length (body_text (cr_body r))) <= 2 ^ 20 ->
  Handler s (received token r) e w = if Can p permission then h e w else forbidden e w.
Proof.
  intros HT HP HN HC HH HL. apply orb_false_iff in HT as [HT H4]. apply orb_false_iff in HT as [HT H3]. apply orb_false_iff in HT as [H1 H2].
  unfold Handler, limitRequestBodies, maxBodyBytes, authMiddleware. cbn [received rq_path rq_method rq_content_length rq_authorization]. rewrite H2.
  destruct (Z.ltb_spec defaultMaxBodyBytes (Z.of_nat (String.length (body_text (cr_body r))))) as [HX|_]; [unfold defaultMaxBodyBytes in HX; lia|].
  rewrite H1. unfold bind, now. cbn [BearerToken]. rewrite Hauth, HP, (proj2 (String.eqb_neq _ _) HN). cbn [negb andb].
  destruct (Can p permission); [cbn [negb]|done]. unfold mux. cbn [received rq_path rq_method]. rewrite H4, HC, H3, String.eqb_refl. cbn [negb].
  by rewrite HH.
Qed.

Lemma reason_read r path reason :
  r = mkCliRequest "POST" path [] (Some (JObj [("reason", JStr reason)])) -> path <> "/v1/alerts/alertmanager" ->
  Z.of_nat (String.length (body_text (cr_body r))) <= 2 ^ 20 -> reason_body (received token r) = Ok reason.
Proof.
  intros -> HP HL. unfold reason_body, body_json, maxBodyBytes. cbn [received rq_path rq_body cr_path cr_body body_text].
  rewrite (proj2 (String.eqb_neq _ _) HP). unfold ReadJSON. by rewrite read_value_enc.
Qed.

(** A path below [/v1/]. *)
Lemma clean_below l : l <> [] -> forallb segment l = true -> cleanPath ("/v1/" +:+ Join l "/") = "/v1/" +:+ Join l "/".
Proof. intros Hl H. by destruct l as [|x l]; [|apply (cleanPath_segments ("v1" :: x :: l))]. Qed.

Lemma remediation_route id action body h permission :
  plain id = true -> segment action = true -> remediation_permission [id; action] = permission -> permission <> "" ->
  Z.of_nat (String.length (enc body)) <= 2 ^ 20 ->
  let r := mkCliRequest "POST" ("/v1/remediations/" +:+ id +:+ "/" +:+ action) [] (Some body) in
  handleRemediationRoutes s (Some p) (received token r) = h ->
  Handler s (received token r) e w = if Can p permission then h e w else forbidden e w.
Proof.
  intros Hid Ha HP HN HL r <-. apply plain_segment in Hid.
  assert (Split (id +:+ "/" +:+ action) "/" = [id; action]) as HS by (apply (Split_segments [id; action]); simpl; by rewrite ?Hid, ?Ha).
  apply routed; try done.
  - cbn [cr_method cr_path r]. rewrite (requiredPermission_prefix (received token r) "/v1/remediations/" _ remediation_permission) by (by right; left).
    by rewrite HS.
  - apply (clean_below ["remediations"; id; action]); [done|]. simpl. by rewrite Hid, Ha.
  - by destruct id.
Qed.

(** A view below an incident. *)
Lemma incident_route id tail permission h :
  plain id = true -> forallb segment tail = true -> incident_permission "GET" (id :: tail) = permission -> permission <> "" ->
  let r := mkCliRequest "GET" ("/v1/incidents/" +:+ Join (id :: tail) "/") [] None in
  handleIncidentRoutes s (Some p) (received token r) = h ->
  Handler s (received token r) e w = if Can p permission then h e w else forbidden e w.
Proof.
  intros Hid Ht HP HN r <-. apply plain_segment in Hid as Hid'.
  assert (Split (Join (id :: tail) "/") "/" = id :: tail) as HS by (apply Split_segments; [done|]; simpl; by rewrite Hid').
  apply routed; try done; cbn [cr_method cr_path r].
  - rewrite (requiredPermission_prefix (received token r) "/v1/incidents/" _ (incident_permission "GET")) by apply list_elem_of_here. by rewrite HS.
  - apply (clean_below ("incidents" :: id :: tail)); [done|]. simpl. by rewrite Hid'.
  - destruct id as [|c id]; [done|]. by destruct tail.
Qed.

Lemma letter_route name id body h :
  plain id = true -> segment name = true -> Z.of_nat (String.length (enc body)) <= 2 ^ 20 ->
  let r := mkCliRequest "POST" ("/v1/dead-letters/" +:+ id +:+ "/" +:+ name) [] (Some body) in
  handleDeadLetterRoutes s (Some p) (received token r) = h ->
  Handler s (received token r) e w = if Can p PermissionManageDeadLetters then h e w else forbidden e w.
Proof.
  intros Hid Ha HL r <-. apply plain_segment in Hid as Hid'. apply routed; try done; cbn [cr_method cr_path r].
  - by destruct id.
  - apply (clean_below ["dead-letters"; id; name]); [done|]. simpl. by rewrite Hid', Ha.
  - by destruct id.
Qed.

Lemma closed_route r permission h :
  cr_path r ∈ ["/v1/audit"; "/v1/audit/verify"; "/v1/incidents"; "/v1/dead-letters"; "/v1/signals/manual"; "/v1/runbooks/reindex"] ->
  (cr_method r =?s "CONNECT") = false -> requiredPermission (cr_method r) (cr_path r) = permission -> permission <> "" ->
  handler_of s (Some p) (received token r) (cr_path r) = Some h -> Z.of_nat (String.length (body_text (cr_body r))) <= 2 ^ 20 ->
  Handler s (received token r) e w = if Can p permission then h e w else forbidden e w.
Proof.
  intros HP HM HR HN HH HL. apply routed; try done.
  - rewrite HM, orb_false_r. repeat (apply elem_of_cons in HP as [->|HP]; [done|]). by apply elem_of_nil in HP.
  - repeat (apply elem_of_cons in HP as [->|HP]; [done|]). by apply elem_of_nil in HP.
Qed.
End routes.

(** The pieces of a path the handlers look at. *)
Lemma two_parts prefix id tail action : tail = String "/" action -> plain id = true -> segment action = true ->
  parts_after (prefix +:+ id +:+ tail) prefix = [id; action].
Proof.
  intros -> Hid%plain_segment Ha. rewrite parts_after_prefix. apply (Split_segments [id; action]); [done|]. simpl. by rewrite Hid, Ha.
Qed.
Lemma one_part prefix id : plain id = true -> parts_after (prefix +:+ id) prefix = [id].
Proof. intros Hid%plain_segment. rewrite parts_after_prefix. apply (Split_segments [id]); [done|]. simpl. by rewrite Hid. Qed.

Lemma reason_given reason r r' : reason_required reason r = Ok r' -> r' = r /\ (TrimSpace reason =?s "") = false.
Proof. unfold reason_required. destruct (TrimSpace reason =?s ""); [done|]. by intros [= ->]. Qed.

Lemma limit_read limit : - 2 ^ 63 <= limit < 2 ^ 63 -> letter_limit (itoa limit) = if (limit <? 1) || (500 <? limit) then None else Some limit.
Proof.
  intros H. unfold letter_limit. rewrite (ParseInt_itoa limit H). destruct (itoa limit =?s "") eqn:E; [|done]. reflect_tests.
  pose proof (ParseInt_itoa limit H) as HP. by rewrite E in HP.
Qed.

Section meanings.
Context (s : Server) (token : string) (p : Principal).

Lemma letters_listed limit r : - 2 ^ 63 <= limit < 2 ^ 63 ->
  r = mkCliRequest "GET" "/v1/dead-letters" [("limit", itoa limit)] None ->
  handler_of s (Some p) (received token r) (cr_path r) = Some (meaning s p (DeadLetterList limit)).
Proof.
  intros H ->. change (Some (handleDeadLetters s (received token (mkCliRequest "GET" "/v1/dead-letters" [("limit", itoa limit)] None))) =
    Some (meaning s p (DeadLetterList limit))). f_equal. unfold handleDeadLetters, meaning. cbn [received rq_method rq_query cr_method cr_query].
  change (query_get [("limit", itoa limit)] "limit") with (itoa limit). rewrite limit_read by done. by destruct (_ || _).
Qed.

Lemma letter_acted name id reason r : plain id = true -> registered_command (DeadLetterAction name id reason) = true ->
  command_request (DeadLetterAction name id reason) = Ok r -> Z.of_nat (String.length (body_text (cr_body r))) <= 2 ^ 20 ->
  handleDeadLetterRoutes s (Some p) (received token r) = meaning s p (DeadLetterAction name id reason).
Proof.
  intros Hid HR [-> HT]%reason_given HL. cbn [meaning]. simpl in HR. unfold handleDeadLetterRoutes, letter_action, post in *.
  rewrite (reason_read token _ _ _ eq_refl) by done. cbn [received rq_path rq_method cr_path cr_method].
  rewrite (two_parts "/v1/dead-letters/" id ("/" +:+ name) name) by (try done; apply orb_true_iff in HR as [HR|HR]; reflect_tests; by subst).
  rewrite HR. cbn [negb is_post String.eqb]. destruct (ParseUint id) as [[|seq|seq]|]; [done| | |done];
    cbn [decoded]; rewrite HT; done.
Qed.

Lemma incident_viewed id : plain id = true ->
  handleIncidentRoutes s (Some p) (received token (mkCliRequest "GET" ("/v1/incidents/" +:+ id) [] None)) = meaning s p (IncidentGet id) /\
  handleIncidentRoutes s (Some p) (received token (mkCliRequest "GET" ("/v1/incidents/" +:+ id +:+ "/rca") [] None)) = meaning s p (IncidentRCA id) /\
  handleIncidentRoutes s (Some p) (received token (mkCliRequest "GET" ("/v1/incidents/" +:+ id +:+ "/remediations") [] None)) =
    meaning s p (RemediationList id).
Proof.
  intros Hid. assert ((id =?s "") = false) as He by (destruct id; done).
  unfold handleIncidentRoutes. cbn [received rq_path cr_path].
  rewrite (one_part "/v1/incidents/" id Hid), (two_parts "/v1/incidents/" id "/rca" "rca"), (two_parts "/v1/incidents/" id "/remediations" "remediations"), He by done.
  done.
Qed.

Lemma remediation_decided decision id reason r : plain id = true -> registered_command (RemediationDecision decision id reason) = true ->
  command_request (RemediationDecision decision id reason) = Ok r -> Z.of_nat (String.length (body_text (cr_body r))) <= 2 ^ 20 ->
  handleRemediationRoutes s (Some p) (received token r) = meaning s p (RemediationDecision decision id reason).
Proof.
  intros Hid HR [-> HT]%reason_given HL. cbn [meaning]. simpl in HR. unfold handleRemediationRoutes, post in *.
  rewrite (reason_read token _ _ _ eq_refl) by done. cbn [received rq_path rq_method cr_path cr_method].
  apply orb_true_iff in HR as [HR|HR]; reflect_tests; subst decision.
  - change (if "approve" =?s "deny" then "reject" else "approve") with "approve". by rewrite (two_parts "/v1/remediations/" id ("/" +:+ "approve") "approve").
  - change (if "deny" =?s "deny" then "reject" else "deny") with "reject". by rewrite (two_parts "/v1/remediations/" id ("/" +:+ "reject") "reject").
Qed.

Lemma remediation_run id dry : plain id = true ->
  handleRemediationRoutes s (Some p)
    (received token (mkCliRequest "POST" ("/v1/remediations/" +:+ id +:+ "/execute") [] (Some (JObj [("dry_run", JBool dry)])))) =
  meaning s p (RemediationExecute id dry).
Proof.
  intros Hid. unfold handleRemediationRoutes. cbn [received rq_path rq_method cr_path cr_method].
  rewrite (two_parts "/v1/remediations/" id "/execute" "execute") by done. by destruct dry.
Qed.

Lemma scenario_run name r : r = mkCliRequest "POST" "/v1/signals/manual" [] (Some (JObj [("scenario", JStr name)])) ->
  Z.of_nat (String.length (body_text (cr_body r))) <= 2 ^ 20 ->
  handler_of s (Some p) (received token r) (cr_path r) = Some (meaning s p (ScenarioRun name)).
Proof.
  intros -> HL. cbn [cr_path]. change (Some (handleManualSignal s (Some p) (received token
    (mkCliRequest "POST" "/v1/signals/manual" [] (Some (JObj [("scenario", JStr name)]))))) = Some (meaning s p (ScenarioRun name))).
  f_equal. unfold handleManualSignal, body_json, maxBodyBytes, ReadJSON. cbn [received rq_path rq_body rq_method cr_path cr_body cr_method body_text].
  change ("/v1/signals/manual" =?s "/v1/alerts/alertmanager") with false. cbv iota. by rewrite read_value_enc.
Qed.
End meanings.

(** ** Properties *)

(** C26: a command does what it means, for those who may. For every command of the tree
    whose identifier is a plain one and whose body is within the limit, sent with a token
    the authenticator accepts, the API runs exactly the operation the command stands
    for, with the identifier, the reason and the flags given on the command line and in
    the name of the token's principal; and it answers 403 and runs nothing if the
    principal lacks the permission that operation needs. *)
Theorem command_does_what_it_means s token c r p e w :
  registered_command c = true -> plain_command c = true -> command_request c = Ok r ->
  Z.of_nat (String.length (body_text (cr_body r))) <= 2 ^ 20 ->
  Authenticate (sv_authenticator s) (e_now e) ("Bearer " +:+ token) = Ok p ->
  Handler s (received token r) e w = if Can p (needs c) then meaning s p c e w else forbidden e w.
Proof.
  intros HR HP HC HL HA. destruct c as [| |limit|name id reason| |id|id|id|decision id reason|id dry|name|]; simpl in HP;
    try (injection HC as <-).
  - eapply closed_route; try done. by left.
  - eapply closed_route; try done. by right; left.
  - eapply closed_route; try done; [by do 3 right; left|]. apply letters_listed; [|done]. apply andb_true_iff in HP as [? ?]. reflect_tests. lia.
  - pose proof (letter_acted s token p name id reason r HP HR HC HL) as HM. apply reason_given in HC as [-> _].
    eapply letter_route; try done. simpl in HR. apply orb_true_iff in HR as [HR|HR]; reflect_tests; by subst.
  - eapply closed_route; try done. by do 2 right; left.
  - eapply (incident_route s token p e w HA id []); try done. by apply incident_viewed.
  - eapply (incident_route s token p e w HA id ["rca"]); try done. by apply incident_viewed.
  - eapply (incident_route s token p e w HA id ["remediations"]); try done. by apply incident_viewed.
  - pose proof (remediation_decided s token p decision id reason r HP HR HC HL) as HM. apply reason_given in HC as [-> _].
    simpl in HR. apply orb_true_iff in HR as [HR|HR]; reflect_tests; subst; by eapply remediation_route.
  - eapply remediation_route; try done. by apply remediation_run.
  - eapply closed_route; try done; [by do 4 right; left|]. by apply scenario_run.
  - eapply closed_route; try done. by do 5 right; left.
Qed.

(** ** Runs *)

Definition approve_command : Command := RemediationDecision "approve" "rem_1" "looks right".
Definition demo_principal (role : string) : Principal :=
  match Authenticate (demo_authenticator role) (e_now quiet_env) "Bearer good" with Ok p => p | Fail _ => mkPrincipal "" "" "" "" "" "" end.
Definition over_cli (role : string) (c : Command) : result Reply * world :=
  match command_request c with
  | Ok r => Handler (demo_server role) (received "good" r) quiet_env (demo_world later)
  | Fail err => (Fail err, demo_world later)
  end.

Example cli_answers :
  answered <$> [over_cli RoleOperator approve_command; over_cli RoleViewer approve_command;
    over_cli RoleOperator (RemediationDecision "deny" "rem_1" " "); over_cli RoleViewer (IncidentGet "inc_1"); over_cli RoleAdmin (DeadLetterList 0)] =
  [(200, Some Rem.StateApproved); (403, Some Rem.StateAwaitingApproval); (0, Some Rem.StateAwaitingApproval);
   (200, Some Rem.StateAwaitingApproval); (400, Some Rem.StateAwaitingApproval)].
Proof. vm_compute. reflexivity. Qed.

Lemma demo_allowed : Can (demo_principal RoleOperator) (needs approve_command) = true.
Proof. vm_compute. reflexivity. Qed.
Lemma demo_accepted : Authenticate (demo_authenticator RoleOperator) (e_now quiet_env) ("Bearer " +:+ "good") = Ok (demo_principal RoleOperator).
Proof. vm_compute. reflexivity. Qed.
Definition approve_request : CliRequest :=
  mkCliRequest "POST" "/v1/remediations/rem_1/approve" [] (Some (JObj [("reason", JStr "looks right")])).

Lemma command_does_what_it_means_witness :
  Handler (demo_server RoleOperator) (received "good" approve_request) quiet_env (demo_world later) =
  meaning (demo_server RoleOperator) (demo_principal RoleOperator) approve_command quiet_env (demo_world later).
Proof.
  assert (Z.of_nat (String.length (body_text (cr_body approve_request))) <= 2 ^ 20) as HL by (vm_compute; discriminate).
  pose proof (command_does_what_it_means (demo_server RoleOperator) "good" approve_command approve_request (demo_principal RoleOperator) quiet_env
    (demo_world later) eq_refl eq_refl eq_refl HL demo_accepted) as H. rewrite demo_allowed in H. exact H.
Defined.
