(* ===== verification/Injector.v ===== *)
(** * The failure injector ([cmd/failure-injector/main.go])

    The demo tool that breaks the payments service and posts the alert for it, and what
    the API makes of that post. *)
From Stdlib Require Import Ascii String ZArith Lia.
From stdpp Require Import base gmap strings list.
From S2P Require Import Prelude GoStrings GoValue Json Marshal Types Database AuditLog Http Auth Requests Api.
Open Scope Z_scope.

Module Injector.

Definition scenarioService (scenario : string) : string := if scenario =?s "nginx_5xx_spike" then "nginx" else "payments-api".

Definition scenarioLabels (scenario : string) : list (string * string) :=
  if scenario =?s "redis_memory_pressure" then [("cache_key_pattern", "demo:pressure:*")]
  else if scenario =?s "dependency_latency" then [("degradable_feature_flag", "payments-api/optional-notifications")]
  else [].

Definition scenarioToAlert (scenario : string) : string :=
  if scenario =?s "postgres_connection_exhaustion" then "PaymentsAPIPostgresConnectionExhaustion"
  else if scenario =?s "redis_memory_pressure" then "PaymentsAPIRedisMemoryPressure"
  else if scenario =?s "nginx_5xx_spike" then "Nginx5xxSpike"
  else if scenario =?s "dependency_latency" then "PaymentsAPIDependencyLatency"
  else if scenario =?s "bad_config_rollout" then "PaymentsAPIBadConfigRollout"
  else "DemoIncident".

Definition scenarioToSummary (scenario : string) : string :=
  if scenario =?s "postgres_connection_exhaustion" then "payments-api is showing postgres connection exhaustion signals"
  else if scenario =?s "redis_memory_pressure" then "payments-api cache performance degraded due to redis memory pressure"
  else if scenario =?s "nginx_5xx_spike" then "nginx is returning elevated 5xx responses for the payments path"
  else if scenario =?s "dependency_latency" then "notification-api latency is dominating request time"
  else if scenario =?s "bad_config_rollout" then "recent config rollout likely broke payments-api connectivity"
  else "generic demo incident".

(** Maps are marshalled with their keys in order. *)
Definition text_map (m : list (string * string)) : json := canonical (JObj ((fun kv => (kv.1, JStr kv.2)) <$> m)).

Definition alert_json (scenario : string) (time : Z) : json :=
  JObj [("alerts", JArr [JObj [
           ("annotations", text_map [("summary", scenarioToSummary scenario)]);
           ("fingerprint", JStr ("demo-" +:+ scenario));
           ("labels", text_map ([("alertname", scenarioToAlert scenario); ("service", scenarioService scenario); ("environment", "local");
              ("severity", "sev2")] ++ scenarioLabels scenario));
           ("startsAt", JStr (RFC3339Nano time));
           ("status", JStr "firing")]]);
        ("receiver", JStr "argus"); ("status", JStr "firing")].

(** [http.Post] sets the content type and nothing else; its outcome is not looked at. *)
Definition postAlert (client : HttpClient) (baseURL scenario : string) : M unit :=
  time <- now ;;
  ignore (req <- NewRequest client "POST" (baseURL +:+ "/v1/alerts/alertmanager") [("Content-Type", "application/json")]
            (Some (Text (enc (alert_json scenario time)))) ;;
          Do client req).

Definition activateScenario (client : HttpClient) (baseURL scenario : string) : M unit :=
  ignore (req <- NewRequest client "POST" (baseURL +:+ "/admin/scenarios/activate") [("Content-Type", "application/json")]
            (Some (Text (enc (JObj [("scenario", JStr scenario)])))) ;;
          Do client req).

Definition main (payments argus : HttpClient) (args : list string) (paymentsURL argusURL : string) : M unit :=
  match args with
  | [] => throw (errorf "usage: failure-injector <scenario>")
  | scenario :: _ => activateScenario payments paymentsURL scenario ;;; postAlert argus argusURL scenario
  end.

(** The post as the API receives it. *)
Definition posted (scenario : string) (time : Z) : ApiRequest :=
  let body := enc (alert_json scenario time) in
  mkApiRequest "POST" "/v1/alerts/alertmanager" [] [] [("Content-Type", "application/json")] (Z.of_nat (String.length body)) body.

End Injector.

(** What it posts is the alert the API's own scenario route would ingest. *)
Lemma scenarios_mirrored scenario :
  Injector.scenarioService scenario = scenarioService scenario /\ Injector.scenarioToAlert scenario = scenarioToAlert scenario /\
  Injector.scenarioToSummary scenario = scenarioToSummary scenario /\ list_to_map (Injector.scenarioLabels scenario) = scenarioLabels scenario.
Proof. unfold Injector.scenarioLabels, scenarioLabels. repeat case_match; by split_and!. Qed.

(** The injector's alerts never arrive. Its post carries no credentials, and the
    Alertmanager route is not a public one: every server refuses it, whatever the
    scenario, and no table changes. The tool ignores the answer. *)
Theorem injected_alerts_refused s scenario time e w :
  exists rp, Handler s (Injector.posted scenario time) e w = (Ok rp, w) /\ (rp_status rp = 401 \/ rp_status rp = 413).
Proof.
  unfold Handler, limitRequestBodies. destruct (_ <? _); [eexists; split; [reflexivity|by right]|].
  unfold authMiddleware. cbn [rq_path Injector.posted isPublicRoute]. eexists. split; [|left]; reflexivity.
Qed.

Example with_a_token_it_would :
  let r := Injector.posted "redis_memory_pressure" 0 in
  requiredPermission (rq_method r) (rq_path r) = PermissionIngestSignal /\
  match ReadExternalJSON maxAlertmanagerPayloadBytes decode_webhook (rq_body r) with
  | Ok payload => am_labels <$> wh_alerts payload = [list_to_map [("alertname", "PaymentsAPIRedisMemoryPressure"); ("service", "payments-api");
      ("environment", "local"); ("severity", "sev2"); ("cache_key_pattern", "demo:pressure:*")]]
  | Fail _ => False
  end.
Proof. split; vm_compute; reflexivity. Qed.
