(* ===== verification/Demo.v ===== *)
(** * The demo services ([demo/services/payments-api/main.go], [notification-api/main.go])

    The service the failure injector breaks and Argus watches: the scenarios, what a
    request leaves behind, the page Prometheus scrapes and the shipping of log lines
    to Loki. The state behind the mutex changes at two points of a request, before and
    after its sleep, so requests interleave; a step is one such point. *)
From Stdlib Require Import Ascii String ZArith Lia.
From stdpp Require Import base gmap strings list relations.
From S2P Require Import Prelude GoStrings GoFloat GoValue Json Marshal Types Evidence Correlation Http Api Backends Metrics Injector.
Open Scope Z_scope.

Module Payments.

Definition millisecond : Z := 10 ^ 6.

Record state := mkState {
  scenario : string;
  httpStatusCounts : gmap string Z;
  durations : list float64;
  dbPoolInUse : Z;
  dbPoolMax : Z;
  redisErrorsTotal : Z;
  paymentFailures : Z;
}.
Definition newState : state := mkState "" ∅ [] 0 100 0 0.

(** ** Requests *)

(** What [applyScenario] has decided when it releases the mutex. *)
Record fault := mkFault { delay : Z; status : Z; level : string; message : string }.

Definition applyScenario (s : state) : state * fault :=
  if scenario s =?s "postgres_connection_exhaustion" then
    (mkState (scenario s) (httpStatusCounts s) (durations s) 95 (dbPoolMax s) (redisErrorsTotal s) (paymentFailures s + 1),
     mkFault (900 * millisecond) 500 "error" "postgres connection acquisition timeout")
  else if scenario s =?s "redis_memory_pressure" then
    (mkState (scenario s) (httpStatusCounts s) (durations s) (dbPoolInUse s) (dbPoolMax s) (redisErrorsTotal s + 1) (paymentFailures s),
     mkFault (650 * millisecond) 503 "error" "redis memory pressure on demo keys")
  else if scenario s =?s "dependency_latency" then
    (s, mkFault (2 * second) 200 "warn" "notification-api latency dominated request path")
  else if scenario s =?s "bad_config_rollout" then
    (mkState (scenario s) (httpStatusCounts s) (durations s) (dbPoolInUse s) (dbPoolMax s) (redisErrorsTotal s) (paymentFailures s + 1),
     mkFault (200 * millisecond) 500 "error" "config parse or db host resolution failed")
  else (s, mkFault (40 * millisecond) 200 "" "").

Definition window : nat := 2000.

Definition record (s : state) (start time status : Z) : state :=
  let durations := durations s ++ [Seconds (time - start)] in
  mkState (scenario s) (<[itoa status := default 0 (httpStatusCounts s !! itoa status) + 1]> (httpStatusCounts s))
    (if Nat.ltb window (length durations) then drop (length durations - window) durations else durations)
    (dbPoolInUse s) (dbPoolMax s) (redisErrorsTotal s) (paymentFailures s).

Definition statusText (status : Z) : string := if 500 <=? status then "failed" else "ok".

(** ** Administration *)

(** The decoding error is dropped; a member that is not a text leaves the field. *)
Definition decode_scenario (body : string) : string :=
  match decode_object body with
  | Ok m => foldl (fun old kv => if EqualFold kv.1 "scenario" then match kv.2 with JStr s => s | _ => old end else old) "" m
  | Fail _ => ""
  end.
Definition activate (s : state) (name : string) : state :=
  mkState name (httpStatusCounts s) (durations s) (dbPoolInUse s) (dbPoolMax s) (redisErrorsTotal s) (paymentFailures s).
Definition reset (s : state) : state := mkState "" ∅ [] 0 (dbPoolMax s) 0 0.

(** ** The metrics page *)

Definition buckets : list float64 := [lit 1 10; lit 3 10; lit 5 10; lit 8 10; lit 10 10; lit 25 10; lit 50 10].

Definition below (durations : list float64) (bucket : float64) : Z := Z.of_nat (length (filter (fun d => fle d bucket = true) durations)).

Record Scrape := mkScrape {
  sc_in_use : Z;
  sc_max : Z;
  sc_redis_errors : Z;
  sc_failures : Z;
  sc_requests : gmap string Z;
  sc_buckets : list (float64 * Z);
  sc_sum : float64;
  sc_count : Z;
}.
Definition scrape (s : state) : Scrape :=
  mkScrape (dbPoolInUse s) (dbPoolMax s) (redisErrorsTotal s) (paymentFailures s) (httpStatusCounts s)
    ((fun bucket => (bucket, below (durations s) bucket)) <$> buckets) (foldl fadd fzero (durations s)) (Z.of_nat (length (durations s))).

(** [strconv.FormatFloat(value, 'f', -1, 64)]. *)
Definition plain_digits (digits e : Z) : string :=
  let s := itoa digits in
  let point := Z.of_nat (String.length s) + e in
  if 0 <=? e then s +:+ String.concat "" (repeat "0"%string (Z.to_nat e))
  else if 0 <? point then take_chars (Z.to_nat point) s +:+ "." +:+ drop_chars (Z.to_nat point) s
  else "0." +:+ String.concat "" (repeat "0"%string (Z.to_nat (- point))) +:+ s.
Definition trimFloat (value : float64) : string :=
  match value with
  | SpecFloat.S754_nan => "NaN"
  | SpecFloat.S754_infinity s => if s then "-Inf" else "+Inf"
  | SpecFloat.S754_zero s => if s then "-0" else "0"
  | SpecFloat.S754_finite s m e =>
      let n := if 0 <=? e then Z.pos m * 2 ^ e else Z.pos m in
      let d := if 0 <=? e then 1 else 2 ^ (- e) in
      let '(digits, x) := shortest 17 1 n d (magnitude n d) (SpecFloat.S754_finite false m e) in
      let '(digits, x) := strip_zeros 20 digits x in
      (if s then "-" else "") +:+ plain_digits digits x
  end.

Definition nl : string := String (ascii_of_nat 10) "".
Definition label (name value : string) : string := "," +:+ name +:+ "=" +:+ dq +:+ value +:+ dq.
Definition series (name labels value : string) : string :=
  name +:+ "{service=" +:+ dq +:+ "payments-api" +:+ dq +:+ labels +:+ "} " +:+ value +:+ nl.

(** The text; a map is ranged over in any order, here [codes]. *)
Definition page (codes : list (string * Z)) (p : Scrape) : string :=
  series "db_connection_pool_in_use" "" (itoa (sc_in_use p)) +:+
  series "db_connection_pool_max" "" (itoa (sc_max p)) +:+
  series "redis_operation_errors_total" "" (itoa (sc_redis_errors p)) +:+
  series "payment_failures_total" "" (itoa (sc_failures p)) +:+
  String.concat "" ((fun kv => series "http_requests_total" (label "status" kv.1) (itoa kv.2)) <$> codes) +:+
  String.concat "" ((fun b => series "http_request_duration_seconds_bucket" (label "le" (trimFloat b.1)) (itoa b.2)) <$> sc_buckets p) +:+
  series "http_request_duration_seconds_bucket" (label "le" "+Inf") (itoa (sc_count p)) +:+
  series "http_request_duration_seconds_sum" "" (trimFloat (sc_sum p)) +:+
  series "http_request_duration_seconds_count" "" (itoa (sc_count p)).

(** ** Shipping log lines *)

Record lokiLine := mkLine { ll_level : string; ll_at : Z; ll_line : string }.

(** The channel, the batch the goroutine holds, and the batches it has posted. *)
Record shipper := mkShipper { sh_lines : list lokiLine; sh_batch : list lokiLine; sh_posted : list (list lokiLine) }.
Definition channel : nat := 1024.
Definition batch_size : nat := 200.

Definition startLokiShipper (pushURL : string) : option shipper := if pushURL =?s "" then None else Some (mkShipper [] [] []).

(** A line that finds the channel full is dropped. *)
Definition shipLog (sh : option shipper) (line : lokiLine) : option shipper :=
  match sh with
  | None => None
  | Some sh => Some (if Nat.ltb (length (sh_lines sh)) channel then mkShipper (sh_lines sh ++ [line]) (sh_batch sh) (sh_posted sh) else sh)
  end.

(** One round of the loop: a line or a tick. *)
Definition receive (sh : shipper) : option shipper :=
  match sh_lines sh with
  | [] => None
  | line :: lines =>
      let batch := sh_batch sh ++ [line] in
      Some (if Nat.ltb (length batch) batch_size then mkShipper lines batch (sh_posted sh) else mkShipper lines [] (sh_posted sh ++ [batch]))
  end.
Definition on_tick (sh : shipper) : shipper :=
  match sh_batch sh with [] => sh | batch => mkShipper (sh_lines sh) [] (sh_posted sh ++ [batch]) end.

Definition byLevel (batch : list lokiLine) : gmap string (list (string * string)) :=
  foldl (fun m x => <[ll_level x := default [] (m !! ll_level x) ++ [(itoa (ll_at x), ll_line x)]]> m) ∅ batch.
Definition stream_json (level : string) (values : list (string * string)) : json :=
  JObj [("stream", JObj [("level", JStr level); ("service", JStr "payments-api")]);
        ("values", JArr ((fun v => JArr [JStr v.1; JStr v.2]) <$> values))].
(** What is posted; [streams] is the map in the order it is ranged over. *)
Definition pushToLoki (streams : list (string * list (string * string))) : string :=
  enc (JObj [("streams", JArr ((fun s => stream_json s.1 s.2) <$> streams))]).

Definition logJSON (sh : option shipper) (f : fault) (traced at_ : Z) : option shipper :=
  shipLog sh (mkLine (level f) at_ (enc (JObj [("level", JStr (level f)); ("message", JStr (message f)); ("service", JStr "payments-api");
    ("trace_id", JStr ("trace-" +:+ itoa traced))]))).

(** ** The server *)

Inductive call := Health | Ready | Checkout (id : string) | Payment | Activate (body : string) | Reset | Metrics | Redirect (target : string) | NotFound.

Definition route (method path body : string) : call :=
  let target := if method =?s "CONNECT" then path else cleanPath path in
  if target =?s "/checkout" then Redirect "/checkout/"
  else if negb (target =?s path) then Redirect target
  else if path =?s "/healthz" then Health
  else if path =?s "/readyz" then Ready
  else if HasPrefix path "/checkout/" then Checkout (TrimPrefix path "/checkout/")
  else if path =?s "/payments" then Payment
  else if path =?s "/admin/scenarios/activate" then Activate body
  else if path =?s "/admin/reset" then Reset
  else if path =?s "/metrics" then Metrics
  else NotFound.

Inductive Reply := RJson (status : Z) (body : json) | RMetrics (p : Scrape) | RRedirect (target : string) | RNotFound.

(** The request past its first critical section. *)
Record flight := mkFlight { fl_call : call; fl_start : Z; fl_fault : fault }.
Record server := mkServer { sv_state : state; sv_flight : list flight; sv_shipper : option shipper }.
Definition start (pushURL : string) : server := mkServer newState [] (startLokiShipper pushURL).

(** The clock readings of a request's end: for the trace, the line, the duration and
    the payment. *)
Record clocks := mkClocks { ck_trace : Z; ck_line : Z; ck_record : Z; ck_stamp : Z }.

Inductive event :=
  | Arrive (method path body : string) (time : Z)
  | Finish (i : nat) (t : clocks)
  | Receive
  | Tick.

Definition done_body (c : call) (stamp status : Z) : json :=
  match c with
  | Checkout id => JObj [("checkout_id", JStr id); ("status", JStr (statusText status))]
  | _ => JObj [("payment_id", JStr ("pay_" +:+ itoa stamp)); ("status", JStr (statusText status))]
  end.

Definition handle (s : server) (c : call) (time : Z) : server * option Reply :=
  let st := sv_state s in
  match c with
  | Health => (s, Some (RJson 200 (JObj [("status", JStr "ok")])))
  | Ready => (s, Some (RJson 200 (JObj [("status", JStr "ready")])))
  | Checkout _ | Payment =>
      let '(st', f) := applyScenario st in (mkServer st' (sv_flight s ++ [mkFlight c time f]) (sv_shipper s), None)
  | Activate body =>
      let name := decode_scenario body in (mkServer (activate st name) (sv_flight s) (sv_shipper s), Some (RJson 200 (JObj [("scenario", JStr name)])))
  | Reset => (mkServer (reset st) (sv_flight s) (sv_shipper s), Some (RJson 200 (JObj [("status", JStr "reset")])))
  | Metrics => (s, Some (RMetrics (scrape st)))
  | Redirect target => (s, Some (RRedirect target))
  | NotFound => (s, Some RNotFound)
  end.

(** A request ends after its sleep; the shipper waits while there is no line. *)
Definition step (s : server) (ev : event) : option (server * option Reply) :=
  match ev with
  | Arrive method path body time => Some (handle s (route method path body) time)
  | Finish i t =>
      match sv_flight s !! i with
      | Some x =>
          let f := fl_fault x in
          if ck_record t <? fl_start x + delay f then None
          else
            Some (mkServer (record (sv_state s) (fl_start x) (ck_record t) (status f)) (delete i (sv_flight s))
                    (if message f =?s "" then sv_shipper s else logJSON (sv_shipper s) f (ck_trace t) (ck_line t)),
                  Some (RJson (status f) (done_body (fl_call x) (ck_stamp t) (status f))))
      | None => None
      end
  | Receive => match sv_shipper s with Some sh => (fun sh => (mkServer (sv_state s) (sv_flight s) (Some sh), None)) <$> receive sh | None => None end
  | Tick => match sv_shipper s with Some sh => Some (mkServer (sv_state s) (sv_flight s) (Some (on_tick sh)), None) | None => None end
  end.

Fixpoint run (s : server) (events : list event) : option (server * list (option Reply)) :=
  match events with
  | [] => Some (s, [])
  | ev :: events =>
      match step s ev with
      | Some (s', r) => match run s' events with Some (s2, rs) => Some (s2, r :: rs) | None => None end
      | None => None
      end
  end.

End Payments.

(** ** The notification service *)

Module Notification.
Definition handle (method path : string) : Payments.Reply :=
  let target := if method =?s "CONNECT" then path else cleanPath path in
  if negb (target =?s path) then Payments.RRedirect target
  else if path =?s "/healthz" then Payments.RJson 200 (JObj [("status", JStr "ok")])
  else if path =?s "/notify" then Payments.RJson 200 (JObj [("status", JStr "sent")])
  else Payments.RNotFound.
End Notification.

(** ** The log the counters stand for

    The specification keeps no counter: it writes down the scenario of every request
    since the last reset, and the status and duration of every one that has ended. *)

Module PaymentsLog.
Import Payments.

Record log := mkLog { lg_scenario : string; lg_arrived : list string; lg_done : list (Z * Z); lg_flight : list flight }.
Definition empty : log := mkLog "" [] [] [].

Definition occurrences (l : list string) (x : string) : Z := Z.of_nat (length (filter (fun y => y = x) l)).
Definition codes (l : log) : list string := (fun d => itoa d.1) <$> lg_done l.
Definition latest (n : nat) {A} (l : list A) : list A := drop (length l - n) l.
Definition observed (l : log) : list float64 := (fun d => Seconds d.2) <$> latest window (lg_done l).
Definition tally (l : list string) : gmap string Z := list_to_map ((fun x => (x, occurrences l x)) <$> remove_dups l).

Definition expected (l : log) : Scrape :=
  mkScrape (if bool_decide ("postgres_connection_exhaustion" ∈ lg_arrived l) then 95 else 0) 100
    (occurrences (lg_arrived l) "redis_memory_pressure")
    (occurrences (lg_arrived l) "postgres_connection_exhaustion" + occurrences (lg_arrived l) "bad_config_rollout")
    (tally (codes l)) ((fun bucket => (bucket, below (observed l) bucket)) <$> buckets)
    (foldl fadd fzero (observed l)) (Z.of_nat (length (observed l))).

Definition fault_of (name : string) : fault := (applyScenario (activate newState name)).2.

Definition handle (l : log) (c : call) (time : Z) : log * option Reply :=
  match c with
  | Checkout _ | Payment =>
      (mkLog (lg_scenario l) (lg_arrived l ++ [lg_scenario l]) (lg_done l) (lg_flight l ++ [mkFlight c time (fault_of (lg_scenario l))]), None)
  | Activate body =>
      let name := decode_scenario body in (mkLog name (lg_arrived l) (lg_done l) (lg_flight l), Some (RJson 200 (JObj [("scenario", JStr name)])))
  | Reset => (mkLog "" [] [] (lg_flight l), Some (RJson 200 (JObj [("status", JStr "reset")])))
  | Health => (l, Some (RJson 200 (JObj [("status", JStr "ok")])))
  | Ready => (l, Some (RJson 200 (JObj [("status", JStr "ready")])))
  | Metrics => (l, Some (RMetrics (expected l)))
  | Redirect target => (l, Some (RRedirect target))
  | NotFound => (l, Some RNotFound)
  end.
Definition step (l : log) (ev : event) : option (log * option Reply) :=
  match ev with
  | Arrive method path body time => Some (handle l (route method path body) time)
  | Finish i t =>
      match lg_flight l !! i with
      | Some x =>
          let f := fl_fault x in
          if ck_record t <? fl_start x + delay f then None
          else Some (mkLog (lg_scenario l) (lg_arrived l) (lg_done l ++ [(status f, ck_record t - fl_start x)]) (delete i (lg_flight l)),
                     Some (RJson (status f) (done_body (fl_call x) (ck_stamp t) (status f))))
      | None => None
      end
  | Receive | Tick => Some (l, None)
  end.
Fixpoint run (l : log) (events : list event) : option (log * list (option Reply)) :=
  match events with
  | [] => Some (l, [])
  | ev :: events =>
      match step l ev with
      | Some (l', r) => match run l' events with Some (l2, rs) => Some (l2, r :: rs) | None => None end
      | None => None
      end
  end.

(** *** The counters stand for the log *)

Record stands (s : server) (l : log) : Prop := {
  sd_scenario : scenario (sv_state s) = lg_scenario l;
  sd_flight : sv_flight s = lg_flight l;
  sd_scrape : scrape (sv_state s) = expected l;
  sd_durations : durations (sv_state s) = observed l;
}.

Lemma occurrences_app l l' x : occurrences (l ++ l') x = occurrences l x + occurrences l' x.
Proof. unfold occurrences. rewrite filter_app, length_app. lia. Qed.
Lemma tally_lookup l x : tally l !! x = if bool_decide (x ∈ l) then Some (occurrences l x) else None.
Proof.
  unfold tally. case_bool_decide as H.
  - apply elem_of_list_to_map_1.
    + rewrite <- list_fmap_compose. change (fst ∘ _) with (fun y : string => y). rewrite list_fmap_id. apply NoDup_remove_dups.
    + apply list_elem_of_fmap. exists x. by rewrite elem_of_remove_dups.
  - apply not_elem_of_list_to_map_1. rewrite <- list_fmap_compose. change (fst ∘ _) with (fun y : string => y). rewrite list_fmap_id.
    by rewrite elem_of_remove_dups.
Qed.
Lemma occurrences_cons y l x : occurrences (y :: l) x = (if decide (y = x) then 1 else 0) + occurrences l x.
Proof. unfold occurrences. rewrite filter_cons. destruct (decide (y = x)); cbn [length]; lia. Qed.
Lemma occurrences_none l x : x ∉ l -> occurrences l x = 0.
Proof.
  induction l as [|y l IH]; [done|]. intros [H1 H2]%not_elem_of_cons. rewrite occurrences_cons, decide_False by done. by rewrite IH.
Qed.
Lemma occurrences_snoc l y x : occurrences (l ++ [y]) x = occurrences l x + (if y =?s x then 1 else 0).
Proof. rewrite occurrences_app, occurrences_cons, eqb_string_decide. change (occurrences [] x) with 0. case_bool_decide; case_decide; done || lia. Qed.
Lemma elem_snoc (l : list string) x y : bool_decide (x ∈ l ++ [y]) = bool_decide (x ∈ l) || (y =?s x).
Proof.
  rewrite eqb_string_decide, <- bool_decide_or. apply bool_decide_ext. rewrite elem_of_app, list_elem_of_singleton. naive_solver.
Qed.
Lemma tally_more l x : tally (l ++ [x]) = <[x := default 0 (tally l !! x) + 1]> (tally l).
Proof.
  apply map_eq. intros y. rewrite !tally_lookup. destruct (decide (x = y)) as [<-|Hne].
  - rewrite lookup_insert_eq, bool_decide_true by (apply elem_of_app; right; by apply list_elem_of_singleton).
    rewrite occurrences_app, occurrences_cons, decide_True by done. case_bool_decide as H; simpl; [|rewrite (occurrences_none l x H)];
    f_equal; unfold occurrences; simpl; lia.
  - rewrite lookup_insert_ne, tally_lookup, occurrences_app, occurrences_cons, decide_False by done. change (occurrences [] y) with 0.
    assert (bool_decide (y ∈ l ++ [x]) = bool_decide (y ∈ l)) as ->; [|case_bool_decide; [f_equal; lia|done]].
    apply bool_decide_ext. rewrite elem_of_app, list_elem_of_singleton. naive_solver.
Qed.
Lemma latest_more {A} n (l : list A) x : (0 < n)%nat ->
  latest n (l ++ [x]) = (if Nat.ltb n (length (latest n l ++ [x])) then drop (length (latest n l ++ [x]) - n) (latest n l ++ [x]) else latest n l ++ [x]).
Proof.
  intros Hn. unfold latest. rewrite !length_app, length_drop. cbn [length].
  destruct (Nat.ltb_spec n (length l - (length l - n) + 1)).
  - rewrite <- drop_app_le by lia. rewrite drop_drop. f_equal. lia.
  - replace (length l + 1 - n)%nat with 0%nat by lia. by replace (length l - n)%nat with 0%nat by lia.
Qed.
Lemma latest_fmap {A B} (f : A -> B) n l : f <$> latest n l = latest n (f <$> l).
Proof. unfold latest. by rewrite fmap_drop, length_fmap. Qed.

Lemma apply_fault s : (applyScenario s).2 = fault_of (scenario s).
Proof. unfold fault_of, applyScenario. simpl. by repeat case_match. Qed.

(** The case of one scenario: its name decides every other test. *)
Ltac by_name H E :=
  apply eqb_string_true in H; rewrite H in *; injection E as <- _; cbn [dbPoolInUse dbPoolMax redisErrorsTotal paymentFailures];
  repeat match goal with |- context [String.eqb ?a ?b] => let v := eval vm_compute in (String.eqb a b) in change (String.eqb a b) with v end;
  rewrite ?orb_true_r, ?orb_false_r, ?Z.add_0_r.
Ltac counters := repeat match goal with I : _ (sv_state _) = _ |- _ => rewrite I; clear I end; f_equal; lia.

(** The counters of an arrival. *)
Lemma arrival_stands s l c time st' f : stands s l -> applyScenario (sv_state s) = (st', f) ->
  stands (mkServer st' (sv_flight s ++ [mkFlight c time f]) (sv_shipper s))
    (mkLog (lg_scenario l) (lg_arrived l ++ [lg_scenario l]) (lg_done l) (lg_flight l ++ [mkFlight c time (fault_of (lg_scenario l))])).
Proof.
  intros [H1 H2 H3 H4] E. assert (f = fault_of (lg_scenario l)) as -> by (rewrite <- H1, <- apply_fault, E; done).
  unfold scrape, expected in H3. injection H3 as I1 I2 I3 I4 I5 I6 I7 I8.
  assert (scenario st' = lg_scenario l /\ httpStatusCounts st' = httpStatusCounts (sv_state s) /\ durations st' = durations (sv_state s)) as (J1 & J2 & J3).
  { rewrite <- H1. unfold applyScenario in E. repeat case_match; injection E as <- _; done. }
  split; cbn [sv_state sv_flight lg_flight lg_scenario]; [done|by rewrite H2| |by rewrite J3, H4].
  unfold scrape, expected. cbn [lg_arrived]. rewrite J2, J3, I5. change (codes (mkLog _ _ (lg_done l) _)) with (codes l).
  change (observed (mkLog _ _ (lg_done l) _)) with (observed l). rewrite <- H4.
  rewrite !occurrences_snoc, elem_snoc, <- H1. clear J1 H1. unfold applyScenario in E.
  destruct (scenario (sv_state s) =?s "postgres_connection_exhaustion") eqn:E1; [by_name E1 E; counters|].
  destruct (scenario (sv_state s) =?s "redis_memory_pressure") eqn:E2; [by_name E2 E; counters|].
  destruct (scenario (sv_state s) =?s "dependency_latency") eqn:E3; [by_name E3 E; counters|].
  destruct (scenario (sv_state s) =?s "bad_config_rollout") eqn:E4; [by_name E4 E; counters|injection E as <- _].
  rewrite ?E1, ?E2, ?E3, ?E4, ?orb_false_r. counters.
Qed.

Lemma finish_stands s l i x t sh : stands s l -> sv_flight s !! i = Some x ->
  stands (mkServer (record (sv_state s) (fl_start x) t (status (fl_fault x))) (delete i (sv_flight s)) sh)
    (mkLog (lg_scenario l) (lg_arrived l) (lg_done l ++ [(status (fl_fault x), t - fl_start x)]) (delete i (lg_flight l))).
Proof.
  intros [H1 H2 H3 H4] Hx. unfold scrape, expected in H3. injection H3 as I1 I2 I3 I4 I5 I6 I7 I8.
  set (l' := mkLog _ _ (lg_done l ++ _) _).
  assert (durations (record (sv_state s) (fl_start x) t (status (fl_fault x))) = observed l') as D.
  { unfold record, observed, l'. cbn [durations lg_done]. rewrite H4. unfold observed. rewrite !latest_fmap, fmap_app, list_fmap_singleton.
    by rewrite (latest_more window) by (unfold window; lia). }
  split; [done|cbn [sv_flight lg_flight l']; by rewrite H2| |exact D].
  unfold scrape, expected. cbn [sv_state]. rewrite D. cbn [dbPoolInUse dbPoolMax redisErrorsTotal paymentFailures httpStatusCounts record lg_arrived l'].
  rewrite I1, I2, I3, I4, I5. f_equal. unfold codes, l'. cbn [lg_done]. rewrite fmap_app. symmetry. apply tally_more.
Qed.
Lemma admin_stands s l name sh : stands s l ->
  stands (mkServer (activate (sv_state s) name) (sv_flight s) sh) (mkLog name (lg_arrived l) (lg_done l) (lg_flight l)) /\
  stands (mkServer (reset (sv_state s)) (sv_flight s) sh) (mkLog "" [] [] (lg_flight l)).
Proof.
  intros [H1 H2 H3 H4]. split; split; try done.
  unfold scrape, expected in *. injection H3 as _ I2 _ _ _ _ _ _. cbn [sv_state reset dbPoolMax]. by rewrite I2.
Qed.
Lemma shipper_stands s l sh : stands s l -> stands (mkServer (sv_state s) (sv_flight s) sh) l.
Proof. by intros [H1 H2 H3 H4]. Qed.

Lemma step_simulated s l ev s' r : stands s l -> Payments.step s ev = Some (s', r) -> exists l', step l ev = Some (l', r) /\ stands s' l'.
Proof.
  intros H. pose proof H as [H1 H2 H3 H4]. destruct ev as [method path body time|i t| |]; simpl.
  - intros [= E]. unfold Payments.handle in E. destruct (route method path body) as [ | |id| |b| | |target|]; simpl;
      try (injection E as <- <-; eexists; split; [reflexivity|]; done || apply (admin_stands s l "" _ H) || apply (admin_stands s l _ _ H)).
    1,2: destruct (applyScenario (sv_state s)) as [st' f] eqn:A; injection E as <- <-; eexists; split; [reflexivity|by apply arrival_stands].
    injection E as <- <-. eexists. by rewrite H3.
  - rewrite <- H2. destruct (sv_flight s !! i) as [x|] eqn:Hx; [|done]. destruct (_ <? _); [done|]. intros [= <- <-].
    eexists. split; [reflexivity|]. rewrite H2. rewrite <- H2. rewrite H2 at 2. by apply finish_stands.
  - destruct (sv_shipper s) as [sh|]; [|done]. destruct (receive sh) as [sh'|]; simpl; [|done]. intros [= <- <-].
    exists l. split; [done|by apply shipper_stands].
  - destruct (sv_shipper s) as [sh|]; [|done]. intros [= <- <-]. exists l. split; [done|by apply shipper_stands].
Qed.
Lemma run_simulated events : forall s l s' rs, stands s l -> Payments.run s events = Some (s', rs) ->
  exists l', run l events = Some (l', rs) /\ stands s' l'.
Proof.
  induction events as [|ev events IH]; intros s l s' rs H E; simpl in *; [injection E as <- <-; by exists l|].
  destruct (Payments.step s ev) as [[s1 r]|] eqn:E1; [|done]. destruct (step_simulated _ _ _ _ _ H E1) as (l1 & -> & H').
  destruct (Payments.run s1 events) as [[s2 rs']|] eqn:E2; [|done]. injection E as <- <-.
  by destruct (IH _ _ _ _ H' E2) as (l2 & -> & ?); exists l2.
Qed.
Lemma start_stands pushURL : stands (start pushURL) empty.
Proof. by split. Qed.
End PaymentsLog.

(** *** The shipper *)

Import Payments.

(** The line a request's end puts on the channel, if there is room. *)
Definition line_of (f : fault) (t : clocks) : lokiLine :=
  mkLine (level f) (ck_line t) (enc (JObj [("level", JStr (level f)); ("message", JStr (message f)); ("service", JStr "payments-api");
    ("trace_id", JStr ("trace-" +:+ itoa (ck_trace t)))])).
Definition taken (s : server) (ev : event) : list lokiLine :=
  match ev, sv_shipper s with
  | Finish i t, Some sh =>
      match sv_flight s !! i with
      | Some x => if (message (fl_fault x) =?s "") || negb (Nat.ltb (length (sh_lines sh)) channel) then [] else [line_of (fl_fault x) t]
      | None => []
      end
  | _, _ => []
  end.
Fixpoint accepted (s : server) (events : list event) : list lokiLine :=
  match events with
  | [] => []
  | ev :: events => match step s ev with Some (s', _) => taken s ev ++ accepted s' events | None => [] end
  end.

Definition contents (sh : shipper) : list lokiLine := concat (sh_posted sh) ++ sh_batch sh ++ sh_lines sh.
Definition posts_well (batch : list lokiLine) : Prop := (0 < length batch <= batch_size)%nat.
Record shipper_ok (sh : shipper) : Prop := {
  so_channel : (length (sh_lines sh) <= channel)%nat;
  so_batch : (length (sh_batch sh) < batch_size)%nat;
  so_posts : Forall posts_well (sh_posted sh);
}.

Lemma receive_ok sh sh' : shipper_ok sh -> receive sh = Some sh' -> shipper_ok sh' /\ contents sh' = contents sh.
Proof.
  intros [H1 H2 H3]. unfold receive, contents. destruct (sh_lines sh) as [|x lines]; [done|]. cbn [length] in H1. cbv zeta.
  destruct (Nat.ltb_spec (length (sh_batch sh ++ [x])) batch_size) as [L|L]; intros [= <-]; cbn [sh_posted sh_batch sh_lines].
  - split; [split; cbn [sh_posted sh_batch sh_lines]; [lia|done|done]|]. by rewrite <- (app_assoc (sh_batch sh)).
  - rewrite length_app in L. cbn [length] in L. split; [split; cbn [sh_posted sh_batch sh_lines]; [lia|cbn [length]; unfold batch_size; lia|]|].
    + apply Forall_app. split; [done|]. apply Forall_singleton. unfold posts_well. rewrite length_app. cbn [length]. lia.
    + rewrite concat_app. cbn [concat]. by rewrite app_nil_r, <- !app_assoc.
Qed.
Lemma on_tick_ok sh : shipper_ok sh -> shipper_ok (on_tick sh) /\ contents (on_tick sh) = contents sh.
Proof.
  intros [H1 H2 H3]. unfold on_tick, contents. destruct (sh_batch sh) as [|x batch] eqn:E.
  - split; [by split; rewrite ?E|by rewrite E].
  - cbn [sh_posted sh_batch sh_lines]. rewrite concat_app. cbn [concat]. rewrite app_nil_r, <- !app_assoc. split; [|done].
    split; cbn [sh_posted sh_batch sh_lines]; [done|cbn [length]; unfold batch_size; lia|]. apply Forall_app. split; [done|].
    apply Forall_singleton. unfold posts_well. cbn [length] in *. lia.
Qed.

Lemma step_ships s ev s' r sh : sv_shipper s = Some sh -> shipper_ok sh -> step s ev = Some (s', r) ->
  exists sh', sv_shipper s' = Some sh' /\ shipper_ok sh' /\ contents sh' = contents sh ++ taken s ev.
Proof.
  intros Hs Hok. unfold taken. rewrite Hs. destruct ev as [method path body time|i t| |]; simpl.
  - rewrite app_nil_r. intros [= E]. exists sh. unfold handle in E. destruct (route _ _ _); try (injection E as <- _; done).
    all: destruct (applyScenario _); injection E as <- _; done.
  - destruct (sv_flight s !! i) as [x|]; [|done]. destruct (_ <? _); [done|]. intros [= <- <-]. cbn [sv_shipper]. rewrite Hs.
    destruct (message (fl_fault x) =?s ""); simpl; [exists sh; by rewrite app_nil_r|].
    unfold logJSON, shipLog. destruct (Nat.ltb_spec (length (sh_lines sh)) channel) as [L|L]; simpl; [|exists sh; by rewrite app_nil_r].
    destruct Hok as [H1 H2 H3]. eexists. split; [reflexivity|]. split.
    + split; cbn [sh_posted sh_batch sh_lines]; [rewrite length_app; cbn [length]; lia|done|done].
    + unfold contents. cbn [sh_posted sh_batch sh_lines]. by rewrite <- !app_assoc.
  - rewrite Hs. destruct (receive sh) as [sh'|] eqn:E; [|done]. intros [= <- <-]. exists sh'. rewrite app_nil_r.
    split; [done|]. by apply receive_ok.
  - rewrite Hs. intros [= <- <-]. exists (on_tick sh). rewrite app_nil_r. split; [done|]. by apply on_tick_ok.
Qed.
Lemma run_ships events : forall s s' rs sh, sv_shipper s = Some sh -> shipper_ok sh -> run s events = Some (s', rs) ->
  exists sh', sv_shipper s' = Some sh' /\ shipper_ok sh' /\ contents sh' = contents sh ++ accepted s events.
Proof.
  induction events as [|ev events IH]; intros s s' rs sh Hs Hok E; simpl in *; [injection E as <- <-; exists sh; by rewrite app_nil_r|].
  destruct (step s ev) as [[s1 r]|] eqn:E1; [|done]. destruct (step_ships _ _ _ _ _ Hs Hok E1) as (sh1 & Hs1 & Hok1 & C1).
  destruct (run s1 events) as [[s2 rs']|] eqn:E2; [|done]. injection E as <- <-.
  destruct (IH _ _ _ _ Hs1 Hok1 E2) as (sh2 & H2 & Hok2 & C2). exists sh2. split_and!; [done|done|]. by rewrite C2, C1, app_assoc.
Qed.

(** The goroutine left alone posts what it holds. *)
Lemma drains n : forall s sh, sv_shipper s = Some sh -> length (sh_lines sh) = n ->
  exists s' rs sh', run s (replicate n Receive ++ [Tick]) = Some (s', rs) /\ sv_shipper s' = Some sh' /\ sh_lines sh' = [] /\ sh_batch sh' = [].
Proof.
  induction n as [|n IH]; intros s sh Hs Hn; simpl; rewrite Hs.
  - eexists _, _, (on_tick sh). split; [reflexivity|]. split; [done|]. unfold on_tick. apply nil_length_inv in Hn.
    by destruct (sh_batch sh) as [|x batch] eqn:E.
  - assert (exists sh', receive sh = Some sh' /\ length (sh_lines sh') = n) as (sh' & -> & Hn').
    { unfold receive. destruct (sh_lines sh) as [|x lines]; [done|]. injection Hn as Hn. eexists. split; [reflexivity|]. cbv zeta. by case_match. }
    destruct (IH (mkServer (sv_state s) (sv_flight s) (Some sh')) sh' eq_refl Hn') as (s2 & rs & sh2 & E & H2). simpl. rewrite E. by eexists _, _, sh2.
Qed.

Lemma idle_accepts s n : accepted s (replicate n Receive ++ [Tick]) = [].
Proof. revert s. induction n as [|n IH]; intros s; simpl; destruct (sv_shipper s) as [sh|]; try done. destruct (receive sh); simpl; [apply IH|done]. Qed.

(** A posted batch: each level has its own lines, in order. *)
Definition value_of (x : lokiLine) : string * string := (itoa (ll_at x), ll_line x).
Lemma byLevel_lines batch lv :
  byLevel batch !! lv = match filter (fun x => ll_level x = lv) batch with [] => None | lines => Some (value_of <$> lines) end.
Proof.
  unfold byLevel. induction batch as [|x batch IH] using rev_ind; [done|]. rewrite foldl_app, filter_app. cbn [foldl].
  destruct (decide (ll_level x = lv)) as [<-|Hne].
  - rewrite lookup_insert_eq, IH, filter_cons_True, filter_nil by done.
    destruct (filter (fun y => ll_level y = ll_level x) batch) as [|y lines]; [done|]. cbn [default app].
    change (y :: lines ++ [x]) with ((y :: lines) ++ [x]). by rewrite fmap_app.
  - by rewrite lookup_insert_ne, IH, filter_cons_False, filter_nil, app_nil_r by done.
Qed.

(** ** The injector and the rules *)

(** The scenario the injector sends is the one the service takes. *)
Lemma injected_scenario name : decode_scenario (enc (JObj [("scenario", JStr name)])) = name.
Proof. unfold decode_scenario, decode_object. by rewrite Decode_enc. Qed.

(** Each fault leaves the log line its correlation rule asks Loki for, and the
    exhausted pool passes the threshold of the rule's probe. *)
Definition log_text (name : string) : string := message (PaymentsLog.fault_of name).
Example faults_match_rules :
  Contains (log_text "postgres_connection_exhaustion") "connection acquisition timeout" &&
  Contains (log_text "redis_memory_pressure") "redis memory pressure" &&
  Contains (log_text "dependency_latency") "latency dominated" && Contains (log_text "bad_config_rollout") "config parse" = true /\
  (fun p => Compare (lit 95 100) (pr_comparator p) (pr_threshold p)) <$> head (rule_probes postgres_rule) = Some true.
Proof. split; vm_compute; reflexivity. Qed.

Example page_text :
  trimFloat <$> [lit 1 10; lit 25 10; lit 50 10; lit 1 (10 ^ 7); of_int (10 ^ 21)] = ["0.1"; "2.5"; "5"; "0.0000001"; "1000000000000000000000"].
Proof. vm_compute. reflexivity. Qed.

(** ** Claims *)

(** C31: the counters of the payments service stand for its requests. Under every
    interleaving of requests, activations, resets and scrapes, each reply is the one
    of a service that kept the full log since the last reset: a scrape shows one
    [http_requests_total] per status with the number of requests that ended with it,
    failures and redis errors for the requests that met those faults, a saturated pool
    once one did, and the duration histogram of the last 2000 requests. *)
Theorem payments_pages_match_log pushURL events s rs :
  run (start pushURL) events = Some (s, rs) -> exists l, PaymentsLog.run PaymentsLog.empty events = Some (l, rs).
Proof.
  intros H. destruct (PaymentsLog.run_simulated _ _ _ _ _ (PaymentsLog.start_stands pushURL) H) as (l & E & _). by exists l.
Qed.

Definition keeps_log (ev : event) : Prop := match ev with Arrive method path body _ => route method path body <> Reset | _ => True end.

Lemma step_full s ev s' r : length (durations (sv_state s)) = window -> keeps_log ev -> step s ev = Some (s', r) ->
  length (durations (sv_state s')) = window /\ forall p, r = Some (RMetrics p) -> sc_count p = Z.of_nat window.
Proof.
  intros Hn Hk E. destruct ev as [method path body time|i t| |]; simpl in *.
  - injection E as E. unfold handle in E. destruct (route method path body); try done; try (injection E as <- <-; done).
    1,2: unfold applyScenario in E; repeat case_match; simplify_eq; by simpl.
    injection E as <- <-. split; [done|]. intros p [= <-]. simpl. by rewrite Hn.
  - destruct (sv_flight s !! i) as [x|]; [|done]. destruct (_ <? _); [done|]. injection E as <- <-. split; [|done].
    cbn [sv_state record durations]. rewrite length_app, Hn. cbn [length]. rewrite (proj2 (Nat.ltb_lt _ _)) by lia.
    rewrite length_drop, length_app, Hn. cbn [length]. lia.
  - destruct (sv_shipper s) as [sh|]; [|done]. destruct (receive sh); simpl in E; [|done]. by injection E as <- <-.
  - destruct (sv_shipper s) as [sh|]; [|done]. by injection E as <- <-.
Qed.

(** The latency histogram stops counting. Once 2000 requests have ended, every
    later scrape reports 2000 observations, however many requests follow, until a
    reset: the total of the histogram no longer grows, while Prometheus reads growth
    as the number of requests. *)
Theorem latency_counters_stop s events s' rs :
  length (durations (sv_state s)) = window -> Forall keeps_log events -> run s events = Some (s', rs) ->
  forall p, Some (RMetrics p) ∈ rs -> sc_count p = 2000.
Proof.
  revert s rs. induction events as [|ev events IH]; intros s rs Hn Hk E p Hp; simpl in E; [injection E as <- <-; by apply elem_of_nil in Hp|].
  apply Forall_cons in Hk as [Hk1 Hk2]. destruct (step s ev) as [[s1 r]|] eqn:E1; [|done].
  destruct (run s1 events) as [[s2 rs']|] eqn:E2; [|done]. injection E as <- <-. destruct (step_full _ _ _ _ Hn Hk1 E1) as [Hn1 Hr].
  apply elem_of_cons in Hp as [Hp|Hp]; [by apply Hr|]. by eapply IH.
Qed.


(** ** Witnesses *)

Definition work (i : nat) (t : Z) : list event :=
  [Arrive "POST" "/payments" "" t; Finish i (mkClocks (t + 2 * second) (t + 2 * second) (t + 2 * second) (t + 2 * second))].
Definition demo_events : list event :=
  [Arrive "POST" "/admin/scenarios/activate" (enc (JObj [("scenario", JStr "postgres_connection_exhaustion")])) 0] ++
  work 0 0 ++ work 0 (3 * second) ++ [Receive; Arrive "GET" "/metrics" "" 0].

Lemma payments_pages_match_log_witness : exists s rs l, run (start "http://loki") demo_events = Some (s, rs) /\
  PaymentsLog.run PaymentsLog.empty demo_events = Some (l, rs) /\ length (PaymentsLog.lg_done l) = 2%nat.
Proof.
  assert (is_Some (run (start "http://loki") demo_events)) as [[s rs] E] by (vm_compute; eauto).
  destruct (payments_pages_match_log _ _ _ _ E) as [l H]. exists s, rs, l. split; [exact E|]. split; [exact H|].
  assert ((fun p => length (PaymentsLog.lg_done p.1)) <$> PaymentsLog.run PaymentsLog.empty demo_events = Some 2%nat) as L by (vm_compute; reflexivity).
  rewrite H in L. by injection L.
Defined.

(** A service with a full window. *)
Definition full : server := mkServer (mkState "" ∅ (replicate window (lit 4 100)) 0 100 0 0) [] None.
Lemma latency_counters_stop_witness : exists s rs, run full (work 0 0 ++ [Arrive "GET" "/metrics" "" 0]) = Some (s, rs) /\
  forall p, Some (RMetrics p) ∈ rs -> sc_count p = 2000.
Proof.
  assert (is_Some (run full (work 0 0 ++ [Arrive "GET" "/metrics" "" 0]))) as [[s rs] E] by (vm_compute; eauto).
  exists s, rs. split; [exact E|]. refine (latency_counters_stop full _ s rs _ _ E).
  - apply length_replicate.
  - repeat apply Forall_cons_2; try exact I; try (vm_compute; discriminate). apply Forall_nil_2.
Defined.

